(* ===== verification/_CoqProject ===== *)
-Q . S2P
Prelude.v
Memory.v
Ctype.v
Strings.v
Div64.v
Vsprintf.v
Crc.v
Circbuf.v
Memsize.v
Lmb.v
Flash.v
FlashCmd.v
Env.v
EnvFlash.v
SRecord.v
Image.v
Dm9000.v
Net.v
Tftp.v
Nfs.v
Bootp.v
NetLoop.v
Ethernet.v
Kermit.v
Loads.v
Ymodem.v
Loadb.v
Fdt.v
Hash.v
Fit.v
Readline.v
Command.v
Complete.v
MemCmd.v
Bootm.v
Script.v
