(* ===== verification/Prelude.v ===== *)
(** * Verification of the DE2-70 OpenRISC boot loader

    The repository is a system on chip for the DE2-70 board: an OpenRISC
    OR1200 with its peripherals in Verilog, and the software that runs on it.
    The software's own core is the boot loader, U-Boot 2009.03 as configured
    for the board [de2_ep2c70_or1k]; paths below are relative to
    src/sw/u-boot-2009.03-orsoc-de2-2c70/.  The target is 32-bit and
    big-endian; the options are those of
    include/configs/de2_ep2c70_or1k.h (environment in flash, legacy and FIT
    images, S-record loader, TFTP over a DM9000, no watchdog, one network
    interface).

    ** How the program works, and which file models what

    After reset the loader sizes the RAM, reads the environment from flash,
    and obeys commands: it changes variables and saves them, fetches a kernel
    over the network or the serial line, checks the image, copies it to
    the address it runs at and starts it.

    - [Prelude]: machine integers with their wrap-around, big-endian codecs,
      error results, loops with fuel, the development's tactics and hints.
    - [Memory]: the byte memory that the C routines share, with aliasing.
    - [Ctype], [Strings], [Div64], [Vsprintf]: lib_generic/ctype.c, string.c,
      div64.c and vsprintf.c, the routines every other part calls.
    - [Crc]: lib_generic/crc32.c and crc16.c.
    - [Circbuf]: common/circbuf.c, the bounded queue of the USB console.
    - [Memsize]: common/memsize.c, the RAM probe.
    - [Lmb]: lib_generic/lmb.c, the two region tables [bootm] allocates from.
    - [Flash]: common/flash.c, the sector functions of common/cmd_flash.c and
      the board's driver board/sdust/common/S29GL064A_04.c.  The driver is
      written against a class of bus operations; the data sheet's promises
      are a second class, and [NorChip] is a chip that keeps them.
      [FlashCmd]: the commands of common/cmd_flash.c.
    - [Env]: common/env_common.c and common/cmd_nvedit.c; [EnvFlash]:
      common/env_flash.c, which joins [Env] with [Flash].
    - [SRecord]: common/s_record.c.
    - [Image]: include/image.h, the legacy-image part of common/image.c, the
      checks and the load step of common/cmd_bootm.c, and the image that
      tools/mkimage.c writes.
    - [Dm9000]: drivers/net/dm9000x.c, the Ethernet driver, against a class of
      bus operations and one of the chip's promises; [DmChip] keeps them.
    - [Net]: net/net.c, the stack from Ethernet to UDP; [Tftp]: net/tftp.c
      and the loop as it sees it; [Nfs]: net/nfs.c with the calls of the port
      mapper, the mount and the file protocol; [Bootp]: net/bootp.c, which is
      the DHCP client in this configuration, and the record [machine] that
      holds everything a command changes; [NetLoop]: the loop of net/net.c
      with every client, net/rarp.c and the commands of common/cmd_net.c;
      [Ethernet]: the loop with the driver below it.
    - [Kermit], [Loads], [Ymodem], [Loadb]: common/cmd_load.c and
      common/xyzModem.c, the commands that load a file over the serial line.
      The line is a list of events, characters and pauses; what the loader
      sends back is a list of characters.
    - [Fdt]: libfdt/fdt.c and fdt_ro.c, the reading of a device tree; [Hash]:
      lib_generic/sha1.c and md5.c; [Fit]: the FIT part of common/image.c,
      which uses both.
    - [Readline]: the line editor of common/main.c; [Command]: the search in
      the command table and the commands of common/command.c, and the boot
      delay of common/main.c; [Complete]: the completion of a command line in
      common/command.c; [MemCmd]: common/cmd_mem.c, which joins the line
      editor, the flash driver and the checksum.
    - [Bootm]: common/cmd_bootm.c, the RAM disk part of common/image.c,
      lib_or1k/bootm.c and cpu/or1k/cpu.c, the command that joins [Image],
      [Fit], [Lmb] and [Env]; [Script]: common/cmd_autoscript.c.

    Functions keep their C names.  A C [struct] is a record, a pointer into
    memory an address, a status code the integer the code returns.  State
    that the code keeps in globals is a record threaded through.

    ** What the theorems show

    - The environment: the byte array refines a list of name-value pairs;
      [getenv] is lookup, [setenv] update or removal with its overflow error
      ([getenv_refines], [setenv_refines], [setenv_getenv]); start-up falls
      back to the defaults exactly when the CRC is wrong ([env_boot]); what
      [saveenv] writes is what the next boot reads ([saveenv_roundtrip]).
    - Flash: erasing and programming change exactly the sectors and bytes
      named, given the data sheet's promises, and end within the polls it
      bounds; a command works on the sectors its arguments name
      ([erase_erases]), and protected sectors survive it
      ([protected_survives]).
    - Images: what mkimage writes is accepted and read back, any change of
      one byte is rejected, the parts of a multi-file image are found, and
      the load step copies the data or reports the overlap.
    - FIT images: the tree routines find what the encoded tree has
      ([fdt_reads_tree]); a component is accepted exactly when every digest it
      carries is right ([fit_hashes_checked]); the digests are those of the
      standards ([sha1_is_fips], [md5_is_rfc]).
    - Booting: a kernel of either format is loaded, reserved and started
      ([bootm_boots_legacy], [bootm_boots_fit]), never without the checks
      ([bootm_checks_first]), at once or in stages ([staged_boot]); a script
      is run as written or refused ([autoscript_runs]).
    - Lmb: the tables stay sorted and gapped; adding and freeing change the
      covered set by the range named; an allocation is aligned, in memory and
      clear of every reservation.
    - Network: a datagram sent is delivered; one held back for ARP leaves on
      the reply as it would have left at once; damage to an IP header is
      dropped; addresses round-trip through text.  The driver transmits the
      frame it is given ([eth_send_transmits]) and hands on the frames
      received, in order ([eth_rx_delivers]), so that a turn of the loop on
      the chip is a turn on the list of its frames ([turn_receives]).
    - TFTP: whatever arrives, in-order blocks end up at the load address and
      the transfer ends with the last one, across the wrap of the 16-bit
      block number; a silent server is given up after the retry count; the
      option negotiation and the acknowledgements are as RFC 1350 and 2348
      have them.
    - NFS: with a server that answers as the protocols have it, the whole
      file is loaded and the directory unmounted ([nfs_transfer]); a server
      that falls silent leaves the client waiting ([nfs_silent_server]).
    - DHCP: the option parser refines the reading of a list of options and
      keeps its buffers terminated whatever the bytes are
      ([dhcp_options_refine], [dhcp_options_safe]); the states a client
      reaches, under any frames and timeouts, are the protocol's
      ([dhcp_reachable]); an offer and an acknowledgement bind the address
      ([dhcp_binds]).
    - The loop and the commands: what a protocol has learnt reaches the next
      command through the environment ([netboot_env_roundtrip]); on TFTP the
      loop of all protocols is the one of [Tftp] ([tftp_loop_refines]).
    - Serial loaders: a file sent by Kermit, Y-modem or as S-records ends up
      where it belongs and its size in the environment; damaged packets are
      asked for again and change nothing; a reader always ends, and a line
      that is silent is given up.
    - The command line: the buffer is that of an editor on lists and the
      terminal shows it ([readline_refines], [readline_screen]); what is
      completed is common to all candidates ([completion_sound]); a command is
      found by its name or its only abbreviation ([find_cmd_spec]); [test]
      evaluates from left to right ([do_test_evaluates]); the boot command
      runs when no key is pressed in time ([autoboot_runs]).
    - Memory commands: filling, copying, comparing, displaying and modifying
      touch exactly the objects named; the memory test finds every stuck bit,
      though it does not report it in its result.
    - The libraries: CRC tables equal their polynomial and CRCs detect
      single-byte errors; division is Euclidean; printing and parsing of
      numbers round-trip; copies are right under any overlap; the S-record
      decoder inverts an encoder and respects the caller's buffer; the queue
      keeps the newest bytes in order; the RAM probe returns the real size.

    Lemmas under "what the hypotheses exclude" or "at the edges" evaluate the
    definitions on inputs where the code does something its comments do not
    promise.

    ** Bounds and fuel

    A loop over a counter recurses on the counter.  A loop that ends at a
    NUL, a flag or a device answer takes fuel; every theorem about such a
    function states that it returns a result once the fuel exceeds a bound
    that it names: the string's length, [CONFIG_ENV_SIZE] for the
    environment, the polls the chip's class bounds, the number of regions
    for the allocator, the blob's size for a tree, 33 for the division.  The network loop never ends by
    itself; it is a function of the list of its turns.

    ** Not modelled

    Text printed on the console, cache maintenance (the caches are off) and
    the trace that common/xyzModem.c keeps when DEBUG is defined.
    Not part of the board's configuration: multicast TFTP, SNTP, CDP,
    redundant environments, FIT signatures, other boards and file systems.
    Third-party code: zlib (a parameter of [bootm_load_os]), bzip2 and
    dlmalloc ([malloc] is a parameter); the Linux kernel and BusyBox under
    src/sw; the Verilog.  SHA-256 is not configured.
    The serial port is three register polls without state, and the console
    of this board only passes characters to it: the start-up never sets the
    device table (common/devices.c) up.  The assembly start-up and the order
    of initialisation set hardware registers.  The user programs under src/sw
    poll registers.
    The hush shell (common/hush.c, from BusyBox) is not modelled: what it is
    given to run is the result of [Command] and [Script].  The plain parser
    of common/main.c is not called when hush is configured.

    ** Extending it

    The shell and the allocator are the parts of the loader with a state of
    their own that have no file yet; both meet the development at a
    parameter, so that a model of either instantiates what is there. *)

From stdpp Require Export prelude.
From Stdlib Require Export ZArith Lia.
From Stdlib Require Ascii String.
Export String.StringSyntax.

Local Open Scope Z_scope.

(** ** Machine integers

    A [w]-bit C integer is a [Z]; the wrap-around the compiler emits is
    written out with these functions. *)

Definition wrap (w x : Z) : Z := x mod 2 ^ w.

Definition swrap (w x : Z) : Z := (x + 2 ^ (w - 1)) mod 2 ^ w - 2 ^ (w - 1).

Abbreviation u8 := (wrap 8).
Abbreviation u16 := (wrap 16).
Abbreviation u32 := (wrap 32).
Abbreviation u64 := (wrap 64).
Abbreviation s8 := (swrap 8).
Abbreviation s32 := (swrap 32).

(** [len l]: the length of an array as the C code counts it. *)
Abbreviation len l := (Z.of_nat (length l)).

(** [byte v]: [v] is the value of an [unsigned char]. *)
Definition byte (v : Z) : Prop := 0 <= v < 256.

#[export] Instance byte_decision v : Decision (byte v).
Proof. unfold byte. apply _. Defined.

(** An array read whose out-of-range value no theorem relies on. *)
Definition nthZ (l : list Z) (i : Z) : Z := nth (Z.to_nat i) l 0.

(** The bytes of a string literal, without its NUL. *)
Definition str (s : String.string) : list Z :=
  map (fun c => Z.of_N (Ascii.N_of_ascii c)) (String.list_ascii_of_string s).
Arguments str s%_string_scope.

(** C truth of an [int] expression. *)
Definition truth (v : Z) : bool := negb (v =? 0).

(** ** Loops

    A C loop is a body on the loop's local state that either yields the next
    state ([inl]) or leaves the loop with a result ([inr]).  [None] means the
    fuel ran out, never an error of the code. *)

Fixpoint loop {S R : Type} (body : S -> S + R) (fuel : nat) (s : S) : option R :=
  match fuel with
  | O => None
  | Datatypes.S f =>
      match body s with
      | inl s' => loop body f s'
      | inr r => Some r
      end
  end.

(** [for_n f n s]: [n] iterations of a body that cannot leave early. *)
Fixpoint for_n {S : Type} (f : S -> S) (n : nat) (s : S) : S :=
  match n with
  | O => s
  | Datatypes.S n' => for_n f n' (f s)
  end.

(** ** Big-endian integers in byte arrays (the byte order of the OpenRISC
    and of the network) *)

Fixpoint be_bytes (n : nat) (v : Z) : list Z :=
  match n with
  | O => []
  | S n' => u8 (Z.shiftr v (8 * Z.of_nat n')) :: be_bytes n' v
  end.

Definition be_val (bs : list Z) : Z := fold_left (fun acc b => acc * 256 + b) bs 0.

(** ** Error results *)

Inductive result (E A : Type) : Type :=
| Ok (a : A)
| Err (e : E).
Arguments Ok {E A} a.
Arguments Err {E A} e.

Declare Scope dsd_scope.
Delimit Scope dsd_scope with dsd.

Notation "'let!' x ':=' c 'in' k" :=
  (match c with Ok x => k | Err e => Err e end)
  (at level 10, x pattern, c at level 200, k at level 200)
  : dsd_scope.

(** ** Tactics *)

(** Turn boolean integer tests of hypotheses and goal into propositions. *)
Ltac zb :=
  repeat match goal with
  | H : andb _ _ = true |- _ => apply andb_true_iff in H; destruct H
  | H : andb _ _ = false |- _ => apply andb_false_iff in H
  | H : orb _ _ = false |- _ => apply orb_false_iff in H; destruct H
  | H : orb _ _ = true |- _ => apply orb_true_iff in H
  | H : negb _ = true |- _ => apply negb_true_iff in H
  | H : negb _ = false |- _ => apply negb_false_iff in H
  | H : (_ =? _)%Z = true |- _ => apply Z.eqb_eq in H
  | H : (_ =? _)%Z = false |- _ => apply Z.eqb_neq in H
  | H : (_ <? _)%Z = true |- _ => apply Z.ltb_lt in H
  | H : (_ <? _)%Z = false |- _ => apply Z.ltb_ge in H
  | H : (_ <=? _)%Z = true |- _ => apply Z.leb_le in H
  | H : (_ <=? _)%Z = false |- _ => apply Z.leb_gt in H
  | H : (_ >? _)%Z = _ |- _ => rewrite Z.gtb_ltb in H
  | H : (_ >=? _)%Z = _ |- _ => rewrite Z.geb_leb in H
  end.

(** Case on every integer test the goal branches on. *)
Ltac zcase :=
  match goal with
  | |- context [(?a =? ?b)%Z] => destruct (Z.eqb_spec a b)
  | |- context [(?a <? ?b)%Z] => destruct (Z.ltb_spec a b)
  | |- context [(?a <=? ?b)%Z] => destruct (Z.leb_spec a b)
  | |- context [(?a >? ?b)%Z] => rewrite (Z.gtb_ltb a b)
  | |- context [(?a >=? ?b)%Z] => rewrite (Z.geb_leb a b)
  end.

Ltac zcases := repeat zcase.

(** Close [Forall byte l] for a concrete list by evaluation. *)
Ltac bytes_eval := apply (bool_decide_eq_true_1 (Forall byte _)); vm_compute; reflexivity.

(** Decide a proposition on concrete data by evaluation. *)
Ltac by_eval := apply (bool_decide_eq_true_1 _); vm_compute; reflexivity.

(** Unfold the wrap-around and decide with the quotient equations. *)
Ltac wrap_lia := unfold wrap, swrap in *; Z.div_mod_to_equations; lia.

(** ** Lemmas on machine integers *)

Create HintDb dsd.
Create Rewrite HintDb dsd.

Lemma wrap_range w x : 0 <= w -> 0 <= wrap w x < 2 ^ w.
Proof. intros. apply Z.mod_pos_bound. lia. Qed.

Lemma wrap_small w x : 0 <= x < 2 ^ w -> wrap w x = x.
Proof. intros. by apply Z.mod_small. Qed.

Lemma wrap_wrap w x : wrap w (wrap w x) = wrap w x.
Proof. apply Zmod_mod. Qed.

Lemma wrap_add_l w x y : wrap w (wrap w x + y) = wrap w (x + y).
Proof. apply Zplus_mod_idemp_l. Qed.

Lemma wrap_add_r w x y : wrap w (x + wrap w y) = wrap w (x + y).
Proof. apply Zplus_mod_idemp_r. Qed.

Lemma wrap_mul_l w x y : wrap w (wrap w x * y) = wrap w (x * y).
Proof. apply Zmult_mod_idemp_l. Qed.

Lemma wrap_land_ones w x : 0 <= w -> wrap w x = Z.land x (Z.ones w).
Proof. intros. by rewrite Z.land_ones. Qed.

Lemma wrap_testbit w x i : 0 <= w -> 0 <= i ->
  Z.testbit (wrap w x) i = (i <? w) && Z.testbit x i.
Proof.
  intros. rewrite wrap_land_ones, Z.land_spec by done.
  zcases; [rewrite Z.ones_spec_low by lia | rewrite Z.ones_spec_high by lia];
    by destruct (Z.testbit x i).
Qed.

Lemma byte_u8 x : byte (u8 x).
Proof. apply (wrap_range 8). lia. Qed.

Lemma u8_byte x : byte x -> u8 x = x.
Proof. intros. by apply wrap_small. Qed.

(** A decidable fact about every byte value. *)
Lemma byte_cases (f : Z -> bool) : forallb f (seqZ 0 256) = true -> forall c, byte c -> f c = true.
Proof.
  rewrite forallb_forall. intros H c Hc. apply H. rewrite <- list_elem_of_In, elem_of_seqZ. unfold byte in Hc. lia.
Qed.

Lemma testbit_small w x i : 0 <= x < 2 ^ w -> 0 <= w <= i -> Z.testbit x i = false.
Proof.
  intros Hx Hi. rewrite <- (wrap_small w x) by done.
  rewrite wrap_testbit by lia. zcases; [lia | done].
Qed.

Lemma lxor_range w x y : 0 <= w -> 0 <= x < 2 ^ w -> 0 <= y < 2 ^ w ->
  0 <= Z.lxor x y < 2 ^ w.
Proof.
  intros Hw Hx Hy. rewrite <- (wrap_small w x), <- (wrap_small w y) by done.
  replace (Z.lxor (wrap w x) (wrap w y)) with (wrap w (Z.lxor x y));
    [by apply wrap_range |].
  apply Z.bits_inj'. intros i Hi.
  rewrite Z.lxor_spec, !wrap_testbit, Z.lxor_spec by done. by zcases.
Qed.

Lemma lor_range w x y : 0 <= w -> 0 <= x < 2 ^ w -> 0 <= y < 2 ^ w ->
  0 <= Z.lor x y < 2 ^ w.
Proof.
  intros Hw Hx Hy. rewrite <- (wrap_small w x), <- (wrap_small w y) by done.
  replace (Z.lor (wrap w x) (wrap w y)) with (wrap w (Z.lor x y));
    [by apply wrap_range |].
  apply Z.bits_inj'. intros i Hi.
  rewrite Z.lor_spec, !wrap_testbit, Z.lor_spec by done. by zcases.
Qed.

Lemma land_range w x y : 0 <= w -> 0 <= x -> 0 <= y < 2 ^ w -> 0 <= Z.land x y < 2 ^ w.
Proof.
  intros Hw Hx Hy. rewrite <- (wrap_small w y) by done.
  replace (Z.land x (wrap w y)) with (wrap w (Z.land x y)); [by apply wrap_range |].
  apply Z.bits_inj'. intros i Hi.
  rewrite Z.land_spec, !wrap_testbit, Z.land_spec by done. by zcases; destruct (Z.testbit x i).
Qed.

(** A disjoint [or] is an addition. *)
Lemma lor_add_disjoint a b : Z.land a b = 0 -> Z.lor a b = a + b.
Proof. intros H. by rewrite <- Z.lxor_lor, <- Z.add_nocarry_lxor. Qed.

#[export] Hint Resolve wrap_range byte_u8 : dsd.
#[export] Hint Rewrite wrap_wrap wrap_add_l wrap_add_r wrap_mul_l : dsd.

(** ** Loop rules *)

Section loop_rules.
Context {S R : Type} (body : S -> S + R).

Lemma loop_mono f f' s r : loop body f s = Some r -> (f <= f')%nat -> loop body f' s = Some r.
Proof.
  revert f' s. induction f as [|f IH]; intros f' s H Hle; [done |].
  destruct f' as [|f']; [lia |]. simpl in *.
  destruct (body s); [apply IH; [done | lia] | done].
Qed.

(** Total correctness: an invariant indexed by a decreasing measure, and
    enough fuel for the measure, give a result. *)
Lemma loop_total (P : nat -> S -> Prop) (Q : R -> Prop) :
  (forall n s, P n s ->
     match body s with
     | inl s' => exists n', (n' < n)%nat /\ P n' s'
     | inr r => Q r
     end) ->
  forall n s f, P n s -> (n < f)%nat -> exists r, loop body f s = Some r /\ Q r.
Proof.
  intros Hstep n s f. revert n s. induction f as [|f IH]; intros n s HP Hf; [lia |].
  simpl. specialize (Hstep n s HP). destruct (body s) as [s' | r]; [| eauto].
  destruct Hstep as (n' & Hn & HP'). apply (IH n'); [done | lia].
Qed.

(** Partial correctness: what an invariant says of any result. *)
Lemma loop_partial (P : S -> Prop) (Q : R -> Prop) :
  (forall s, P s -> match body s with inl s' => P s' | inr r => Q r end) ->
  forall f s r, P s -> loop body f s = Some r -> Q r.
Proof.
  intros Hstep f. induction f as [|f IH]; intros s r HP Hl; [done |].
  simpl in Hl. specialize (Hstep s HP). destruct (body s); [eauto |].
  by simplify_eq.
Qed.
End loop_rules.

Lemma for_n_ind {S} (f : S -> S) (P : nat -> S -> Prop) n s :
  P O s -> (forall k x, (k < n)%nat -> P k x -> P (Datatypes.S k) (f x)) -> P n (for_n f n s).
Proof.
  revert s P. induction n as [|n IH]; intros s P H0 Hs; simpl; [done |].
  apply (IH (f s) (fun k x => P (Datatypes.S k) x)).
  - apply Hs; [lia | done].
  - intros k x Hk. apply Hs. lia.
Qed.

Lemma for_n_add {S} (f : S -> S) n m s : for_n f (n + m) s = for_n f m (for_n f n s).
Proof. revert s. induction n as [|n IH]; intros s; simpl; [done | apply IH]. Qed.

Lemma for_n_succ {S} (f : S -> S) n s : for_n f (Datatypes.S n) s = f (for_n f n s).
Proof. rewrite <- Nat.add_1_r, for_n_add. done. Qed.

(** ** Big-endian codec *)

Lemma be_bytes_length n v : length (be_bytes n v) = n.
Proof. induction n; simpl; congruence. Qed.

Lemma be_bytes_bytes n v : Forall byte (be_bytes n v).
Proof. induction n; simpl; constructor; auto with dsd. Qed.

Lemma be_val_app bs cs : be_val (bs ++ cs) = be_val bs * 256 ^ len cs + be_val cs.
Proof.
  unfold be_val. rewrite fold_left_app. generalize (fold_left (fun acc b => acc * 256 + b) bs 0).
  induction cs as [|c cs IH] using rev_ind; intros a; [simpl; lia |].
  rewrite !fold_left_app, length_app. simpl. rewrite IH.
  replace (Z.of_nat (length cs + 1)) with (len cs + 1) by lia.
  rewrite Z.pow_add_r by lia. lia.
Qed.

Lemma be_val_range bs : Forall byte bs -> 0 <= be_val bs < 256 ^ len bs.
Proof.
  induction bs as [|b bs IH] using rev_ind; intros H; [done |].
  apply Forall_app in H as [H1 H2]. apply Forall_cons_1 in H2 as [Hb _].
  specialize (IH H1). rewrite be_val_app, length_app. unfold byte in Hb.
  change (be_val [b]) with (0 * 256 + b). simpl length.
  replace (Z.of_nat (length bs + 1)) with (len bs + 1) by lia.
  rewrite Z.pow_add_r by lia. change (256 ^ len [b]) with 256. lia.
Qed.

Lemma be_val_bytes n v : be_val (be_bytes n v) = wrap (8 * Z.of_nat n) v.
Proof.
  induction n as [|n IH]; [symmetry; apply Z.mod_1_r |].
  change (be_bytes (S n) v) with ([u8 (Z.shiftr v (8 * Z.of_nat n))] ++ be_bytes n v).
  rewrite be_val_app, IH, be_bytes_length.
  change (be_val [?x]) with (0 * 256 + x). unfold wrap.
  rewrite Z.shiftr_div_pow2 by lia.
  replace (8 * Z.of_nat (S n)) with (8 * Z.of_nat n + 8) by lia.
  rewrite Z.pow_add_r, Z.rem_mul_r by lia.
  replace (256 ^ Z.of_nat n) with (2 ^ (8 * Z.of_nat n)) by (by rewrite Z.pow_mul_r by lia).
  change (2 ^ 8) with 256. lia.
Qed.

Lemma be_bytes_wrap n w v : 8 * Z.of_nat n <= w -> be_bytes n (wrap w v) = be_bytes n v.
Proof.
  intros Hw. induction n as [|n IH]; [done |]. simpl. f_equal; [| apply IH; lia].
  apply Z.bits_inj'. intros i Hi. rewrite !wrap_testbit, !Z.shiftr_spec by lia.
  zcases; [| done]. simpl. rewrite wrap_testbit by lia. by zcases; [| lia].
Qed.

Lemma be_bytes_snoc n v : be_bytes (S n) v = be_bytes n (Z.shiftr v 8) ++ [u8 v].
Proof.
  induction n as [|n IH]; [done |].
  change (be_bytes (S (S n)) v) with (u8 (Z.shiftr v (8 * Z.of_nat (S n))) :: be_bytes (S n) v).
  rewrite IH. simpl. rewrite Z.shiftr_shiftr by lia. repeat f_equal. lia.
Qed.

Lemma be_bytes_val bs : Forall byte bs -> be_bytes (length bs) (be_val bs) = bs.
Proof.
  induction bs as [|b bs IH] using rev_ind; intros H; [done |].
  apply Forall_app in H as [H1 H2]. apply Forall_cons_1 in H2 as [Hb _].
  rewrite length_app, Nat.add_1_r, be_bytes_snoc, be_val_app. unfold byte in Hb.
  change (256 ^ len [b]) with 256. change (be_val [b]) with (0 * 256 + b).
  rewrite Z.shiftr_div_pow2 by lia. change (2 ^ 8) with 256.
  replace ((be_val bs * 256 + (0 * 256 + b)) / 256) with (be_val bs)
    by (Z.div_mod_to_equations; lia).
  rewrite IH by done. do 2 f_equal. wrap_lia.
Qed.

(** ** Prefixes of a list selected by a test *)

Fixpoint take_while {A} (p : A -> bool) (l : list A) : list A :=
  match l with
  | [] => []
  | x :: l' => if p x then x :: take_while p l' else []
  end.

Fixpoint drop_while {A} (p : A -> bool) (l : list A) : list A :=
  match l with
  | [] => []
  | x :: l' => if p x then drop_while p l' else l
  end.

Lemma take_drop_while {A} (p : A -> bool) l : take_while p l ++ drop_while p l = l.
Proof. induction l as [|x l IH]; simpl; [done |]. destruct (p x); simpl; congruence. Qed.

Lemma drop_while_length {A} (p : A -> bool) l : (length (drop_while p l) <= length l)%nat.
Proof. induction l as [|x l IH]; simpl; [lia |]. destruct (p x); simpl; lia. Qed.

Lemma take_while_Forall {A} (p : A -> bool) l : Forall (fun x => p x = true) (take_while p l).
Proof. induction l as [|x l IH]; simpl; [done |]. destruct (p x) eqn:E; auto. Qed.

Lemma drop_while_head {A} (p : A -> bool) l x r : drop_while p l = x :: r -> p x = false.
Proof.
  induction l as [|y l IH]; simpl; [done |]. destruct (p y) eqn:E; [done |]. by intros [= -> ->].
Qed.

Lemma drop_while_drop {A} (p : A -> bool) l :
  drop_while p l = drop (length (take_while p l)) l.
Proof. rewrite <- (take_drop_while p l) at 3. by rewrite drop_app_length. Qed.

Lemma Forall_drop_while {A} (P : A -> Prop) (p : A -> bool) l :
  Forall P l -> Forall P (drop_while p l).
Proof. rewrite drop_while_drop. apply Forall_drop. Qed.
