(* ===== verification/Memory.v ===== *)
(** * The byte memory the C routines read and write

    Addresses are [Z]; a [char *] is the address it holds and [NULL] is 0.
    A memory is a total function to byte values, so that two overlapping
    arrays alias as they do in C.  Pointer arithmetic that leaves the address
    space is undefined in C and is not wrapped here. *)

From S2P Require Import Prelude.

Local Open Scope Z_scope.

Definition mem : Type := Z -> Z.

Definition store (m : mem) (a v : Z) : mem := fun x => if x =? a then v else m x.

(** [load m a n]: the [n] bytes at [a], as an array value. *)
Fixpoint load (m : mem) (a : Z) (n : nat) : list Z :=
  match n with
  | O => []
  | S n' => m a :: load m (a + 1) n'
  end.

Fixpoint store_list (m : mem) (a : Z) (l : list Z) : mem :=
  match l with
  | [] => m
  | v :: l' => store_list (store m a v) (a + 1) l'
  end.

(** Big-endian reads, as the OpenRISC makes them. *)
Definition get16 (m : mem) (a : Z) : Z := be_val (load m a 2).
Definition get32 (m : mem) (a : Z) : Z := be_val (load m a 4).

(** [cstr m a s]: the NUL-terminated string at [a] is [s]. *)
Definition cstr (m : mem) (a : Z) (s : list Z) : Prop :=
  load m a (length s) = s /\ m (a + len s) = 0 /\ Forall (fun c => c <> 0) s.

(** Every cell holds a byte. *)
Definition byte_mem (m : mem) : Prop := forall a, byte (m a).

(** Memories with the same contents. *)
Definition meq (m m' : mem) : Prop := forall a, m a = m' a.

(** [same_on P m m']: the two memories agree on the addresses of [P]. *)
Definition same_on (P : Z -> Prop) (m m' : mem) : Prop := forall a, P a -> m a = m' a.

#[export] Instance meq_equivalence : Equivalence meq.
Proof.
  split; [by intros m a | intros m m' H a; by rewrite H |].
  intros m1 m2 m3 H1 H2 a. by rewrite H1, H2.
Qed.

#[export] Instance store_proper : Proper (meq ==> eq ==> eq ==> meq) store.
Proof. intros m m' H a ? <- v ? <- x. unfold store. by rewrite (H x). Qed.

#[export] Instance load_proper : Proper (meq ==> eq ==> eq ==> eq) load.
Proof.
  intros m m' H a ? <- n ? <-. revert a. induction n as [|n IH]; intros a; simpl; [done |].
  by rewrite (H a), IH.
Qed.

#[export] Instance cstr_proper : Proper (meq ==> eq ==> eq ==> iff) cstr.
Proof. intros m m' H a ? <- s ? <-. unfold cstr.
  by rewrite (H (a + len s)), (load_proper m m' H a a eq_refl _ _ eq_refl). Qed.

#[export] Instance store_list_proper : Proper (meq ==> eq ==> eq ==> meq) store_list.
Proof.
  intros m m' H a ? <- l ? <-. revert m m' H a.
  induction l as [|v l IH]; intros m m' H a; simpl; [done |]. apply IH. by rewrite H.
Qed.

(** ** Read over write *)

Lemma store_eq m a v : store m a v a = v.
Proof. unfold store. by rewrite Z.eqb_refl. Qed.

Lemma store_ne m a v x : x <> a -> store m a v x = m x.
Proof. unfold store. intros. by destruct (Z.eqb_spec x a). Qed.

Lemma load_length m a n : length (load m a n) = n.
Proof. revert a. induction n; intros a; simpl; auto. Qed.

Lemma load_lookup m a n i : (i < n)%nat -> load m a n !! i = Some (m (a + Z.of_nat i)).
Proof.
  revert a i. induction n as [|n IH]; intros a [|i] Hi; try lia; simpl.
  - by rewrite Z.add_0_r.
  - rewrite IH by lia. do 2 f_equal. lia.
Qed.

Lemma load_app m a n k : load m a (n + k) = load m a n ++ load m (a + Z.of_nat n) k.
Proof.
  revert a. induction n as [|n IH]; intros a; simpl; [by rewrite Z.add_0_r |].
  rewrite IH. do 3 f_equal. lia.
Qed.

Lemma load_ext m m' a a' n :
  (forall i, 0 <= i < Z.of_nat n -> m (a + i) = m' (a' + i)) -> load m a n = load m' a' n.
Proof.
  revert a a'. induction n as [|n IH]; intros a a' H; simpl; [done |]. f_equal.
  - specialize (H 0). rewrite !Z.add_0_r in H. apply H. lia.
  - apply IH. intros i Hi. specialize (H (i + 1)).
    replace (a + 1 + i) with (a + (i + 1)) by lia.
    replace (a' + 1 + i) with (a' + (i + 1)) by lia. apply H. lia.
Qed.

Lemma load_eq_inv m a l i : load m a (length l) = l -> 0 <= i < len l ->
  l !! Z.to_nat i = Some (m (a + i)).
Proof.
  intros H Hi. rewrite <- H at 1. rewrite load_lookup by lia. do 2 f_equal. lia.
Qed.

Lemma load_intro m a l :
  (forall i v, l !! i = Some v -> m (a + Z.of_nat i) = v) -> load m a (length l) = l.
Proof.
  intros H. apply list_eq. intros i. destruct (decide (i < length l)%nat) as [Hi|Hi].
  - rewrite load_lookup by done. destruct (lookup_lt_is_Some_2 l i Hi) as [v Hv].
    by rewrite Hv, (H i v).
  - rewrite !lookup_ge_None_2; rewrite ?load_length; auto; lia.
Qed.

Lemma store_list_out m a l x : x < a \/ a + len l <= x -> store_list m a l x = m x.
Proof.
  revert m a. induction l as [|v l IH]; intros m a H; simpl in *; [done |].
  rewrite IH by lia. apply store_ne. lia.
Qed.

Lemma store_list_in m a l i v :
  l !! i = Some v -> store_list m a l (a + Z.of_nat i) = v.
Proof.
  revert m a i. induction l as [|w l IH]; intros m a [|i] H; simplify_eq/=.
  - rewrite store_list_out by lia. rewrite Z.add_0_r. apply store_eq.
  - replace (a + Z.of_nat (S i)) with (a + 1 + Z.of_nat i) by lia. by apply IH.
Qed.

Lemma load_store_list m a l : load (store_list m a l) a (length l) = l.
Proof. apply load_intro. intros i v. apply store_list_in. Qed.

Lemma store_list_app m a l k :
  store_list m a (l ++ k) = store_list (store_list m a l) (a + len l) k.
Proof.
  revert m a. induction l as [|v l IH]; intros m a; simpl; [by rewrite Z.add_0_r |].
  rewrite IH. f_equal. lia.
Qed.

Lemma load_store_list_disjoint m a l b n :
  b + Z.of_nat n <= a \/ a + len l <= b -> load (store_list m a l) b n = load m b n.
Proof. intros H. apply load_ext. intros i Hi. apply store_list_out. lia. Qed.

Lemma load_sub m a L off n : load m a (length L) = L -> (off + n <= length L)%nat ->
  load m (a + Z.of_nat off) n = take n (drop off L).
Proof.
  intros HL Hn. rewrite <- HL. apply list_eq. intros i. destruct (decide (i < n)%nat) as [Hi|Hi].
  - rewrite load_lookup, lookup_take_lt, lookup_drop, load_lookup by lia. do 2 f_equal. lia.
  - rewrite !lookup_ge_None_2; [done | |]; rewrite ?length_take, ?length_drop, ?load_length; lia.
Qed.

Lemma load_one m a : load m a 1 = [m a].
Proof. done. Qed.

Lemma load_store m a n i v : (i < n)%nat -> load (store m (a + Z.of_nat i) v) a n = <[i := v]> (load m a n).
Proof.
  intros Hi. apply list_eq. intros j. destruct (decide (j < n)%nat) as [Hj|Hj].
  - rewrite load_lookup by lia. destruct (decide (i = j)) as [->|Hij].
    + by rewrite store_eq, list_lookup_insert_eq by (rewrite load_length; lia).
    + rewrite store_ne by lia. rewrite list_lookup_insert_ne, load_lookup by lia. done.
  - rewrite !lookup_ge_None_2; [done | |]; rewrite ?length_insert, ?load_length; lia.
Qed.

Lemma load_store_out m a n x v : x < a \/ a + Z.of_nat n <= x -> load (store m x v) a n = load m a n.
Proof. intros H. apply load_ext. intros i Hi. apply store_ne. lia. Qed.

Lemma load_byte_mem m a n : byte_mem m -> Forall byte (load m a n).
Proof.
  intros Hm. apply Forall_lookup. intros i v Hi.
  pose proof (lookup_lt_Some _ _ _ Hi) as Hl. rewrite load_length in Hl.
  rewrite load_lookup in Hi by done. injection Hi as <-. apply Hm.
Qed.

Lemma store_byte_mem m a v : byte_mem m -> byte v -> byte_mem (store m a v).
Proof. intros Hm Hv x. unfold store. by destruct (x =? a). Qed.

Lemma store_list_byte_mem m a l : byte_mem m -> Forall byte l -> byte_mem (store_list m a l).
Proof.
  revert m a. induction l as [|v l IH]; intros m a Hm Hl; simpl; [done |].
  apply Forall_cons in Hl as [Hv Hl]. apply IH; [by apply store_byte_mem | done].
Qed.

(** ** Strings in memory *)

Lemma cstr_cons m a c s : cstr m a (c :: s) <-> c <> 0 /\ m a = c /\ cstr m (a + 1) s.
Proof.
  unfold cstr. simpl. replace (a + Z.of_nat (S (length s))) with (a + 1 + len s) by lia.
  split; [intros (H & Hz & Hf) | intros (Hc & Ha & H & Hz & Hf)].
  - injection H as Ha H. apply Forall_cons in Hf as [Hc Hf]. done.
  - split_and!; [congruence | done | by constructor].
Qed.

Lemma cstr_nil m a : cstr m a [] <-> m a = 0.
Proof.
  unfold cstr. simpl. rewrite Z.add_0_r. split; [tauto |]. intros. split_and!; auto.
Qed.

Lemma cstr_unique m a s t : cstr m a s -> cstr m a t -> s = t.
Proof.
  revert a t. induction s as [|c s IH]; intros a [|d t];
    rewrite ?cstr_nil, ?cstr_cons; [done | intros ? (? & ? & _); congruence | intros (? & ? & _) ?; congruence |].
  intros (? & <- & ?) (? & <- & ?). f_equal. eauto.
Qed.

Lemma cstr_ext m m' a b s :
  (forall i, 0 <= i <= len s -> m (a + i) = m' (b + i)) -> cstr m a s -> cstr m' b s.
Proof.
  intros H (Hl & Hz & Hf). split_and!; [| by rewrite <- H by lia | done].
  rewrite <- Hl at 2. apply load_ext. intros i Hi. symmetry. apply H. lia.
Qed.

(** A read inside the string or of its terminator. *)
Lemma cstr_at m a s i : cstr m a s -> 0 <= i < len s -> s !! Z.to_nat i = Some (m (a + i)).
Proof. intros (Hl & _ & _) Hi. by apply load_eq_inv. Qed.

Lemma cstr_end m a s : cstr m a s -> m (a + len s) = 0.
Proof. by intros (_ & H & _). Qed.

Lemma cstr_nonzero m a s i : cstr m a s -> 0 <= i < len s -> m (a + i) <> 0.
Proof.
  intros H Hi. pose proof (cstr_at m a s i H Hi) as Hl. destruct H as (_ & _ & Hf).
  by apply (Forall_lookup_1 _ _ _ _ Hf Hl).
Qed.

(** Discharge [cstr] on a concrete memory by evaluation. *)
Ltac cstr_eval :=
  split; [vm_compute; reflexivity | split; [vm_compute; reflexivity |
    vm_compute; repeat (apply Forall_cons; split; [discriminate |]); apply Forall_nil; exact I]].

#[export] Hint Resolve cstr_end : dsd.

(** A block copy, cell by cell. *)
Lemma store_list_load m d s n x :
  store_list m d (load m s n) x = if (d <=? x) && (x <? d + Z.of_nat n) then m (s + (x - d)) else m x.
Proof.
  destruct ((d <=? x) && (x <? d + Z.of_nat n)) eqn:E; zb.
  - replace x with (d + Z.of_nat (Z.to_nat (x - d))) at 1 by lia.
    apply store_list_in. rewrite load_lookup by lia. do 2 f_equal. lia.
  - apply store_list_out. rewrite load_length. destruct E; zb; lia.
Qed.
