(* ===== verification/Ctype.v ===== *)
(** * Character classes: lib_generic/ctype.c and include/linux/ctype.h

    The 256-entry class table and the predicates the parsers call.  The
    lemmas give each predicate the interval it recognises. *)

From S2P Require Import Prelude.

Local Open Scope Z_scope.

Definition _U : Z := 0x01.
Definition _L : Z := 0x02.
Definition _D : Z := 0x04.
Definition _C : Z := 0x08.
Definition _P : Z := 0x10.
Definition _S : Z := 0x20.
Definition _X : Z := 0x40.
Definition _SP : Z := 0x80.

Definition _ctype : list Z :=
  [_C;_C;_C;_C;_C;_C;_C;_C;
   _C;Z.lor _C _S;Z.lor _C _S;Z.lor _C _S;Z.lor _C _S;Z.lor _C _S;_C;_C;
   _C;_C;_C;_C;_C;_C;_C;_C;
   _C;_C;_C;_C;_C;_C;_C;_C;
   Z.lor _S _SP;_P;_P;_P;_P;_P;_P;_P;
   _P;_P;_P;_P;_P;_P;_P;_P;
   _D;_D;_D;_D;_D;_D;_D;_D;
   _D;_D;_P;_P;_P;_P;_P;_P;
   _P;Z.lor _U _X;Z.lor _U _X;Z.lor _U _X;Z.lor _U _X;Z.lor _U _X;Z.lor _U _X;_U;
   _U;_U;_U;_U;_U;_U;_U;_U;
   _U;_U;_U;_U;_U;_U;_U;_U;
   _U;_U;_U;_P;_P;_P;_P;_P;
   _P;Z.lor _L _X;Z.lor _L _X;Z.lor _L _X;Z.lor _L _X;Z.lor _L _X;Z.lor _L _X;_L;
   _L;_L;_L;_L;_L;_L;_L;_L;
   _L;_L;_L;_L;_L;_L;_L;_L;
   _L;_L;_L;_P;_P;_P;_P;_C;
   0;0;0;0;0;0;0;0;0;0;0;0;0;0;0;0;
   0;0;0;0;0;0;0;0;0;0;0;0;0;0;0;0;
   Z.lor _S _SP;_P;_P;_P;_P;_P;_P;_P;_P;_P;_P;_P;_P;_P;_P;_P;
   _P;_P;_P;_P;_P;_P;_P;_P;_P;_P;_P;_P;_P;_P;_P;_P;
   _U;_U;_U;_U;_U;_U;_U;_U;_U;_U;_U;_U;_U;_U;_U;_U;
   _U;_U;_U;_U;_U;_U;_U;_P;_U;_U;_U;_U;_U;_U;_U;_L;
   _L;_L;_L;_L;_L;_L;_L;_L;_L;_L;_L;_L;_L;_L;_L;_L;
   _L;_L;_L;_L;_L;_L;_L;_P;_L;_L;_L;_L;_L;_L;_L;_L].

Definition __ismask (x : Z) : Z := nthZ _ctype (u8 x).

Definition in_class (mask c : Z) : bool := negb (Z.land (__ismask c) mask =? 0).

Definition isalnum (c : Z) : bool := in_class (Z.lor _U (Z.lor _L _D)) c.
Definition isalpha (c : Z) : bool := in_class (Z.lor _U _L) c.
Definition isdigit (c : Z) : bool := in_class _D c.
Definition islower (c : Z) : bool := in_class _L c.
Definition isprint (c : Z) : bool := in_class (Z.lor _P (Z.lor _U (Z.lor _L (Z.lor _D _SP)))) c.
Definition isspace (c : Z) : bool := in_class _S c.
Definition isupper (c : Z) : bool := in_class _U c.
Definition isxdigit (c : Z) : bool := in_class (Z.lor _D _X) c.

Definition tolower (c : Z) : Z := if isupper c then u8 (c - (65 - 97)) else c.
Definition toupper (c : Z) : Z := if islower c then u8 (c - (97 - 65)) else c.

(** A property of every byte, decided by running through the 256 of them. *)
Definition all_bytes (p : Z -> bool) : bool := forallb p (seqZ 0 256).

Lemma all_bytes_spec p c : all_bytes p = true -> byte c -> p c = true.
Proof.
  unfold all_bytes. rewrite forallb_forall. intros H Hc. apply H.
  apply list_elem_of_In, elem_of_seqZ. unfold byte in Hc. lia.
Qed.

Lemma bool_byte_ext (p q : Z -> bool) c :
  all_bytes (fun x => Bool.eqb (p x) (q x)) = true -> byte c -> p c = q c.
Proof. intros H Hc. apply Bool.eqb_prop. exact (all_bytes_spec _ c H Hc). Qed.

(** Prove an equation of two boolean tests on the byte [c] by evaluation. *)
Ltac byte_ext c :=
  match goal with
  | |- ?l = ?r =>
      let fl := eval pattern c in l in
      let fr := eval pattern c in r in
      match fl with ?p _ => match fr with ?q _ =>
        apply (bool_byte_ext p q c); [by vm_compute | done] end end
  end.

Lemma isdigit_spec c : byte c -> isdigit c = (48 <=? c) && (c <=? 57).
Proof. intros Hc. byte_ext c. Qed.

Lemma isxdigit_spec c : byte c ->
  isxdigit c = (48 <=? c) && (c <=? 57) || (65 <=? c) && (c <=? 70) || (97 <=? c) && (c <=? 102).
Proof. intros Hc. byte_ext c. Qed.

Lemma isspace_spec c : byte c ->
  isspace c = (9 <=? c) && (c <=? 13) || (c =? 32) || (c =? 160).
Proof. intros Hc. byte_ext c. Qed.

(** On the ASCII half the case classes are the letter intervals. *)
Lemma islower_ascii c : byte c -> c < 128 -> islower c = (97 <=? c) && (c <=? 122).
Proof.
  intros Hc Hlt. cut ((128 <=? c) || Bool.eqb (islower c) ((97 <=? c) && (c <=? 122)) = true).
  - rewrite (proj2 (Z.leb_gt 128 c) Hlt). apply Bool.eqb_prop.
  - by apply (all_bytes_spec (fun c =>
      (128 <=? c) || Bool.eqb (islower c) ((97 <=? c) && (c <=? 122))) c); [vm_compute |].
Qed.

Lemma toupper_hex c : byte c -> isxdigit c = true -> isdigit c = false ->
  10 <= (if islower c then toupper c else c) - 65 + 10 <= 15.
Proof.
  intros Hc Hx Hd.
  pose proof (all_bytes_spec (fun c => negb (isxdigit c) || isdigit c ||
    (10 <=? (if islower c then toupper c else c) - 65 + 10) &&
    ((if islower c then toupper c else c) - 65 + 10 <=? 15)) c ltac:(by vm_compute) Hc) as H.
  simpl in H. rewrite Hx, Hd in H. simpl in H. zb. lia.
Qed.
