(* ===== verification/Strings.v ===== *)
(** * String and memory routines: lib_generic/string.c

    Each routine is translated on the byte memory, so overlapping arguments
    alias.  A loop bounded by a count recurses on the count; a loop that runs
    to a NUL takes fuel, and the theorems show that one unit more than the
    string's length is enough.  [strdup] waits for a model of the allocator.

    The theorems relate each routine to the list operation it implements
    ([memmove] to a block copy under any overlap, [strcmp] to equality and to
    the lexicographic order, [strstr] to the first occurrence, [strtok] to the
    split into tokens). *)

From S2P Require Import Prelude Memory.

Local Open Scope Z_scope.

Definition NULL : Z := 0.

(** ** Copying strings *)

Definition strcpy_body (s : mem * Z * Z) : (mem * Z * Z) + mem :=
  let '(m, dest, src) := s in
  let c := m src in
  let m' := store m dest c in
  if c =? 0 then inr m' else inl (m', dest + 1, src + 1).

Definition strcpy (fuel : nat) (m : mem) (dest src : Z) : option (mem * Z) :=
  (fun m' => (m', dest)) <$> loop strcpy_body fuel (m, dest, src).

Fixpoint strncpy_loop (count : nat) (m : mem) (dest src : Z) : mem :=
  match count with
  | O => m
  | S k =>
      let c := m src in
      let m' := store m dest c in
      if c =? 0 then m' else strncpy_loop k m' (dest + 1) (src + 1)
  end.

Definition strncpy (m : mem) (dest src count : Z) : mem * Z :=
  (strncpy_loop (Z.to_nat count) m dest src, dest).

Definition strlen_body (m : mem) (sc : Z) : Z + Z :=
  if m sc =? 0 then inr sc else inl (sc + 1).

Definition strlen (fuel : nat) (m : mem) (s : Z) : option Z :=
  (fun sc => sc - s) <$> loop (strlen_body m) fuel s.

Definition strcat (fuel : nat) (m : mem) (dest src : Z) : option (mem * Z) :=
  match loop (strlen_body m) fuel dest with
  | None => None
  | Some d => (fun m' => (m', dest)) <$> loop strcpy_body fuel (m, d, src)
  end.

(** The copy loop of [strncat]; [count] is the value before the decrement. *)
Fixpoint strncat_loop (count : nat) (m : mem) (dest src : Z) : mem :=
  match count with
  | O => m
  | S k =>
      let c := m src in
      let m' := store m dest c in
      if c =? 0 then m'
      else match k with
           | O => store m' (dest + 1) 0
           | S _ => strncat_loop k m' (dest + 1) (src + 1)
           end
  end.

Definition strncat (fuel : nat) (m : mem) (dest src count : Z) : option (mem * Z) :=
  if count =? 0 then Some (m, dest)
  else (fun d => (strncat_loop (Z.to_nat count) m d src, dest))
         <$> loop (strlen_body m) fuel dest.

(** ** Comparing and searching *)

Definition strcmp_body (m : mem) (s : Z * Z) : (Z * Z) + Z :=
  let '(cs, ct) := s in
  let res := s8 (m cs - m ct) in
  if negb (res =? 0) || (m cs =? 0) then inr res else inl (cs + 1, ct + 1).

Definition strcmp (fuel : nat) (m : mem) (cs ct : Z) : option Z :=
  loop (strcmp_body m) fuel (cs, ct).

Fixpoint strncmp_loop (count : nat) (m : mem) (cs ct res : Z) : Z :=
  match count with
  | O => res
  | S k =>
      let res := s8 (m cs - m ct) in
      if negb (res =? 0) || (m cs =? 0) then res
      else strncmp_loop k m (cs + 1) (ct + 1) res
  end.

Definition strncmp (m : mem) (cs ct count : Z) : Z :=
  strncmp_loop (Z.to_nat count) m cs ct 0.

Definition strchr_body (m : mem) (c s : Z) : Z + Z :=
  if m s =? u8 c then inr s else if m s =? 0 then inr NULL else inl (s + 1).

Definition strchr (fuel : nat) (m : mem) (s c : Z) : option Z :=
  loop (strchr_body m c) fuel s.

(** [strrchr]'s loop, with the cursor at [s + k]. *)
Fixpoint strrchr_loop (k : nat) (m : mem) (s c : Z) : Z :=
  if m (s + Z.of_nat k) =? u8 c then s + Z.of_nat k
  else match k with O => NULL | S k' => strrchr_loop k' m s c end.

Definition strrchr (fuel : nat) (m : mem) (s c : Z) : option Z :=
  (fun n => strrchr_loop (Z.to_nat n) m s c) <$> strlen fuel m s.

Fixpoint strnlen_loop (count : nat) (m : mem) (sc : Z) : Z :=
  match count with
  | O => sc
  | S k => if m sc =? 0 then sc else strnlen_loop k m (sc + 1)
  end.

Definition strnlen (m : mem) (s count : Z) : Z :=
  strnlen_loop (Z.to_nat count) m s - s.

(** The inner loops of [strspn] and [strpbrk]: the first place of the set at
    [a] that holds [c], or its NUL. *)
Definition member_body (m : mem) (c a : Z) : Z + Z :=
  if m a =? 0 then inr a else if c =? m a then inr a else inl (a + 1).

Definition strspn_body (fuel : nat) (m : mem) (accept : Z) (s : Z * Z)
    : (Z * Z) + option Z :=
  let '(p, count) := s in
  if m p =? 0 then inr (Some count)
  else match loop (member_body m (m p)) fuel accept with
       | None => inr None
       | Some a => if m a =? 0 then inr (Some count) else inl (p + 1, count + 1)
       end.

Definition strspn (fuel : nat) (m : mem) (s accept : Z) : option Z :=
  mjoin (loop (strspn_body fuel m accept) fuel (s, 0)).

Definition strpbrk_body (fuel : nat) (m : mem) (ct : Z) (sc1 : Z) : Z + option Z :=
  if m sc1 =? 0 then inr (Some NULL)
  else match loop (member_body m (m sc1)) fuel ct with
       | None => inr None
       | Some a => if m a =? 0 then inl (sc1 + 1) else inr (Some sc1)
       end.

Definition strpbrk (fuel : nat) (m : mem) (cs ct : Z) : option Z :=
  mjoin (loop (strpbrk_body fuel m ct) fuel cs).

(** ** Tokens.  [___strtok] is the static cursor between calls. *)

Record strtok_result := StrtokResult {
  tok_mem : mem;
  tok_next : Z;   (* the new value of ___strtok *)
  tok_ret : Z
}.

Definition strtok (fuel : nat) (m : mem) (___strtok s ct : Z) : option strtok_result :=
  let sbegin := if s =? NULL then ___strtok else s in
  if sbegin =? NULL then Some (StrtokResult m ___strtok NULL)
  else match strspn fuel m sbegin ct with
  | None => None
  | Some n =>
      let sbegin := sbegin + n in
      if m sbegin =? 0 then Some (StrtokResult m NULL NULL)
      else match strpbrk fuel m sbegin ct with
      | None => None
      | Some send =>
          if negb (send =? NULL) && negb (m send =? 0)
          then Some (StrtokResult (store m send 0) (send + 1) sbegin)
          else Some (StrtokResult m send sbegin)
      end
  end.

(** [strsep]: the new memory, the new [*s] and the token. *)
Definition strsep (fuel : nat) (m : mem) (s ct : Z) : option (mem * Z * Z) :=
  if s =? NULL then Some (m, s, NULL)
  else match strpbrk fuel m s ct with
  | None => None
  | Some e =>
      if e =? NULL then Some (m, e, s) else Some (store m e 0, e + 1, s)
  end.

Definition strswab_body (s : mem * Z * Z) : (mem * Z * Z) + mem :=
  let '(m, p, q) := s in
  if negb (m p =? 0) && negb (m q =? 0)
  then let tmp := m p in
       let m1 := store m p (m q) in
       inl (store m1 q tmp, p + 2, q + 2)
  else inr m.

Definition strswab (fuel : nat) (m : mem) (s : Z) : option (mem * Z) :=
  if (s =? NULL) || (m s =? 0) then Some (m, NULL)
  else (fun m' => (m', s)) <$> loop strswab_body fuel (m, s, s + 1).

(** ** Blocks of memory *)

Fixpoint memset_loop (count : nat) (m : mem) (xs c : Z) : mem :=
  match count with
  | O => m
  | S k => memset_loop k (store m xs (u8 c)) (xs + 1) c
  end.

Definition memset (m : mem) (s c count : Z) : mem * Z :=
  (memset_loop (Z.to_nat count) m s c, s).

(** The ascending byte copy shared by [bcopy], [memcpy] and [memmove]. *)
Fixpoint copy_up (count : nat) (m : mem) (tmp s : Z) : mem :=
  match count with
  | O => m
  | S k => copy_up k (store m tmp (m s)) (tmp + 1) (s + 1)
  end.

(** The descending copy of [memmove]; the cursors are decremented first. *)
Fixpoint copy_down (count : nat) (m : mem) (tmp s : Z) : mem :=
  match count with
  | O => m
  | S k => copy_down k (store m (tmp - 1) (m (s - 1))) (tmp - 1) (s - 1)
  end.

(** [bcopy]'s count is an [int]: a negative one never reaches zero. *)
Definition bcopy (m : mem) (src dest count : Z) : option (mem * Z) :=
  if count <? 0 then None else Some (copy_up (Z.to_nat count) m dest src, dest).

Definition memcpy (m : mem) (dest src count : Z) : mem * Z :=
  (copy_up (Z.to_nat count) m dest src, dest).

Definition memmove (m : mem) (dest src count : Z) : mem * Z :=
  if dest <=? src
  then (copy_up (Z.to_nat count) m dest src, dest)
  else (copy_down (Z.to_nat count) m (dest + count) (src + count), dest).

Fixpoint memcmp_loop (count : nat) (m : mem) (su1 su2 : Z) : Z :=
  match count with
  | O => 0
  | S k =>
      let res := m su1 - m su2 in
      if negb (res =? 0) then res else memcmp_loop k m (su1 + 1) (su2 + 1)
  end.

Definition memcmp (m : mem) (cs ct count : Z) : Z :=
  memcmp_loop (Z.to_nat count) m cs ct.

Fixpoint memscan_loop (size : nat) (m : mem) (p c : Z) : Z :=
  match size with
  | O => p
  | S k => if m p =? c then p else memscan_loop k m (p + 1) c
  end.

Definition memscan (m : mem) (addr c size : Z) : Z :=
  memscan_loop (Z.to_nat size) m addr c.

(** [strstr]'s loop with [l1] characters of [s1] left. *)
Fixpoint strstr_loop (l1 : nat) (l2 : Z) (m : mem) (s1 s2 : Z) : Z :=
  if l2 <=? Z.of_nat l1
  then if memcmp m s1 s2 l2 =? 0 then s1
       else match l1 with O => NULL | S k => strstr_loop k l2 m (s1 + 1) s2 end
  else NULL.

Definition strstr (fuel : nat) (m : mem) (s1 s2 : Z) : option Z :=
  match strlen fuel m s2 with
  | None => None
  | Some l2 =>
      if l2 =? 0 then Some s1
      else (fun l1 => strstr_loop (Z.to_nat l1) l2 m s1 s2) <$> strlen fuel m s1
  end.

Fixpoint memchr_loop (n : nat) (m : mem) (p c : Z) : Z :=
  match n with
  | O => NULL
  | S k => if u8 c =? m p then p else memchr_loop k m (p + 1) c
  end.

Definition memchr (m : mem) (s c n : Z) : Z := memchr_loop (Z.to_nat n) m s c.

(** ** Block copies *)

Lemma copy_up_spec n m d s x : d <= s \/ s + Z.of_nat n <= d ->
  copy_up n m d s x = if (d <=? x) && (x <? d + Z.of_nat n) then m (s + (x - d)) else m x.
Proof.
  revert m d s. induction n as [|n IH]; intros m d s H; simpl copy_up.
  - zcases; simpl; done || lia.
  - rewrite IH by lia. unfold store. zcases; simpl; try (done || lia); f_equal; lia.
Qed.

Lemma copy_down_spec n m d s x : s <= d ->
  copy_down n m (d + Z.of_nat n) (s + Z.of_nat n) x =
  if (d <=? x) && (x <? d + Z.of_nat n) then m (s + (x - d)) else m x.
Proof.
  revert m. induction n as [|n IH]; intros m H; simpl copy_down.
  - zcases; simpl; done || lia.
  - replace (d + Z.of_nat (S n) - 1) with (d + Z.of_nat n) by lia.
    replace (s + Z.of_nat (S n) - 1) with (s + Z.of_nat n) by lia.
    rewrite IH by lia. unfold store. zcases; simpl; try (done || lia); f_equal; lia.
Qed.

Lemma memmove_spec m dest src count : 0 <= count ->
  let (m', r) := memmove m dest src count in
  meq m' (store_list m dest (load m src (Z.to_nat count))) /\ r = dest.
Proof.
  intros Hc. destruct (Z_of_nat_complete count Hc) as [n ->]. unfold memmove. rewrite Nat2Z.id.
  destruct (Z.leb_spec dest src); split; try done; intros x; rewrite store_list_load.
  - apply copy_up_spec. lia.
  - apply copy_down_spec. lia.
Qed.

(** [memmove] leaves at [dest] the bytes that were at [src], whatever the
    overlap of the two areas, and changes nothing else. *)
Theorem memmove_block_copy m dest src count : 0 <= count ->
  let (m', r) := memmove m dest src count in
  meq m' (store_list m dest (load m src (Z.to_nat count))) /\ r = dest.
Proof. apply memmove_spec. Qed.

(** Where the areas do not overlap upwards, [memcpy] is the same block copy. *)
Lemma memcpy_block_copy m dest src count :
  0 <= count -> dest <= src \/ src + count <= dest ->
  meq (memcpy m dest src count).1 (store_list m dest (load m src (Z.to_nat count))).
Proof.
  intros Hc H x. destruct (Z_of_nat_complete count Hc) as [n ->]. unfold memcpy.
  rewrite Nat2Z.id, store_list_load. by apply copy_up_spec.
Qed.

Lemma memset_spec m s c count : 0 <= count ->
  meq (memset m s c count).1 (store_list m s (replicate (Z.to_nat count) (u8 c))).
Proof.
  intros Hc. unfold memset. simpl. revert m s.
  induction (Z.to_nat count) as [|n IH]; intros m s; simpl; [done | apply IH].
Qed.

(** [memcmp] is zero exactly on equal blocks, and otherwise has the sign of
    the first difference. *)
Lemma memcmp_zero m cs ct n :
  memcmp_loop n m cs ct = 0 <-> load m cs n = load m ct n.
Proof.
  revert cs ct. induction n as [|n IH]; intros cs ct; simpl; [done |].
  zcases; simpl.
  - rewrite IH. split; [intros ->; f_equal; lia | by intros [=]].
  - split; [lia | intros [=]; lia].
Qed.

(** ** Strings *)

(** Enough fuel: one unit more than the length. *)
Lemma strlen_loop_spec m a s fuel : cstr m a s -> (length s < fuel)%nat ->
  loop (strlen_body m) fuel a = Some (a + len s).
Proof.
  revert a fuel. induction s as [|c s IH]; intros a [|fuel] Hs Hf; simpl in Hf; try lia.
  - apply cstr_nil in Hs. simpl. unfold strlen_body. rewrite Hs. simpl. f_equal. lia.
  - apply cstr_cons in Hs as (Hc & Ha & Hs). simpl. unfold strlen_body at 1.
    rewrite Ha, (proj2 (Z.eqb_neq c 0) Hc), (IH (a + 1) fuel) by (done || lia). f_equal. lia.
Qed.

Lemma strlen_spec m a s fuel : cstr m a s -> (length s < fuel)%nat ->
  strlen fuel m a = Some (len s).
Proof.
  intros Hs Hf. unfold strlen. rewrite (strlen_loop_spec m a s) by done. simpl. f_equal. lia.
Qed.

(** The copy loop writes the string and its NUL, provided the ascending
    copy does not overwrite what it has still to read. *)
Lemma strcpy_loop_spec m dest src s fuel :
  cstr m src s -> dest <= src \/ src + len s < dest -> (length s < fuel)%nat ->
  exists m', loop strcpy_body fuel (m, dest, src) = Some m' /\
             meq m' (store_list m dest (s ++ [0])).
Proof.
  revert m dest src fuel. induction s as [|c s IH]; intros m dest src [|fuel] Hs Hd Hf;
    simpl in Hf, Hd; try lia.
  - apply cstr_nil in Hs. simpl. rewrite Hs. simpl. by eexists.
  - apply cstr_cons in Hs as (Hc & Ha & Hs). simpl.
    rewrite Ha, (proj2 (Z.eqb_neq c 0) Hc). apply IH; [| lia..].
    apply (cstr_ext m _ (src + 1) (src + 1)); [| done].
    intros i Hi. symmetry. apply store_ne. lia.
Qed.

Lemma cstr_store_list m a s : Forall (fun c => c <> 0) s -> cstr (store_list m a (s ++ [0])) a s.
Proof.
  intros Hf. rewrite store_list_app. simpl. split_and!; [| by rewrite store_eq | done].
  etransitivity; [| apply (load_store_list m a s)]. apply load_ext. intros i Hi.
  apply store_ne. lia.
Qed.

(** With a NUL-terminated source that the ascending copy does not
    overwrite first, [strcpy] terminates, returns [dest], writes exactly the
    string and its NUL, and the destination is then that string. *)
Theorem strcpy_copies m dest src s fuel :
  cstr m src s -> dest <= src \/ src + len s < dest -> (length s < fuel)%nat ->
  exists m', strcpy fuel m dest src = Some (m', dest) /\
             meq m' (store_list m dest (s ++ [0])) /\ cstr m' dest s.
Proof.
  intros Hs Hd Hf. destruct (strcpy_loop_spec m dest src s fuel) as (m' & Hl & Hm); try done.
  exists m'. unfold strcpy. rewrite Hl. split_and!; [done | done |].
  rewrite Hm. apply cstr_store_list. by destruct Hs as (_ & _ & ?).
Qed.

(** The cursor of [strcat] and [strncat] does not disturb the prefix. *)
Lemma cstr_append m a d s :
  cstr m a d -> Forall (fun c => c <> 0) s ->
  cstr (store_list m (a + len d) (s ++ [0])) a (d ++ s).
Proof.
  intros (Hl & _ & Hf) Hs. pose proof (cstr_store_list m (a + len d) s Hs) as (Hl' & Hz & _).
  split_and!; [| by rewrite length_app, Nat2Z.inj_add, Z.add_assoc | by apply Forall_app].
  rewrite length_app, load_app, Hl', load_store_list_disjoint by lia. by rewrite Hl.
Qed.

Lemma strcat_spec m dest src d s fuel :
  cstr m dest d -> cstr m src s ->
  dest + len d <= src \/ src + len s < dest + len d ->
  (length d + length s < fuel)%nat ->
  exists m', strcat fuel m dest src = Some (m', dest) /\ cstr m' dest (d ++ s) /\
             meq m' (store_list m (dest + len d) (s ++ [0])).
Proof.
  intros Hd Hs Hov Hf. unfold strcat. rewrite (strlen_loop_spec m dest d) by (done || lia).
  destruct (strcpy_loop_spec m (dest + len d) src s fuel) as (m' & Hl & Hm); try done; [lia |].
  exists m'. rewrite Hl. split_and!; [done | | done]. rewrite Hm.
  apply cstr_append; [done |]. by destruct Hs as (_ & _ & ?).
Qed.

Lemma strncat_loop_spec n m dest src s :
  (0 < n)%nat -> cstr m src s -> dest <= src \/ src + len s < dest ->
  meq (strncat_loop n m dest src) (store_list m dest (take n s ++ [0])).
Proof.
  revert m dest src s. induction n as [|n IH]; intros m dest src s Hn Hs Hov; [lia |].
  destruct s as [|c s].
  - apply cstr_nil in Hs. simpl. by rewrite Hs.
  - apply cstr_cons in Hs as (Hc & Ha & Hs). cbn [strncat_loop].
    rewrite Ha, (proj2 (Z.eqb_neq c 0) Hc). destruct n as [|n]; [done |].
    simpl in Hov. rewrite (IH _ _ _ s); [done | lia | | lia].
    apply (cstr_ext m _ (src + 1) (src + 1)); [| done].
    intros i Hi. symmetry. apply store_ne. lia.
Qed.

(** [strncat] terminates on NUL-terminated arguments whose areas do not
    collide, and leaves at [dest] the old string followed by at most [count]
    characters of the source, always NUL-terminated; no other byte changes. *)
Theorem strncat_appends m dest src d s count fuel :
  cstr m dest d -> cstr m src s ->
  dest + len d <= src \/ src + len s < dest + len d ->
  0 <= count -> (length d < fuel)%nat ->
  exists m', strncat fuel m dest src count = Some (m', dest) /\
             cstr m' dest (d ++ take (Z.to_nat count) s) /\
             (forall x, x < dest + len d \/ dest + len d + len s < x -> m' x = m x).
Proof.
  intros Hd Hs Hov Hc Hf. unfold strncat. destruct (Z.eqb_spec count 0) as [->|Hne].
  - exists m. rewrite app_nil_r. done.
  - rewrite (strlen_loop_spec m dest d) by done. simpl. eexists. split; [done |].
    assert (Hm := strncat_loop_spec (Z.to_nat count) m (dest + len d) src s ltac:(lia) Hs Hov).
    destruct Hs as (_ & _ & Hnz). split.
    + rewrite Hm. apply cstr_append; [done |]. by apply Forall_take.
    + intros x Hx. rewrite Hm. apply store_list_out.
      rewrite length_app, length_take. simpl. lia.
Qed.

(** ** Comparison *)

(** What [strcmp] computes, on the two strings. *)
Fixpoint str_cmp (s t : list Z) : Z :=
  match s, t with
  | [], [] => 0
  | [], d :: _ => s8 (0 - d)
  | c :: _, [] => s8 (c - 0)
  | c :: s', d :: t' => let r := s8 (c - d) in if r =? 0 then str_cmp s' t' else r
  end.

Fixpoint lex (s t : list Z) : comparison :=
  match s, t with
  | [], [] => Eq
  | [], _ :: _ => Lt
  | _ :: _, [] => Gt
  | c :: s', d :: t' => match c ?= d with Eq => lex s' t' | o => o end
  end.

Lemma s8_diff_zero a b : byte a -> byte b -> s8 (a - b) = 0 <-> a = b.
Proof. unfold byte. intros. wrap_lia. Qed.

Lemma strcmp_refines m cs ct s t fuel :
  cstr m cs s -> cstr m ct t -> Forall byte s -> Forall byte t -> (length s < fuel)%nat ->
  strcmp fuel m cs ct = Some (str_cmp s t).
Proof.
  unfold strcmp. revert cs ct t fuel.
  induction s as [|c s IH]; intros cs ct [|d t] [|fuel] Hs Ht Bs Bt Hf; simpl in Hf; try lia;
    simpl; rewrite ?cstr_nil, ?cstr_cons in *.
  - by rewrite Hs, Ht.
  - rewrite Hs. destruct Ht as (_ & -> & _). simpl. by rewrite orb_true_r.
  - destruct Hs as (Hc & -> & _). rewrite Ht. apply Forall_cons in Bs as [Bc _].
    rewrite (proj2 (Z.eqb_neq (s8 (c - 0)) 0)); [done |].
    rewrite s8_diff_zero by (done || unfold byte; lia). done.
  - destruct Hs as (Hc & -> & Hs), Ht as (Hd & -> & Ht). rewrite (proj2 (Z.eqb_neq c 0) Hc).
    destruct (Z.eqb_spec (s8 (c - d)) 0); simpl; [| done].
    apply Forall_cons in Bs as [_ Bs], Bt as [_ Bt]. apply IH; auto. lia.
Qed.

Lemma str_cmp_zero s t :
  Forall byte s -> Forall byte t -> Forall (fun c => c <> 0) s -> Forall (fun c => c <> 0) t ->
  str_cmp s t = 0 <-> s = t.
Proof.
  revert t. induction s as [|c s IH]; intros [|d t] Bs Bt Ns Nt; simpl; [done | ..];
    rewrite ?Forall_cons in *; [| | ].
  - rewrite s8_diff_zero by (naive_solver || unfold byte; lia). naive_solver.
  - rewrite s8_diff_zero by (naive_solver || unfold byte; lia). naive_solver.
  - destruct Bs as [Bc Bs], Bt as [Bd Bt], Ns as [Nc Ns], Nt as [Nd Nt].
    destruct (Z.eqb_spec (s8 (c - d)) 0) as [E|E]; rewrite s8_diff_zero in E by done.
    + rewrite IH by done. naive_solver.
    + split; [rewrite s8_diff_zero by done; done | naive_solver].
Qed.

Lemma str_cmp_lex s t :
  Forall (fun c => 0 < c < 128) s -> Forall (fun c => 0 < c < 128) t ->
  (str_cmp s t ?= 0) = lex s t.
Proof.
  revert t. induction s as [|c s IH]; intros [|d t] Bs Bt; simpl; [done | ..];
    rewrite ?Forall_cons in *.
  - apply Z.compare_lt_iff. wrap_lia.
  - apply Z.compare_gt_iff. wrap_lia.
  - destruct Bs as [Bc Bs], Bt as [Bd Bt].
    replace (s8 (c - d)) with (c - d) by wrap_lia.
    destruct (Z.eqb_spec (c - d) 0) as [E|E].
    + rewrite IH by done. by rewrite (proj2 (Z.compare_eq_iff c d)) by lia.
    + destruct (Z.compare_spec c d); [lia | apply Z.compare_lt_iff; lia | apply Z.compare_gt_iff; lia].
Qed.

(** [strcmp] terminates on two NUL-terminated strings, is zero exactly
    when they are equal, and on 7-bit strings its sign is the lexicographic
    order. *)
Theorem strcmp_decides m cs ct s t fuel :
  cstr m cs s -> cstr m ct t -> Forall byte s -> Forall byte t -> (length s < fuel)%nat ->
  exists r, strcmp fuel m cs ct = Some r /\ (r = 0 <-> s = t) /\
    (Forall (fun c => c < 128) s -> Forall (fun c => c < 128) t -> (r ?= 0) = lex s t).
Proof.
  intros Hs Ht Bs Bt Hf. exists (str_cmp s t). rewrite (strcmp_refines m cs ct s t) by done.
  destruct Hs as (_ & _ & Ns), Ht as (_ & _ & Nt). split_and!; [done | by apply str_cmp_zero |].
  intros As At. assert (Hr : forall l, Forall byte l -> Forall (fun c => c <> 0) l ->
    Forall (fun c => c < 128) l -> Forall (fun c => 0 < c < 128) l).
  { intros l H1 H2 H3. induction l; [done |]. rewrite ?Forall_cons in *. unfold byte in *.
    split; [lia | naive_solver]. }
  by apply str_cmp_lex; apply Hr.
Qed.

(** ** Searching for a substring *)

(** [t] is found in [s] at offset [i]. *)
Definition occurs_at (t s : list Z) (i : nat) : Prop := take (length t) (drop i s) = t.

Lemma cstr_load m a s n : cstr m a s -> (n <= length s)%nat -> load m a n = take n s.
Proof.
  intros (Hl & _ & _) Hn. rewrite <- Hl at 1. replace (length s) with (n + (length s - n))%nat by lia.
  rewrite load_app, take_app_length'; [done |]. by rewrite load_length.
Qed.

Lemma strstr_loop_spec m a b s t :
  cstr m a s -> cstr m b t -> t <> [] -> 0 < a ->
  let r := strstr_loop (length s) (len t) m a b in
  (r = NULL /\ forall i, ~ occurs_at t s i) \/
  (exists i, r = a + Z.of_nat i /\ occurs_at t s i /\ forall j, (j < i)%nat -> ~ occurs_at t s j).
Proof.
  intros Hs Ht Hne. assert (Hlt : (0 < length t)%nat) by (destruct t; simpl; [done | lia]).
  assert (Hshort : forall l i, (length l < length t)%nat -> ~ occurs_at t l i).
  { intros l i Hl Ho. apply (f_equal length) in Ho. rewrite length_take, length_drop in Ho. lia. }
  revert a Hs. induction s as [|c s IH]; intros a Hs Ha r; subst r; cbn [strstr_loop length].
  - rewrite (proj2 (Z.leb_gt _ _)) by lia. left. split; [done |]. intros i. apply Hshort. simpl. lia.
  - destruct (Z.leb_spec (len t) (Z.of_nat (S (length s)))) as [Hle|Hgt];
      [| left; split; [done |]; intros i; apply Hshort; simpl; lia].
    unfold memcmp. rewrite Nat2Z.id.
    destruct (Z.eqb_spec (memcmp_loop (length t) m a b) 0) as [E|E].
    + right. exists O. split_and!; [lia | | lia]. apply memcmp_zero in E. unfold occurs_at.
      rewrite drop_0, <- (cstr_load m a) by (done || simpl; lia). rewrite E. by destruct Ht as (-> & _ & _).
    + assert (H0 : ~ occurs_at t (c :: s) 0).
      { intros Ho. apply E, memcmp_zero. rewrite (cstr_load m a (c :: s)) by (done || simpl; lia).
        destruct Ht as (-> & _ & _). by rewrite <- Ho at 2. }
      apply cstr_cons in Hs as (_ & _ & Hs).
      destruct (IH (a + 1) Hs ltac:(lia)) as [[-> Hno]|(i & -> & Ho & Hmin)].
      * left. split; [done |]. intros [|i]; [done | apply Hno].
      * right. exists (S i). split_and!; [lia | done |]. intros [|j] Hj; [done |].
        apply (Hmin j). lia.
Qed.

(** [strstr] terminates on two NUL-terminated strings and returns the
    address of the first occurrence of the second in the first, or NULL when
    there is none. *)
Theorem strstr_first m a b s t fuel :
  cstr m a s -> cstr m b t -> 0 < a -> (length s < fuel)%nat -> (length t < fuel)%nat ->
  exists r, strstr fuel m a b = Some r /\
    ((r = NULL /\ forall i, ~ occurs_at t s i) \/
     (exists i, r = a + Z.of_nat i /\ occurs_at t s i /\
        forall j, (j < i)%nat -> ~ occurs_at t s j)).
Proof.
  intros Hs Ht Ha Hfs Hft. unfold strstr. rewrite (strlen_spec m b t) by done.
  destruct (Z.eqb_spec (len t) 0) as [E|E].
  - exists a. split; [done |]. right. exists O. destruct t; [| simpl in E; lia].
    split_and!; [lia | done | lia].
  - rewrite (strlen_spec m a s) by done. simpl. rewrite Nat2Z.id. eexists. split; [done |].
    apply strstr_loop_spec; try done. by intros ->.
Qed.

(** ** Tokens *)

(** [inset d c]: the character [c] is one of the delimiters [d]. *)
Definition inset (d : list Z) (c : Z) : bool := existsb (Z.eqb c) d.

Lemma member_spec m b d c fuel : cstr m b d -> c <> 0 -> (length d < fuel)%nat ->
  exists a, loop (member_body m c) fuel b = Some a /\ (m a =? 0) = negb (inset d c).
Proof.
  revert b fuel. induction d as [|e d IH]; intros b [|fuel] Hd Hc Hf; simpl in Hf; try lia;
    simpl; unfold member_body at 1.
  - apply cstr_nil in Hd. rewrite Hd. simpl. exists b. by rewrite Hd.
  - apply cstr_cons in Hd as (He & Hb & Hd). rewrite Hb, (proj2 (Z.eqb_neq e 0) He).
    destruct (Z.eqb_spec c e) as [->|Hne]; simpl.
    + exists b. by rewrite Hb, (proj2 (Z.eqb_neq e 0) He).
    + apply IH; [done | done | lia].
Qed.

Lemma strspn_spec m a b s d fuel :
  cstr m a s -> cstr m b d -> (length s < fuel)%nat -> (length d < fuel)%nat ->
  strspn fuel m a b = Some (len (take_while (inset d) s)).
Proof.
  intros Hs Hd Hfs Hfd. unfold strspn.
  cut (forall n f, (length s < f)%nat ->
    loop (strspn_body fuel m b) f (a, n) = Some (Some (n + len (take_while (inset d) s)))).
  { intros H. rewrite H by done. simpl. f_equal. }
  clear Hfs. revert a Hs. induction s as [|c s IH]; intros a Hs n [|f] Hf; simpl in Hf; try lia;
    simpl; rewrite ?cstr_nil, ?cstr_cons in Hs.
  - rewrite Hs. simpl. do 2 f_equal. lia.
  - destruct Hs as (Hc & Ha & Hs). rewrite Ha, (proj2 (Z.eqb_neq c 0) Hc).
    destruct (member_spec m b d c fuel Hd Hc Hfd) as (x & -> & ->).
    destruct (inset d c); simpl; [rewrite IH by (done || lia) |]; do 2 f_equal; simpl; lia.
Qed.

(** The first character of the set, counted from [a], or NULL. *)
Lemma strpbrk_spec m a b s d fuel :
  cstr m a s -> cstr m b d -> (length s < fuel)%nat -> (length d < fuel)%nat ->
  let pre := take_while (fun c => negb (inset d c)) s in
  strpbrk fuel m a b = Some (if (length pre =? length s)%nat then NULL else a + len pre).
Proof.
  intros Hs Hd Hfs Hfd. unfold strpbrk. simpl.
  cut (forall f, (length s < f)%nat -> loop (strpbrk_body fuel m b) f a =
    Some (Some (if (length (take_while (fun c => negb (inset d c)) s) =? length s)%nat
                then NULL else a + len (take_while (fun c => negb (inset d c)) s)))).
  { intros H. by rewrite H. }
  clear Hfs. revert a Hs. induction s as [|c s IH]; intros a Hs [|f] Hf; simpl in Hf; try lia;
    simpl; unfold strpbrk_body at 1; rewrite ?cstr_nil, ?cstr_cons in Hs.
  - by rewrite Hs.
  - destruct Hs as (Hc & Ha & Hs). rewrite Ha, (proj2 (Z.eqb_neq c 0) Hc).
    destruct (member_spec m b d c fuel Hd Hc Hfd) as (x & -> & ->).
    destruct (inset d c); simpl; [do 2 f_equal; lia |]. rewrite IH by (done || lia).
    do 2 f_equal. case_match; [done | lia].
Qed.

(** The maximal runs of non-delimiters of a string, in order. *)
Definition flush (cur : list Z) : list (list Z) := match cur with [] => [] | _ => [cur] end.

Fixpoint tokens_from (d s cur : list Z) : list (list Z) :=
  match s with
  | [] => flush cur
  | c :: s' => if inset d c then flush cur ++ tokens_from d s' []
               else tokens_from d s' (cur ++ [c])
  end.

Definition tokens (d s : list Z) : list (list Z) := tokens_from d s [].

(** The usual caller of [strtok]: once with the string, then with NULL until
    it returns NULL.  The result is the final memory and the token pointers. *)
Fixpoint strtok_all (n fuel : nat) (m : mem) (___strtok s ct : Z) : option (mem * list Z) :=
  match n with
  | O => None
  | S n' =>
      match strtok fuel m ___strtok s ct with
      | None => None
      | Some r =>
          if tok_ret r =? NULL then Some (tok_mem r, [])
          else (fun '(m', l) => (m', tok_ret r :: l))
                 <$> strtok_all n' fuel (tok_mem r) (tok_next r) NULL ct
      end
  end.

Lemma tokens_skip d s : tokens d s = tokens d (drop_while (inset d) s).
Proof. unfold tokens. induction s as [|c s IH]; simpl; [done |].
  destruct (inset d c) eqn:E; simpl; by rewrite ?E. Qed.

Lemma tokens_take d s cur :
  tokens_from d s cur =
  let t := take_while (fun c => negb (inset d c)) s in
  flush (cur ++ t) ++ tokens d (drop (S (length t)) s).
Proof.
  revert cur. induction s as [|c s IH]; intros cur; simpl.
  - by rewrite !app_nil_r.
  - destruct (inset d c); simpl; [by rewrite app_nil_r |].
    rewrite IH. simpl. by rewrite <- app_assoc.
Qed.

Lemma cstr_drop m a s n : cstr m a s -> (n <= length s)%nat ->
  cstr m (a + Z.of_nat n) (drop n s).
Proof.
  revert a s. induction n as [|n IH]; intros a s Hs Hn; [by rewrite drop_0, Z.add_0_r |].
  destruct s as [|c s]; simpl in *; [lia |]. apply cstr_cons in Hs as (_ & _ & Hs).
  replace (a + Z.of_nat (S n)) with (a + 1 + Z.of_nat n) by lia. apply IH; [done | lia].
Qed.

(** Cutting a string at offset [n] leaves the prefix. *)
Lemma cstr_cut m a s n : cstr m a s -> (n <= length s)%nat ->
  cstr (store m (a + Z.of_nat n) 0) a (take n s).
Proof.
  intros Hs Hn. assert (Hl : length (take n s) = n) by (rewrite length_take; lia).
  split_and!.
  - rewrite Hl. rewrite <- (cstr_load m a s n) by done. apply load_ext. intros i Hi.
    apply store_ne. lia.
  - rewrite Hl. apply store_eq.
  - apply Forall_take. by destruct Hs as (_ & _ & ?).
Qed.

Lemma cstr_frame m m' a s :
  cstr m a s -> (forall x, a <= x <= a + len s -> m' x = m x) -> cstr m' a s.
Proof.
  intros Hs H. apply (cstr_ext m m' a a); [| done]. intros i Hi. symmetry. apply H. lia.
Qed.

(** One call, from a cursor that holds the string [s]. *)
Lemma strtok_step m st arg a b s d fuel :
  (if arg =? NULL then st else arg) = a -> 0 < a ->
  cstr m a s -> cstr m b d -> (length s < fuel)%nat -> (length d < fuel)%nat ->
  exists r, strtok fuel m st arg b = Some r /\
    match drop_while (inset d) s with
    | [] => r = StrtokResult m NULL NULL
    | u => let t := take_while (fun c => negb (inset d c)) u in
           let p := a + len (take_while (inset d) s) in
           tok_ret r = p /\ t <> [] /\
           if (length t =? length u)%nat then tok_mem r = m /\ tok_next r = NULL
           else tok_mem r = store m (p + len t) 0 /\ tok_next r = p + len t + 1
    end.
Proof.
  intros Harg Ha Hs Hd Hfs Hfd. unfold strtok. rewrite Harg.
  rewrite (proj2 (Z.eqb_neq a NULL)) by (unfold NULL; lia).
  rewrite (strspn_spec m a b s d) by done.
  set (k := length (take_while (inset d) s)).
  assert (Hk : (k <= length s)%nat).
  { unfold k. rewrite <- (take_drop_while (inset d) s) at 2. rewrite length_app. lia. }
  pose proof (cstr_drop m a s k Hs Hk) as Hu. unfold k in Hu.
  rewrite <- drop_while_drop in Hu. fold k in Hu.
  destruct (drop_while (inset d) s) as [|c u] eqn:Eu.
  - apply cstr_nil in Hu. rewrite Hu. simpl. by eexists.
  - assert (Hc := drop_while_head _ _ _ _ Eu).
    assert (Hlen : (length (c :: u) <= length s)%nat) by (rewrite <- Eu; apply drop_while_length).
    rewrite (proj2 (Z.eqb_neq (m (a + Z.of_nat k)) 0))
      by (apply cstr_cons in Hu as (? & -> & _); done).
    rewrite (strpbrk_spec m _ b (c :: u) d) by (done || lia).
    set (t := take_while (fun c => negb (inset d c)) (c :: u)).
    assert (Ht : t <> []) by (unfold t; simpl; by rewrite Hc).
    destruct (Nat.eqb_spec (length t) (length (c :: u))) as [E|E]; simpl.
    + eexists. split; [done |]. done.
    + assert ((length t < length (c :: u))%nat).
      { rewrite <- (take_drop_while (fun c => negb (inset d c)) (c :: u)) in E |- *.
        fold t in E |- *. rewrite length_app in E |- *. lia. }
      rewrite (proj2 (Z.eqb_neq (a + Z.of_nat k + len t) NULL)) by (unfold NULL; lia).
      rewrite (proj2 (Z.eqb_neq (m (a + Z.of_nat k + len t)) 0))
        by (apply (cstr_nonzero m _ _ _ Hu); lia). simpl. by eexists.
Qed.

Lemma strtok_all_spec b d fuel n s :
  (length s < n)%nat -> (length s < fuel)%nat -> (length d < fuel)%nat ->
  forall m st arg a, (if arg =? NULL then st else arg) = a -> 0 < a ->
  cstr m a s -> cstr m b d -> b + len d < a \/ a + len s < b ->
  exists m' ps, strtok_all n fuel m st arg b = Some (m', ps) /\
    Forall2 (cstr m') ps (tokens d s) /\
    same_on (fun x => x < a \/ a + len s < x) m m'.
Proof.
  revert s. induction n as [|n IH]; intros s Hn Hfs Hfd m st arg a Harg Ha Hs Hd Hdis; [lia |].
  cbn [strtok_all]. destruct (strtok_step m st arg a b s d fuel) as (r & -> & Hr); try done.
  rewrite tokens_skip. pose proof (cstr_drop m a s (length (take_while (inset d) s)) Hs) as Hu.
  rewrite <- drop_while_drop in Hu. set (k := length (take_while (inset d) s)) in *.
  assert (Hks : (k + length (drop_while (inset d) s) = length s)%nat).
  { unfold k. by rewrite <- length_app, take_drop_while. }
  specialize (Hu ltac:(lia)). destruct (drop_while (inset d) s) as [|c u] eqn:Eu.
  { subst r. simpl. exists m, []. split_and!; done. }
  set (w := c :: u) in *. set (t := take_while (fun c => negb (inset d c)) w) in *.
  destruct Hr as (Hret & Htne & Hrest). fold t in Htne, Hrest. rewrite Hret.
  rewrite (proj2 (Z.eqb_neq _ NULL)) by (unfold NULL; lia).
  unfold tokens. rewrite tokens_take. fold t. cbv zeta. rewrite app_nil_l.
  assert (Hft : flush t = [t]) by (by destruct t). rewrite Hft.
  destruct (Nat.eqb_spec (length t) (length w)) as [E|E].
  - destruct Hrest as [-> ->]. destruct n as [|n]; [simpl in *; lia |].
    rewrite drop_ge by lia. simpl. eexists m, [_]. split_and!; [done | | done].
    constructor; [| constructor]. replace t with w; [done |].
    rewrite <- (take_drop_while (fun c => negb (inset d c)) w) at 1. fold t.
    rewrite <- (take_drop_while (fun c => negb (inset d c)) w) in E. fold t in E.
    rewrite length_app in E. rewrite (nil_length_inv (drop_while _ w)) by lia. by rewrite app_nil_r.
  - destruct Hrest as [-> ->]. assert (Hlt : (length t < length w)%nat).
    { rewrite <- (take_drop_while (fun c => negb (inset d c)) w) in E |- *.
      fold t in E |- *. rewrite length_app in E |- *. lia. }
    set (p := a + Z.of_nat k) in *. set (q := p + len t) in *.
    destruct (IH (drop (S (length t)) w)) with (m := store m q 0) (st := q + 1) (arg := NULL)
      (a := q + 1) as (m' & ps & -> & HF & Hsame);
      try (rewrite length_drop; lia); try done; try lia.
    + pose proof (cstr_drop m p w (S (length t)) Hu ltac:(lia)) as Hx.
      replace (p + Z.of_nat (S (length t))) with (q + 1) in Hx by lia.
      apply (cstr_frame m); [done |]. intros x Hx'. apply store_ne. lia.
    + apply (cstr_frame m); [done |]. intros x Hx. apply store_ne. lia.
    + exists m', (p :: ps). split_and!; [done | |].
      * constructor; [| done]. apply (cstr_frame (store m q 0)).
        -- unfold q. rewrite <- (take_drop_while (fun c => negb (inset d c)) w) in Hu.
           fold t in Hu.
           pose proof (cstr_cut m p _ (length t) Hu) as Hcut. rewrite take_app_length in Hcut.
           apply Hcut. rewrite length_app. lia.
        -- intros x Hx. symmetry. apply Hsame. lia.
      * intros x Hx. rewrite <- Hsame by (rewrite length_drop; lia). symmetry. apply store_ne. lia.
Qed.

(** Calling [strtok] until it returns NULL terminates and yields, in
    order, pointers to exactly the maximal delimiter-free runs of the string,
    each NUL-terminated in the final memory; bytes outside the string are
    untouched. *)
Theorem strtok_enumerates m a b s d fuel :
  0 < a -> cstr m a s -> cstr m b d -> b + len d < a \/ a + len s < b ->
  (length s < fuel)%nat -> (length d < fuel)%nat ->
  exists m' ps, strtok_all (S (length s)) fuel m NULL a b = Some (m', ps) /\
    Forall2 (cstr m') ps (tokens d s) /\
    same_on (fun x => x < a \/ a + len s < x) m m'.
Proof.
  intros Ha Hs Hd Hdis Hfs Hfd.
  apply (strtok_all_spec b d fuel (S (length s)) s); try done; [lia |].
  by rewrite (proj2 (Z.eqb_neq a NULL)) by (unfold NULL; lia).
Qed.

(** ** The theorems at concrete memories *)

(** "root=/dev/ram" at 16 and "=/" at 64. *)
Definition demo_mem : mem :=
  store_list (store_list (fun _ => 0) 16 (str "root=/dev/ram")) 64 (str "=/").

Lemma demo_mem_s : cstr demo_mem 16 (str "root=/dev/ram").
Proof. cstr_eval. Defined.

Lemma demo_mem_d : cstr demo_mem 64 (str "=/").
Proof. cstr_eval. Defined.

Lemma memmove_block_copy_witness :
  meq (memmove demo_mem 18 16 5).1 (store_list demo_mem 18 (load demo_mem 16 5)) /\
  load (memmove demo_mem 18 16 5).1 16 8 = str "roroot=e".
Proof. split; [apply (memmove_block_copy demo_mem 18 16 5); lia | reflexivity]. Defined.

Lemma strcpy_copies_witness :
  exists m', strcpy 20 demo_mem 40 16 = Some (m', 40) /\
    meq m' (store_list demo_mem 40 (str "root=/dev/ram" ++ [0])) /\ cstr m' 40 (str "root=/dev/ram").
Proof.
  apply (strcpy_copies demo_mem 40 16 (str "root=/dev/ram") 20);
    [exact demo_mem_s | vm_compute; auto | vm_compute; lia].
Defined.

Lemma strncat_appends_witness :
  exists m', strncat 20 demo_mem 64 16 4 = Some (m', 64) /\ cstr m' 64 (str "=/root") /\
    (forall x, x < 64 + len (str "=/") \/ 64 + len (str "=/") + len (str "root=/dev/ram") < x ->
       m' x = demo_mem x).
Proof.
  apply (strncat_appends demo_mem 64 16 (str "=/") (str "root=/dev/ram") 4 20);
    [exact demo_mem_d | exact demo_mem_s | vm_compute; auto | lia | vm_compute; lia].
Defined.

Lemma strcmp_decides_witness :
  exists r, strcmp 20 demo_mem 16 64 = Some r /\ (r = 0 <-> str "root=/dev/ram" = str "=/") /\
    (Forall (fun c => c < 128) (str "root=/dev/ram") -> Forall (fun c => c < 128) (str "=/") ->
     (r ?= 0) = lex (str "root=/dev/ram") (str "=/")).
Proof.
  apply (strcmp_decides demo_mem 16 64 (str "root=/dev/ram") (str "=/") 20);
    [exact demo_mem_s | exact demo_mem_d | | | vm_compute; lia];
    by apply (bool_decide_eq_true_1 (Forall byte _)); vm_compute.
Defined.

Lemma strstr_first_witness :
  exists r, strstr 20 demo_mem 16 64 = Some r /\
    ((r = NULL /\ forall i, ~ occurs_at (str "=/") (str "root=/dev/ram") i) \/
     (exists i, r = 16 + Z.of_nat i /\ occurs_at (str "=/") (str "root=/dev/ram") i /\
        forall j, (j < i)%nat -> ~ occurs_at (str "=/") (str "root=/dev/ram") j)).
Proof.
  apply (strstr_first demo_mem 16 64 (str "root=/dev/ram") (str "=/") 20);
    [exact demo_mem_s | exact demo_mem_d | lia | vm_compute; lia | vm_compute; lia].
Defined.

Lemma strtok_enumerates_witness :
  exists m' ps, strtok_all 14 20 demo_mem NULL 16 64 = Some (m', ps) /\
    Forall2 (cstr m') ps [str "root"; str "dev"; str "ram"] /\
    same_on (fun x => x < 16 \/ 16 + 13 < x) demo_mem m'.
Proof.
  apply (strtok_enumerates demo_mem 16 64 (str "root=/dev/ram") (str "=/") 20);
    [lia | exact demo_mem_s | exact demo_mem_d | vm_compute; auto | vm_compute; lia | vm_compute; lia].
Defined.
