(* ===== verification/Div64.v ===== *)
(** * 64-bit division on the 32-bit core: lib_generic/div64.c, include/div64.h

    The OpenRISC has no 64-bit divide, so [do_div] calls the shift-and-subtract
    routine [__div64_32].  The theorem is that it computes the Euclidean
    quotient and remainder for every dividend and every non-zero divisor; the
    two loops run at most 33 times each, and the fuel is 64. *)

From S2P Require Import Prelude.

Local Open Scope Z_scope.

(** [while ((int64_t)b > 0 && b < rem) { b = b+b; d = d+d; }] *)
Definition div64_scale (rem : Z) (s : Z * Z) : (Z * Z) + (Z * Z) :=
  let '(b, d) := s in
  if (0 <? swrap 64 b) && (b <? rem) then inl (u64 (b + b), u64 (d + d)) else inr (b, d).

(** [do { if (rem >= b) ... b >>= 1; d >>= 1; } while (d);] *)
Definition div64_subtract (s : Z * Z * Z * Z) : (Z * Z * Z * Z) + (Z * Z) :=
  let '(rem, res, b, d) := s in
  let '(rem, res) := if b <=? rem then (u64 (rem - b), u64 (res + d)) else (rem, res) in
  let b := Z.shiftr b 1 in
  let d := Z.shiftr d 1 in
  if d =? 0 then inr (res, rem) else inl (rem, res, b, d).

(** The new value of [*n] and the returned remainder. *)
Definition __div64_32 (n base : Z) : option (Z * Z) :=
  let rem := n in
  let high := u32 (Z.shiftr rem 32) in
  let '(res, rem) :=
    if base <=? high
    then let high := high / base in
         (u64 (Z.shiftl high 32), u64 (rem - u64 (Z.shiftl (u32 (high * base)) 32)))
    else (0, rem) in
  match loop (div64_scale rem) 64 (base, 1) with
  | None => None
  | Some (b, d) =>
      match loop div64_subtract 64 (rem, res, b, d) with
      | None => None
      | Some (res, rem) => Some (res, u32 rem)
      end
  end.

(** [do_div(n, base)]: the fast path for a dividend of 32 bits. *)
Definition do_div (n base : Z) : option (Z * Z) :=
  if Z.shiftr n 32 =? 0 then Some (u32 n / base, u32 n mod base) else __div64_32 n base.

Definition lldiv (dividend divisor : Z) : option Z := fst <$> do_div dividend divisor.

Lemma shiftr_half x : Z.shiftr x 1 = x / 2.
Proof. by rewrite Z.shiftr_div_pow2 by lia. Qed.

Lemma div64_scale_total base rem : 0 < base < 2 ^ 32 -> 0 <= rem < base * 2 ^ 32 ->
  exists bd, loop (div64_scale rem) 64 (base, 1) = Some bd /\
    exists k, 0 <= k <= 32 /\ bd = (base * 2 ^ k, 2 ^ k) /\ rem < 2 * (base * 2 ^ k).
Proof.
  intros Hb Hr.
  apply (loop_total (div64_scale rem) (fun n s => exists k, 0 <= k <= 32 /\
     (Z.of_nat n = 32 - k)%Z /\ s = (base * 2 ^ k, 2 ^ k)) _) with (n := 32%nat);
    [| by exists 0; rewrite Z.mul_1_r | lia].
  intros n s (k & Hk & Hn & ->). simpl.
  assert (0 < 2 ^ k <= 2 ^ 32) by (split; [lia | apply Z.pow_le_mono_r; lia]).
  assert (base * 2 ^ k < 2 ^ 64) by nia.
  destruct (Z.ltb_spec 0 (swrap 64 (base * 2 ^ k))); simpl.
  - destruct (Z.ltb_spec (base * 2 ^ k) rem).
    + assert (k < 32) by (destruct (Z.eq_dec k 32); [subst k; lia | lia]).
      exists (Nat.pred n). split; [lia |]. exists (k + 1). rewrite Z.pow_add_r by lia.
      assert (2 ^ k <= 2 ^ 31) by (apply Z.pow_le_mono_r; lia).
      split_and!; [lia.. |]. f_equal; rewrite wrap_small by nia; lia.
    + exists k. split_and!; [lia.. | done | lia].
  - exists k. split_and!; [lia.. | done |].
    assert (base * 2 ^ k >= 2 ^ 63) by (unfold swrap in *; Z.div_mod_to_equations; lia).
    destruct (Z.eq_dec k 32) as [->|]; [lia |].
    assert (2 ^ k <= 2 ^ 31) by (apply Z.pow_le_mono_r; lia). nia.
Qed.

(** One subtraction step keeps [n = res * base + rem] and halves the bound. *)
Lemma div64_subtract_step base n rem res k :
  0 < base < 2 ^ 32 -> 0 <= n < 2 ^ 64 -> 0 <= k <= 32 -> 0 <= res ->
  n = res * base + rem -> 0 <= rem < 2 * (base * 2 ^ k) ->
  let '(rem', res') := if base * 2 ^ k <=? rem
                       then (u64 (rem - base * 2 ^ k), u64 (res + 2 ^ k)) else (rem, res) in
  0 <= res' /\ n = res' * base + rem' /\ 0 <= rem' < base * 2 ^ k.
Proof.
  intros Hb Hn Hk Hres Heq Hrem. assert (0 < 2 ^ k) by lia.
  destruct (Z.leb_spec (base * 2 ^ k) rem); [| lia].
  assert (0 <= (res + 2 ^ k) * base <= n) by nia.
  rewrite !wrap_small by nia. split_and!; nia.
Qed.

Lemma div64_subtract_total base n rem res k :
  0 < base < 2 ^ 32 -> 0 <= n < 2 ^ 64 -> 0 <= k <= 32 -> 0 <= res ->
  n = res * base + rem -> 0 <= rem < 2 * (base * 2 ^ k) ->
  exists r, loop div64_subtract 64 (rem, res, base * 2 ^ k, 2 ^ k) = Some r /\
    r = (n / base, n mod base).
Proof.
  intros Hb Hn Hk Hres Heq Hrem.
  apply (loop_total div64_subtract (fun i s => exists k rem res,
      0 <= k <= 32 /\ Z.of_nat i = k /\ 0 <= res /\ n = res * base + rem /\
      0 <= rem < 2 * (base * 2 ^ k) /\ s = (rem, res, base * 2 ^ k, 2 ^ k)) _)
    with (n := Z.to_nat k); [| by exists k, rem, res; split_and!; try lia | lia].
  clear k Hk rem res Hres Heq Hrem. intros i s (k & rem & res & Hk & Hi & Hres & Heq & Hrem & ->).
  pose proof (div64_subtract_step base n rem res k Hb Hn Hk Hres Heq Hrem) as Hstep.
  unfold div64_subtract. destruct (if base * 2 ^ k <=? rem then _ else _) as [rem' res'].
  destruct Hstep as (Hres' & Heq' & Hrem'). rewrite !shiftr_half.
  destruct (Z.eq_dec k 0) as [->|Hk0].
  - simpl. rewrite Z.mul_1_r in Hrem'. f_equal.
    + apply (Z.div_unique _ _ _ rem'); lia.
    + apply (Z.mod_unique _ _ res'); lia.
  - assert (E : 2 ^ k = 2 * 2 ^ (k - 1)) by (rewrite <- Z.pow_succ_r by lia; f_equal; lia).
    assert (0 < 2 ^ (k - 1)) by lia.
    replace (2 ^ k / 2) with (2 ^ (k - 1)) by (rewrite E, Z.mul_comm, Z.div_mul; lia).
    replace (base * 2 ^ k / 2) with (base * 2 ^ (k - 1))
      by (rewrite E; replace (base * (2 * 2 ^ (k - 1))) with (base * 2 ^ (k - 1) * 2) by lia;
          rewrite Z.div_mul; lia).
    rewrite (proj2 (Z.eqb_neq _ 0)) by lia. exists (Nat.pred i). split; [lia |].
    exists (k - 1), rem', res'. split_and!; try lia. done.
Qed.

(** Reducing the upper word first leaves a remainder below [base * 2^32]. *)
Lemma div64_reduce n base : 0 <= n < 2 ^ 64 -> 0 < base < 2 ^ 32 ->
  let high := u32 (Z.shiftr n 32) in
  let '(res, rem) :=
    if base <=? high
    then (u64 (Z.shiftl (high / base) 32),
          u64 (n - u64 (Z.shiftl (u32 (high / base * base)) 32)))
    else (0, n) in
  0 <= res /\ n = res * base + rem /\ 0 <= rem < base * 2 ^ 32.
Proof.
  intros Hn Hb. cbv zeta. rewrite Z.shiftr_div_pow2 by lia.
  rewrite (wrap_small 32 (n / 2 ^ 32)) by
    (split; [apply Z.div_pos; lia | apply Z.div_lt_upper_bound; lia]).
  set (h := n / 2 ^ 32). assert (Hh : n = 2 ^ 32 * h + n mod 2 ^ 32) by (apply Z.div_mod; lia).
  pose proof (Z.mod_pos_bound n (2 ^ 32) ltac:(lia)).
  destruct (Z.leb_spec base h); [| nia].
  assert (Hq : h = base * (h / base) + h mod base) by (apply Z.div_mod; lia).
  pose proof (Z.mod_pos_bound h base ltac:(lia)). assert (0 <= h / base) by (apply Z.div_pos; lia).
  set (q := h / base) in *. rewrite !Z.shiftl_mul_pow2 by lia.
  rewrite (wrap_small 32 (q * base)) by nia. rewrite !wrap_small by (rewrite ?wrap_small; nia).
  split_and!; nia.
Qed.

Lemma div64_32_correct n base : 0 <= n < 2 ^ 64 -> 0 < base < 2 ^ 32 ->
  __div64_32 n base = Some (n / base, n mod base).
Proof.
  intros Hn Hb. unfold __div64_32. pose proof (div64_reduce n base Hn Hb) as Hred. cbv zeta in *.
  destruct (if base <=? u32 (Z.shiftr n 32) then _ else _) as [res rem].
  destruct Hred as (Hres & Heq & Hrem).
  destruct (div64_scale_total base rem Hb Hrem) as (? & -> & k & Hk & -> & Hlt).
  destruct (div64_subtract_total base n rem res k) as (? & -> & ->); try done; [lia |].
  do 2 f_equal. apply wrap_small. pose proof (Z.mod_pos_bound n base ltac:(lia)). lia.
Qed.

(** For every 64-bit dividend and every non-zero 32-bit divisor, [do_div]
    (through [__div64_32] when the dividend exceeds 32 bits) terminates and
    yields the quotient and the remainder of the Euclidean division, and so
    does [lldiv] for the quotient. *)
Theorem do_div_euclid n base : 0 <= n < 2 ^ 64 -> 0 < base < 2 ^ 32 ->
  __div64_32 n base = Some (n / base, n mod base) /\
  do_div n base = Some (n / base, n mod base) /\ lldiv n base = Some (n / base).
Proof.
  intros Hn Hb. assert (Hd : do_div n base = Some (n / base, n mod base)).
  { unfold do_div. destruct (Z.eqb_spec (Z.shiftr n 32) 0) as [E|]; [| by apply div64_32_correct].
    rewrite Z.shiftr_div_pow2 in E by lia. apply Z.div_small_iff in E; [| lia].
    by rewrite wrap_small by lia. }
  split_and!; [by apply div64_32_correct | done |]. unfold lldiv. by rewrite Hd.
Qed.

Lemma do_div_euclid_witness :
  __div64_32 (10 ^ 18 + 7) 1000000000 = Some (1000000000, 7) /\
  do_div (10 ^ 18 + 7) 1000000000 = Some (1000000000, 7) /\
  lldiv (10 ^ 18 + 7) 1000000000 = Some 1000000000.
Proof. apply (do_div_euclid (10 ^ 18 + 7) 1000000000); lia. Defined.
