(* ===== verification/Vsprintf.v ===== *)
(** * Number parsing and formatting: lib_generic/vsprintf.c

    A [const char *] into a NUL-terminated string is the list of the bytes up
    to the NUL, so [*cp] of the empty list is the NUL.  [unsigned long] has 32
    bits on the OpenRISC.  Output routines return the bytes they append.
    [CONFIG_SYS_64BIT_VSPRINTF] is not set in the board's configuration, and
    [panic], which prints and resets, is not modelled.

    The theorems: printing and reading back is the identity for every value,
    width, precision and base the boot loader uses; a field never comes out
    narrower than asked; [vsprintf] consumes every format. *)

From S2P Require Import Prelude Ctype.

Local Open Scope Z_scope.

(** [*cp] and [cp[1]]. *)
Definition chr (cp : list Z) : Z := nthZ cp 0.
Definition chr1 (cp : list Z) : Z := nthZ cp 1.

(** ** Reading numbers *)

(** [value = isdigit(c) ? c-'0' : (islower(c) ? toupper(c) : c)-'A'+10] *)
Definition digit_value (c : Z) : Z :=
  u32 (if isdigit c then c - 48 else (if islower c then toupper c else c) - 65 + 10).

Fixpoint strtoul_loop (base result : Z) (cp : list Z) : Z * list Z :=
  match cp with
  | [] => (result, [])
  | c :: cp' =>
      if isxdigit c && (digit_value c <? base)
      then strtoul_loop base (u32 (u32 (result * base) + digit_value c)) cp'
      else (result, cp)
  end.

(** The value and the final [*endp]. *)
Definition simple_strtoul (cp : list Z) (base : Z) : Z * list Z :=
  let '(cp, base) :=
    if chr cp =? 48 (* '0' *) then
      let cp := tail cp in
      let '(cp, base) :=
        if (chr cp =? 120 (* 'x' *)) && isxdigit (chr1 cp) then (tail cp, 16) else (cp, base) in
      (cp, if base =? 0 then 8 else base)
    else (cp, base) in
  let base := if base =? 0 then 10 else base in
  strtoul_loop base 0 cp.

Definition simple_strtol (cp : list Z) (base : Z) : Z * list Z :=
  if chr cp =? 45 (* '-' *) then
    let '(v, e) := simple_strtoul (tail cp) base in (s32 (- v), e)
  else let '(v, e) := simple_strtoul cp base in (s32 v, e).

Definition ustrtoul (cp : list Z) (base : Z) : Z * list Z :=
  let '(result, e) := simple_strtoul cp base in
  let c := chr e in
  let scale r := u32 (r * 1024) in
  (* the cases 'G', 'M', 'K'/'k' fall through *)
  let result := if c =? 71 then scale result else result in
  let result := if (c =? 71) || (c =? 77) then scale result else result in
  if (c =? 71) || (c =? 77) || (c =? 75) || (c =? 107) then
    let result := scale result in
    let e := if chr1 e =? 105 (* 'i' *)
             then if nthZ e 2 =? 66 (* 'B' *) then drop 3 e else drop 2 e
             else e in
    (s32 result, e)
  else (s32 result, e).

Definition is_digit (c : Z) : bool := (48 <=? c) && (c <=? 57).

Fixpoint skip_atoi_loop (i : Z) (s : list Z) : Z * list Z :=
  match s with
  | [] => (i, [])
  | c :: s' => if is_digit c then skip_atoi_loop (s32 (s32 (i * 10) + c - 48)) s' else (i, s)
  end.

Definition skip_atoi (s : list Z) : Z * list Z := skip_atoi_loop 0 s.

(** ** Printing numbers *)

Definition ZEROPAD : Z := 1.
Definition SIGN : Z := 2.
Definition PLUS : Z := 4.
Definition SPACE : Z := 8.
Definition LEFT : Z := 16.
Definition SPECIAL : Z := 32.
Definition LARGE : Z := 64.

Definition has (type flag : Z) : bool := negb (Z.land type flag =? 0).

Definition lower_digits : list Z := str "0123456789abcdefghijklmnopqrstuvwxyz".
Definition upper_digits : list Z := str "0123456789ABCDEFGHIJKLMNOPQRSTUVWXYZ".

(** [while (num != 0) tmp[i++] = digits[do_div(num,base)];] on the unsigned
    value of [num], least significant digit first. *)
Fixpoint number_digits (fuel : nat) (digits : list Z) (num base : Z) : list Z :=
  match fuel with
  | O => []
  | S f => if num =? 0 then []
           else nthZ digits (num mod base) :: number_digits f digits (num / base) base
  end.

(** [while (v-- > 0) *str++ = c;]: what is written and the final [v]. *)
Definition pad (v c : Z) : list Z * Z := (replicate (Z.to_nat v) c, Z.min v 0 - 1).

(** The bytes [number] writes; [None] is its NULL return. *)
Definition number (num base size precision type : Z) : option (list Z) :=
  let digits := if has type LARGE then upper_digits else lower_digits in
  let type := if has type LEFT then Z.ldiff type ZEROPAD else type in
  if (base <? 2) || (36 <? base) then None
  else
    let c := if has type ZEROPAD then 48 else 32 in
    let '(sign, num, size) :=
      if has type SIGN then
        if num <? 0 then (45, s32 (- num), size - 1)
        else if has type PLUS then (43, num, size - 1)
        else if has type SPACE then (32, num, size - 1)
        else (0, num, size)
      else (0, num, size) in
    let size :=
      if has type SPECIAL then
        if base =? 16 then size - 2 else if base =? 8 then size - 1 else size
      else size in
    let tmp := if num =? 0 then [48] else number_digits 66 digits (u32 num) base in
    let i := len tmp in
    let precision := if precision <? i then i else precision in
    let size := size - precision in
    let '(out1, size) :=
      if negb (has type (ZEROPAD + LEFT)) then pad size 32 else ([], size) in
    let out2 := if sign =? 0 then [] else [sign] in
    let out3 :=
      if has type SPECIAL then
        if base =? 8 then [48] else if base =? 16 then [48; nthZ digits 33] else []
      else [] in
    let '(out4, size) := if negb (has type LEFT) then pad size c else ([], size) in
    let out5 := replicate (Z.to_nat (precision - i)) 48 in
    let out6 := rev tmp in
    let '(out7, _) := pad size 32 in
    Some (out1 ++ out2 ++ out3 ++ out4 ++ out5 ++ out6 ++ out7).

(** ** The format interpreter *)

(** A variadic argument: a word (any integer or pointer) or a [char *]. *)
Inductive va :=
| VWord (v : Z)
| VStr (s : option (list Z)).

(** [repeat:]: the flag characters after the percent sign. *)
Fixpoint fmt_flags (fmt : list Z) (flags : Z) : Z * list Z :=
  match fmt with
  | [] => (flags, [])
  | c :: fmt' =>
      if c =? 45 then fmt_flags fmt' (Z.lor flags LEFT)
      else if c =? 43 then fmt_flags fmt' (Z.lor flags PLUS)
      else if c =? 32 then fmt_flags fmt' (Z.lor flags SPACE)
      else if c =? 35 then fmt_flags fmt' (Z.lor flags SPECIAL)
      else if c =? 48 then fmt_flags fmt' (Z.lor flags ZEROPAD)
      else (flags, fmt)
  end.

(** Field width: the new flags, width, format and arguments. *)
Definition fmt_width (fmt : list Z) (flags : Z) (args : list va)
    : option (Z * Z * list Z * list va) :=
  if is_digit (chr fmt) then
    let '(w, fmt) := skip_atoi fmt in Some (flags, w, fmt, args)
  else if chr fmt =? 42 then
    match args with
    | VWord v :: args =>
        let w := s32 v in
        if w <? 0 then Some (Z.lor flags LEFT, s32 (- w), tail fmt, args)
        else Some (flags, w, tail fmt, args)
    | _ => None
    end
  else Some (flags, -1, fmt, args).

Definition fmt_precision (fmt : list Z) (args : list va) : option (Z * list Z * list va) :=
  if chr fmt =? 46 then
    let fmt := tail fmt in
    if is_digit (chr fmt) then
      let '(p, fmt) := skip_atoi fmt in Some (Z.max 0 p, fmt, args)
    else if chr fmt =? 42 then
      match args with
      | VWord v :: args => Some (Z.max 0 (s32 v), tail fmt, args)
      | _ => None
      end
    else Some (0, fmt, args)
  else Some (-1, fmt, args).

Definition fmt_qualifier (fmt : list Z) : Z * list Z :=
  let c := chr fmt in
  if existsb (Z.eqb c) (str "hlLZztq") then
    if (c =? 108) && (chr1 fmt =? 108) then (113, drop 2 fmt) else (c, tail fmt)
  else (-1, fmt).

(** [while (--field_width > 0)] and [while (len < field_width--)] *)
Definition pad_c (w : Z) : list Z * Z := (replicate (Z.to_nat (w - 1)) 32, Z.min (w - 1) 0).
Definition pad_s (n w : Z) : list Z * Z := (replicate (Z.to_nat (w - n)) 32, Z.min w n - 1).

Definition fmt_char (flags width v : Z) : list Z :=
  let '(o1, width) := if negb (has flags LEFT) then pad_c width else ([], width) in
  o1 ++ [u8 v] ++ (pad_c width).1.

(** [strnlen(s, precision)]: the precision -1 is the largest [size_t]. *)
Definition fmt_string (flags width precision : Z) (s : option (list Z)) : list Z :=
  let s := match s with Some s => s | None => str "<NULL>" end in
  let n := Z.min (len s) (u32 precision) in
  let '(o1, width) := if negb (has flags LEFT) then pad_s n width else ([], width) in
  o1 ++ take (Z.to_nat n) s ++ (pad_s n width).1.

(** The value an integer conversion passes to [number]. *)
Definition fmt_word (flags qualifier v : Z) : Z :=
  if qualifier =? 104 (* 'h' *) then
    if has flags SIGN then swrap 16 (u16 v) else u16 v
  else s32 v.

(** One directive, after its percent sign: what it appends, the stores made
    by %n, the format after it and the arguments left. *)
Definition fmt_directive (pos : Z) (fmt : list Z) (args : list va)
    : option (list Z * list (Z * Z) * list Z * list va) :=
  let '(flags, fmt) := fmt_flags fmt 0 in
  match fmt_width fmt flags args with
  | None => None
  | Some (flags, width, fmt, args) =>
  match fmt_precision fmt args with
  | None => None
  | Some (precision, fmt, args) =>
  let '(qualifier, fmt) := fmt_qualifier fmt in
  let c := chr fmt in
  let integer flags base :=
    match args with
    | VWord v :: args =>
        match number (fmt_word flags qualifier v) base width precision flags with
        | Some out => Some (out, [], tail fmt, args)
        | None => None
        end
    | _ => None
    end in
  if c =? 99 (* 'c' *) then
    match args with
    | VWord v :: args => Some (fmt_char flags width v, [], tail fmt, args)
    | _ => None
    end
  else if c =? 115 (* 's' *) then
    match args with
    | VStr s :: args => Some (fmt_string flags width precision s, [], tail fmt, args)
    | _ => None
    end
  else if c =? 112 (* 'p' *) then
    match args with
    | VWord v :: args =>
        let '(flags, width) :=
          if width =? -1 then (Z.lor flags ZEROPAD, 8) else (flags, width) in
        match number (s32 v) 16 width precision flags with
        | Some out => Some (out, [], tail fmt, args)
        | None => None
        end
    | _ => None
    end
  else if c =? 110 (* 'n' *) then
    match args with
    | VWord ip :: args => Some ([], [(ip, pos)], tail fmt, args)
    | _ => None
    end
  else if c =? 37 then Some ([37], [], tail fmt, args)
  else if c =? 111 (* 'o' *) then integer flags 8
  else if c =? 88 (* 'X' *) then integer (Z.lor flags LARGE) 16
  else if c =? 120 (* 'x' *) then integer flags 16
  else if (c =? 100) || (c =? 105) (* 'd', 'i' *) then integer (Z.lor flags SIGN) 10
  else if c =? 117 (* 'u' *) then integer flags 10
  else match fmt with
       | [] => Some ([37], [], [], args)
       | d :: fmt' => Some ([37; d], [], fmt', args)
       end
  end
  end.

(** [vsprintf]: the bytes before the final NUL and the stores of %n.  [None]
    is a directive without an argument of its type, which is undefined. *)
Fixpoint vsprintf_loop (fuel : nat) (out : list Z) (stores : list (Z * Z))
    (fmt : list Z) (args : list va) : option (list Z * list (Z * Z)) :=
  match fuel, fmt with
  | O, _ => None
  | _, [] => Some (out, stores)
  | S f, c :: fmt' =>
      if negb (c =? 37) then vsprintf_loop f (out ++ [c]) stores fmt' args
      else match fmt_directive (len out) fmt' args with
           | None => None
           | Some (o, st, fmt', args) => vsprintf_loop f (out ++ o) (stores ++ st) fmt' args
           end
  end.

Definition vsprintf (fmt : list Z) (args : list va) : option (list Z * list (Z * Z)) :=
  vsprintf_loop (S (length fmt)) [] [] fmt args.

(** [sprintf]: the buffer's contents with the NUL, and the returned length. *)
Definition sprintf (fmt : list Z) (args : list va) : option (list Z * Z) :=
  (fun r => (r.1 ++ [0], len r.1)) <$> vsprintf fmt args.

(** ** Digits *)

(** The value of a list of digits, most significant first. *)
Definition digits_val (base : Z) (ds : list Z) : Z := fold_left (fun a d => a * base + d) ds 0.

(** The digit numbers [number_digits] selects, least significant first. *)
Fixpoint digits_of (fuel : nat) (num base : Z) : list Z :=
  match fuel with
  | O => []
  | S f => if num =? 0 then [] else num mod base :: digits_of f (num / base) base
  end.

Lemma number_digits_map f digits num base :
  number_digits f digits num base = map (nthZ digits) (digits_of f num base).
Proof. revert num. induction f as [|f IH]; intros num; simpl; [done |]. case_match; simpl; by rewrite ?IH. Qed.

Lemma digits_of_range f num base : 0 < base -> Forall (fun d => 0 <= d < base) (digits_of f num base).
Proof.
  intros Hb. revert num. induction f as [|f IH]; intros num; simpl; [done |].
  case_match; [done |]. constructor; [by apply Z.mod_pos_bound | apply IH].
Qed.

Lemma digits_of_nonempty f num base : num <> 0 -> rev (digits_of (S f) num base) <> [].
Proof.
  intros Hn. simpl. rewrite (proj2 (Z.eqb_neq num 0) Hn). simpl. by intros [_ ?]%app_nil.
Qed.

Lemma digits_val_snoc base ds d : digits_val base (ds ++ [d]) = digits_val base ds * base + d.
Proof. unfold digits_val. by rewrite fold_left_app. Qed.

Lemma digits_of_val f num base : 2 <= base -> 0 <= num < base ^ Z.of_nat f ->
  digits_val base (rev (digits_of f num base)) = num.
Proof.
  intros Hb. revert num. induction f as [|f IH]; intros num Hn; simpl.
  - change (base ^ Z.of_nat 0) with 1 in Hn. unfold digits_val. simpl. lia.
  - destruct (Z.eqb_spec num 0) as [->|]; [done |]. simpl.
    replace (Z.of_nat (S f)) with (Z.of_nat f + 1) in Hn by lia. rewrite Z.pow_add_r in Hn by lia.
    rewrite digits_val_snoc, IH.
    + pose proof (Z.div_mod num base ltac:(lia)). lia.
    + split; [apply Z.div_pos; lia | apply Z.div_lt_upper_bound; lia].
Qed.

Lemma digits_val_zeros base n ds : digits_val base (replicate n 0 ++ ds) = digits_val base ds.
Proof. unfold digits_val. induction n as [|n IH]; simpl; [done | apply IH]. Qed.

(** ** Reading back digits *)

(** [dchar c d]: the character [c] is read as the digit [d]. *)
Definition dchar (c d : Z) : Prop := isxdigit c = true /\ digit_value c = d /\ c <> 120.

Lemma digit_chars d : 0 <= d < 16 -> dchar (nthZ lower_digits d) d /\ dchar (nthZ upper_digits d) d.
Proof.
  intros Hd. assert (Hall : forallb (fun d =>
    isxdigit (nthZ lower_digits d) && (digit_value (nthZ lower_digits d) =? d) &&
    negb (nthZ lower_digits d =? 120) &&
    (isxdigit (nthZ upper_digits d) && (digit_value (nthZ upper_digits d) =? d) &&
    negb (nthZ upper_digits d =? 120))) (seqZ 0 16) = true) by (by vm_compute).
  rewrite forallb_forall in Hall. specialize (Hall d).
  rewrite <- list_elem_of_In, elem_of_seqZ in Hall. specialize (Hall ltac:(lia)).
  unfold dchar. zb. done.
Qed.

(** The parser stops at the first character of [rest]. *)
Definition stops (rest : list Z) : Prop := isxdigit (chr rest) = false /\ chr rest <> 120.

Lemma strtoul_loop_range base cp : forall r, 0 <= r < 2 ^ 32 -> 0 <= (strtoul_loop base r cp).1 < 2 ^ 32.
Proof.
  induction cp as [|c cp IH]; intros r Hr; cbn [strtoul_loop]; [done |]. destruct (_ && _); [| done]. apply IH, wrap_range. lia.
Qed.

(** Any text gives an [unsigned long]. *)
Lemma simple_strtoul_range cp base : 0 <= (simple_strtoul cp base).1 < 2 ^ 32.
Proof.
  unfold simple_strtoul. destruct (if chr cp =? 48 then _ else _) as [cp' b]. apply strtoul_loop_range. lia.
Qed.

Lemma strtoul_loop_digits base cs ds rest r :
  Forall2 dchar cs ds -> Forall (fun d => 0 <= d < base) ds -> stops rest ->
  strtoul_loop base (u32 r) (cs ++ rest) =
  (u32 (fold_left (fun a d => a * base + d) ds r), rest).
Proof.
  intros HF. revert r. induction HF as [|c d cs ds (Hx & Hv & _) HF IH]; intros r Hd Hs; simpl.
  - destruct rest as [|c rest]; [done |]. destruct Hs as [Hs _]. simpl. 
    change (isxdigit c = false) in Hs. by rewrite Hs.
  - apply Forall_cons in Hd as [Hd0 Hd]. rewrite Hx, Hv, (proj2 (Z.ltb_lt d base)) by lia.
    rewrite wrap_mul_l, wrap_add_l. by apply IH.
Qed.

Lemma simple_strtoul_digits base cs ds rest :
  base <> 0 -> Forall2 dchar cs ds -> Forall (fun d => 0 <= d < base) ds -> ds <> [] ->
  stops rest -> simple_strtoul (cs ++ rest) base = (u32 (digits_val base ds), rest).
Proof.
  intros Hb HF Hd Hne Hs. destruct HF as [|c d cs ds (Hx & Hv & Hc) HF]; [done |].
  unfold simple_strtoul, digits_val. rewrite <- app_comm_cons. change (chr (c :: cs ++ rest)) with c.
  destruct (Z.eqb_spec c 48) as [->|].
  - change (digit_value 48) with 0 in Hv. subst d. simpl tail.
    assert (Hnx : (chr (cs ++ rest) =? 120) = false).
    { apply Z.eqb_neq. destruct HF as [|c' d' cs' ds' (_ & _ & Hc') _]; [by apply Hs | done]. }
    rewrite Hnx. cbn [andb]. rewrite !(proj2 (Z.eqb_neq base 0) Hb).
    apply Forall_cons in Hd as [_ Hd]. apply (strtoul_loop_digits base cs ds rest 0); done.
  - rewrite !(proj2 (Z.eqb_neq base 0) Hb).
    apply (strtoul_loop_digits base (c :: cs) (d :: ds) rest 0); [| done..]. by constructor.
Qed.
Example sprintf_hex : sprintf (str "%08lx:%-4d|%5.3u") [VWord 0xbeef; VWord (-7); VWord 42]
  = Some (str "0000beef:-7  |  042" ++ [0], 19).
Proof. reflexivity. Qed.
Example sprintf_str : sprintf (str "%s=%.3s%c%p") [VStr (Some (str "ip")); VStr (Some (str "abcdef")); VWord 33; VWord 0x1234]
  = Some (str "ip=abc!00001234" ++ [0], 15).
Proof. reflexivity. Qed.

(** ** Formatting *)

Lemma u32_s32 x : 0 <= x < 2 ^ 32 -> u32 (s32 x) = x.
Proof. intros. wrap_lia. Qed.

Lemma s32_zero x : 0 <= x < 2 ^ 32 -> s32 x = 0 <-> x = 0.
Proof. intros. wrap_lia. Qed.

(** The digits [number] prints for the unsigned value [num]. *)
Lemma number_tmp type num base :
  let digits := if has type LARGE then upper_digits else lower_digits in
  0 <= num < 2 ^ 32 -> 2 <= base <= 16 ->
  let tmp := if s32 num =? 0 then [48] else number_digits 66 digits (u32 (s32 num)) base in
  exists ds, Forall2 dchar (rev tmp) ds /\ Forall (fun d => 0 <= d < base) ds /\
             ds <> [] /\ digits_val base ds = num.
Proof.
  intros digits Hn Hb tmp. unfold tmp. set (fuel := 66%nat). rewrite u32_s32 by done.
  destruct (Z.eqb_spec (s32 num) 0) as [E|E]; rewrite s32_zero in E by done.
  - subst num. exists [0]. split_and!; [by repeat constructor | repeat constructor; lia | done | done].
  - exists (rev (digits_of fuel num base)).
    pose proof (digits_of_range fuel num base ltac:(lia)) as Hr. split_and!.
    + rewrite number_digits_map, <- map_rev. apply Forall_rev in Hr.
      induction Hr as [|d ds Hd _ IH]; simpl; constructor; [| done].
      unfold digits. destruct (digit_chars d ltac:(lia)). by destruct (has type LARGE).
    + by apply Forall_rev.
    + by apply (digits_of_nonempty 65).
    + apply digits_of_val; [lia |]. split; [lia |].
      apply Z.lt_le_trans with (2 ^ 66); [lia | apply Z.pow_le_mono_l; lia].
Qed.

(** Unsigned conversions without flags other than zero padding: blanks, then
    text that reads back as the number. *)
Lemma number_reads_back num base size precision type rest :
  base = 8 \/ base = 10 \/ base = 16 -> 0 <= num < 2 ^ 32 ->
  has type SIGN = false -> has type SPECIAL = false -> has type LEFT = false -> stops rest ->
  exists k ds, number (s32 num) base size precision type = Some (replicate k 32 ++ ds) /\
    simple_strtoul (ds ++ rest) base = (num, rest) /\
    (has type ZEROPAD = true \/ size <= 0 -> k = O).
Proof.
  intros Hb Hn Hsg Hsp Hl Hs. unfold number. rewrite Hl, Hsg, Hsp.
  rewrite (proj2 (Z.ltb_ge base 2)), (proj2 (Z.ltb_ge 36 base)) by lia. cbn [orb].
  destruct (number_tmp type num base Hn ltac:(lia)) as (ds & HF & Hr & Hne & Hv).
  set (tmp := if s32 num =? 0 then _ else _) in *.
  set (prec := if precision <? len tmp then len tmp else precision).
  assert (Hread : forall z, simple_strtoul ((replicate z 48 ++ rev tmp) ++ rest) base = (num, rest)).
  { intros z. rewrite (simple_strtoul_digits base _ (replicate z 0 ++ ds)); [| lia | | | | done].
    - by rewrite digits_val_zeros, Hv, wrap_small.
    - apply Forall2_app; [| done]. apply Forall2_replicate. split_and!; done.
    - apply Forall_app. split; [apply Forall_replicate; lia | done].
    - by intros [_ ?]%app_nil. }
  assert (Htl : has type (ZEROPAD + LEFT) = has type ZEROPAD).
  { unfold has in *. change (ZEROPAD + LEFT) with (Z.lor ZEROPAD LEFT).
    rewrite Z.land_lor_distr_r. zb. by rewrite Hl, Z.lor_0_r. }
  rewrite Htl. destruct (has type ZEROPAD) eqn:Hz; rewrite ?Hl; cbn [negb pad fst snd app Z.eqb].
  - exists O, ((replicate (Z.to_nat (size - prec)) 48 ++ replicate (Z.to_nat (prec - len tmp)) 48)
                 ++ rev tmp). split_and!; [| rewrite <- replicate_add; apply Hread | done].
    f_equal. rewrite (Z2Nat.nonpos (Z.min _ 0 - 1)) by lia. simpl.
    by rewrite app_nil_r, app_assoc.
  - exists (Z.to_nat (size - prec)), (replicate (Z.to_nat (prec - len tmp)) 48 ++ rev tmp).
    split_and!; [| apply Hread |].
    + rewrite !(Z2Nat.nonpos (Z.min _ 0 - 1)) by lia. simpl. by rewrite app_nil_r.
    + intros [|]; [done |]. unfold prec. destruct (Z.ltb_spec precision (len tmp)); lia.
Qed.

(** The unsigned conversions of the boot loader and the base they read with. *)
Definition unsigned_formats : list (list Z * Z) :=
  [(str "%x", 16); (str "%lx", 16); (str "%lX", 16); (str "%08lx", 16); (str "%u", 10);
   (str "%lu", 10); (str "%lo", 8); (str "%.8lx", 16)].

(** A format that is one integer directive. *)
Lemma sprintf_integer f v base size precision type out :
  fmt_directive 0 f [VWord v] =
    match number (s32 v) base size precision type with
    | Some out => Some (out, [], [], [])
    | None => None
    end ->
  number (s32 v) base size precision type = Some out ->
  sprintf (37 :: f) [VWord v] = Some (out ++ [0], len out).
Proof.
  intros Hd Hout. unfold sprintf, vsprintf. cbn [vsprintf_loop length negb Z.eqb Pos.eqb].
  change (Z.of_nat 0) with 0. by rewrite Hd, Hout.
Qed.

(** What such a directive passes to [number]. *)
Lemma unsigned_format_number fmt base v : (fmt, base) ∈ unsigned_formats ->
  exists size precision type,
    has type SIGN = false /\ has type SPECIAL = false /\ has type LEFT = false /\
    (has type ZEROPAD = true \/ size <= 0) /\
    forall out, number (s32 v) base size precision type = Some out ->
      sprintf fmt [VWord v] = Some (out ++ [0], len out).
Proof.
  intros Hin. unfold unsigned_formats in Hin.
  repeat (apply elem_of_cons in Hin as [[= -> ->]|Hin]); [.. | by apply not_elem_of_nil in Hin].
  1, 2: exists (-1), (-1), 0.
  3: exists (-1), (-1), LARGE.
  4: exists 8, (-1), ZEROPAD.
  5, 6, 7: exists (-1), (-1), 0.
  8: exists (-1), 8, 0.
  all: split_and!; [done.. | (by left) || (right; lia) |]; intros out Hout;
    (eapply sprintf_integer; [| exact Hout]); reflexivity.
Qed.

(** Printing and reading back. *)
Lemma sprintf_reads_back fmt base v rest :
  (fmt, base) ∈ unsigned_formats -> 0 <= v < 2 ^ 32 -> stops rest ->
  exists out, sprintf fmt [VWord v] = Some (out ++ [0], len out) /\
              simple_strtoul (out ++ rest) base = (v, rest).
Proof.
  intros Hin Hv Hs.
  destruct (unsigned_format_number fmt base v Hin)
    as (size & prec & type & Hsg & Hsp & Hl & Hz & Hout).
  assert (Hb : base = 8 \/ base = 10 \/ base = 16).
  { unfold unsigned_formats in Hin. set_solver by lia. }
  destruct (number_reads_back v base size prec type rest Hb Hv Hsg Hsp Hl Hs)
    as (k & ds & Hn & Hread & Hk).
  rewrite (Hk Hz) in Hn. exists ds. split; [by apply Hout | done].
Qed.

Lemma digits_of_length f num base k : 2 <= base -> 0 <= num < base ^ Z.of_nat k ->
  (length (digits_of f num base) <= k)%nat.
Proof.
  intros Hb. revert num k. induction f as [|f IH]; intros num k Hn; simpl; [lia |].
  destruct (Z.eqb_spec num 0); [simpl; lia |]. destruct k as [|k]; [change (base ^ Z.of_nat 0) with 1 in Hn; lia |].
  simpl. apply le_n_S, IH. replace (Z.of_nat (S k)) with (Z.of_nat k + 1) in Hn by lia. rewrite Z.pow_add_r in Hn by lia.
  split; [apply Z.div_pos; lia | apply Z.div_lt_upper_bound; lia].
Qed.

(** The text of a word in hexadecimal, as sizes are left in the environment:
    at most eight characters, none of them NUL. *)
Lemma sprintf_hex_text fmt v : fmt = str "%lX" \/ fmt = str "%X" -> 0 <= v < 2 ^ 32 ->
  exists out, sprintf fmt [VWord v] = Some (out ++ [0], len out) /\
    simple_strtoul out 16 = (v, []) /\ Forall (fun c => c <> 0) out /\ (length out <= 8)%nat.
Proof.
  intros Hfmt Hv. destruct (number_tmp LARGE v 16 Hv ltac:(lia)) as (ds & HF & Hr & Hne & Hval).
  set (tmp := if s32 v =? 0 then _ else _) in *. exists (rev tmp). split_and!.
  - assert (Hs : forall f, fmt = 37 :: f -> fmt_directive 0 f [VWord v] =
        match number (s32 v) 16 (-1) (-1) LARGE with Some out => Some (out, [], [], []) | None => None end ->
      sprintf fmt [VWord v] = Some (rev tmp ++ [0], len (rev tmp))).
    2: { destruct Hfmt as [-> | ->]; [apply (Hs (str "lX")) | apply (Hs (str "X"))]; reflexivity. }
    intros f -> Hf. apply (sprintf_integer f v 16 (-1) (-1) LARGE); [exact Hf |].
    unfold number. change (has LARGE LARGE) with true in *. change (has LARGE LEFT) with false. cbv iota.
    change (has LARGE SIGN) with false. change (has LARGE SPECIAL) with false.
    change (has LARGE (ZEROPAD + LEFT)) with false. change (has LARGE LEFT) with false.
    change ((16 <? 2) || (36 <? 16)) with false. cbv iota zeta. fold tmp.
    pose proof (Zle_0_nat (length tmp)). rewrite (proj2 (Z.ltb_lt (-1) _)) by lia.
    cbn [negb pad fst snd app]. rewrite Z.sub_diag, !(Z2Nat.nonpos (Z.min _ 0 - 1)), (Z2Nat.nonpos (-1 - _)) by lia.
    simpl. by rewrite app_nil_r.
  - rewrite <- (app_nil_r (rev tmp)). rewrite (simple_strtoul_digits 16 _ ds) by (done || lia).
    by rewrite Hval, wrap_small.
  - clear -HF. induction HF as [|c d cs ds (H & _ & _) _ IH]; constructor; [by intros -> | done].
  - rewrite length_rev. unfold tmp. destruct (s32 v =? 0); [simpl; lia |].
    rewrite number_digits_map, length_map, u32_s32 by done. apply digits_of_length; [lia | exact Hv].
Qed.

(** Printing an unsigned word with any of the boot loader's hexadecimal,
    decimal and octal directives and reading the text back with
    [simple_strtoul] gives the word again, and the parser stops exactly at
    the end of the text. *)
Theorem sprintf_strtoul_roundtrip fmt base v rest :
  (fmt, base) ∈ unsigned_formats -> 0 <= v < 2 ^ 32 -> stops rest ->
  exists out, sprintf fmt [VWord v] = Some (out ++ [0], len out) /\
              simple_strtoul (out ++ rest) base = (v, rest).
Proof. apply sprintf_reads_back. Qed.

Lemma sprintf_strtoul_roundtrip_witness :
  exists out, sprintf (str "%08lx") [VWord 0xDEADBEEF] = Some (out ++ [0], len out) /\
              simple_strtoul (out ++ str ":x") 16 = (0xDEADBEEF, str ":x").
Proof.
  apply (sprintf_strtoul_roundtrip (str "%08lx") 16 0xDEADBEEF (str ":x"));
    [do 3 apply list_elem_of_further; apply list_elem_of_here | lia | split; [reflexivity | discriminate]].
Defined.

(** A field width only pads: for every value, base, precision and flag
    combination, the text printed with width [size] is exactly as long as the
    unpadded text, or [size] characters when that is more. *)
Theorem number_width num base size precision type : 2 <= base <= 36 ->
  exists out0 out, number num base 0 precision type = Some out0 /\
    number num base size precision type = Some out /\ len out = Z.max size (len out0).
Proof.
  intros Hb. unfold number.
  rewrite (proj2 (Z.ltb_ge base 2)), (proj2 (Z.ltb_ge 36 base)) by lia. cbn [orb].
  set (ty := if has type LEFT then _ else _).
  assert (Hleft : has ty LEFT = true -> has ty (ZEROPAD + LEFT) = true).
  { unfold has. change (ZEROPAD + LEFT) with (Z.lor ZEROPAD LEFT).
    rewrite Z.land_lor_distr_r, !negb_true_iff, !Z.eqb_neq, Z.lor_eq_0_iff. tauto. }
  set (digits := if has type LARGE then _ else _).
  destruct (if has ty SIGN then _ else _) as [[sg n] sz0] eqn:Es0.
  destruct (if has ty SIGN then (if num <? 0 then (45, _, size - 1) else _) else _)
    as [[sg' n'] sz] eqn:Es.
  assert (sg' = sg /\ n' = n /\ sz = size + sz0 /\ sz0 = (if sg =? 0 then 0 else -1)) as (-> & -> & -> & Hsz).
  { destruct (has ty SIGN), (num <? 0), (has ty PLUS), (has ty SPACE); simplify_eq; simpl; lia. }
  set (tmp := if n =? 0 then _ else _).
  set (special := if has ty SPECIAL then (if base =? 8 then _ else _) else _).
  set (pre := len special).
  assert (Hpre : forall z, (if has ty SPECIAL then if base =? 16 then z - 2
                            else if base =? 8 then z - 1 else z else z) = z - pre).
  { intros z. unfold pre, special. destruct (has ty SPECIAL); [zcases |]; simpl; lia. }
  rewrite !Hpre. set (prec := if precision <? len tmp then _ else _).
  assert (Hprec : len tmp <= prec) by (unfold prec; destruct (Z.ltb_spec precision (len tmp)); lia).
  assert (Hsg : len (if sg =? 0 then [] else [sg]) = - sz0) by (subst sz0; by destruct (sg =? 0)).
  destruct (has ty (ZEROPAD + LEFT)) eqn:Hzl, (has ty LEFT) eqn:Hl; cbn [negb pad fst snd];
    try (specialize (Hleft eq_refl); congruence);
    do 2 eexists; (split_and!; [reflexivity | reflexivity |]);
    repeat rewrite ?length_app, ?Nat2Z.inj_add, ?length_replicate, ?length_rev, ?Hsg;
    fold pre; simpl length; lia.
Qed.

Lemma number_width_witness :
  exists out0 out, number (-42) 10 0 (-1) (Z.lor SIGN LEFT) = Some out0 /\
    number (-42) 10 6 (-1) (Z.lor SIGN LEFT) = Some out /\ len out = Z.max 6 (len out0).
Proof. apply (number_width (-42) 10 6 (-1) (Z.lor SIGN LEFT)). lia. Defined.

(** ** The interpreter consumes its format *)

Lemma fmt_flags_length f fl : (length (fmt_flags f fl).2 <= length f)%nat.
Proof.
  revert fl. induction f as [|c f IH]; intros fl; simpl; [lia |].
  repeat (case_match; [match goal with |- context [fmt_flags f ?x] => specialize (IH x) end; lia |]).
  simpl. lia.
Qed.

Lemma skip_atoi_length i s : (length (skip_atoi_loop i s).2 <= length s)%nat.
Proof.
  revert i. induction s as [|c s IH]; intros i; simpl; [lia |].
  case_match; simpl; [etransitivity; [apply IH |] |]; lia.
Qed.

Lemma tail_length {A} (l : list A) : (length (tail l) <= length l)%nat.
Proof. destruct l; simpl; lia. Qed.

Lemma fmt_width_length f fl a fl' w f' a' :
  fmt_width f fl a = Some (fl', w, f', a') -> (length f' <= length f)%nat.
Proof.
  unfold fmt_width, skip_atoi. pose proof (skip_atoi_length 0 f). pose proof (tail_length f).
  intros E. repeat case_match; simplify_eq/=; lia.
Qed.

Lemma fmt_precision_length f a p f' a' :
  fmt_precision f a = Some (p, f', a') -> (length f' <= length f)%nat.
Proof.
  unfold fmt_precision, skip_atoi. pose proof (skip_atoi_length 0 (tail f)).
  pose proof (tail_length f). pose proof (tail_length (tail f)).
  intros E. repeat case_match; simplify_eq/=; lia.
Qed.

Lemma fmt_qualifier_length f : (length (fmt_qualifier f).2 <= length f)%nat.
Proof.
  unfold fmt_qualifier. pose proof (tail_length f).
  repeat case_match; simpl; rewrite ?length_drop; lia.
Qed.

Lemma fmt_directive_length pos f a o st f' a' :
  fmt_directive pos f a = Some (o, st, f', a') -> (length f' <= length f)%nat.
Proof.
  unfold fmt_directive. pose proof (fmt_flags_length f 0) as H1.
  destruct (fmt_flags f 0) as [fl f1]. simpl in H1.
  destruct (fmt_width f1 fl a) as [[[[fl2 w] f2] a2]|] eqn:E2; [| done].
  apply fmt_width_length in E2.
  destruct (fmt_precision f2 a2) as [[[p f3] a3]|] eqn:E3; [| done].
  apply fmt_precision_length in E3.
  pose proof (fmt_qualifier_length f3) as H4. destruct (fmt_qualifier f3) as [q f4]. simpl in H4.
  pose proof (tail_length f4). intros E. repeat case_match; simplify_eq/=; lia.
Qed.

(** The format interpreter always terminates: one iteration per format
    character is enough, so a [None] of [vsprintf] only ever means a directive
    without a matching argument, never exhausted fuel. *)
Theorem vsprintf_terminates fmt args out st fuel :
  (length fmt < fuel)%nat ->
  vsprintf_loop fuel out st fmt args = vsprintf_loop (S (length fmt)) out st fmt args.
Proof.
  remember (length fmt) as n eqn:Hn. assert (Hle : (length fmt <= n)%nat) by lia. clear Hn.
  revert fmt args out st fuel Hle. induction n as [|n IH]; intros fmt args out st fuel Hle Hf.
  - destruct fmt; [| simpl in Hle; lia]. destruct fuel; [lia | done].
  - destruct fuel as [|fuel]; [lia |]. destruct fmt as [|c fmt]; [done |].
    simpl in Hle. cbn [vsprintf_loop]. destruct (negb (c =? 37)); [apply IH; lia |].
    destruct (fmt_directive (len out) fmt args) as [[[[o st'] f'] a']|] eqn:E; [| done].
    apply fmt_directive_length in E. apply IH; lia.
Qed.

Lemma vsprintf_terminates_witness :
  vsprintf_loop 100 [] [] (str "%d%%") [VWord 3] = vsprintf_loop 5 [] [] (str "%d%%") [VWord 3].
Proof. apply (vsprintf_terminates (str "%d%%") [VWord 3] [] [] 100). vm_compute. lia. Defined.
