(* ===== verification/Crc.v ===== *)
(** * Checksums: lib_generic/crc32.c and lib_generic/crc16.c

    The byte-wise table algorithms, with the tables of the source.  The CRC-32
    guards the environment block and both parts of a kernel image; the CRC-16
    guards Y-modem blocks.

    The theorems: the tables are the ones [make_crc_table] would build and the
    table algorithm equals the bit-serial shift register; the CRC of a
    concatenation is computed piecewise; a CRC-32 over a block detects every
    error confined to one byte. *)

From S2P Require Import Prelude.

Local Open Scope Z_scope.

(** ** CRC-32 *)

(** The static table (the board does not define DYNAMIC_CRC_TABLE). *)
Definition crc_table : list Z :=
  [0x00000000; 0x77073096; 0xee0e612c; 0x990951ba; 0x076dc419; 0x706af48f;
   0xe963a535; 0x9e6495a3; 0x0edb8832; 0x79dcb8a4; 0xe0d5e91e; 0x97d2d988;
   0x09b64c2b; 0x7eb17cbd; 0xe7b82d07; 0x90bf1d91; 0x1db71064; 0x6ab020f2;
   0xf3b97148; 0x84be41de; 0x1adad47d; 0x6ddde4eb; 0xf4d4b551; 0x83d385c7;
   0x136c9856; 0x646ba8c0; 0xfd62f97a; 0x8a65c9ec; 0x14015c4f; 0x63066cd9;
   0xfa0f3d63; 0x8d080df5; 0x3b6e20c8; 0x4c69105e; 0xd56041e4; 0xa2677172;
   0x3c03e4d1; 0x4b04d447; 0xd20d85fd; 0xa50ab56b; 0x35b5a8fa; 0x42b2986c;
   0xdbbbc9d6; 0xacbcf940; 0x32d86ce3; 0x45df5c75; 0xdcd60dcf; 0xabd13d59;
   0x26d930ac; 0x51de003a; 0xc8d75180; 0xbfd06116; 0x21b4f4b5; 0x56b3c423;
   0xcfba9599; 0xb8bda50f; 0x2802b89e; 0x5f058808; 0xc60cd9b2; 0xb10be924;
   0x2f6f7c87; 0x58684c11; 0xc1611dab; 0xb6662d3d; 0x76dc4190; 0x01db7106;
   0x98d220bc; 0xefd5102a; 0x71b18589; 0x06b6b51f; 0x9fbfe4a5; 0xe8b8d433;
   0x7807c9a2; 0x0f00f934; 0x9609a88e; 0xe10e9818; 0x7f6a0dbb; 0x086d3d2d;
   0x91646c97; 0xe6635c01; 0x6b6b51f4; 0x1c6c6162; 0x856530d8; 0xf262004e;
   0x6c0695ed; 0x1b01a57b; 0x8208f4c1; 0xf50fc457; 0x65b0d9c6; 0x12b7e950;
   0x8bbeb8ea; 0xfcb9887c; 0x62dd1ddf; 0x15da2d49; 0x8cd37cf3; 0xfbd44c65;
   0x4db26158; 0x3ab551ce; 0xa3bc0074; 0xd4bb30e2; 0x4adfa541; 0x3dd895d7;
   0xa4d1c46d; 0xd3d6f4fb; 0x4369e96a; 0x346ed9fc; 0xad678846; 0xda60b8d0;
   0x44042d73; 0x33031de5; 0xaa0a4c5f; 0xdd0d7cc9; 0x5005713c; 0x270241aa;
   0xbe0b1010; 0xc90c2086; 0x5768b525; 0x206f85b3; 0xb966d409; 0xce61e49f;
   0x5edef90e; 0x29d9c998; 0xb0d09822; 0xc7d7a8b4; 0x59b33d17; 0x2eb40d81;
   0xb7bd5c3b; 0xc0ba6cad; 0xedb88320; 0x9abfb3b6; 0x03b6e20c; 0x74b1d29a;
   0xead54739; 0x9dd277af; 0x04db2615; 0x73dc1683; 0xe3630b12; 0x94643b84;
   0x0d6d6a3e; 0x7a6a5aa8; 0xe40ecf0b; 0x9309ff9d; 0x0a00ae27; 0x7d079eb1;
   0xf00f9344; 0x8708a3d2; 0x1e01f268; 0x6906c2fe; 0xf762575d; 0x806567cb;
   0x196c3671; 0x6e6b06e7; 0xfed41b76; 0x89d32be0; 0x10da7a5a; 0x67dd4acc;
   0xf9b9df6f; 0x8ebeeff9; 0x17b7be43; 0x60b08ed5; 0xd6d6a3e8; 0xa1d1937e;
   0x38d8c2c4; 0x4fdff252; 0xd1bb67f1; 0xa6bc5767; 0x3fb506dd; 0x48b2364b;
   0xd80d2bda; 0xaf0a1b4c; 0x36034af6; 0x41047a60; 0xdf60efc3; 0xa867df55;
   0x316e8eef; 0x4669be79; 0xcb61b38c; 0xbc66831a; 0x256fd2a0; 0x5268e236;
   0xcc0c7795; 0xbb0b4703; 0x220216b9; 0x5505262f; 0xc5ba3bbe; 0xb2bd0b28;
   0x2bb45a92; 0x5cb36a04; 0xc2d7ffa7; 0xb5d0cf31; 0x2cd99e8b; 0x5bdeae1d;
   0x9b64c2b0; 0xec63f226; 0x756aa39c; 0x026d930a; 0x9c0906a9; 0xeb0e363f;
   0x72076785; 0x05005713; 0x95bf4a82; 0xe2b87a14; 0x7bb12bae; 0x0cb61b38;
   0x92d28e9b; 0xe5d5be0d; 0x7cdcefb7; 0x0bdbdf21; 0x86d3d2d4; 0xf1d4e242;
   0x68ddb3f8; 0x1fda836e; 0x81be16cd; 0xf6b9265b; 0x6fb077e1; 0x18b74777;
   0x88085ae6; 0xff0f6a70; 0x66063bca; 0x11010b5c; 0x8f659eff; 0xf862ae69;
   0x616bffd3; 0x166ccf45; 0xa00ae278; 0xd70dd2ee; 0x4e048354; 0x3903b3c2;
   0xa7672661; 0xd06016f7; 0x4969474d; 0x3e6e77db; 0xaed16a4a; 0xd9d65adc;
   0x40df0b66; 0x37d83bf0; 0xa9bcae53; 0xdebb9ec5; 0x47b2cf7f; 0x30b5ffe9;
   0xbdbdf21c; 0xcabac28a; 0x53b39330; 0x24b4a3a6; 0xbad03605; 0xcdd70693;
   0x54de5729; 0x23d967bf; 0xb3667a2e; 0xc4614ab8; 0x5d681b02; 0x2a6f2b94;
   0xb40bbe37; 0xc30c8ea1; 0x5a05df1b; 0x2d02ef8d].

(** [poly |= 1L << (31 - p[n])] over the terms of the polynomial. *)
Definition crc_poly : Z :=
  fold_left (fun poly p => Z.lor poly (Z.shiftl 1 (31 - p)))
    [0;1;2;4;5;7;8;10;11;12;16;22;23;26] 0.

(** [c = c & 1 ? poly ^ (c >> 1) : c >> 1] *)
Definition crc_bit (c : Z) : Z :=
  if Z.land c 1 =? 0 then Z.shiftr c 1 else Z.lxor crc_poly (Z.shiftr c 1).

Definition make_crc_table : list Z := map (for_n crc_bit 8) (seqZ 0 256).

(** The unrolled steps on the register and the rest of the buffer. *)
Definition DO1 (s : Z * list Z) : Z * list Z :=
  let '(crc, buf) := s in
  (Z.lxor (nthZ crc_table (Z.land (Z.lxor crc (nthZ buf 0)) 0xff)) (Z.shiftr crc 8), tail buf).
Definition DO2 (s : Z * list Z) : Z * list Z := DO1 (DO1 s).
Definition DO4 (s : Z * list Z) : Z * list Z := DO2 (DO2 s).
Definition DO8 (s : Z * list Z) : Z * list Z := DO4 (DO4 s).

(** [while (len >= 8) { DO8(buf); len -= 8; }] runs [len / 8] times, the
    [do ... while (--len)] loop [len % 8] times. *)
Definition crc32 (crc : Z) (buf : list Z) (len : Z) : Z :=
  let s := (Z.lxor crc 0xffffffff, buf) in
  let s := for_n DO8 (Z.to_nat (len / 8)) s in
  let s := for_n DO1 (Z.to_nat (len mod 8)) s in
  Z.lxor s.1 0xffffffff.

(** No watchdog is configured, so the chunk size is unused. *)
Definition crc32_wd (crc : Z) (buf : list Z) (len chunk_sz : Z) : Z := crc32 crc buf len.

(** ** CRC-16 (x^16+x^12+x^5+1) *)

Definition crc16_tab : list Z :=
  [0x0000; 0x1021; 0x2042; 0x3063; 0x4084; 0x50a5; 0x60c6; 0x70e7;
   0x8108; 0x9129; 0xa14a; 0xb16b; 0xc18c; 0xd1ad; 0xe1ce; 0xf1ef;
   0x1231; 0x0210; 0x3273; 0x2252; 0x52b5; 0x4294; 0x72f7; 0x62d6;
   0x9339; 0x8318; 0xb37b; 0xa35a; 0xd3bd; 0xc39c; 0xf3ff; 0xe3de;
   0x2462; 0x3443; 0x0420; 0x1401; 0x64e6; 0x74c7; 0x44a4; 0x5485;
   0xa56a; 0xb54b; 0x8528; 0x9509; 0xe5ee; 0xf5cf; 0xc5ac; 0xd58d;
   0x3653; 0x2672; 0x1611; 0x0630; 0x76d7; 0x66f6; 0x5695; 0x46b4;
   0xb75b; 0xa77a; 0x9719; 0x8738; 0xf7df; 0xe7fe; 0xd79d; 0xc7bc;
   0x48c4; 0x58e5; 0x6886; 0x78a7; 0x0840; 0x1861; 0x2802; 0x3823;
   0xc9cc; 0xd9ed; 0xe98e; 0xf9af; 0x8948; 0x9969; 0xa90a; 0xb92b;
   0x5af5; 0x4ad4; 0x7ab7; 0x6a96; 0x1a71; 0x0a50; 0x3a33; 0x2a12;
   0xdbfd; 0xcbdc; 0xfbbf; 0xeb9e; 0x9b79; 0x8b58; 0xbb3b; 0xab1a;
   0x6ca6; 0x7c87; 0x4ce4; 0x5cc5; 0x2c22; 0x3c03; 0x0c60; 0x1c41;
   0xedae; 0xfd8f; 0xcdec; 0xddcd; 0xad2a; 0xbd0b; 0x8d68; 0x9d49;
   0x7e97; 0x6eb6; 0x5ed5; 0x4ef4; 0x3e13; 0x2e32; 0x1e51; 0x0e70;
   0xff9f; 0xefbe; 0xdfdd; 0xcffc; 0xbf1b; 0xaf3a; 0x9f59; 0x8f78;
   0x9188; 0x81a9; 0xb1ca; 0xa1eb; 0xd10c; 0xc12d; 0xf14e; 0xe16f;
   0x1080; 0x00a1; 0x30c2; 0x20e3; 0x5004; 0x4025; 0x7046; 0x6067;
   0x83b9; 0x9398; 0xa3fb; 0xb3da; 0xc33d; 0xd31c; 0xe37f; 0xf35e;
   0x02b1; 0x1290; 0x22f3; 0x32d2; 0x4235; 0x5214; 0x6277; 0x7256;
   0xb5ea; 0xa5cb; 0x95a8; 0x8589; 0xf56e; 0xe54f; 0xd52c; 0xc50d;
   0x34e2; 0x24c3; 0x14a0; 0x0481; 0x7466; 0x6447; 0x5424; 0x4405;
   0xa7db; 0xb7fa; 0x8799; 0x97b8; 0xe75f; 0xf77e; 0xc71d; 0xd73c;
   0x26d3; 0x36f2; 0x0691; 0x16b0; 0x6657; 0x7676; 0x4615; 0x5634;
   0xd94c; 0xc96d; 0xf90e; 0xe92f; 0x99c8; 0x89e9; 0xb98a; 0xa9ab;
   0x5844; 0x4865; 0x7806; 0x6827; 0x18c0; 0x08e1; 0x3882; 0x28a3;
   0xcb7d; 0xdb5c; 0xeb3f; 0xfb1e; 0x8bf9; 0x9bd8; 0xabbb; 0xbb9a;
   0x4a75; 0x5a54; 0x6a37; 0x7a16; 0x0af1; 0x1ad0; 0x2ab3; 0x3a92;
   0xfd2e; 0xed0f; 0xdd6c; 0xcd4d; 0xbdaa; 0xad8b; 0x9de8; 0x8dc9;
   0x7c26; 0x6c07; 0x5c64; 0x4c45; 0x3ca2; 0x2c83; 0x1ce0; 0x0cc1;
   0xef1f; 0xff3e; 0xcf5d; 0xdf7c; 0xaf9b; 0xbfba; 0x8fd9; 0x9ff8;
   0x6e17; 0x7e36; 0x4e55; 0x5e74; 0x2e93; 0x3eb2; 0x0ed1; 0x1ef0].

Definition crc16_step (cksum b : Z) : Z :=
  u16 (Z.lxor (nthZ crc16_tab (Z.land (Z.lxor (Z.shiftr cksum 8) b) 0xff)) (Z.shiftl cksum 8)).

Definition cyg_crc16 (buf : list Z) (len : Z) : Z :=
  fold_left crc16_step (take (Z.to_nat len) buf) 0.

(** ** Reference: the shift register *)

(** One message byte enters the register, then eight shifts. *)
Definition crc32_byte (crc b : Z) : Z := for_n crc_bit 8 (Z.lxor crc b).

Definition crc32_ref (crc : Z) (bs : list Z) : Z :=
  Z.lxor (fold_left crc32_byte bs (Z.lxor crc 0xffffffff)) 0xffffffff.

Definition crc16_bit (c : Z) : Z :=
  let s := u16 (Z.shiftl c 1) in if Z.testbit c 15 then Z.lxor s 0x1021 else s.

Definition crc16_byte (c b : Z) : Z := for_n crc16_bit 8 (Z.lxor c (Z.shiftl b 8)).

(** ** CRC-32 is linear *)

Lemma crc_table_made : crc_table = make_crc_table.
Proof. vm_compute. reflexivity. Qed.

Lemma crc_bit_lxor a b : crc_bit (Z.lxor a b) = Z.lxor (crc_bit a) (crc_bit b).
Proof.
  unfold crc_bit. rewrite Z.shiftr_lxor.
  assert (H : forall x, Z.land x 1 = if Z.testbit x 0 then 1 else 0).
  { intros x. change 1 with (Z.ones 1) at 1. rewrite Z.land_ones by lia.
    change (2 ^ 1) with 2. rewrite <- Z.bit0_mod. by destruct (Z.testbit x 0). }
  rewrite !H, Z.lxor_spec. apply Z.bits_inj'. intros i Hi.
  destruct (Z.testbit a 0), (Z.testbit b 0); simpl; rewrite ?Z.lxor_spec;
    by destruct (Z.testbit crc_poly i), (Z.testbit (Z.shiftr a 1) i), (Z.testbit (Z.shiftr b 1) i).
Qed.

Lemma crc_bits_lxor n a b :
  for_n crc_bit n (Z.lxor a b) = Z.lxor (for_n crc_bit n a) (for_n crc_bit n b).
Proof. revert a b. induction n as [|n IH]; intros a b; simpl; [done |]. by rewrite crc_bit_lxor, IH. Qed.

(** Shifting out zero bits only shifts. *)
Lemma crc_bits_high n x : for_n crc_bit n (Z.shiftl x (Z.of_nat n)) = x.
Proof.
  induction n as [|n IH]; [apply Z.shiftl_0_r |]. simpl. unfold crc_bit at 2.
  replace (Z.land (Z.shiftl x (Z.of_nat (S n))) 1) with 0.
  - rewrite Z.shiftr_shiftl_l by lia.
    simpl. replace (Z.of_nat (S n) - 1) with (Z.of_nat n) by lia. apply IH.
  - symmetry. apply Z.bits_inj'. intros i Hi. rewrite Z.bits_0, Z.land_spec, Z.shiftl_spec by lia.
    destruct (Z.eq_dec i 0) as [->|]; [by rewrite Z.testbit_neg_r by lia |].
    by rewrite (testbit_small 1 1 i), andb_false_r by lia.
Qed.

Lemma split_low8 x : x = Z.lxor (Z.land x 0xff) (Z.shiftl (Z.shiftr x 8) 8).
Proof.
  apply Z.bits_inj'. intros i Hi. change 0xff with (Z.ones 8).
  rewrite Z.lxor_spec, Z.land_spec, Z.shiftl_spec by lia.
  destruct (Z.ltb_spec i 8).
  - rewrite Z.ones_spec_low, (Z.testbit_neg_r _ (i - 8)) by lia. by destruct (Z.testbit x i).
  - rewrite Z.ones_spec_high, Z.shiftr_spec, andb_false_r by lia.
    replace (i - 8 + 8) with i by lia. by destruct (Z.testbit x i).
Qed.

Lemma land_ff_range x : 0 <= Z.land x 0xff < 256.
Proof. change 0xff with (Z.ones 8). rewrite Z.land_ones by lia. apply Z.mod_pos_bound. lia. Qed.

Lemma crc_table_entry i : 0 <= i < 256 -> nthZ crc_table i = for_n crc_bit 8 i.
Proof.
  intros Hi. rewrite crc_table_made. unfold nthZ, make_crc_table.
  assert (H : seqZ 0 256 !! Z.to_nat i = Some i) by (apply lookup_seqZ; lia).
  rewrite nth_lookup. change (map ?f ?l) with (f <$> l). rewrite list_lookup_fmap, H. done.
Qed.

(** One table step is eight shifts of the register. *)
Lemma DO1_spec crc b buf : 0 <= crc -> byte b ->
  DO1 (crc, b :: buf) = (crc32_byte crc b, buf).
Proof.
  intros Hc Hb. simpl. f_equal. unfold crc32_byte. change (nthZ (b :: buf) 0) with b.
  rewrite crc_table_entry by apply land_ff_range.
  rewrite (split_low8 (Z.lxor crc b)) at 2. rewrite crc_bits_lxor. f_equal.
  change 8 with (Z.of_nat 8) at 3. rewrite crc_bits_high.
  rewrite Z.shiftr_lxor. apply Z.bits_inj'. intros i Hi. rewrite Z.lxor_spec, !Z.shiftr_spec by lia.
  by rewrite (testbit_small 8 b), xorb_false_r by (unfold byte in Hb; lia).
Qed.

Definition word32 (x : Z) : Prop := 0 <= x < 2 ^ 32.

Lemma crc_bits_range n c : word32 c -> word32 (for_n crc_bit n c).
Proof.
  revert c. induction n as [|n IH]; intros c Hc; [done |]. apply IH. unfold crc_bit.
  assert (Hs : word32 (Z.shiftr c 1)).
  { unfold word32 in *. rewrite Z.shiftr_div_pow2 by lia. change (2 ^ 1) with 2.
    Z.div_mod_to_equations. lia. }
  case_match; [done |]. apply lxor_range; [lia | | done]. by vm_compute.
Qed.

Lemma crc32_byte_range c b : word32 c -> byte b -> word32 (crc32_byte c b).
Proof.
  intros Hc Hb. apply crc_bits_range, lxor_range; [lia | done | unfold byte in *; lia].
Qed.

Lemma crc32_fold_range bs c : word32 c -> Forall byte bs -> word32 (fold_left crc32_byte bs c).
Proof.
  revert c. induction bs as [|b bs IH]; intros c Hc Hb; simpl; [done |].
  apply Forall_cons in Hb as [Hb Hbs]. apply IH; [by apply crc32_byte_range | done].
Qed.

Lemma DO8_DO1 n s : for_n DO8 n s = for_n DO1 (8 * n) s.
Proof.
  revert s. induction n as [|n IH]; intros s; [done |].
  replace (8 * S n)%nat with (8 + 8 * n)%nat by lia. rewrite for_n_add, <- IH. done.
Qed.

Lemma for_DO1 n crc buf : word32 crc -> Forall byte buf -> (n <= length buf)%nat ->
  for_n DO1 n (crc, buf) = (fold_left crc32_byte (take n buf) crc, drop n buf).
Proof.
  revert crc buf. induction n as [|n IH]; intros crc buf Hc Hb Hn; simpl; [done |].
  destruct buf as [|b buf]; simpl in Hn; [lia |]. apply Forall_cons in Hb as [Hb Hbs].
  change (Z.lxor _ _, tail (b :: buf)) with (DO1 (crc, b :: buf)).
  rewrite DO1_spec by (done || apply Hc). apply IH; [by apply crc32_byte_range | done | lia].
Qed.

Lemma crc32_eq crc buf n : word32 crc -> Forall byte buf -> 0 <= n <= len buf ->
  crc32 crc buf n = crc32_ref crc (take (Z.to_nat n) buf).
Proof.
  intros Hc Hb Hn. unfold crc32, crc32_ref. f_equal.
  rewrite DO8_DO1, <- for_n_add.
  replace (8 * Z.to_nat (n / 8) + Z.to_nat (n mod 8))%nat with (Z.to_nat n)
    by (pose proof (Z.div_mod n 8 ltac:(lia)); pose proof (Z.mod_pos_bound n 8 ltac:(lia));
        assert (0 <= n / 8) by (apply Z.div_pos; lia); lia).
  rewrite for_DO1; [done | | done | lia]. by apply lxor_range.
Qed.

(** C40: the CRC-32 routine of the boot loader, with its static table and its
    eight-fold unrolled loop, computes the bit-serial CRC of the polynomial
    0xedb88320 over exactly the first [len] bytes, for every start value. *)
Theorem crc32_is_shift_register crc buf n :
  word32 crc -> Forall byte buf -> 0 <= n <= len buf ->
  crc_table = make_crc_table /\
  crc32 crc buf n = crc32_ref crc (take (Z.to_nat n) buf) /\ word32 (crc32 crc buf n).
Proof.
  intros Hc Hb Hn. split_and!; [apply crc_table_made | by apply crc32_eq |].
  rewrite crc32_eq by done. apply lxor_range; [lia | | done].
  apply crc32_fold_range; [by apply lxor_range | by apply Forall_take].
Qed.

Lemma lxor_mask_cancel x y : Z.lxor (Z.lxor x y) y = x.
Proof. by rewrite Z.lxor_assoc, Z.lxor_nilpotent, Z.lxor_0_r. Qed.

(** The CRC of a buffer can be computed in pieces: continuing from the
    CRC of the first part over the second part is the CRC of the whole. *)
Theorem crc32_app crc a b : word32 crc -> Forall byte a -> Forall byte b ->
  crc32 (crc32 crc a (len a)) b (len b) = crc32 crc (a ++ b) (len (a ++ b)).
Proof.
  intros Hc Ha Hb.
  assert (Hr : word32 (crc32_ref crc a)).
  { apply lxor_range; [lia | | done]. apply crc32_fold_range; [by apply lxor_range | done]. }
  rewrite (crc32_eq crc a), Nat2Z.id, firstn_all by (done || lia).
  rewrite !crc32_eq, !Nat2Z.id, !firstn_all by (done || lia || by apply Forall_app).
  unfold crc32_ref. by rewrite fold_left_app, lxor_mask_cancel.
Qed.

(** ** Error detection *)

(** The top byte of a table entry determines its index. *)
Lemma crc_table_top_inj i j : 0 <= i < 256 -> 0 <= j < 256 ->
  Z.shiftr (nthZ crc_table i) 24 = Z.shiftr (nthZ crc_table j) 24 -> i = j.
Proof.
  intros Hi Hj E.
  set (inv := map (fun v => fst <$> list_find (fun e => Z.shiftr e 24 = v) crc_table) (seqZ 0 256)).
  assert (Hall : forallb (fun i => bool_decide (inv !! Z.to_nat (Z.shiftr (nthZ crc_table i) 24)
     = Some (Some (Z.to_nat i)))) (seqZ 0 256) = true) by (vm_compute; reflexivity).
  rewrite forallb_forall in Hall.
  assert (H : forall k, 0 <= k < 256 ->
    inv !! Z.to_nat (Z.shiftr (nthZ crc_table k) 24) = Some (Some (Z.to_nat k))).
  { intros k Hk. apply (bool_decide_eq_true_1 _). apply Hall.
    apply list_elem_of_In, elem_of_seqZ. lia. }
  pose proof (H i Hi) as H1. pose proof (H j Hj) as H2. rewrite E, H2 in H1. simplify_eq. lia.
Qed.

Lemma crc32_byte_table c b : word32 c -> byte b ->
  crc32_byte c b = Z.lxor (nthZ crc_table (Z.land (Z.lxor c b) 0xff)) (Z.shiftr c 8).
Proof. intros Hc Hb. pose proof (DO1_spec c b [] ltac:(apply Hc) Hb) as H. by injection H. Qed.

Lemma shiftr_24_step c x : word32 c -> Z.shiftr (Z.lxor x (Z.shiftr c 8)) 24 = Z.shiftr x 24.
Proof.
  intros Hc. rewrite Z.shiftr_lxor, Z.shiftr_shiftr by lia. simpl.
  rewrite (Z.shiftr_div_pow2 c) by lia. rewrite (Z.div_small c) by apply Hc. apply Z.lxor_0_r.
Qed.

(** A step loses nothing: of two registers, or of two bytes, that differ. *)
Lemma crc32_byte_inj c c' b b' : word32 c -> word32 c' -> byte b -> byte b' ->
  crc32_byte c b = crc32_byte c' b' ->
  Z.shiftr c 8 = Z.shiftr c' 8 /\ Z.land (Z.lxor c b) 0xff = Z.land (Z.lxor c' b') 0xff.
Proof.
  intros Hc Hc' Hb Hb' E. rewrite !crc32_byte_table in E by done.
  assert (Hi : Z.land (Z.lxor c b) 0xff = Z.land (Z.lxor c' b') 0xff).
  { apply crc_table_top_inj; [apply land_ff_range.. |].
    apply (f_equal (fun x => Z.shiftr x 24)) in E. by rewrite !shiftr_24_step in E. }
  split; [| done]. rewrite Hi in E. apply (f_equal (Z.lxor (nthZ crc_table (Z.land (Z.lxor c' b') 0xff)))) in E.
  by rewrite <- !Z.lxor_assoc, !Z.lxor_nilpotent, !Z.lxor_0_l in E.
Qed.

Lemma lxor_byte_low c b : byte b -> Z.land (Z.lxor c b) 0xff = Z.lxor (Z.land c 0xff) b.
Proof.
  intros Hb. apply Z.bits_inj'. intros i Hi. change 0xff with (Z.ones 8).
  rewrite Z.land_spec, !Z.lxor_spec, Z.land_spec.
  destruct (Z.ltb_spec i 8); [rewrite Z.ones_spec_low by lia | rewrite Z.ones_spec_high by lia].
  - by rewrite !andb_true_r.
  - by rewrite (testbit_small 8 b), !andb_false_r by (unfold byte in Hb; lia).
Qed.

Lemma crc32_byte_inj_reg c c' b : word32 c -> word32 c' -> byte b ->
  crc32_byte c b = crc32_byte c' b -> c = c'.
Proof.
  intros Hc Hc' Hb E. apply crc32_byte_inj in E as [Eh El]; [| done..].
  rewrite !lxor_byte_low in El by done.
  apply (f_equal (fun x => Z.lxor x b)) in El. rewrite !lxor_mask_cancel in El.
  by rewrite (split_low8 c), (split_low8 c'), Eh, El.
Qed.

Lemma crc32_byte_inj_byte c b b' : word32 c -> byte b -> byte b' ->
  crc32_byte c b = crc32_byte c b' -> b = b'.
Proof.
  intros Hc Hb Hb' E. apply crc32_byte_inj in E as [_ El]; [| done..].
  rewrite !lxor_byte_low in El by done. apply (f_equal (Z.lxor (Z.land c 0xff))) in El.
  by rewrite <- !Z.lxor_assoc, !Z.lxor_nilpotent, !Z.lxor_0_l in El.
Qed.

Lemma crc32_fold_inj bs c c' : word32 c -> word32 c' -> Forall byte bs ->
  fold_left crc32_byte bs c = fold_left crc32_byte bs c' -> c = c'.
Proof.
  revert c c'. induction bs as [|b bs IH]; intros c c' Hc Hc' Hb E; simpl in E; [done |].
  apply Forall_cons in Hb as [Hb Hbs].
  apply IH in E; [| by apply crc32_byte_range.. | done]. by apply crc32_byte_inj_reg in E.
Qed.

Lemma crc32_range buf n : Forall byte buf -> 0 <= n <= len buf -> 0 <= crc32 0 buf n < 2 ^ 32.
Proof.
  intros Hb Hn. rewrite crc32_eq by done. apply lxor_range; [lia | | done].
  apply crc32_fold_range; [done | by apply Forall_take].
Qed.

Lemma crc32_byte_error crc pre b b' post :
  word32 crc -> Forall byte pre -> Forall byte post -> byte b -> byte b' -> b <> b' ->
  crc32 crc (pre ++ b :: post) (len (pre ++ b :: post)) <>
  crc32 crc (pre ++ b' :: post) (len (pre ++ b' :: post)).
Proof.
  intros Hc Hpre Hpost Hb Hb' Hne E.
  rewrite !crc32_eq, !Nat2Z.id, !firstn_all in E
    by (done || lia || (apply Forall_app; split; [done | by constructor])).
  unfold crc32_ref in E. apply (f_equal (fun x => Z.lxor x 0xffffffff)) in E.
  rewrite !lxor_mask_cancel, !fold_left_app in E. simpl in E.
  assert (Hr : word32 (fold_left crc32_byte pre (Z.lxor crc 0xffffffff))).
  { apply crc32_fold_range; [by apply lxor_range | done]. }
  apply crc32_fold_inj in E; [| by apply crc32_byte_range.. | done].
  by apply crc32_byte_inj_byte in E.
Qed.

(** Corrupting one byte of a block, to any other value and at any place,
    changes its CRC-32, so every single-byte error in an image or in the
    environment is detected. *)
Theorem crc32_detects_byte_error crc pre b b' post :
  word32 crc -> Forall byte pre -> Forall byte post -> byte b -> byte b' -> b <> b' ->
  crc32 crc (pre ++ b :: post) (len (pre ++ b :: post)) <>
  crc32 crc (pre ++ b' :: post) (len (pre ++ b' :: post)).
Proof. apply crc32_byte_error. Qed.

(** ** CRC-16 *)

Lemma wrap_lxor w a b : 0 <= w -> wrap w (Z.lxor a b) = Z.lxor (wrap w a) (wrap w b).
Proof.
  intros Hw. apply Z.bits_inj'. intros i Hi.
  rewrite Z.lxor_spec, !wrap_testbit, Z.lxor_spec by done. by destruct (i <? w).
Qed.

Lemma crc16_bit_lxor a b : crc16_bit (Z.lxor a b) = Z.lxor (crc16_bit a) (crc16_bit b).
Proof.
  unfold crc16_bit. rewrite Z.shiftl_lxor, wrap_lxor, Z.lxor_spec by lia.
  apply Z.bits_inj'. intros i Hi.
  destruct (Z.testbit a 15), (Z.testbit b 15); simpl; rewrite ?Z.lxor_spec;
    by destruct (Z.testbit (u16 (Z.shiftl a 1)) i), (Z.testbit (u16 (Z.shiftl b 1)) i),
      (Z.testbit 0x1021 i).
Qed.

Lemma crc16_bits_lxor n a b :
  for_n crc16_bit n (Z.lxor a b) = Z.lxor (for_n crc16_bit n a) (for_n crc16_bit n b).
Proof. revert a b. induction n as [|n IH]; intros a b; simpl; [done |]. by rewrite crc16_bit_lxor, IH. Qed.

(** Table entries are eight shifts; a low byte is only moved up. *)
Lemma crc16_table_entry i : 0 <= i < 256 ->
  nthZ crc16_tab i = for_n crc16_bit 8 (Z.shiftl i 8) /\ for_n crc16_bit 8 i = Z.shiftl i 8.
Proof.
  intros Hi. assert (H : forallb (fun i => (nthZ crc16_tab i =? for_n crc16_bit 8 (Z.shiftl i 8))
    && (for_n crc16_bit 8 i =? Z.shiftl i 8)) (seqZ 0 256) = true) by (vm_compute; reflexivity).
  rewrite forallb_forall in H. specialize (H i).
  rewrite <- list_elem_of_In, elem_of_seqZ in H. specialize (H ltac:(lia)). by zb.
Qed.

Lemma shiftl8_low c : u16 (Z.shiftl c 8) = Z.shiftl (Z.land c 0xff) 8.
Proof.
  apply Z.bits_inj'. intros i Hi. change 0xff with (Z.ones 8).
  rewrite wrap_testbit, !Z.shiftl_spec by lia. destruct (Z.ltb_spec i 8).
  - by rewrite !Z.testbit_neg_r, andb_false_r by lia.
  - rewrite Z.land_spec. destruct (Z.ltb_spec i 16); simpl.
    + by rewrite Z.ones_spec_low, andb_true_r by lia.
    + by rewrite Z.ones_spec_high, andb_false_r by lia.
Qed.

Lemma crc16_step_spec c b : 0 <= c < 2 ^ 16 -> byte b -> crc16_step c b = crc16_byte c b.
Proof.
  intros Hc Hb. unfold crc16_step, crc16_byte.
  set (i := Z.lxor (Z.shiftr c 8) b).
  assert (Hh : 0 <= Z.shiftr c 8 < 2 ^ 8).
  { rewrite Z.shiftr_div_pow2 by lia. change (2 ^ 8) with 256. Z.div_mod_to_equations. lia. }
  assert (Hi : 0 <= i < 2 ^ 8) by (by apply lxor_range).
  replace (Z.land i 0xff) with i.
  2: { change 0xff with (Z.ones 8). rewrite Z.land_ones by lia. symmetry. by apply Z.mod_small. }
  replace (Z.lxor c (Z.shiftl b 8)) with (Z.lxor (Z.shiftl i 8) (Z.land c 0xff)).
  2: { unfold i. rewrite Z.shiftl_lxor, Z.lxor_comm, <- Z.lxor_assoc. by rewrite <- split_low8. }
  rewrite crc16_bits_lxor. destruct (crc16_table_entry i ltac:(lia)) as [Ht _].
  destruct (crc16_table_entry (Z.land c 0xff) (land_ff_range c)) as [_ ->].
  rewrite wrap_lxor, shiftl8_low, <- Ht by lia. f_equal. apply wrap_small.
  assert (Hall : forallb (fun i => (0 <=? nthZ crc16_tab i) && (nthZ crc16_tab i <? 2 ^ 16)) (seqZ 0 256) = true)
    by (vm_compute; reflexivity).
  rewrite forallb_forall in Hall. specialize (Hall i).
  rewrite <- list_elem_of_In, elem_of_seqZ in Hall. specialize (Hall ltac:(lia)). by zb.
Qed.

Lemma crc16_step_range c b : 0 <= crc16_step c b < 2 ^ 16.
Proof. apply wrap_range. lia. Qed.

(** The table-driven CRC-16 of the Y-modem receiver is the bit-serial CRC
    of the polynomial x^16+x^12+x^5+1 over the first [len] bytes. *)
Theorem crc16_is_shift_register buf n : Forall byte buf ->
  cyg_crc16 buf n = fold_left crc16_byte (take (Z.to_nat n) buf) 0.
Proof.
  intros Hb. unfold cyg_crc16. apply (Forall_take byte (Z.to_nat n)) in Hb.
  generalize dependent (take (Z.to_nat n) buf). clear.
  assert (H : forall l c, 0 <= c < 2 ^ 16 -> Forall byte l ->
    fold_left crc16_step l c = fold_left crc16_byte l c); [| intros l; by apply H].
  induction l as [|b l IH]; intros c Hc Hb; simpl; [done |]. apply Forall_cons in Hb as [Hb Hl].
  rewrite IH by (done || apply crc16_step_range). by rewrite crc16_step_spec.
Qed.

(** ** The theorems at concrete blocks *)


Example crc32_check : crc32 0 (str "123456789") 9 = 0xcbf43926.
Proof. vm_compute. reflexivity. Qed.

Lemma crc32_is_shift_register_witness :
  crc_table = make_crc_table /\
  crc32 0 (str "123456789") 9 = crc32_ref 0 (str "123456789") /\ word32 (crc32 0 (str "123456789") 9).
Proof.
  apply (crc32_is_shift_register 0 (str "123456789") 9); [unfold word32; lia | bytes_eval | vm_compute; split; discriminate].
Defined.

Lemma crc32_app_witness :
  crc32 (crc32 0 (str "12345") 5) (str "6789") 4 = crc32 0 (str "123456789") 9.
Proof. apply (crc32_app 0 (str "12345") (str "6789")); [unfold word32; lia | bytes_eval | bytes_eval]. Defined.

Lemma crc32_detects_byte_error_witness :
  crc32 0 (str "boot" ++ 65 :: str "args") 9 <> crc32 0 (str "boot" ++ 66 :: str "args") 9.
Proof.
  apply (crc32_detects_byte_error 0 (str "boot") 65 66 (str "args"));
    [unfold word32; lia | bytes_eval | bytes_eval | unfold byte; lia | unfold byte; lia | lia].
Defined.

Lemma crc16_is_shift_register_witness :
  cyg_crc16 (str "123456789") 9 = fold_left crc16_byte (str "123456789") 0.
Proof. apply (crc16_is_shift_register (str "123456789") 9). bytes_eval. Defined.
