(* ===== verification/Circbuf.v ===== *)
(** * Circular buffer: common/circbuf.c and include/circbuf.h

    The buffer's pointers are addresses in the byte memory, so the source and
    destination arrays of [buf_push] and [buf_pop] live in the same memory.
    The theorems are a functional refinement of a bounded queue: a push keeps
    the newest [totalsize] bytes, a pop hands out the oldest in order. *)

From S2P Require Import Prelude Memory.

Local Open Scope Z_scope.

Record circbuf_t := Circbuf {
  size : Z;
  totalsize : Z;
  top : Z;
  tail : Z;
  data : Z;
  end_ : Z
}.

(** [malloc (sizeof (char) * size)] returned the address [p]. *)
Definition buf_init (p sz : Z) : circbuf_t :=
  {| size := 0; totalsize := sz; top := p; tail := p; data := p; end_ := p + sz |}.

(** [memset (buf, 0, sizeof (circbuf_t))] *)
Definition buf_free : circbuf_t :=
  {| size := 0; totalsize := 0; top := 0; tail := 0; data := 0; end_ := 0 |}.

(** [p++; if (p == buf->end) p = buf->data;] *)
Definition advance (b : circbuf_t) (p : Z) : Z :=
  if p + 1 =? end_ b then data b else p + 1.

Fixpoint buf_pop_loop (n : nat) (b : circbuf_t) (m : mem) (dest p : Z) : mem * Z :=
  match n with
  | O => (m, p)
  | S k => buf_pop_loop k b (store m dest (m p)) (dest + 1) (advance b p)
  end.

Definition buf_pop (b : circbuf_t) (m : mem) (dest n : Z) : mem * circbuf_t * Z :=
  let n := if size b <? n then size b else n in
  let '(m', p) := buf_pop_loop (Z.to_nat n) b m dest (top b) in
  (m', {| size := size b - n; totalsize := totalsize b; top := p;
          tail := tail b; data := data b; end_ := end_ b |}, n).

(** One iteration of [buf_push]'s loop on the memory, the buffer and [p]. *)
Definition push_byte (b : circbuf_t) (m : mem) (p c : Z) : circbuf_t * mem * Z :=
  let m' := store m p c in
  let p' := advance b p in
  let b' := if size b <? totalsize b
            then {| size := size b + 1; totalsize := totalsize b; top := top b;
                    tail := tail b; data := data b; end_ := end_ b |}
            else {| size := size b; totalsize := totalsize b; top := advance b (top b);
                    tail := tail b; data := data b; end_ := end_ b |} in
  (b', m', p').

Fixpoint buf_push_loop (n : nat) (b : circbuf_t) (m : mem) (p src : Z) : circbuf_t * mem * Z :=
  match n with
  | O => (b, m, p)
  | S k => let '(b', m', p') := push_byte b m p (m src) in buf_push_loop k b' m' p' (src + 1)
  end.

Definition buf_push (b : circbuf_t) (m : mem) (src n : Z) : mem * circbuf_t * Z :=
  let '(b', m', p) := buf_push_loop (Z.to_nat n) b m (tail b) src in
  (m', {| size := size b'; totalsize := totalsize b'; top := top b';
          tail := p; data := data b'; end_ := end_ b' |}, n).

(** ** The queue a buffer represents *)

(** The cell [i] places after [p] in the ring. *)
Definition ring (b : circbuf_t) (p i : Z) : Z := data b + (p - data b + i) mod totalsize b.

Definition inside (b : circbuf_t) (p : Z) : Prop := data b <= p < end_ b.

(** Well-formedness, with the write cursor [p] (the [tail] field between calls). *)
Record wf (b : circbuf_t) (p : Z) : Prop := {
  wf_total : 0 < totalsize b;
  wf_end : end_ b = data b + totalsize b;
  wf_top : inside b (top b);
  wf_size : 0 <= size b <= totalsize b;
  wf_tail : p = ring b (top b) (size b)
}.

(** The bytes held, oldest first. *)
Definition contents (b : circbuf_t) (m : mem) (q : list Z) : Prop :=
  len q = size b /\
  forall i, 0 <= i < size b -> q !! Z.to_nat i = Some (m (ring b (top b) i)).

Definition represents (b : circbuf_t) (m : mem) (q : list Z) : Prop :=
  wf b (tail b) /\ contents b m q.

(** The newest [n] elements. *)
Definition last_n {A} (n : nat) (l : list A) : list A := drop (length l - n) l.

Lemma ring_inside b p i : 0 < totalsize b -> end_ b = data b + totalsize b -> inside b (ring b p i).
Proof.
  intros Ht He. unfold inside, ring. rewrite He.
  pose proof (Z.mod_pos_bound (p - data b + i) (totalsize b) Ht). lia.
Qed.

Lemma ring_0 b p : end_ b = data b + totalsize b -> inside b p -> ring b p 0 = p.
Proof. unfold inside, ring. intros He Hp. rewrite Z.mod_small by lia. lia. Qed.

Lemma advance_ring b p i : 0 < totalsize b -> end_ b = data b + totalsize b ->
  advance b (ring b p i) = ring b p (i + 1).
Proof.
  intros Ht He. unfold advance, ring. rewrite He, (Z.add_assoc _ i 1).
  pose proof (Z.mod_pos_bound (p - data b + i) (totalsize b) Ht).
  rewrite <- (Z.add_mod_idemp_l (p - data b + i) 1) by lia.
  destruct (Z.eqb_spec (data b + (p - data b + i) mod totalsize b + 1) (data b + totalsize b)).
  - replace ((p - data b + i) mod totalsize b + 1) with (totalsize b) by lia.
    rewrite Z.mod_same by lia. lia.
  - rewrite (Z.mod_small (_ + 1)) by lia. lia.
Qed.

Lemma ring_ring b p i j : 0 < totalsize b -> ring b (ring b p i) j = ring b p (i + j).
Proof.
  intros Ht. unfold ring. f_equal.
  replace (data b + (p - data b + i) mod totalsize b - data b + j)
    with ((p - data b + i) mod totalsize b + j) by lia.
  rewrite Z.add_mod_idemp_l by lia. f_equal. lia.
Qed.

(** Two places of the ring less than a turn apart are different cells. *)
Lemma ring_inj b p i j : 0 < totalsize b -> i < j < i + totalsize b -> ring b p i <> ring b p j.
Proof.
  intros Ht Hij E. unfold ring in E.
  assert (Hm : (p - data b + i) mod totalsize b = (p - data b + j) mod totalsize b) by lia.
  assert (Hd : (j - i) mod totalsize b = 0).
  { replace (j - i) with ((p - data b + j) - (p - data b + i)) by lia.
    rewrite Zminus_mod, Hm, Z.sub_diag. apply Z.mod_0_l. lia. }
  rewrite Z.mod_small in Hd by lia. lia.
Qed.

(** ** Push *)

Lemma push_byte_spec b m p c q :
  wf b p -> contents b m q ->
  let '(b', m', p') := push_byte b m p c in
  wf b' p' /\ contents b' m' (last_n (Z.to_nat (totalsize b)) (q ++ [c])) /\
  totalsize b' = totalsize b /\ data b' = data b /\ end_ b' = end_ b /\
  (forall x, ~ inside b x -> m' x = m x).
Proof.
  intros [Ht He Htop Hs Htl] [Hl Hc]. unfold push_byte.
  pose proof (ring_inside b (top b) (size b) Ht He) as Hp. rewrite <- Htl in Hp.
  assert (Hadv : advance b p = ring b (top b) (size b + 1)) by (by rewrite Htl, advance_ring).
  assert (Hout : forall x, ~ inside b x -> store m p c x = m x).
  { intros x Hx. apply store_ne. by intros ->. }
  destruct (Z.ltb_spec (size b) (totalsize b)) as [Hlt|Hge]; split_and!; try done.
  - constructor; simpl; done || lia.
  - simpl. unfold last_n. rewrite length_app. simpl.
    replace (length q + 1 - Z.to_nat (totalsize b))%nat with O by lia. rewrite drop_0.
    split; simpl; [rewrite length_app; simpl; lia |]. intros i Hi.
    change (ring {| size := _; totalsize := _; top := _; tail := _; data := _; end_ := _ |} ?x ?y) with (ring b x y).
    destruct (Z.eq_dec i (size b)) as [->|Hne].
    + rewrite lookup_app_r by lia. replace (Z.to_nat (size b) - length q)%nat with O by lia.
      by rewrite <- Htl, store_eq.
    + rewrite lookup_app_l by lia. rewrite Hc, store_ne by (lia || rewrite Htl; apply ring_inj; lia).
      done.
  - assert (Hsz : size b = totalsize b) by lia. constructor; simpl; try done.
    + rewrite <- (ring_0 b (top b)), advance_ring by done. exact (ring_inside b (top b) (0 + 1) Ht He).
    + rewrite <- (ring_0 b (top b)), (advance_ring b (top b)) by done.
      change (ring {| size := _; totalsize := _; top := _; tail := _; data := _; end_ := _ |} ?x ?y) with (ring b x y).
      rewrite ring_ring by done. rewrite Hadv. f_equal. lia.
  - assert (Hsz : size b = totalsize b) by lia. unfold last_n. rewrite length_app. simpl.
    replace (length q + 1 - Z.to_nat (totalsize b))%nat with 1%nat by lia.
    split; simpl; [rewrite length_drop, length_app; simpl; lia |]. intros i Hi.
    change (ring {| size := _; totalsize := _; top := _; tail := _; data := _; end_ := _ |} ?x ?y) with (ring b x y).
    rewrite lookup_drop. rewrite <- (ring_0 b (top b)) at 1 by done.
    rewrite advance_ring, ring_ring by done. change (0 + 1) with 1.
    destruct (Z.eq_dec i (size b - 1)) as [->|Hne].
    + rewrite lookup_app_r by lia. replace (1 + Z.to_nat (size b - 1) - length q)%nat with O by lia.
      replace (1 + (size b - 1)) with (size b) by lia. by rewrite <- Htl, store_eq.
    + rewrite lookup_app_l by lia. replace (1 + Z.to_nat i)%nat with (Z.to_nat (1 + i)) by lia.
      rewrite Hc, store_ne by (lia || rewrite Htl; apply ring_inj; lia). done.
Qed.

Lemma last_n_app {A} n (l k : list A) : last_n n (last_n n l ++ k) = last_n n (l ++ k).
Proof.
  unfold last_n. rewrite !length_app, length_drop, !drop_app, drop_drop, length_drop.
  f_equal; f_equal; lia.
Qed.

Lemma buf_push_loop_spec n b m p src q :
  wf b p -> contents b m q -> src + Z.of_nat n <= data b \/ end_ b <= src ->
  let '(b', m', p') := buf_push_loop n b m p src in
  wf b' p' /\ contents b' m' (last_n (Z.to_nat (totalsize b)) (q ++ load m src n)) /\
  totalsize b' = totalsize b /\ data b' = data b /\ end_ b' = end_ b /\
  (forall x, ~ inside b x -> m' x = m x).
Proof.
  revert b m p src q. induction n as [|n IH]; intros b m p src q Hwf Hc Hsrc;
    cbn [buf_push_loop load].
  - split_and!; try done. rewrite app_nil_r. unfold last_n.
    replace (length q - _)%nat with O; [by rewrite drop_0 |].
    destruct Hwf, Hc. lia.
  - pose proof (push_byte_spec b m p (m src) q Hwf Hc) as H.
    destruct (push_byte b m p (m src)) as [[b1 m1] p1].
    destruct H as (Hwf1 & Hc1 & Ht1 & Hd1 & He1 & Hout1).
    specialize (IH b1 m1 p1 (src + 1) _ Hwf1 Hc1 ltac:(lia)).
    destruct (buf_push_loop n b1 m1 p1 (src + 1)) as [[b2 m2] p2].
    destruct IH as (Hwf2 & Hc2 & Ht2 & Hd2 & He2 & Hout2).
    rewrite Ht1, last_n_app, <- app_assoc in Hc2. simpl in Hc2.
    rewrite (load_ext m1 m (src + 1) (src + 1)) in Hc2.
    + split_and!; try done; try congruence. intros x Hx.
      rewrite Hout2, Hout1; [done.. |]. unfold inside in *. by rewrite Hd1, He1.
    + intros i Hi. apply Hout1. unfold inside. lia.
Qed.

(** [buf_push] refines appending to a bounded queue: after it the buffer
    holds the newest [totalsize] bytes of the old contents followed by the
    source bytes, the pointers are well formed, and no byte outside the ring
    changes. *)
Theorem buf_push_refines b m src n q :
  represents b m q -> 0 <= n -> src + n <= data b \/ end_ b <= src ->
  let '(m', b', r) := buf_push b m src n in
  represents b' m' (last_n (Z.to_nat (totalsize b)) (q ++ load m src (Z.to_nat n))) /\
  r = n /\ (forall x, ~ inside b x -> m' x = m x).
Proof.
  intros [Hwf Hc] Hn Hsrc. unfold buf_push.
  pose proof (buf_push_loop_spec (Z.to_nat n) b m (tail b) src q Hwf Hc ltac:(lia)) as H.
  destruct (buf_push_loop (Z.to_nat n) b m (tail b) src) as [[b' m'] p].
  destruct H as ([H1 H2 H3 H4 H5] & Hc' & _ & _ & _ & Hout).
  split_and!; [| done | done]. split; [| exact Hc']. constructor; simpl; done.
Qed.

(** ** Pop *)

Lemma buf_pop_loop_spec n b m dest p :
  0 < totalsize b -> end_ b = data b + totalsize b -> inside b p ->
  dest + Z.of_nat n <= data b \/ end_ b <= dest ->
  let '(m', p') := buf_pop_loop n b m dest p in
  p' = ring b p (Z.of_nat n) /\
  forall x, m' x = if (dest <=? x) && (x <? dest + Z.of_nat n) then m (ring b p (x - dest)) else m x.
Proof.
  intros Ht He. revert m dest p. induction n as [|n IH]; intros m dest p Hp Hd; simpl.
  - split; [by rewrite ring_0 |]. intros x. by zcases; try lia.
  - assert (Hadv : advance b p = ring b p 1).
    { rewrite <- (ring_0 b p He Hp) at 1. by rewrite advance_ring. }
    rewrite Hadv. specialize (IH (store m dest (m p)) (dest + 1) (ring b p 1) (ring_inside b p 1 Ht He) ltac:(lia)).
    destruct (buf_pop_loop n b _ (dest + 1) (ring b p 1)) as [m' p']. destruct IH as [-> Hm].
    split; [rewrite ring_ring by done; f_equal; lia |]. intros x. rewrite Hm, ring_ring by done.
    assert (Hr : forall i, ring b p i <> dest).
    { intros i E. pose proof (ring_inside b p i Ht He) as Hi. unfold inside in Hi. lia. }
    replace (1 + (x - (dest + 1))) with (x - dest) by lia. rewrite store_ne by apply Hr.
    unfold store. destruct (Z.eqb_spec x dest) as [->|]; [rewrite Z.sub_diag, ring_0 by done |];
      by zcases; try lia.
Qed.

(** [buf_pop] refines removing from the front of the queue: it returns
    the smaller of the request and the number of bytes held, copies exactly
    that many of the oldest bytes to the destination, and leaves the rest in
    order. *)
Theorem buf_pop_refines b m dest n q :
  represents b m q -> 0 <= n -> dest + n <= data b \/ end_ b <= dest ->
  let '(m', b', r) := buf_pop b m dest n in
  r = Z.min n (len q) /\ load m' dest (Z.to_nat r) = take (Z.to_nat r) q /\
  represents b' m' (drop (Z.to_nat r) q) /\
  (forall x, x < dest \/ dest + r <= x -> m' x = m x).
Proof.
  intros [[Ht He Htop Hs Htl] [Hl Hc]] Hn Hd. unfold buf_pop.
  set (k := if size b <? n then size b else n).
  assert (Hk : k = Z.min n (size b)) by (unfold k; destruct (Z.ltb_spec (size b) n); lia).
  pose proof (buf_pop_loop_spec (Z.to_nat k) b m dest (top b) Ht He Htop ltac:(lia)) as H.
  destruct (buf_pop_loop (Z.to_nat k) b m dest (top b)) as [m' p']. destruct H as [-> Hm].
  rewrite Z2Nat.id in * by lia. split_and!; [lia | | |].
  - assert (Hlen : length (take (Z.to_nat k) q) = Z.to_nat k) by (rewrite length_take; lia).
    rewrite <- Hlen at 1. apply load_intro. intros i v Hv.
    pose proof (lookup_lt_Some _ _ _ Hv) as Hi. rewrite Hlen in Hi. rewrite lookup_take_lt in Hv by done.
    rewrite Hm. replace (dest + Z.of_nat i - dest) with (Z.of_nat i) by lia.
    pose proof (Hc (Z.of_nat i) ltac:(lia)) as Hci. rewrite Nat2Z.id, Hv in Hci.
    by zcases; try lia; simplify_eq.
  - split.
    + constructor; simpl; try done; [exact (ring_inside b (top b) k Ht He) | lia |].
      rewrite Htl. change (ring {| size := _; totalsize := _; top := _; tail := _; data := _; end_ := _ |} ?x ?y) with (ring b x y).
      rewrite ring_ring by done. f_equal. lia.
    + split; simpl; [rewrite length_drop; lia |]. intros i Hi.
      change (ring {| size := _; totalsize := _; top := _; tail := _; data := _; end_ := _ |} ?x ?y) with (ring b x y).
      rewrite ring_ring, lookup_drop by done. replace (Z.to_nat k + Z.to_nat i)%nat with (Z.to_nat (k + i)) by lia.
      rewrite Hc by lia. f_equal. rewrite Hm.
      pose proof (ring_inside b (top b) (k + i) Ht He) as Hin. unfold inside in Hin.
      by zcases; try lia.
  - intros x Hx. rewrite Hm. by zcases; try lia.
Qed.

Lemma buf_init_empty p sz m : 0 < sz -> represents (buf_init p sz) m [].
Proof.
  intros Hs. split; [constructor; simpl; unfold inside; simpl; try lia |].
  - unfold ring. simpl. rewrite Z.sub_diag, Z.mod_0_l by lia. lia.
  - split; simpl; [done | lia].
Qed.

(** A ring of four bytes at 100, and "abcdef" at 16. *)
Definition demo_ring : circbuf_t := buf_init 100 4.
Definition demo_src : mem := store_list (fun _ => 0) 16 (str "abcdef").

Lemma buf_push_refines_witness :
  let '(m', b', r) := buf_push demo_ring demo_src 16 6 in
  represents b' m' (str "cdef") /\ r = 6 /\ (forall x, ~ inside demo_ring x -> m' x = demo_src x).
Proof.
  apply (buf_push_refines demo_ring demo_src 16 6 []);
    [apply buf_init_empty; lia | lia | left; vm_compute; discriminate].
Defined.

Definition demo_full : mem * circbuf_t := (buf_push demo_ring demo_src 16 6).1.

Lemma demo_full_rep : represents demo_full.2 demo_full.1 (str "cdef").
Proof.
  split; [constructor; try reflexivity; split; vm_compute; (reflexivity || discriminate) |].
  split; [reflexivity |].
  intros i Hi. change (size demo_full.2) with 4 in Hi.
  assert (i = 0 \/ i = 1 \/ i = 2 \/ i = 3) as [-> | [-> | [-> | ->]]] by lia; reflexivity.
Defined.

Lemma buf_pop_refines_witness :
  let '(m', b', r) := buf_pop demo_full.2 demo_full.1 200 3 in
  r = Z.min 3 (len (str "cdef")) /\ load m' 200 (Z.to_nat r) = take (Z.to_nat r) (str "cdef") /\
  represents b' m' (drop (Z.to_nat r) (str "cdef")) /\
  (forall x, x < 200 \/ 200 + r <= x -> m' x = demo_full.1 x).
Proof.
  apply (buf_pop_refines demo_full.2 demo_full.1 200 3 (str "cdef"));
    [exact demo_full_rep | lia | right; vm_compute; discriminate].
Defined.
