(* ===== verification/Memsize.v ===== *)
(** * RAM sizing: common/memsize.c

    [get_ram_size] probes the words at the powers of two above [base].  What
    answers at a word offset is the memory controller's address decoding, so
    the model takes it as a function [dec] from the word offset to the RAM
    cell, [None] where no RAM answers: there a write is lost and a read gives
    what floats on the bus, [bus].  A chip of [2^k] words with fewer address
    lines than the window decodes [i] to [i mod 2^k].

    The theorems: with that decoding the returned size is the real one; for
    every decoding each probed cell gets its old contents back; the word at
    [base] itself is left zero when no probed address aliases it. *)

From S2P Require Import Prelude Memory.

Local Open Scope Z_scope.

Section probe.
Variable dec : Z -> option Z.
Variable bus : Z -> Z.

(** [*addr] and [*addr = v] with [addr = base + i]. *)
Definition rd (r : mem) (i : Z) : Z := match dec i with Some c => r c | None => bus i end.
Definition wr (r : mem) (i v : Z) : mem :=
  match dec i with Some c => store r c v | None => r end.

(** [for (cnt = words >> 1; cnt > 0; cnt >>= 1) { save[i++] = *addr; *addr = ~cnt; }] *)
Fixpoint probe_save (fuel : nat) (r : mem) (cnt : Z) (save : list Z) : option (mem * list Z) :=
  match fuel with
  | O => None
  | S f =>
      if 0 <? cnt
      then probe_save f (wr r cnt (Z.lnot cnt)) (Z.shiftr cnt 1) (save ++ [rd r cnt])
      else Some (r, save)
  end.

(** [for (...; cnt < words; cnt <<= 1) *addr = save[--i];] *)
Fixpoint probe_restore (fuel : nat) (r : mem) (save : list Z) (i cnt words : Z) : option mem :=
  match fuel with
  | O => None
  | S f =>
      if cnt <? words
      then probe_restore f (wr r cnt (nthZ save (i - 1))) save (i - 1) (s32 (Z.shiftl cnt 1)) words
      else Some r
  end.

(** The checking loop: the restored memory and the size found. *)
Fixpoint probe_check (fuel : nat) (r : mem) (save : list Z) (i cnt words maxsize : Z)
    : option (mem * Z) :=
  match fuel with
  | O => None
  | S f =>
      if cnt <? words then
        let val := rd r cnt in
        let r := wr r cnt (nthZ save (i - 1)) in
        if negb (val =? Z.lnot cnt)
        then (fun r' => (r', cnt * 4))
               <$> probe_restore f r save (i - 1) (s32 (Z.shiftl cnt 1)) words
        else probe_check f r save (i - 1) (s32 (Z.shiftl cnt 1)) words maxsize
      else Some (r, maxsize)
  end.

Definition get_ram_size (r : mem) (maxsize : Z) : option (mem * Z) :=
  let words := u32 maxsize / 4 in
  match probe_save 33 r (Z.shiftr words 1) [] with
  | None => None
  | Some (r, save) =>
      let i := len save in
      let save := save ++ [rd r 0] in
      let r := wr r 0 0 in
      if negb (rd r 0 =? 0)
      then (* restore the original data before leaving the function *)
           (fun r' => (r', 0)) <$> probe_restore 33 (wr r 0 (nthZ save i)) save i 1 words
      else probe_check 33 r save i 1 words maxsize
  end.

(** ** Save and undo *)

(** The probed offsets [2^(n-1), ..., 2^j]. *)
Fixpoint pows (j : Z) (n : nat) : list Z :=
  match n with
  | O => []
  | S n' => 2 ^ (j + Z.of_nat n') :: pows j n'
  end.

Fixpoint run (r : mem) (l : list Z) : mem :=
  match l with [] => r | a :: l' => run (wr r a (Z.lnot a)) l' end.

Fixpoint saves (r : mem) (l : list Z) : list Z :=
  match l with [] => [] | a :: l' => rd r a :: saves (wr r a (Z.lnot a)) l' end.

(** Undo the writes [l] with the saved values [ss], last write first. *)
Fixpoint undo (r : mem) (l ss : list Z) : mem :=
  match l, ss with
  | a :: l', s :: ss' => wr (undo r l' ss') a s
  | _, _ => r
  end.

(** Saved values undo their writes whatever cells they alias. *)
Lemma undo_saves r r2 l c :
  undo r2 l (saves r l) c = if bool_decide (Some c ∈ map dec l) then r c else r2 c.
Proof.
  revert r. induction l as [|a l IH]; intros r; simpl; [done |].
  unfold wr at 1, rd at 1. destruct (dec a) as [ca|] eqn:E.
  - unfold store at 1. rewrite IH. destruct (Z.eqb_spec c ca) as [->|Hne].
    + by rewrite bool_decide_eq_true_2 by constructor.
    + rewrite (bool_decide_ext (Some c ∈ Some ca :: _) (Some c ∈ map dec l))
        by (rewrite elem_of_cons; naive_solver).
      unfold wr. rewrite E. by rewrite store_ne.
  - rewrite IH. rewrite (bool_decide_ext (Some c ∈ None :: _) (Some c ∈ map dec l))
      by (rewrite elem_of_cons; naive_solver).
    unfold wr. by rewrite E.
Qed.

Lemma saves_length r l : length (saves r l) = length l.
Proof. revert r. induction l; intros r; simpl; auto. Qed.

Lemma undo_snoc r l ss a s : length l = length ss -> undo r (l ++ [a]) (ss ++ [s]) = undo (wr r a s) l ss.
Proof. revert ss. induction l as [|b l IH]; intros [|t ss] H; simplify_eq/=; [done |]. by rewrite IH. Qed.

Lemma pows_length j n : length (pows j n) = n.
Proof. induction n; simpl; auto. Qed.

Lemma pows_snoc j n : 0 <= j -> pows j (S n) = pows (j + 1) n ++ [2 ^ j].
Proof.
  intros Hj. induction n as [|n IH]; [simpl; by rewrite Z.add_0_r |].
  change (pows j (S (S n))) with (2 ^ (j + Z.of_nat (S n)) :: pows j (S n)).
  rewrite IH. simpl. do 2 f_equal. lia.
Qed.

(** ** The loops *)

Lemma shiftr_pow2 j : 0 < j -> Z.shiftr (2 ^ j) 1 = 2 ^ (j - 1).
Proof. intros. rewrite Z.shiftr_div_pow2, <- Z.pow_sub_r by lia. done. Qed.

Lemma shiftl_pow2 j : 0 <= j < 30 -> s32 (Z.shiftl (2 ^ j) 1) = 2 ^ (j + 1).
Proof.
  intros. rewrite Z.shiftl_mul_pow2, <- Z.pow_add_r by lia.
  assert (0 < 2 ^ (j + 1) <= 2 ^ 30) by (split; [lia | apply Z.pow_le_mono_r; lia]).
  unfold swrap. rewrite Z.mod_small by lia. lia.
Qed.

Lemma probe_save_spec n : forall fuel r ss, (n < fuel)%nat ->
  probe_save fuel r (Z.shiftr (2 ^ Z.of_nat n) 1) ss =
  Some (run r (pows 0 n), ss ++ saves r (pows 0 n)).
Proof.
  induction n as [|n IH]; intros [|fuel] r ss Hf; try lia; cbn [probe_save].
  - simpl. by rewrite app_nil_r.
  - rewrite shiftr_pow2 by lia. replace (Z.of_nat (S n) - 1) with (Z.of_nat n) by lia.
    rewrite (proj2 (Z.ltb_lt 0 _)) by lia. rewrite IH by lia. simpl. by rewrite <- app_assoc.
Qed.

(** Restoring upwards from [2^j] undoes the writes at [2^j] and above. *)
Lemma probe_restore_spec d : forall fuel r ss t j, (d < fuel)%nat -> 0 <= j ->
  j + Z.of_nat d <= 30 -> length ss = d ->
  probe_restore fuel r (ss ++ t) (Z.of_nat d) (2 ^ j) (2 ^ (j + Z.of_nat d)) =
  Some (undo r (pows j d) ss).
Proof.
  induction d as [|d IH]; intros [|fuel] r ss t j Hf Hj Hd Hl; try lia; cbn [probe_restore].
  - rewrite Z.add_0_r, Z.ltb_irrefl. by destruct ss.
  - rewrite (proj2 (Z.ltb_lt _ _)) by (apply Z.pow_lt_mono_r; lia).
    rewrite shiftl_pow2 by lia.
    destruct (exists_last (l := ss)) as (ss' & s & ->); [by destruct ss |].
    rewrite length_app in Hl. simpl in Hl. replace (Z.of_nat (S d) - 1) with (Z.of_nat d) by lia.
    replace (nthZ ((ss' ++ [s]) ++ t) (Z.of_nat d)) with s.
    2: { unfold nthZ. rewrite Nat2Z.id, <- app_assoc, app_nth2 by lia.
         by replace (d - length ss')%nat with O by lia. }
    rewrite <- app_assoc. replace (j + Z.of_nat (S d)) with (j + 1 + Z.of_nat d) by lia.
    rewrite IH by lia. rewrite pows_snoc, undo_snoc by (rewrite ?pows_length; lia). done.
Qed.

(** One turn of the checking loop, with [s] the value saved for [2^j]. *)
Lemma probe_check_turn fuel r ss s t j d m : 0 <= j -> j + Z.of_nat (S d) <= 30 -> length ss = d ->
  probe_check (S fuel) r ((ss ++ [s]) ++ t) (Z.of_nat (S d)) (2 ^ j) (2 ^ (j + Z.of_nat (S d))) m =
  if negb (rd r (2 ^ j) =? Z.lnot (2 ^ j))
  then (fun r' => (r', 2 ^ j * 4)) <$>
       probe_restore fuel (wr r (2 ^ j) s) (ss ++ s :: t) (Z.of_nat d) (2 ^ (j + 1))
         (2 ^ (j + 1 + Z.of_nat d))
  else probe_check fuel (wr r (2 ^ j) s) (ss ++ s :: t) (Z.of_nat d) (2 ^ (j + 1))
         (2 ^ (j + 1 + Z.of_nat d)) m.
Proof.
  intros Hj Hd Hl. cbn [probe_check].
  rewrite (proj2 (Z.ltb_lt _ _)) by (apply Z.pow_lt_mono_r; lia).
  rewrite shiftl_pow2 by lia. replace (Z.of_nat (S d) - 1) with (Z.of_nat d) by lia.
  replace (nthZ ((ss ++ [s]) ++ t) (Z.of_nat d)) with s.
  2: { unfold nthZ. rewrite Nat2Z.id, <- app_assoc, app_nth2 by lia.
       by replace (d - length ss)%nat with O by lia. }
  rewrite <- app_assoc. by replace (j + Z.of_nat (S d)) with (j + 1 + Z.of_nat d) by lia.
Qed.

(** Whatever the checks find, the loop undoes every probing write. *)
Lemma probe_check_undoes d m : forall fuel r ss t j, (d < fuel)%nat -> 0 <= j ->
  j + Z.of_nat d <= 30 -> length ss = d ->
  exists size, probe_check fuel r (ss ++ t) (Z.of_nat d) (2 ^ j) (2 ^ (j + Z.of_nat d)) m =
               Some (undo r (pows j d) ss, size).
Proof.
  induction d as [|d IH]; intros [|fuel] r ss t j Hf Hj Hd Hl; try lia.
  - cbn [probe_check]. rewrite Z.add_0_r, Z.ltb_irrefl. exists m. by destruct ss.
  - destruct (exists_last (l := ss)) as (ss' & s & ->); [by destruct ss |].
    rewrite length_app in Hl. simpl in Hl. rewrite probe_check_turn by lia.
    rewrite pows_snoc, undo_snoc by (rewrite ?pows_length; lia).
    destruct (negb _); [| apply IH; lia].
    rewrite probe_restore_spec by lia. eexists. done.
Qed.

(** What [get_ram_size] does before its checking loop. *)
Lemma get_ram_size_unfold r n : (n <= 29)%nat ->
  get_ram_size r (4 * 2 ^ Z.of_nat n) =
  let r1 := wr (run r (pows 0 n)) 0 0 in
  let t := [rd (run r (pows 0 n)) 0] in
  if negb (rd r1 0 =? 0)
  then (fun r' => (r', 0)) <$> probe_restore 33 (wr r1 0 (rd (run r (pows 0 n)) 0))
         (saves r (pows 0 n) ++ t) (Z.of_nat n) (2 ^ 0) (2 ^ (0 + Z.of_nat n))
  else probe_check 33 r1 (saves r (pows 0 n) ++ t) (Z.of_nat n) (2 ^ 0) (2 ^ (0 + Z.of_nat n))
         (4 * 2 ^ Z.of_nat n).
Proof.
  intros Hn. unfold get_ram_size.
  assert (0 < 2 ^ Z.of_nat n <= 2 ^ 29) by (split; [lia | apply Z.pow_le_mono_r; lia]).
  rewrite (wrap_small 32) by lia. rewrite (Z.mul_comm 4), Z.div_mul by lia.
  rewrite probe_save_spec by lia. rewrite app_nil_l, saves_length, pows_length, Z.add_0_l.
  unfold nthZ. rewrite Nat2Z.id, app_nth2, saves_length, pows_length, Nat.sub_diag
    by (rewrite saves_length, pows_length; lia). done.
Qed.

Lemma run_other r l c : Some c ∉ map dec l -> run r l c = r c.
Proof.
  revert r. induction l as [|a l IH]; intros r H; [done |].
  simpl in *. rewrite not_elem_of_cons in H. destruct H as [H1 H2]. rewrite IH by done.
  unfold wr. destruct (dec a); [| done]. apply store_ne. congruence.
Qed.

(** For a window of [4 * 2^n] bytes and every address decoding (aliasing
    and holes included), [get_ram_size] terminates and gives every RAM cell
    its old contents back, except the word at [base]: that one is left zero
    when no probed power of two decodes to it. *)
Theorem get_ram_size_restores r n : (n <= 29)%nat ->
  exists r' size, get_ram_size r (4 * 2 ^ Z.of_nat n) = Some (r', size) /\
  forall c, r' c =
    if bool_decide (dec 0 = Some c /\ Some c ∉ map dec (pows 0 n)) then 0 else r c.
Proof.
  intros Hn. rewrite get_ram_size_unfold by done. cbv zeta.
  set (r0 := run r (pows 0 n)).
  assert (Hkey : forall r1, (forall c, r1 c = if bool_decide (dec 0 = Some c) then 0 else r0 c) ->
    forall c, undo r1 (pows 0 n) (saves r (pows 0 n)) c =
    if bool_decide (dec 0 = Some c /\ Some c ∉ map dec (pows 0 n)) then 0 else r c).
  { intros r1 H1 c. rewrite undo_saves, H1. unfold r0.
    repeat case_bool_decide; try tauto. by apply run_other. }
  destruct (negb _) eqn:E.
  - rewrite probe_restore_spec by (rewrite ?saves_length, ?pows_length; lia).
    eexists _, _. split; [done |]. apply Hkey. intros c.
    unfold wr, rd in *. destruct (dec 0) as [c0|]; [by rewrite store_eq in E |].
    by rewrite bool_decide_eq_false_2 by congruence.
  - edestruct (probe_check_undoes n) as [size ->];
      [ | | | by rewrite saves_length, pows_length | ]; [lia.. |].
    eexists _, _. split; [done |]. apply Hkey. intros c.
    unfold wr, rd in *. destruct (dec 0) as [c0|]; case_bool_decide; simplify_eq.
    + apply store_eq.
    + apply store_ne. congruence.
    + done.
Qed.
End probe.

(** ** The size found *)

(** A chip of [2^k] words: the address lines above [k] are not connected. *)
Definition mirrored (k : Z) (i : Z) : option Z := Some (i mod 2 ^ k).

Lemma mirrored_pow2 k j : 0 <= j -> 0 <= k ->
  mirrored k (2 ^ j) = Some (if j <? k then 2 ^ j else 0).
Proof.
  intros Hj Hk. unfold mirrored. f_equal. zcase.
  - apply Z.mod_small. split; [lia |]. by apply Z.pow_lt_mono_r; lia.
  - replace j with (j - k + k) by lia. rewrite Z.pow_add_r, Z.mod_mul by lia. done.
Qed.

Lemma mirrored_check k bus d : forall fuel r ss t j, (d < fuel)%nat -> 0 <= j <= k ->
  j + Z.of_nat d <= 30 -> length ss = d -> r 0 = 0 ->
  (forall i, j <= i < j + Z.of_nat d -> i < k -> r (2 ^ i) = Z.lnot (2 ^ i)) ->
  exists r', probe_check (mirrored k) bus fuel r (ss ++ t) (Z.of_nat d) (2 ^ j)
    (2 ^ (j + Z.of_nat d)) (4 * 2 ^ (j + Z.of_nat d)) =
  Some (r', 4 * 2 ^ Z.min k (j + Z.of_nat d)).
Proof.
  induction d as [|d IH]; intros [|fuel] r ss t j Hf Hj Hd Hl H0 Hr; try lia.
  - cbn [probe_check]. rewrite Z.add_0_r, Z.ltb_irrefl, Z.min_r by lia. eauto.
  - destruct (exists_last (l := ss)) as (ss' & s & ->); [by destruct ss |].
    rewrite length_app in Hl. simpl in Hl. rewrite probe_check_turn by lia.
    unfold rd at 1, wr. rewrite mirrored_pow2 by lia. destruct (Z.ltb_spec j k).
    + rewrite Hr, Z.eqb_refl by lia. simpl negb. cbv iota.
      replace (j + Z.of_nat (S d)) with (j + 1 + Z.of_nat d) by lia.
      apply IH; try lia.
      * rewrite store_ne by lia. done.
      * intros i Hi Hik. rewrite store_ne; [apply Hr; lia |].
        intros E. apply Z.pow_inj_r in E; lia.
    + rewrite H0. replace (0 =? Z.lnot (2 ^ j)) with false
        by (symmetry; apply Z.eqb_neq; unfold Z.lnot; lia).
      simpl negb. cbv iota. rewrite probe_restore_spec by lia. eexists. simpl. f_equal. f_equal.
      rewrite Z.min_l by lia. replace k with j by lia. lia.
Qed.

Lemma mirrored_run k r n : 0 <= k ->
  forall i, 0 <= i < Z.of_nat n -> i < k ->
  run (mirrored k) r (pows 0 n) (2 ^ i) = Z.lnot (2 ^ i).
Proof.
  intros Hk. revert r. induction n as [|n IH]; intros r i Hi Hik; [lia |].
  simpl. destruct (Z.eq_dec i (Z.of_nat n)) as [->|].
  - rewrite run_other.
    + unfold wr. rewrite mirrored_pow2 by lia. rewrite (proj2 (Z.ltb_lt _ _)) by done. apply store_eq.
    + clear IH. assert (H : forall m, (m <= n)%nat -> Some (2 ^ Z.of_nat n) ∉ map (mirrored k) (pows 0 m)).
      { induction m as [|m IHm]; intros Hm; [by apply not_elem_of_nil |]. simpl.
        apply not_elem_of_cons. split; [| apply IHm; lia].
        rewrite mirrored_pow2, (proj2 (Z.ltb_lt _ _)) by lia. intros [= E].
        apply Z.pow_inj_r in E; lia. }
      by apply H.
  - apply IH; lia.
Qed.

(** On a chip of [2^k] words behind a window of [2^n] words, mirrored as
    often as it fits, the size found is the chip's, at most the window's. *)
Theorem get_ram_size_finds_size k bus r n : (n <= 29)%nat -> 0 <= k ->
  exists r', get_ram_size (mirrored k) bus r (4 * 2 ^ Z.of_nat n) =
             Some (r', 4 * 2 ^ Z.min k (Z.of_nat n)).
Proof.
  intros Hn Hk. rewrite get_ram_size_unfold by done. cbv zeta.
  assert (H0 : mirrored k 0 = Some 0) by (unfold mirrored; by rewrite Zmod_0_l).
  unfold rd at 1, wr at 1. rewrite H0, store_eq. simpl negb. cbv iota.
  apply (mirrored_check k bus n); try lia.
  - by rewrite saves_length, pows_length.
  - unfold wr. rewrite H0. apply store_eq.
  - intros i Hi Hik. unfold wr. rewrite H0, store_ne by lia. apply (mirrored_run k); lia.
Qed.

Lemma get_ram_size_restores_witness :
  exists r' size, get_ram_size (mirrored 3) (fun _ => 0) (fun a => a + 7) (4 * 2 ^ Z.of_nat 2) =
                  Some (r', size) /\ r' 0 = 0 /\ r' 2 = 9.
Proof.
  destruct (get_ram_size_restores (mirrored 3) (fun _ => 0) (fun a => a + 7) 2) as (r' & s & E & H);
    [lia |].
  exists r', s. rewrite E, !H. split_and!; [done | |]; by vm_compute.
Defined.

Lemma get_ram_size_finds_size_witness :
  exists r', get_ram_size (mirrored 3) (fun _ => 0) (fun a => a + 7) (4 * 2 ^ Z.of_nat 5) =
             Some (r', 32).
Proof. apply (get_ram_size_finds_size 3 (fun _ => 0) (fun a => a + 7) 5); lia. Defined.
