(* ===== verification/Lmb.v ===== *)
(** * Logical memory blocks: lib_generic/lmb.c, include/lmb.h

    The two region tables (memory, reserved) from which [bootm] takes space
    for the kernel's command line, the device tree and the initial RAM disk.
    A table is the C array of [MAX_LMB_REGIONS + 1] entries with its count,
    so that entries beyond the count keep their old contents as in the code.
    [phys_addr_t], [phys_size_t] and [unsigned long] are 32 bits wide.

    The theorems relate a table to the set of addresses it covers: adding and
    freeing change the set by exactly the range named, and an allocation is
    aligned, lies in memory and is disjoint from every reservation. *)

From S2P Require Import Prelude.

Local Open Scope Z_scope.

Definition MAX_LMB_REGIONS : Z := 8.
Definition LMB_ALLOC_ANYWHERE : Z := 0.

Record lmb_property := mk_prop { base : Z; size : Z }.

Record lmb_region := mk_region { cnt : Z; rsize : Z; region : list lmb_property }.

Record lmb := mk_lmb { memory : lmb_region; reserved : lmb_region }.

#[export] Instance lmb_property_eq : EqDecision lmb_property.
Proof. solve_decision. Defined.

(** [rgn->region[i]] read and written. *)
Definition get (reg : list lmb_property) (i : Z) : lmb_property :=
  nth (Z.to_nat i) reg (mk_prop 0 0).
Definition set (reg : list lmb_property) (i : Z) (p : lmb_property) : list lmb_property :=
  <[Z.to_nat i := p]> reg.

Definition lmb_addrs_overlap (base1 size1 base2 size2 : Z) : bool :=
  (base1 <? u32 (base2 + size2)) && (base2 <? u32 (base1 + size1)).

Definition lmb_addrs_adjacent (base1 size1 base2 size2 : Z) : Z :=
  if base2 =? u32 (base1 + size1) then 1
  else if base1 =? u32 (base2 + size2) then -1
  else 0.

Definition lmb_regions_adjacent (reg : list lmb_property) (r1 r2 : Z) : Z :=
  lmb_addrs_adjacent (base (get reg r1)) (size (get reg r1)) (base (get reg r2)) (size (get reg r2)).

Definition lmb_remove_region (rgn : lmb_region) (r : Z) : lmb_region :=
  let body '(reg, i) := (set reg i (get reg (i + 1)), i + 1) in
  let '(reg, _) := for_n body (Z.to_nat (u32 (cnt rgn - 1) - r)) (region rgn, r) in
  mk_region (u32 (cnt rgn - 1)) (rsize rgn) reg.

Definition lmb_coalesce_regions (rgn : lmb_region) (r1 r2 : Z) : lmb_region :=
  let reg := region rgn in
  let p := mk_prop (base (get reg r1)) (u32 (size (get reg r1) + size (get reg r2))) in
  lmb_remove_region (mk_region (cnt rgn) (rsize rgn) (set reg r1 p)) r2.

(** The tables start with a dummy region of size 0; what the rest of the
    array holds is arbitrary ([m], [r]). *)
Definition lmb_init (m r : lmb_region) : lmb :=
  mk_lmb (mk_region 1 0 (set (region m) 0 (mk_prop 0 0)))
         (mk_region 1 0 (set (region r) 0 (mk_prop 0 0))).

(** The loop that looks for a region to coalesce with, from index [i] with
    [n] regions to go: [None] when the region is already there, otherwise
    the array, the index the loop stopped at and [coalesced]. *)
Fixpoint coalesce_scan (n : nat) (reg : list lmb_property) (i b s : Z)
    : option (list lmb_property * Z * Z) :=
  match n with
  | O => Some (reg, i, 0)
  | S n' =>
      let p := get reg i in
      if (base p =? b) && (size p =? s) then None
      else
        let adjacent := lmb_addrs_adjacent b s (base p) (size p) in
        if 0 <? adjacent
        then Some (set reg i (mk_prop (u32 (base p - s)) (u32 (size p + s))), i, 1)
        else if adjacent <? 0
        then Some (set reg i (mk_prop (base p) (u32 (size p + s))), i, 1)
        else coalesce_scan n' reg (i + 1) b s
  end.

(** [for (i = rgn->cnt-1; i >= 0; i--)]: shift up, insert, leave. *)
Fixpoint insert_loop (n : nat) (reg : list lmb_property) (b s : Z) : list lmb_property :=
  match n with
  | O => reg
  | S n' =>
      let i := Z.of_nat n' in
      if b <? base (get reg i)
      then insert_loop n' (set reg (i + 1) (get reg i)) b s
      else set reg (i + 1) (mk_prop b s)
  end.

Definition lmb_add_region (rgn : lmb_region) (b s : Z) : lmb_region * Z :=
  if (cnt rgn =? 1) && (size (get (region rgn) 0) =? 0)
  then (mk_region (cnt rgn) (rsize rgn) (set (region rgn) 0 (mk_prop b s)), 0)
  else
    match coalesce_scan (Z.to_nat (cnt rgn)) (region rgn) 0 b s with
    | None => (rgn, 0)
    | Some (reg, i, coalesced) =>
        let rgn := mk_region (cnt rgn) (rsize rgn) reg in
        let '(rgn, coalesced) :=
          if (i <? u32 (cnt rgn - 1)) && truth (lmb_regions_adjacent reg i (i + 1))
          then (lmb_coalesce_regions rgn i (i + 1), coalesced + 1)
          else (rgn, coalesced) in
        if truth coalesced then (rgn, coalesced)
        else if cnt rgn >=? MAX_LMB_REGIONS then (rgn, -1)
        else
          let reg := insert_loop (Z.to_nat (cnt rgn)) (region rgn) b s in
          let reg := if b <? base (get reg 0) then set reg 0 (mk_prop b s) else reg in
          (mk_region (u32 (cnt rgn + 1)) (rsize rgn) reg, 0)
    end.

Definition lmb_add (l : lmb) (b s : Z) : lmb * Z :=
  let '(r, v) := lmb_add_region (memory l) b s in (mk_lmb r (reserved l), v).

Definition lmb_reserve (l : lmb) (b s : Z) : lmb * Z :=
  let '(r, v) := lmb_add_region (reserved l) b s in (mk_lmb (memory l) r, v).

(** The index of the region that contains [b, e), or the count. *)
Fixpoint free_find (n : nat) (reg : list lmb_property) (i b e : Z) : Z :=
  match n with
  | O => i
  | S n' =>
      let rgnbegin := base (get reg i) in
      let rgnend := u32 (rgnbegin + size (get reg i)) in
      if (rgnbegin <=? b) && (e <=? rgnend) then i else free_find n' reg (i + 1) b e
  end.

Definition lmb_free_region (rgn : lmb_region) (b s : Z) : lmb_region * Z :=
  let reg := region rgn in
  let e := u32 (b + s) in
  let i := free_find (Z.to_nat (cnt rgn)) reg 0 b e in
  if i =? cnt rgn then (rgn, -1)
  else
    let p := get reg i in
    let rgnbegin := base p in
    let rgnend := u32 (rgnbegin + size p) in
    if (rgnbegin =? b) && (rgnend =? e) then (lmb_remove_region rgn i, 0)
    else if rgnbegin =? b
    then (mk_region (cnt rgn) (rsize rgn) (set reg i (mk_prop e (u32 (size p - s)))), 0)
    else if rgnend =? e
    then (mk_region (cnt rgn) (rsize rgn) (set reg i (mk_prop (base p) (u32 (size p - s)))), 0)
    else
      lmb_add_region
        (mk_region (cnt rgn) (rsize rgn) (set reg i (mk_prop (base p) (u32 (b - base p)))))
        e (u32 (rgnend - e)).

Definition lmb_free (l : lmb) (b s : Z) : lmb * Z :=
  let '(r, v) := lmb_free_region (reserved l) b s in (mk_lmb (memory l) r, v).

Fixpoint overlaps_loop (n : nat) (reg : list lmb_property) (i b s : Z) : Z :=
  match n with
  | O => -1
  | S n' =>
      if lmb_addrs_overlap b s (base (get reg i)) (size (get reg i)) then i
      else overlaps_loop n' reg (i + 1) b s
  end.

Definition lmb_overlaps_region (rgn : lmb_region) (b s : Z) : Z :=
  overlaps_loop (Z.to_nat (cnt rgn)) (region rgn) 0 b s.

Definition lmb_align_down (addr size : Z) : Z := Z.land addr (u32 (Z.lnot (u32 (size - 1)))).

Definition lmb_align_up (addr size : Z) : Z :=
  Z.land (u32 (addr + u32 (size - 1))) (u32 (Z.lnot (u32 (size - 1)))).

(** [while (base && lmbbase <= base)]: [inl tt] leaves the loop without an
    allocation, [inr] returns from the function. *)
Fixpoint alloc_while (fuel : nat) (res : lmb_region) (lmbbase b s align : Z)
    : option (unit + lmb_region * Z) :=
  match fuel with
  | O => None
  | S f =>
      if truth b && (lmbbase <=? b) then
        let j := lmb_overlaps_region res b s in
        if j <? 0 then
          let '(res', v) := lmb_add_region res b (lmb_align_up s align) in
          if v <? 0 then Some (inr (res', 0)) else Some (inr (res', b))
        else
          let res_base := base (get (region res) j) in
          if res_base <? s then Some (inl tt)
          else alloc_while f res lmbbase (lmb_align_down (u32 (res_base - s)) align) s align
      else Some (inl tt)
  end.

(** [for (i = lmb->memory.cnt-1; i >= 0; i--)] over the memory regions. *)
Fixpoint alloc_for (n : nat) (l : lmb) (s align max_addr : Z) : option (lmb * Z) :=
  match n with
  | O => Some (l, 0)
  | S n' =>
      let p := get (region (memory l)) (Z.of_nat n') in
      let lmbbase := base p in
      let lmbsize := size p in
      if lmbsize <? s then alloc_for n' l s align max_addr
      else
        let try b :=
          match alloc_while 10 (reserved l) lmbbase b s align with
          | None => None
          | Some (inr (res, v)) => Some (mk_lmb (memory l) res, v)
          | Some (inl _) => alloc_for n' l s align max_addr
          end in
        if max_addr =? LMB_ALLOC_ANYWHERE
        then try (lmb_align_down (u32 (u32 (lmbbase + lmbsize) - s)) align)
        else if lmbbase <? max_addr
        then try (lmb_align_down (u32 (Z.min (u32 (lmbbase + lmbsize)) max_addr - s)) align)
        else alloc_for n' l s align max_addr
  end.

Definition __lmb_alloc_base (l : lmb) (s align max_addr : Z) : option (lmb * Z) :=
  alloc_for (Z.to_nat (cnt (memory l))) l s align max_addr.

(** The value; on failure the code also prints a message. *)
Definition lmb_alloc_base (l : lmb) (s align max_addr : Z) : option (lmb * Z) :=
  __lmb_alloc_base l s align max_addr.

Definition lmb_alloc (l : lmb) (s align : Z) : option (lmb * Z) :=
  lmb_alloc_base l s align LMB_ALLOC_ANYWHERE.

Fixpoint is_reserved_loop (n : nat) (reg : list lmb_property) (i addr : Z) : Z :=
  match n with
  | O => 0
  | S n' =>
      let upper := u32 (base (get reg i) + size (get reg i) - 1) in
      if (base (get reg i) <=? addr) && (addr <=? upper) then 1
      else is_reserved_loop n' reg (i + 1) addr
  end.

Definition lmb_is_reserved (l : lmb) (addr : Z) : Z :=
  is_reserved_loop (Z.to_nat (cnt (reserved l))) (region (reserved l)) 0 addr.

(** ** The tables as lists of regions *)

(** The regions the count makes visible. *)
Definition live (rgn : lmb_region) : list lmb_property := take (Z.to_nat (cnt rgn)) (region rgn).

Definition inside (a : Z) (p : lmb_property) : Prop := base p <= a < base p + size p.

(** The addresses a list of regions covers. *)
Definition covers (l : list lmb_property) (a : Z) : Prop := Exists (inside a) l.

Definition sane (p : lmb_property) : Prop :=
  0 <= base p /\ 0 < size p /\ base p + size p < 2 ^ 32.

(** [p] ends below [q], with a gap between them. *)
Definition below (p q : lmb_property) : Prop := base p + size p < base q.

(** Sorted, disjoint and fully coalesced. *)
Fixpoint gapped (l : list lmb_property) : Prop :=
  match l with
  | [] => True
  | p :: l' => sane p /\ Forall (below p) l' /\ gapped l'
  end.

(** The table invariant: sorted regions, or the dummy of [lmb_init]. *)
Definition table_ok (rgn : lmb_region) : Prop :=
  1 <= cnt rgn <= MAX_LMB_REGIONS /\ length (region rgn) = 9%nat /\
  (gapped (live rgn) \/ live rgn = [mk_prop 0 0]).

(** Two ranges that share no address. *)
Definition apart (b s : Z) (p : lmb_property) : Prop :=
  b + s <= base p \/ base p + size p <= b.

Lemma gapped_app l1 l2 :
  gapped (l1 ++ l2) <-> gapped l1 /\ gapped l2 /\ Forall (fun p => Forall (below p) l2) l1.
Proof.
  induction l1 as [|p l1 IH]; simpl; [rewrite Forall_nil; tauto |].
  rewrite IH, Forall_app, Forall_cons. tauto.
Qed.

Lemma gapped_sane l p : gapped l -> p ∈ l -> sane p.
Proof.
  induction l as [|q l IH]; [by rewrite elem_of_nil |]. simpl. rewrite elem_of_cons.
  intros (H1 & H2 & H3) [->|]; auto.
Qed.

Lemma covers_app l1 l2 a : covers (l1 ++ l2) a <-> covers l1 a \/ covers l2 a.
Proof. apply Exists_app. Qed.

Lemma covers_cons p l a : covers (p :: l) a <-> inside a p \/ covers l a.
Proof. apply Exists_cons. Qed.

Lemma covers_nil a : covers [] a <-> False.
Proof. apply Exists_nil. Qed.

#[export] Hint Rewrite covers_app covers_cons covers_nil : dsd.

Lemma get_mid l1 p l2 i : i = len l1 -> get (l1 ++ p :: l2) i = p.
Proof. intros ->. unfold get. by rewrite Nat2Z.id, nth_middle. Qed.

Lemma set_mid l1 p l2 i q : i = len l1 -> set (l1 ++ p :: l2) i q = l1 ++ q :: l2.
Proof.
  intros ->. unfold set. rewrite Nat2Z.id. replace (length l1) with (length l1 + 0)%nat by lia.
  by rewrite insert_app_r.
Qed.

Lemma get_next l1 p q l2 : get (l1 ++ p :: q :: l2) (len l1 + 1) = q.
Proof.
  rewrite (cons_middle p l1), (app_assoc l1 [p]). apply get_mid. rewrite length_app. simpl. lia.
Qed.

Lemma set_next l1 p x l2 q : set (l1 ++ p :: x :: l2) (len l1 + 1) q = l1 ++ p :: q :: l2.
Proof.
  rewrite (cons_middle p l1), (app_assoc l1 [p]), set_mid; [by rewrite <- app_assoc |].
  rewrite length_app. simpl. lia.
Qed.

Lemma set_length reg i p : length (set reg i p) = length reg.
Proof. apply length_insert. Qed.

(** A table seen as its live regions and the stale rest of the array. *)
Lemma region_split rgn : 0 <= cnt rgn <= len (region rgn) ->
  exists st, region rgn = live rgn ++ st /\ len (live rgn) = cnt rgn.
Proof.
  intros H. exists (drop (Z.to_nat (cnt rgn)) (region rgn)). unfold live.
  rewrite take_drop, length_take. split; [done | lia].
Qed.

Lemma live_app c z l st : c = len l -> live (mk_region c z (l ++ st)) = l.
Proof. intros ->. unfold live. simpl. by rewrite Nat2Z.id, take_app_length. Qed.

(** ** Removing and inserting *)

Lemma remove_body l2 : forall l1 p st k, k = length l2 ->
  exists st', for_n (fun '(reg, i) => (set reg i (get reg (i + 1)), i + 1)) k (l1 ++ p :: l2 ++ st, len l1) =
              (l1 ++ l2 ++ st', len (l1 ++ l2)) /\ length st' = S (length st).
Proof.
  induction l2 as [|q l2 IH]; intros l1 p st k ->.
  - exists (p :: st). simpl. by rewrite app_nil_r.
  - simpl. rewrite get_next, set_mid by done.
    replace (l1 ++ q :: q :: l2 ++ st) with ((l1 ++ [q]) ++ q :: l2 ++ st) by (by rewrite <- app_assoc).
    replace (len l1 + 1) with (len (l1 ++ [q])) by (rewrite length_app; simpl; lia).
    destruct (IH (l1 ++ [q]) q st _ eq_refl) as (st' & E & Hl). rewrite E. exists st'.
    split; [| done]. rewrite <- !app_assoc. done.
Qed.

Lemma lmb_remove_region_spec l1 p l2 st z c : c = len (l1 ++ p :: l2) -> c < 2 ^ 32 ->
  exists st', lmb_remove_region (mk_region c z (l1 ++ p :: l2 ++ st)) (len l1) =
    mk_region (len (l1 ++ l2)) z (l1 ++ l2 ++ st') /\ length st' = S (length st).
Proof.
  intros -> Hc. unfold lmb_remove_region. rewrite length_app in *. simpl in *.
  rewrite (wrap_small 32) by lia.
  destruct (remove_body l2 l1 p st (Z.to_nat (Z.of_nat (length l1 + S (length l2)) - 1 - len l1)))
    as (st' & E & Hl); [lia |].
  rewrite E. exists st'. split; [| done]. f_equal. rewrite length_app. lia.
Qed.

(** Where the insertion loop leaves the new region: above the last region
    that does not start beyond it, or nowhere when there is none. *)
Lemma insert_loop_cases b s l : forall x t,
  exists la lb, l = la ++ lb /\ Forall (fun p => b < base p) lb /\
    ((la = [] /\ insert_loop (length l) (l ++ x :: t) b s = hd x l :: l ++ t) \/
     (exists la' q, la = la' ++ [q] /\ base q <= b /\
        insert_loop (length l) (l ++ x :: t) b s = la ++ mk_prop b s :: lb ++ t)).
Proof.
  induction l as [|p l IH] using rev_ind; intros x t.
  - exists [], []. split_and!; [done | done |]. left. done.
  - rewrite length_app, Nat.add_comm. cbn [insert_loop plus length].
    rewrite <- app_assoc. simpl app. rewrite get_mid by done.
    rewrite !set_next.
    destruct (Z.ltb_spec b (base p)) as [Hlt|Hge].
    + destruct (IH p (p :: t)) as (la & lb & -> & Hlb & H). exists la, (lb ++ [p]).
      rewrite <- app_assoc. split_and!; [done | apply Forall_app; auto |].
      destruct H as [(-> & E) | (la' & q & -> & Hq & E)].
      * left. split; [done |]. rewrite E. simpl. rewrite <- app_assoc. destruct lb; done.
      * right. exists la', q. split_and!; [done | done |]. rewrite E. by rewrite <- (app_assoc lb).
    + exists (l ++ [p]), []. rewrite app_nil_r. split_and!; [done | done |].
      right. exists l, p. by rewrite <- (app_assoc l).
Qed.

(** The whole insertion, the special case of the lowest region included. *)
Lemma insert_spec b s l x t : gapped l -> Forall (apart b s) l -> 0 < s -> l <> [] ->
  exists la lb, l = la ++ lb /\ Forall (fun p => base p + size p <= b) la /\
    Forall (fun p => b + s <= base p) lb /\
    let reg := insert_loop (length l) (l ++ x :: t) b s in
    (if b <? base (get reg 0) then set reg 0 (mk_prop b s) else reg) = la ++ mk_prop b s :: lb ++ t.
Proof.
  intros Hg Ha Hs Hne. destruct (insert_loop_cases b s l x t) as (la & lb & -> & Hlb & H).
  exists la, lb. apply Forall_app in Ha as [Ha1 Ha2]. apply gapped_app in Hg as (Hg1 & Hg2 & Hg12).
  assert (Hlb' : Forall (fun p => b + s <= base p) lb).
  { rewrite !Forall_forall in *. intros p Hp. specialize (Hlb p Hp). specialize (Ha2 p Hp).
    pose proof (gapped_sane _ _ Hg2 Hp). unfold sane, apart in *. lia. }
  destruct H as [(-> & E) | (la' & q & -> & Hq & E)]; cbv zeta; rewrite E.
  - split_and!; [done | done | done |]. destruct lb as [|y lb]; [done |].
    apply Forall_cons in Hlb as [Hy _]. change (get _ 0) with y.
    by rewrite (proj2 (Z.ltb_lt _ _)).
  - apply Forall_app in Ha1 as [Ha0 Hqa]. apply Forall_cons in Hqa as [Hqa _].
    apply gapped_app in Hg1 as (Hg0 & Hgq & Hgx).
    assert (Hqe : base q + size q <= b) by (unfold apart in Hqa; lia).
    destruct Hgq as (Hqs & _ & _).
    assert (Hla : Forall (fun p => base p + size p <= b) la').
    { rewrite !Forall_forall in *. intros p Hp. specialize (Hgx p Hp).
      apply Forall_cons in Hgx as [Hgx _]. unfold below, sane in *. lia. }
    split_and!; [done | apply Forall_app; split; [done | by constructor] | done |].
    replace (b <? base (get _ 0)) with false; [done |]. symmetry. apply Z.ltb_ge.
    destruct la' as [|y la']; [done |]. change (get _ 0) with y.
    apply Forall_cons in Hla as [Hy _]. destruct (proj1 (gapped_app [y] la') Hg0) as ((Hys & _) & _).
    unfold sane in *. lia.
Qed.

(** ** Adding a region *)

(** [b], [s] does not touch [p]. *)
Definition detached (b s : Z) (p : lmb_property) : Prop :=
  b + s <> base p /\ base p + size p <> b.

Lemma adjacent_up b s p : 0 <= b -> 0 < s -> b + s < 2 ^ 32 ->
  b + s = base p -> lmb_addrs_adjacent b s (base p) (size p) = 1.
Proof. intros. unfold lmb_addrs_adjacent. rewrite wrap_small by lia. zcases; lia. Qed.

Lemma adjacent_down b s p : 0 <= b -> 0 < s -> b + s < 2 ^ 32 -> sane p ->
  base p + size p = b -> lmb_addrs_adjacent b s (base p) (size p) = -1.
Proof.
  unfold sane. intros. unfold lmb_addrs_adjacent. rewrite !wrap_small by lia. zcases; lia.
Qed.

Lemma adjacent_none b s p : 0 <= b -> 0 < s -> b + s < 2 ^ 32 -> sane p ->
  detached b s p -> lmb_addrs_adjacent b s (base p) (size p) = 0.
Proof.
  unfold sane, detached. intros. unfold lmb_addrs_adjacent. rewrite !wrap_small by lia. zcases; lia.
Qed.

(** The region [p] extended by the range it touches. *)
Definition joined (b s : Z) (p : lmb_property) : lmb_property :=
  mk_prop (Z.min b (base p)) (size p + s).

(** The three ways the search for a region to coalesce with can end. *)
Lemma coalesce_scan_spec b s : sane (mk_prop b s) -> forall l2 l1 st, gapped l2 ->
  Forall (fun p => apart b s p \/ p = mk_prop b s) l2 ->
  match coalesce_scan (length l2) (l1 ++ l2 ++ st) (len l1) b s with
  | None => mk_prop b s ∈ l2
  | Some (reg, i, c) =>
      (c = 0 /\ reg = l1 ++ l2 ++ st /\ i = len (l1 ++ l2) /\
       Forall (fun p => apart b s p /\ detached b s p) l2) \/
      (exists la p lb, c = 1 /\ l2 = la ++ p :: lb /\ i = len (l1 ++ la) /\
         reg = l1 ++ la ++ joined b s p :: lb ++ st /\ apart b s p /\ ~ detached b s p /\
         Forall (fun p => apart b s p /\ detached b s p) la)
  end.
Proof.
  intros (Hb & Hs & He) l2. simpl in Hb, Hs, He.
  induction l2 as [|p l2 IH]; intros l1 st Hg Ha; simpl.
  { left. rewrite app_nil_r. done. }
  destruct Hg as (Hp & Hbl & Hg). apply Forall_cons in Ha as [Hap Ha].
  rewrite get_mid by done.
  destruct ((base p =? b) && (size p =? s)) eqn:E; zb.
  { destruct p as [pb ps]. simpl in *. subst. by constructor. }
  destruct Hap as [Hap | ->]; [| simpl in E; destruct E; zb; done].
  destruct (decide (b + s = base p)) as [Hu|Hu].
  { rewrite adjacent_up by done. simpl. right. exists [], p, l2. rewrite app_nil_r, set_mid by done.
    unfold sane, detached in *. rewrite !wrap_small by lia. unfold joined. rewrite Z.min_l by lia.
    split_and!; try done; [| lia]. simpl. repeat f_equal. lia. }
  destruct (decide (base p + size p = b)) as [Hd|Hd].
  { rewrite adjacent_down by done. simpl. right. exists [], p, l2. rewrite app_nil_r, set_mid by done.
    unfold sane, detached in *. rewrite !wrap_small by lia. unfold joined. rewrite Z.min_r by lia.
    split_and!; try done. lia. }
  assert (Hdet : detached b s p) by done.
  rewrite adjacent_none by done. simpl. specialize (IH (l1 ++ [p]) st Hg Ha).
  rewrite <- app_assoc, length_app in IH. simpl in IH.
  replace (Z.of_nat (length l1 + 1)) with (len l1 + 1) in IH by lia.
  destruct (coalesce_scan _ _ _ _ _) as [[[reg i] c]|]; [| by constructor].
  destruct IH as [(-> & -> & -> & Hl) | (la & q & lb & -> & -> & -> & -> & Hq & Hqd & Hla)].
  - left. rewrite <- app_assoc. split_and!; try done. by constructor.
  - right. exists (p :: la), q, lb. rewrite <- !app_assoc. split_and!; try done. by constructor.
Qed.

Lemma Forall_impl_in {A} (P Q : A -> Prop) l :
  Forall P l -> (forall x, x ∈ l -> P x -> Q x) -> Forall Q l.
Proof. rewrite !Forall_forall. auto. Qed.

(** Replacing [p] by a region [p'] that stays clear of its neighbours. *)
Lemma gapped_replace la p lb p' : gapped (la ++ p :: lb) -> sane p' ->
  Forall (fun q => below q p') la -> Forall (below p') lb -> gapped (la ++ p' :: lb).
Proof.
  rewrite !gapped_app. simpl. intros (H1 & (H2 & H3 & H4) & H5) Hs Ha Hb. split_and!; try done.
  rewrite !Forall_forall in *. intros q Hq. constructor; [by apply Ha |].
  specialize (H5 q Hq). by apply Forall_cons in H5 as [_ H5].
Qed.

Lemma gapped_mid la p lb : gapped (la ++ p :: lb) ->
  gapped la /\ sane p /\ gapped lb /\ Forall (fun q => below q p) la /\ Forall (below p) lb.
Proof.
  rewrite !gapped_app. simpl. intros (H1 & (H2 & H3 & H4) & H5). split_and!; try done.
  eapply Forall_impl; [exact H5 |]. intros q Hq. by apply Forall_cons in Hq as [? _].
Qed.

(** The region [p] joined with the range it touches keeps its distance from
    the regions before it, and from those after it unless the range fills
    the gap to the next. *)
Lemma joined_gapped b s la p lb : sane (mk_prop b s) -> gapped (la ++ p :: lb) ->
  apart b s p -> ~ detached b s p -> Forall (fun q => apart b s q /\ detached b s q) la ->
  Forall (fun q => apart b s q \/ q = mk_prop b s) lb ->
  (base p + size p = b /\ exists q lb', lb = q :: lb' /\ base q = b + s /\
     gapped (la ++ mk_prop (base p) (size p + s + size q) :: lb')) \/
  (gapped (la ++ joined b s p :: lb) /\
   Forall (fun q => lmb_addrs_adjacent (base (joined b s p)) (size (joined b s p)) (base q) (size q) = 0) lb).
Proof.
  intros (Hb & Hs & He) Hg Hap Hnd Hla Hlb. simpl in Hb, Hs, He.
  destruct (gapped_mid _ _ _ Hg) as (Hga & Hp & Hgb & Hbp & Hpb).
  assert (Hja : Forall (fun q => below q (joined b s p)) la).
  { apply (Forall_impl_in _ _ _ Hla). intros q Hq (Ha & Hd). rewrite Forall_forall in Hbp.
    specialize (Hbp q Hq). pose proof (gapped_sane _ _ Hga Hq).
    unfold sane, below, apart, detached, joined in *. simpl. lia. }
  assert ((exists q lb', lb = q :: lb' /\ base p + size p = b /\ base q = b + s) \/
          ~ (exists q lb', lb = q :: lb' /\ base p + size p = b /\ base q = b + s))
    as [(q & lb' & -> & Hd & Hq)|Hno].
  { destruct lb as [|q lb]; [right; naive_solver |].
    destruct (decide (base p + size p = b /\ base q = b + s)); naive_solver. }
  { left. split; [done |]. exists q, lb'. split_and!; try done.
    destruct (gapped_mid (la ++ [p]) q lb') as (_ & Hqs & _ & _ & Hql); [by rewrite <- app_assoc |].
    apply (gapped_replace _ p).
    - rewrite gapped_app in *. destruct Hg as (? & (? & Hf & _ & _ & ?) & Hx). split_and!; try done.
      + by apply Forall_cons in Hf as [_ Hf].
      + eapply Forall_impl; [exact Hx |]. intros r Hr. rewrite !Forall_cons in *. tauto.
    - unfold sane in *. simpl. lia.
    - eapply Forall_impl; [exact Hbp |]. done.
    - eapply Forall_impl; [exact Hql |]. unfold below. simpl. intros. lia. }
  right. assert (Hjs : sane (joined b s p)).
  { unfold sane, joined, apart, detached in *. simpl. lia. }
  assert (Hjb : Forall (below (joined b s p)) lb).
  { destruct lb as [|q lb]; [done |]. apply Forall_cons in Hlb as [Hq _].
    apply Forall_cons in Hpb as [Hpq _]. destruct Hgb as (Hqs & Hql & _).
    assert (Hjq : below (joined b s p) q).
    { destruct (decide (base p + size p = b /\ base q = b + s)); [exfalso; eauto |].
      unfold below, joined, apart, detached, sane in *. destruct Hq as [Hq | ->]; simpl in *; lia. }
    constructor; [done |]. eapply Forall_impl; [exact Hql |]. intros r Hr. unfold below, sane in *. lia. }
  split; [by apply (gapped_replace _ p) |].
  apply (Forall_impl_in _ _ _ Hjb). intros q Hq Hbq. pose proof (gapped_sane _ _ Hgb Hq).
  unfold sane in *. apply adjacent_none; unfold sane, detached, below in *; lia.
Qed.

(** What a successful update of a table leaves: sorted regions that cover
    the addresses in [cov]. *)
Definition table_is (rgn : lmb_region) (cov : Z -> Prop) : Prop :=
  exists l st, rgn = mk_region (len l) (rsize rgn) (l ++ st) /\ l <> [] /\ len l <= MAX_LMB_REGIONS /\
    length (l ++ st) = 9%nat /\ gapped l /\ forall a, covers l a <-> cov a.

(** A touching region has been joined: the second half of [lmb_add_region]. *)
Lemma add_joined z b s la p lb st :
  let l := la ++ p :: lb in
  let reg := la ++ joined b s p :: lb ++ st in
  let rgn := mk_region (len l) z reg in
  sane (mk_prop b s) -> gapped l -> len l <= MAX_LMB_REGIONS -> length (l ++ st) = 9%nat ->
  apart b s p -> ~ detached b s p -> Forall (fun q => apart b s q /\ detached b s q) la ->
  Forall (fun q => apart b s q \/ q = mk_prop b s) lb ->
  table_is
    (if (len la <? u32 (cnt rgn - 1)) && truth (lmb_regions_adjacent reg (len la) (len la + 1))
     then lmb_coalesce_regions rgn (len la) (len la + 1) else rgn)
    (fun a => covers l a \/ b <= a < b + s).
Proof.
  intros l reg rgn Hbs Hg Hc Hlen Hap Hnd Hla Hlb.
  destruct (gapped_mid _ _ _ Hg) as (_ & Hp & _).
  assert (Hin : forall a, inside a p \/ b <= a < b + s <-> inside a (joined b s p)).
  { intros a. unfold inside, joined, apart, detached, sane in *. simpl in *. lia. }
  change (cnt rgn) with (len l). unfold l, MAX_LMB_REGIONS in *. rewrite !length_app in *. simpl in *.
  rewrite (wrap_small 32) by lia.
  destruct (joined_gapped b s la p lb) as [(Hd & q & lb' & -> & Hq & Hg')|(Hg' & Hadj)]; try done.
  - simpl in *. destruct (Z.ltb_spec (len la) (Z.of_nat (length la + S (S (length lb'))) - 1)); [| lia].
    unfold lmb_regions_adjacent, reg. simpl app. rewrite get_mid, get_next by done.
    rewrite adjacent_up; [simpl | unfold joined, sane, apart in *; simpl in *; lia ..].
    unfold lmb_coalesce_regions, rgn, reg. simpl. rewrite get_mid, get_next, set_mid by done.
    set (p' := mk_prop _ _).
    rewrite (cons_middle p' la), (app_assoc la [p']).
    replace (len la + 1) with (len (la ++ [p'])) by (rewrite length_app; simpl; lia).
    destruct (lmb_remove_region_spec (la ++ [p']) q lb' st z (len (la ++ p :: q :: lb'))) as (st' & -> & Hst);
      [rewrite !length_app; simpl; lia | rewrite length_app; simpl; lia |].
    exists ((la ++ [p']) ++ lb'), st'. rewrite <- (app_assoc _ lb').
    assert (E : p' = mk_prop (base p) (size p + s + size q)).
    { unfold p', joined. simpl. destruct (gapped_mid _ _ _ Hg') as (_ & Hs' & _).
      unfold sane, apart in *. simpl in *. rewrite wrap_small by lia. f_equal. lia. }
    rewrite <- app_assoc, E. rewrite !length_app in *. simpl in *. split_and!; try done; [by destruct la | | |].
    + unfold MAX_LMB_REGIONS. lia.
    + lia.
    + intros a. autorewrite with dsd.
      assert (inside a (mk_prop (base p) (size p + s + size q)) <->
              inside a p \/ b <= a < b + s \/ inside a q); [| tauto].
      destruct (gapped_mid _ _ _ Hg) as (_ & _ & (Hqs & _) & _).
      unfold inside, sane in *. simpl in *. lia.
  - assert (Hif : (len la <? Z.of_nat (length la + S (length lb)) - 1) &&
      truth (lmb_regions_adjacent reg (len la) (len la + 1)) = false).
    { destruct lb as [|q lb]; [apply andb_false_intro1, Z.ltb_ge; simpl; lia |].
      apply Forall_cons in Hadj as [Hq _]. unfold lmb_regions_adjacent, reg. simpl app.
      rewrite get_mid, get_next by done. rewrite Hq. apply andb_false_r. }
    rewrite Hif. exists (la ++ joined b s p :: lb), st. unfold rgn, reg. rewrite <- app_assoc.
    unfold MAX_LMB_REGIONS. rewrite !length_app in *. simpl in *. split_and!; try done; [by destruct la | lia |].
    intros a. specialize (Hin a). autorewrite with dsd. tauto.
Qed.

Lemma table_ok_list rgn : table_ok rgn ->
  exists st, rgn = mk_region (len (live rgn)) (rsize rgn) (live rgn ++ st) /\ live rgn <> [] /\
    len (live rgn) = cnt rgn /\ cnt rgn <= MAX_LMB_REGIONS /\ length (live rgn ++ st) = 9%nat.
Proof.
  intros (Hc & Hl & _). unfold MAX_LMB_REGIONS in *. destruct (region_split rgn) as (st & E & Hn); [lia |].
  exists st. rewrite <- E, Hn. split_and!; try done; [by destruct rgn | | lia].
  intros E'. rewrite E' in Hn. simpl in Hn. lia.
Qed.

Lemma table_is_ok rgn cov : table_is rgn cov ->
  table_ok rgn /\ forall a, covers (live rgn) a <-> cov a.
Proof.
  intros (l & st & E & Hne & Hc & Hl & Hg & Hcov). rewrite E. unfold table_ok.
  rewrite live_app by done. simpl. split_and!; auto. destruct l; [done | simpl; lia].
Qed.

Lemma add_region_core z b s l st : gapped l -> l <> [] -> len l <= MAX_LMB_REGIONS ->
  length (l ++ st) = 9%nat -> sane (mk_prop b s) ->
  Forall (fun p => apart b s p \/ p = mk_prop b s) l ->
  let rgn := mk_region (len l) z (l ++ st) in
  let '(rgn', v) := lmb_add_region rgn b s in
  (v = -1 /\ rgn' = rgn /\ len l = MAX_LMB_REGIONS) \/
  (0 <= v /\ table_is rgn' (fun a => covers l a \/ b <= a < b + s)).
Proof.
  intros Hg Hne Hc Hlen Hbs Ha rgn. unfold lmb_add_region.
  replace ((cnt rgn =? 1) && (size (get (region rgn) 0) =? 0)) with false.
  2: { destruct l as [|p l]; [done |]. destruct Hg as ((_ & Hp & _) & _).
       change (get _ 0) with p. symmetry. apply andb_false_intro2, Z.eqb_neq. lia. }
  simpl cnt at 1. rewrite Nat2Z.id. simpl region at 1.
  pose proof (coalesce_scan_spec b s Hbs l [] st Hg Ha) as H. simpl in H.
  destruct (coalesce_scan _ _ _ _ _) as [[[reg i] c]|].
  2: { right. split; [done |]. exists l, st. split_and!; try done. intros a.
       split; [tauto |]. intros [|Hin]; [done |]. apply Exists_exists. by exists (mk_prop b s). }
  destruct H as [(-> & -> & -> & Hl) | (la & p & lb & -> & -> & -> & -> & Hap & Hnd & Hla)].
  - simpl cnt. unfold MAX_LMB_REGIONS in *. rewrite (wrap_small 32) by (destruct l; [done | simpl in *; lia]).
    rewrite (proj2 (Z.ltb_ge _ _)) by lia. simpl andb. cbv iota. simpl truth. cbv iota.
    simpl cnt. rewrite Z.geb_leb. destruct (Z.leb_spec 8 (len l)); [left; split_and!; [done | done | lia] |].
    right. split; [done |]. rewrite Nat2Z.id. simpl region.
    destruct st as [|x st]; [rewrite app_nil_r in Hlen; lia |].
    destruct (insert_spec b s l x st) as (la & lb & -> & Hla & Hlb & E); try done.
    { eapply Forall_impl; [exact Hl |]. by intros q [? _]. }
    { by destruct Hbs as (_ & ? & _). }
    cbv zeta in E. rewrite E. exists (la ++ mk_prop b s :: lb), st. simpl rsize.
    rewrite (wrap_small 32), <- app_assoc by lia. rewrite !length_app in *. simpl in *.
    apply Forall_app in Hl as [Hl1 Hl2].
    split_and!; try (by destruct la); [f_equal; lia | unfold MAX_LMB_REGIONS; lia | lia | |].
    + rewrite gapped_app in *. simpl. destruct Hg as (? & ? & Hab). split_and!; try done.
      * apply (Forall_impl_in _ _ _ Hl2). intros q Hq (_ & Hd). rewrite Forall_forall in Hlb.
        specialize (Hlb q Hq). unfold below, detached in *. simpl. lia.
      * apply (Forall_impl_in _ _ _ Hl1). intros q Hq (_ & Hd). constructor;
          [| rewrite Forall_forall in Hab; auto].
        rewrite Forall_forall in Hla. specialize (Hla q Hq). unfold below, detached in *. simpl. lia.
    + intros a. autorewrite with dsd. change (inside a (mk_prop b s)) with (b <= a < b + s). tauto.
  - assert (Hlb : Forall (fun q => apart b s q \/ q = mk_prop b s) lb).
    { apply Forall_app in Ha as [_ Ha]. by apply Forall_cons in Ha as [_ Ha]. }
    pose proof (add_joined z b s la p lb st Hbs Hg Hc Hlen Hap Hnd Hla Hlb) as HT. cbv zeta in HT.
    simpl cnt in *. simpl rsize. simpl app. unfold truth in *.
    destruct (_ && _); simpl; right; split; try lia; exact HT.
Qed.

(** The table is full and unchanged, or it covers the new range as well. *)
Lemma add_region_ok rgn b s : table_ok rgn -> sane (mk_prop b s) ->
  Forall (fun p => apart b s p \/ p = mk_prop b s) (live rgn) ->
  let '(rgn', v) := lmb_add_region rgn b s in
  (v = -1 /\ rgn' = rgn /\ cnt rgn = MAX_LMB_REGIONS) \/
  (0 <= v /\ table_ok rgn' /\
   forall a, covers (live rgn') a <-> covers (live rgn) a \/ b <= a < b + s).
Proof.
  intros Hok Hbs Ha. destruct (table_ok_list rgn Hok) as (st & E & Hne & Hc & Hc8 & Hl).
  destruct Hok as (_ & _ & [Hg | El]).
  - pose proof (add_region_core (rsize rgn) b s (live rgn) st Hg Hne) as H.
    rewrite Hc in H. specialize (H Hc8 Hl Hbs Ha). cbv zeta in H. rewrite <- Hc, <- E in H.
    destruct (lmb_add_region rgn b s) as [rgn' v]. rewrite Hc in H.
    destruct H as [?|[Hv HT]]; [by left |]. right. split; [done |]. by apply table_is_ok.
  - rewrite El in *. simpl in E. rewrite E. unfold lmb_add_region. simpl.
    right. split; [done |]. apply table_is_ok. exists [mk_prop b s], st. split_and!; try done.
    intros a. autorewrite with dsd. unfold inside. simpl. lia.
Qed.

(** ** Freeing a range *)

(** [p] contains the whole range. *)
Definition contains (b s : Z) (p : lmb_property) : Prop := base p <= b /\ b + s <= base p + size p.

#[export] Instance contains_dec b s p : Decision (contains b s p).
Proof. unfold contains. apply _. Defined.

Lemma free_find_spec b s st : 0 <= b -> 0 <= s -> b + s < 2 ^ 32 -> forall l2 l1, Forall sane l2 ->
  let i := free_find (length l2) (l1 ++ l2 ++ st) (len l1) b (u32 (b + s)) in
  (i = len (l1 ++ l2) /\ Forall (fun p => ~ contains b s p) l2) \/
  (exists la p lb, l2 = la ++ p :: lb /\ i = len (l1 ++ la) /\ contains b s p).
Proof.
  intros Hb Hs He l2. rewrite wrap_small by lia.
  induction l2 as [|p l2 IH]; intros l1 Hf; simpl; [left; by rewrite app_nil_r |].
  apply Forall_cons in Hf as [Hp Hf]. rewrite get_mid by done.
  unfold sane in Hp. rewrite wrap_small by lia.
  destruct (_ && _) eqn:E; zb.
  - right. exists [], p, l2. by rewrite app_nil_r.
  - specialize (IH (l1 ++ [p]) Hf). rewrite <- app_assoc, length_app in IH. simpl in IH.
    replace (Z.of_nat (length l1 + 1)) with (len l1 + 1) in IH by lia.
    destruct IH as [(-> & Hl)|(la & q & lb & -> & -> & Hq)].
    + left. rewrite <- app_assoc. split; [done |]. constructor; [| done].
      unfold contains. destruct E; zb; lia.
    + right. exists (p :: la), q, lb. rewrite <- app_assoc. done.
Qed.

Lemma gapped_delete la p lb : gapped (la ++ p :: lb) -> gapped (la ++ lb).
Proof.
  rewrite !gapped_app. simpl. intros (H1 & (H2 & H3 & H4) & H5). split_and!; try done.
  eapply Forall_impl; [exact H5 |]. intros q Hq. by apply Forall_cons in Hq as [_ ?].
Qed.

(** Regions of a sorted table share no address. *)
Lemma gapped_others la p lb a : gapped (la ++ p :: lb) -> inside a p -> ~ covers (la ++ lb) a.
Proof.
  intros Hg Ha. destruct (gapped_mid _ _ _ Hg) as (Hga & Hp & Hgb & Hbp & Hpb).
  rewrite covers_app. unfold covers. rewrite !Exists_exists. rewrite Forall_forall in Hbp, Hpb.
  intros [(q & Hq & Hi)|(q & Hq & Hi)].
  - specialize (Hbp q Hq). unfold below, inside in *. lia.
  - specialize (Hpb q Hq). unfold below, inside in *. lia.
Qed.

(** A subrange of [p] in its place: the addresses the table then covers. *)
Lemma shrink_table la p lb p' st z b s : gapped (la ++ p :: lb) ->
  len (la ++ p :: lb) <= MAX_LMB_REGIONS -> length (la ++ p :: lb ++ st) = 9%nat -> sane p' ->
  (forall a, inside a p' <-> inside a p /\ ~ (b <= a < b + s)) -> contains b s p ->
  base p <= base p' -> base p' + size p' <= base p + size p ->
  table_is (mk_region (len (la ++ p :: lb)) z (la ++ p' :: lb ++ st))
    (fun a => covers (la ++ p :: lb) a /\ ~ (b <= a < b + s)).
Proof.
  intros Hg Hc Hl Hp' Hin Hcon Hb1 Hb2. exists (la ++ p' :: lb), st.
  destruct (gapped_mid _ _ _ Hg) as (_ & Hp & _ & Hbp & Hpb).
  rewrite <- app_assoc. rewrite !length_app in *. simpl in *.
  rewrite length_app in Hl. split_and!; try done; try lia; [by destruct la | |].
  - apply (gapped_replace _ p); try done.
    + eapply Forall_impl; [exact Hbp |]. unfold below. simpl. lia.
    + eapply Forall_impl; [exact Hpb |]. unfold below. simpl. lia.
  - intros a. specialize (Hin a). pose proof (gapped_others _ _ _ a Hg) as Ho.
    autorewrite with dsd in *. unfold contains in Hcon.
    assert (b <= a < b + s -> inside a p) by (unfold inside; lia). tauto.
Qed.

(** Freeing a range of the region [p], case by case as the code has them. *)
Lemma free_core z b s la p lb st : let l := la ++ p :: lb in
  let rgn := mk_region (len l) z (la ++ p :: lb ++ st) in
  gapped l -> len l <= MAX_LMB_REGIONS -> length (l ++ st) = 9%nat -> sane (mk_prop b s) ->
  contains b s p -> free_find (length l) (l ++ st) 0 b (u32 (b + s)) = len la ->
  let '(rgn', v) := lmb_free_region rgn b s in
  (v = -1 /\ len l = MAX_LMB_REGIONS /\
   table_is rgn' (fun a => covers l a /\ ~ (b <= a < base p + size p))) \/
  (v = 0 /\ rgn' = lmb_remove_region rgn (len la) /\ b = base p /\ s = size p) \/
  (0 <= v /\ table_is rgn' (fun a => covers l a /\ ~ (b <= a < b + s))).
Proof.
  intros l rgn Hg Hc Hlen (Hb & Hs & He) Hp Hi. simpl in Hb, Hs, He. unfold lmb_free_region.
  destruct (gapped_mid _ _ _ Hg) as (_ & Hps & Hgb & Hbp & Hpb).
  pose proof Hps as (Hp1 & Hp2 & Hp3). pose proof Hp as (Hp4 & Hp5).
  simpl cnt. rewrite Nat2Z.id. simpl region. replace (la ++ p :: lb ++ st) with (l ++ st)
    by (unfold l; by rewrite <- app_assoc).
  rewrite Hi. replace (l ++ st) with (la ++ p :: lb ++ st) by (unfold l; by rewrite <- app_assoc).
  replace (len la =? len l) with false
    by (symmetry; apply Z.eqb_neq; unfold l; rewrite length_app; simpl; lia).
  rewrite get_mid, !set_mid by done. rewrite !wrap_small by (rewrite ?wrap_small; lia).
  assert (Hlen' : length (la ++ p :: lb ++ st) = 9%nat) by (unfold l in Hlen; by rewrite <- app_assoc in Hlen).
  destruct (Z.eqb_spec (base p) b) as [E1|E1]; destruct (Z.eqb_spec (base p + size p) (b + s)) as [E2|E2]; simpl.
  - right. left. split_and!; [done | done | done | lia].
  - right. right. split; [done |]. apply shrink_table; try done; unfold sane, inside; simpl; lia.
  - right. right. split; [done |]. apply shrink_table; try done; unfold sane, inside; simpl; lia.
  - set (p' := mk_prop (base p) (b - base p)). set (e := b + s). set (r := base p + size p - e).
    assert (Hg' : gapped (la ++ p' :: lb)).
    { apply (gapped_replace _ p); try done.
      - unfold sane; simpl; lia.
      - eapply Forall_impl; [exact Hpb |]. unfold below. simpl. lia. }
    assert (Ha : Forall (fun q => apart e r q \/ q = mk_prop e r) (la ++ p' :: lb)).
    { apply Forall_app. split; [| apply Forall_cons; split].
      - eapply Forall_impl; [exact Hbp |]. unfold below, apart. intros. lia.
      - left. right. simpl. lia.
      - eapply Forall_impl; [exact Hpb |]. unfold below, apart. intros. lia. }
    pose proof (add_region_core z e r (la ++ p' :: lb) st Hg') as H.
    unfold l, rgn in *. rewrite !length_app, <- !app_assoc in *. simpl in *.
    specialize (H ltac:(by destruct la) Hc ltac:(lia) ltac:(unfold sane; simpl; lia) Ha).
    destruct (lmb_add_region _ e r) as [rgn' v]. destruct H as [(-> & -> & H8)|(Hv & HT)].
    + left. split_and!; [done | lia |].
      pose proof (shrink_table la p lb p' st z b (base p + size p - b)) as HS.
      rewrite !length_app in HS. simpl in HS.
      replace (b + (base p + size p - b)) with (base p + size p) in HS by lia.
      apply HS; try done; unfold sane, inside, contains; simpl; lia.
    + right. right. split; [done |]. destruct HT as (l' & st' & E & ? & ? & ? & ? & Hcov).
      exists l', st'. split_and!; try done. intros a. rewrite Hcov.
      pose proof (gapped_others _ _ _ a Hg) as Ho. autorewrite with dsd in *.
      assert (inside a p' \/ e <= a < e + r <-> inside a p /\ ~ (b <= a < b + s))
        by (unfold inside; simpl; lia).
      assert (b <= a < b + s -> inside a p) by (unfold inside; lia).
      assert (e <= a < e + r -> inside a p) by (unfold inside; lia). tauto.
Qed.

(** The three outcomes of freeing a range. *)
Lemma free_region_ok rgn b s : table_ok rgn -> gapped (live rgn) ->
  sane (mk_prop b s) ->
  let '(rgn', v) := lmb_free_region rgn b s in
  (v = -1 /\ rgn' = rgn /\ Forall (fun p => ~ contains b s p) (live rgn)) \/
  (v = -1 /\ cnt rgn = MAX_LMB_REGIONS /\ table_ok rgn' /\
   exists p, p ∈ live rgn /\ contains b s p /\ 
     forall a, covers (live rgn') a <-> covers (live rgn) a /\ ~ (b <= a < base p + size p)) \/
  (0 <= v /\ (live rgn' <> [] -> table_ok rgn') /\
   forall a, covers (live rgn') a <-> covers (live rgn) a /\ ~ (b <= a < b + s)).
Proof.
  intros Hok Hg Hbs. pose proof Hbs as (Hb & Hs & He). simpl in Hb, Hs, He.
  destruct (table_ok_list rgn Hok) as (st & E & Hne & Hc & Hc8 & Hl).
  assert (Hsane : Forall sane (live rgn)) by (apply Forall_forall; intros ??; by apply (gapped_sane (live rgn))).
  destruct (free_find_spec b s st Hb ltac:(lia) He (live rgn) [] Hsane)
    as [(Hi & Hno)|(la & p & lb & El & Hi & Hp)]; simpl in Hi.
  - assert (Er : region rgn = live rgn ++ st) by (by rewrite E at 1).
    unfold lmb_free_region. change (Z.of_nat 0) with 0 in Hi. rewrite Er, <- Hc, Nat2Z.id, Hi, Z.eqb_refl. by left.
  - revert E Hg Hne Hc Hl Hi. rewrite El. intros E Hg Hne Hc Hl Hi.
    rewrite <- Hc in Hc8. 
    pose proof (free_core (rsize rgn) b s la p lb st Hg Hc8 Hl Hbs Hp Hi) as H. cbv zeta in H.
    rewrite <- app_assoc in E. simpl in E. rewrite <- E in H.
    destruct (lmb_free_region rgn b s) as [rgn' v].
    destruct H as [(-> & H8 & HT)|[(-> & -> & -> & ->)|(Hv & HT)]].
    + right. left. apply table_is_ok in HT as [HT Hcov]. split_and!; [done | lia | done |].
      exists p. split_and!; try done. rewrite elem_of_app, elem_of_cons. auto.
    + right. right. split; [done |]. rewrite E.
      destruct (lmb_remove_region_spec la p lb st (rsize rgn) (len (la ++ p :: lb))) as (st' & -> & Hst);
        [done | unfold MAX_LMB_REGIONS in *; lia |].
      rewrite app_assoc, live_app by done. unfold table_ok. rewrite live_app by done. simpl. split.
      * intros Hne'. rewrite !length_app in *. simpl in *. unfold MAX_LMB_REGIONS in *.
        assert (0 < length (la ++ lb))%nat by (destruct (la ++ lb); [done | simpl; lia]).
        rewrite length_app in *. split_and!; [lia | lia | lia |]. left. by apply gapped_delete in Hg.
      * intros a. pose proof (gapped_others _ _ _ a Hg) as Ho. autorewrite with dsd in *.
        unfold inside in *. tauto.
    + right. right. apply table_is_ok in HT as [HT Hcov]. auto.
Qed.

(** ** Allocating *)

Lemma land_not_ldiff a m : 0 <= a < 2 ^ 32 -> 0 <= m -> Z.land a (u32 (Z.lnot m)) = Z.ldiff a m.
Proof.
  intros Ha Hm. apply Z.bits_inj'. intros i Hi.
  rewrite Z.land_spec, Z.ldiff_spec, wrap_testbit, Z.lnot_spec by lia.
  destruct (Z.ltb_spec i 32); [done |]. by rewrite (testbit_small 32) by lia.
Qed.

Lemma align_down_spec a k : 0 <= a < 2 ^ 32 -> 0 <= k <= 32 ->
  lmb_align_down a (2 ^ k) = a - a mod 2 ^ k.
Proof.
  intros Ha Hk. unfold lmb_align_down.
  assert (0 < 2 ^ k <= 2 ^ 32) by (split; [lia | apply Z.pow_le_mono_r; lia]).
  rewrite (wrap_small 32 (2 ^ k - 1)), land_not_ldiff by lia.
  replace (2 ^ k - 1) with (Z.ones k) by (rewrite Z.ones_equiv; lia).
  rewrite Z.ldiff_ones_r, Z.shiftl_mul_pow2, Z.shiftr_div_pow2 by lia.
  pose proof (Z.div_mod a (2 ^ k)). lia.
Qed.

Lemma align_up_spec s k : 0 <= s < 2 ^ 32 -> 0 <= k <= 32 -> (2 ^ k | s) ->
  lmb_align_up s (2 ^ k) = s.
Proof.
  intros Hs Hk [q ->]. assert (0 < 2 ^ k <= 2 ^ 32) by (split; [lia | apply Z.pow_le_mono_r; lia]).
  assert (Hq : q * 2 ^ k + (2 ^ k - 1) < 2 ^ 32).
  { assert (E : 2 ^ 32 = 2 ^ (32 - k) * 2 ^ k)
      by (rewrite <- Z.pow_add_r by lia; by replace (32 - k + k) with 32 by lia).
    rewrite E in *. assert (q < 2 ^ (32 - k)) by nia. nia. }
  unfold lmb_align_up. rewrite (wrap_small 32 (2 ^ k - 1)), (wrap_small 32 (_ + _)) by lia.
  pose proof (align_down_spec (q * 2 ^ k + (2 ^ k - 1)) k ltac:(lia) Hk) as H1. unfold lmb_align_down in H1.
  rewrite (wrap_small 32 (2 ^ k - 1)) in H1 by lia. rewrite H1.
  rewrite Z.add_comm, Z.mod_add, Z.mod_small by lia. lia.
Qed.

Lemma overlaps_loop_spec b s st : 0 <= b -> 0 < s -> b + s < 2 ^ 32 ->
  forall l2 l1, Forall (fun p => sane p \/ p = mk_prop 0 0) l2 ->
  let j := overlaps_loop (length l2) (l1 ++ l2 ++ st) (len l1) b s in
  (j = -1 /\ Forall (apart b s) l2) \/
  (0 <= j /\ exists p, p ∈ l2 /\ get (l1 ++ l2 ++ st) j = p /\ sane p /\ ~ apart b s p).
Proof.
  intros Hb Hs He l2. induction l2 as [|p l2 IH]; intros l1 Hf; simpl; [by left |].
  apply Forall_cons in Hf as [Hp Hf]. rewrite get_mid by done.
  assert (Hov : lmb_addrs_overlap b s (base p) (size p) = true <-> sane p /\ ~ apart b s p).
  { unfold lmb_addrs_overlap, sane, apart in *. rewrite andb_true_iff, !Z.ltb_lt.
    destruct Hp as [Hp | ->]; [rewrite !wrap_small by lia; lia |].
    change (u32 (base (mk_prop 0 0) + size (mk_prop 0 0))) with 0. simpl. lia. }
  assert (Hap : lmb_addrs_overlap b s (base p) (size p) = false -> apart b s p).
  { intros E. destruct Hp as [Hp | ->]; [| unfold apart; simpl; lia].
    destruct (decide (b + s <= base p \/ base p + size p <= b)); [done |].
    assert (~ apart b s p) by done. rewrite (proj2 Hov) in E by done. done. }
  destruct (lmb_addrs_overlap _ _ _ _) eqn:E.
  - right. split; [lia |]. exists p. rewrite get_mid by done. split; [by constructor |]. tauto.
  - specialize (IH (l1 ++ [p]) Hf). rewrite <- app_assoc, length_app in IH. simpl in IH.
    replace (Z.of_nat (length l1 + 1)) with (len l1 + 1) in IH by lia.
    destruct IH as [(-> & Hl)|(Hj & q & Hq & Hg & Hr)]; [left; split; [done | constructor; auto] |].
    right. split; [done |]. exists q. split; [by constructor |]. done.
Qed.

(** The regions a descending allocation can still meet. *)
Definition ahead (l : list lmb_property) (e : Z) : nat :=
  length (filter (fun q => base q < e) l).

Lemma ahead_mono l e e' : e' <= e -> (ahead l e' <= ahead l e)%nat.
Proof.
  intros H. unfold ahead. induction l as [|q l IH]; [done |].
  rewrite !filter_cons. repeat case_decide; simpl; lia.
Qed.

Lemma ahead_lt l p e e' : p ∈ l -> e' <= base p < e -> (ahead l e' < ahead l e)%nat.
Proof.
  intros Hp H. induction l as [|q l IH]; [by apply not_elem_of_nil in Hp |].
  unfold ahead in *. rewrite !filter_cons. apply elem_of_cons in Hp as [<- | Hp].
  - rewrite decide_False, decide_True by lia. pose proof (ahead_mono l e e'). unfold ahead in *. simpl. lia.
  - specialize (IH Hp). repeat case_decide; simpl; lia.
Qed.

(** What an allocation of [s] bytes at [v] below [e] out of the table [res]
    promises. *)
Definition allocated (res res' : lmb_region) (align lo e s v : Z) : Prop :=
  v <> 0 /\ (align | v) /\ lo <= v /\ v + s <= e /\ Forall (apart v s) (live res) /\
  table_ok res' /\ forall a, covers (live res') a <-> covers (live res) a \/ v <= a < v + s.

Lemma live_cases res : table_ok res -> Forall (fun p => sane p \/ p = mk_prop 0 0) (live res).
Proof.
  intros (_ & _ & [Hg | ->]); [| constructor; auto].
  apply Forall_forall. intros p Hp. left. by apply (gapped_sane (live res)).
Qed.

Lemma lmb_overlaps_spec res b s : table_ok res -> 0 <= b -> 0 < s -> b + s < 2 ^ 32 ->
  let j := lmb_overlaps_region res b s in
  (j = -1 /\ Forall (apart b s) (live res)) \/
  (0 <= j /\ exists p, p ∈ live res /\ get (region res) j = p /\ sane p /\ ~ apart b s p).
Proof.
  intros Hok Hb Hs He. destruct (table_ok_list res Hok) as (st & E & _ & Hc & _).
  assert (Er : region res = live res ++ st) by (by rewrite E at 1).
  unfold lmb_overlaps_region. rewrite Er, <- Hc, Nat2Z.id.
  apply (overlaps_loop_spec b s st Hb Hs He (live res) []). by apply live_cases.
Qed.

Section allocation.
Variables (res : lmb_region) (s k : Z).
Hypotheses (Hok : table_ok res) (Hs : 0 < s < 2 ^ 32) (Hk : 0 <= k <= 32) (Hdiv : (2 ^ k | s)).

(** The descent below [e] returns, and what it returns is an allocation or
    the code's "table full". *)
Lemma alloc_while_spec lmbbase e : e < 2 ^ 32 -> forall fuel b, (ahead (live res) (b + s) < fuel)%nat ->
  0 <= b -> b + s <= e -> (2 ^ k | b) ->
  exists r, alloc_while fuel res lmbbase b s (2 ^ k) = Some r /\
  match r with
  | inl _ => True
  | inr (res', v) => (v = 0 /\ res' = res) \/ allocated res res' (2 ^ k) lmbbase e s v
  end.
Proof.
  intros He fuel. induction fuel as [|fuel IH]; intros b Hf Hb Hbe Hal; [lia |].
  cbn [alloc_while]. destruct (truth b && (lmbbase <=? b)) eqn:E; [| by eexists]. zb.
  unfold truth in *. zb.
  destruct (lmb_overlaps_spec res b s Hok) as [(-> & Hap)|(Hj & p & Hp & Hg & Hps & Hov)]; try lia.
  - simpl. rewrite align_up_spec by (done || lia).
    assert (Hbs : sane (mk_prop b s)) by (unfold sane; simpl; lia).
    pose proof (add_region_ok res b s Hok Hbs) as HA.
    destruct (lmb_add_region res b s) as [res' v].
    destruct HA as [(-> & -> & _)|(Hv & Hok' & Hcov)].
    + eapply Forall_impl; [exact Hap |]. auto.
    + eexists. split; [done |]. by left.
    + rewrite (proj2 (Z.ltb_ge _ _)) by lia. eexists. split; [done |]. right. split_and!; done.
  - rewrite (proj2 (Z.ltb_ge _ _)) by lia. rewrite Hg. unfold apart, sane in *.
    destruct (Z.ltb_spec (base p) s); [by eexists |].
    rewrite wrap_small, align_down_spec by lia.
    pose proof (Z.mod_pos_bound (base p - s) (2 ^ k) ltac:(lia)).
    apply IH; try lia.
    + assert (ahead (live res) (base p - s - (base p - s) mod 2 ^ k + s) < ahead (live res) (b + s))%nat; [| lia].
      apply (ahead_lt _ p); [done | lia].
    + pose proof (Z.mod_le (base p - s) (2 ^ k)). lia.
    + exists ((base p - s) / 2 ^ k). pose proof (Z.div_mod (base p - s) (2 ^ k)). lia.
Qed.

End allocation.

Lemma ahead_bound res e : table_ok res -> (ahead (live res) e < 10)%nat.
Proof.
  intros Hok. unfold ahead. pose proof (length_filter (fun q => base q < e) (live res)).
  destruct (table_ok_list res Hok) as (_ & _ & _ & Hc & H8 & _). unfold MAX_LMB_REGIONS in *. lia.
Qed.

Lemma live_get rgn n : table_ok rgn -> Z.of_nat n < cnt rgn ->
  get (region rgn) (Z.of_nat n) ∈ live rgn.
Proof.
  intros Hok Hn. destruct (table_ok_list rgn Hok) as (st & E & _ & Hc & _).
  assert (Er : region rgn = live rgn ++ st) by (by rewrite E at 1).
  unfold get. rewrite Er, Nat2Z.id, app_nth1 by lia. apply list_elem_of_In, nth_In. lia.
Qed.

(** One memory region tried: its descent, then the lower regions. *)
Lemma alloc_for_spec l s k m : table_ok (memory l) -> gapped (live (memory l)) ->
  table_ok (reserved l) -> 0 < s < 2 ^ 32 -> 0 <= k <= 31 -> (2 ^ k | s) -> 0 <= m < 2 ^ 32 ->
  m = LMB_ALLOC_ANYWHERE \/ s <= m -> forall n, Z.of_nat n <= cnt (memory l) ->
  exists l' v, alloc_for n l s (2 ^ k) m = Some (l', v) /\ memory l' = memory l /\
    ((v = 0 /\ l' = l) \/
     exists p, p ∈ live (memory l) /\ (m = LMB_ALLOC_ANYWHERE \/ v + s <= m) /\
       allocated (reserved l) (reserved l') (2 ^ k) (base p) (base p + size p) s v).
Proof.
  intros Hm Hgm Hr Hs Hk Hd Hmax Hms. unfold LMB_ALLOC_ANYWHERE in *.
  induction n as [|n IH]; intros Hn; cbn [alloc_for]; [exists l, 0; auto |].
  pose proof (live_get (memory l) n Hm ltac:(lia)) as Hin.
  set (p := get (region (memory l)) (Z.of_nat n)) in *.
  pose proof (gapped_sane _ _ Hgm Hin) as Hp. pose proof Hp as (Hp1 & Hp2 & Hp3).
  specialize (IH ltac:(lia)). destruct (Z.ltb_spec (size p) s) as [|Hsz]; [done |].
  assert (Htry : forall e, s <= e <= base p + size p -> (m = 0 \/ e <= m) ->
    exists l' v, match alloc_while 10 (reserved l) (base p) (lmb_align_down (u32 (e - s)) (2 ^ k)) s (2 ^ k) with
      | None => None
      | Some (inr (res, v)) => Some (mk_lmb (memory l) res, v)
      | Some (inl _) => alloc_for n l s (2 ^ k) m
      end = Some (l', v) /\ memory l' = memory l /\
    ((v = 0 /\ l' = l) \/
     exists p, p ∈ live (memory l) /\ (m = 0 \/ v + s <= m) /\
       allocated (reserved l) (reserved l') (2 ^ k) (base p) (base p + size p) s v)).
  { intros e He Hem. rewrite wrap_small, align_down_spec by lia.
    pose proof (Z.mod_pos_bound (e - s) (2 ^ k) ltac:(lia)).
    pose proof (Z.mod_le (e - s) (2 ^ k) ltac:(lia) ltac:(lia)).
    destruct (alloc_while_spec (reserved l) s k Hr Hs ltac:(lia) Hd (base p) e ltac:(lia) 10
                (e - s - (e - s) mod 2 ^ k)) as (r & -> & H1); try lia.
    - by apply ahead_bound.
    - exists ((e - s) / 2 ^ k). pose proof (Z.div_mod (e - s) (2 ^ k)). lia.
    - destruct r as [[]|[res' v]]; [done |]. eexists _, _. split; [done |]. split; [done |].
      destruct H1 as [(-> & ->)|H1]; [left; by destruct l |]. right. exists p. split; [done |].
      unfold allocated in *. simpl. intuition lia. }
  cbv zeta. unfold LMB_ALLOC_ANYWHERE. destruct (Z.eqb_spec m 0) as [->|].
  - rewrite (wrap_small 32 (_ + _)) by lia. apply Htry; lia.
  - destruct (Z.ltb_spec (base p) m); [| done]. rewrite (wrap_small 32 (_ + _)) by lia.
    destruct (decide (s <= Z.min (base p + size p) m)); [apply Htry; lia | lia].
Qed.

(** [lmb_reserve] of a range disjoint from the reservations, or equal to
    one of them: either the table is full and nothing changes, or it stays
    sorted, disjoint and coalesced and reserves exactly the new range more. *)
Theorem lmb_reserve_adds l b s : table_ok (reserved l) -> sane (mk_prop b s) ->
  Forall (fun p => apart b s p \/ p = mk_prop b s) (live (reserved l)) ->
  let '(l', v) := lmb_reserve l b s in
  memory l' = memory l /\
  ((v = -1 /\ l' = l /\ cnt (reserved l) = MAX_LMB_REGIONS) \/
   (0 <= v /\ table_ok (reserved l') /\ forall a,
      covers (live (reserved l')) a <-> covers (live (reserved l)) a \/ b <= a < b + s)).
Proof.
  intros Hok Hbs Ha. unfold lmb_reserve. pose proof (add_region_ok _ b s Hok Hbs Ha) as H.
  destruct (lmb_add_region _ b s) as [r v]. split; [done |]. simpl.
  destruct H as [(-> & -> & Hc)|H]; [left | by right]. by destruct l.
Qed.

(** [lmb_free].  Success removes exactly the range from the reserved
    addresses and keeps the table's invariant while a region is left; the
    error -1 means that no single reservation contains the range, or that the
    table had no room for the upper half of a split reservation, which is then
    dropped together with the range. *)
Theorem lmb_free_removes l b s : table_ok (reserved l) -> gapped (live (reserved l)) ->
  sane (mk_prop b s) ->
  let '(l', v) := lmb_free l b s in
  let R := live (reserved l) in
  let R' := live (reserved l') in
  memory l' = memory l /\
  ((v = -1 /\ l' = l /\ Forall (fun p => ~ contains b s p) R) \/
   (v = -1 /\ cnt (reserved l) = MAX_LMB_REGIONS /\ table_ok (reserved l') /\
    exists p, p ∈ R /\ contains b s p /\
      forall a, covers R' a <-> covers R a /\ ~ (b <= a < base p + size p)) \/
   (0 <= v /\ (R' <> [] -> table_ok (reserved l')) /\
    forall a, covers R' a <-> covers R a /\ ~ (b <= a < b + s))).
Proof.
  intros Hok Hg Hbs. unfold lmb_free. pose proof (free_region_ok _ b s Hok Hg Hbs) as H.
  destruct (lmb_free_region _ b s) as [r v]. simpl. split; [done |].
  destruct H as [(-> & -> & Hc)|H]; [left | by right]. by destruct l.
Qed.

(** C8: [lmb_alloc_base] for a power-of-two alignment that divides the size,
    and a limit that is absent or not below the size: it terminates, and
    either returns 0 and changes nothing, or returns an aligned address whose
    range lies inside one memory region, below the limit, is disjoint from
    every earlier reservation, and is exactly what becomes reserved. *)
Theorem lmb_alloc_base_sound l s k m : table_ok (memory l) -> gapped (live (memory l)) ->
  table_ok (reserved l) -> 0 < s < 2 ^ 32 -> 0 <= k <= 31 -> (2 ^ k | s) -> 0 <= m < 2 ^ 32 ->
  m = LMB_ALLOC_ANYWHERE \/ s <= m ->
  exists l' v, lmb_alloc_base l s (2 ^ k) m = Some (l', v) /\ memory l' = memory l /\
    ((v = 0 /\ l' = l) \/
     exists p, p ∈ live (memory l) /\ (m = LMB_ALLOC_ANYWHERE \/ v + s <= m) /\
       allocated (reserved l) (reserved l') (2 ^ k) (base p) (base p + size p) s v).
Proof.
  intros Hm Hgm Hr Hs Hk Hd Hmax Hms. apply alloc_for_spec; try done.
  destruct Hm as (? & _). lia.
Qed.

(** ** Witnesses: the tables [bootm] sets up on this board, 64 MB of SDRAM
    with the boot loader's own megabyte reserved *)

Definition zero_table : lmb_region := mk_region 1 0 (replicate 9 (mk_prop 0 0)).
Definition board_lmb : lmb :=
  fst (lmb_reserve (fst (lmb_add (lmb_init zero_table zero_table) 0 0x4000000)) 0x3f00000 0x100000).

(** Evaluate a conjunction of order facts on concrete tables. *)
Ltac table_eval := vm_compute; repeat (split || constructor); try discriminate.

Lemma lmb_reserve_adds_witness :
  table_ok (reserved board_lmb) /\
  let '(l', v) := lmb_reserve board_lmb 0x3e00000 0x100000 in
  v = 1 /\ covers (live (reserved l')) 0x3e00010.
Proof.
  assert (Hok : table_ok (reserved board_lmb)).
  { split_and!; [done | done | done |]. left. table_eval. }
  split; [done |].
  pose proof (lmb_reserve_adds board_lmb 0x3e00000 0x100000 Hok ltac:(table_eval)) as H.
  destruct (lmb_reserve board_lmb 0x3e00000 0x100000) as [l' v] eqn:E.
  assert (Ev : v = 1) by (vm_compute in E; congruence). split; [done |].
  destruct H as (_ & [(H & _)|(_ & _ & H)]); [| lia |].
  - constructor; [| constructor]. left. left. table_eval.
  - apply H. right. lia.
Defined.

Lemma lmb_free_removes_witness :
  let '(l', v) := lmb_free board_lmb 0x3f40000 0x1000 in
  v = 0 /\ ~ covers (live (reserved l')) 0x3f40000.
Proof.
  assert (Hg : gapped (live (reserved board_lmb))) by table_eval.
  assert (Hok : table_ok (reserved board_lmb)) by (split_and!; [done | done | done | by left]).
  pose proof (lmb_free_removes board_lmb 0x3f40000 0x1000 Hok Hg ltac:(table_eval)) as H.
  destruct (lmb_free board_lmb 0x3f40000 0x1000) as [l' v] eqn:E.
  assert (Ev : v = 0) by (vm_compute in E; congruence). split; [done |].
  destruct H as (_ & [(H & _)|[(H & _)|(_ & _ & H)]]); [lia | lia |]. rewrite H. lia.
Defined.

Lemma lmb_alloc_base_sound_witness :
  exists l' v, lmb_alloc_base board_lmb 0x3000 (2 ^ 12) 0x2000000 = Some (l', v) /\
    memory l' = memory board_lmb.
Proof.
  assert (Hm : gapped (live (memory board_lmb))) by table_eval.
  assert (Hg : gapped (live (reserved board_lmb))) by table_eval.
  destruct (lmb_alloc_base_sound board_lmb 0x3000 12 0x2000000) as (l' & v & E & Em & _); try done; try lia.
  - split_and!; [done | done | done | by left].
  - split_and!; [done | done | done | by left].
  - by exists 3.
  - eauto.
Defined.

(** ** What the hypotheses exclude *)

(** Once the last reservation has been freed, the next one is lost and the
    freed one comes back. *)
Lemma reserve_after_last_free :
  let l := fst (lmb_reserve (lmb_init zero_table zero_table) 0x1000 0x1000) in
  let l := fst (lmb_free l 0x1000 0x1000) in
  let '(l, v) := lmb_reserve l 0x8000 0x1000 in
  v = 0 /\ lmb_is_reserved l 0x8000 = 0 /\ lmb_is_reserved l 0x1000 = 1.
Proof. vm_compute. done. Qed.

(** Before the first reservation every address counts as reserved. *)
Lemma is_reserved_of_empty :
  lmb_is_reserved (lmb_init zero_table zero_table) 0x12345678 = 1.
Proof. done. Qed.

(** A limit below the size makes the first candidate wrap around: the result
    is not in memory. *)
Lemma alloc_limit_underflow :
  option_map snd (lmb_alloc_base board_lmb 0x2000 0x1000 0x1000) = Some 0xfffff000.
Proof. vm_compute. done. Qed.

(** The overlap test uses the size, the reservation the rounded size: the
    range reserved can reach into the next reservation. *)
Lemma alloc_rounding_overlap :
  let l := fst (lmb_reserve board_lmb 0x3000a00 0x1000) in
  match lmb_alloc_base l 0x800 0x1000 0x3000a00 with
  | Some (l', v) => v = 0x3000000 /\ 
      live (reserved l') = [mk_prop 0x3000000 0x1000; mk_prop 0x3000a00 0x1000; mk_prop 0x3f00000 0x100000]
  | None => False
  end.
Proof. vm_compute. done. Qed.
