(* ===== verification/Flash.v ===== *)
(** * Flash: common/flash.c, common/cmd_flash.c, board/sdust/common/S29GL064A_04.c

    The sector table, the range checks, and the erase and program loops of
    the board's S29GL064A.  The chip itself is hardware: the driver is written
    against a class of bus operations ([nor_ops]), and the theorems against a
    class that states the data sheet's promises ([nor_spec]): what the command
    sequences do to the array, and that data polling ends after at most
    [max_polls] reads.  [NorChip] at the end is a chip that satisfies it.

    The sources configure one bank.  The messages and the cache flushes
    (the caches are off on this board) are not modelled. *)

From S2P Require Import Prelude Memory.

Local Open Scope Z_scope.

(** ** Constants *)

Definition CONFIG_SYS_FLASH_BASE : Z := 0xF0000000.
Definition CONFIG_SYS_FLASH_SIZE : Z := 0x00800000.
Definition CONFIG_SYS_MAX_FLASH_SECT : Z := 135.
Definition CONFIG_FLASH_ERASE_TOUT : Z := 1024 * 16.
Definition CONFIG_FLASH_WRITE_TOUT : Z := 128 * 32.

Definition SECTSZ_SMALL : Z := 8 * 1024.
Definition SECTSZ_LARGE : Z := 64 * 1024.
Definition FIRST_ADDR : Z := CONFIG_SYS_FLASH_BASE + Z.shiftl 0x0555 1.
Definition SECOND_ADDR : Z := CONFIG_SYS_FLASH_BASE + Z.shiftl 0x02AA 1.

Definition ERR_OK : Z := 0.
Definition ERR_TIMOUT : Z := 1.
Definition ERR_NOT_ERASED : Z := 2.
Definition ERR_PROTECTED : Z := 4.
Definition ERR_INVAL : Z := 8.

Definition FLASH_UNKNOWN : Z := 0xFFFF.
Definition FLASH_AMD_COMP : Z := 0x000FFFFF.
Definition FLASH_S29GL064A_04 : Z := 0xF5.
Definition FLAG_PROTECT_SET : Z := 1.
Definition FLAG_PROTECT_CLEAR : Z := 2.

(** ** The bank *)

Record flash_info_t := mk_info {
  size : Z;
  sector_count : Z;
  flash_id : Z;
  start : list Z;
  protect : list Z;
}.

Definition set_protect (info : flash_info_t) (i p : Z) : flash_info_t :=
  mk_info (size info) (sector_count info) (flash_id info) (start info)
    (<[Z.to_nat i := p]> (protect info)).

(** The two loops of [flash_init]: start addresses from [addr] on. *)
Fixpoint sector_starts (n : nat) (addr step : Z) : list Z :=
  match n with O => [] | S n' => addr :: sector_starts n' (u32 (addr + step)) step end.

Definition flash_init : flash_info_t :=
  let small := sector_starts 8 CONFIG_SYS_FLASH_BASE SECTSZ_SMALL in
  let addr := u32 (CONFIG_SYS_FLASH_BASE + 8 * SECTSZ_SMALL) in
  let large := sector_starts (Z.to_nat (CONFIG_SYS_MAX_FLASH_SECT - 8)) addr SECTSZ_LARGE in
  mk_info CONFIG_SYS_FLASH_SIZE CONFIG_SYS_MAX_FLASH_SECT (FLASH_AMD_COMP + FLASH_S29GL064A_04)
    (small ++ large) (replicate (Z.to_nat CONFIG_SYS_MAX_FLASH_SECT) 1).

Definition b_end (info : flash_info_t) : Z := u32 (nthZ (start info) 0 + size info - 1).

(** [(i == s_end) ? b_end : info->start[i + 1] - 1] *)
Definition sect_end (info : flash_info_t) (i : Z) : Z :=
  if i =? sector_count info - 1 then b_end info else u32 (nthZ (start info) (i + 1) - 1).

(** ** common/flash.c *)

Definition flash_protect (flag from to : Z) (info : flash_info_t) : flash_info_t :=
  if (sector_count info =? 0) || (size info =? 0) || (to <? from) then info
  else if (flash_id info =? FLASH_UNKNOWN) || (to <? nthZ (start info) 0) || (b_end info <? from) then info
  else
    snd (for_n (fun '(i, info) =>
      (i + 1,
       if (from <=? sect_end info i) && (nthZ (start info) i <=? to)
       then if truth (Z.land flag FLAG_PROTECT_CLEAR) then set_protect info i 0
            else if truth (Z.land flag FLAG_PROTECT_SET) then set_protect info i 1
            else info
       else info)) (Z.to_nat (sector_count info)) (0, info)).

(** Whether the address is in the bank. *)
Definition addr2info (info : flash_info_t) (addr : Z) : bool :=
  negb (flash_id info =? FLASH_UNKNOWN) && (nthZ (start info) 0 <=? addr) && (addr <=? b_end info).

(** The search of [flash_write] for a protected sector in the range. *)
Fixpoint protected_hit (n : nat) (info : flash_info_t) (addr end_ i : Z) : bool :=
  match n with
  | O => false
  | S n' =>
      let e_addr := if i =? sector_count info - 1 then u32 (nthZ (start info) 0 + size info)
                    else nthZ (start info) (i + 1) in
      ((nthZ (start info) i <=? end_) && (addr <? e_addr) && truth (nthZ (protect info) i))
      || protected_hit n' info addr end_ (i + 1)
  end.

(** ** common/cmd_flash.c *)

(** The sector loop of [flash_fill_sect_ranges]: [s_first] and [s_last]. *)
Fixpoint fill_loop (n : nat) (info : flash_info_t) (addr_first addr_last sect s_first s_last : Z) : Z * Z :=
  match n with
  | O => (s_first, s_last)
  | S n' =>
      let e := sect_end info sect in
      if (e <? addr_first) || (addr_last <? nthZ (start info) sect)
      then fill_loop n' info addr_first addr_last (sect + 1) s_first s_last
      else
        let s_first := if addr_first =? nthZ (start info) sect then sect else s_first in
        let s_last := if addr_last =? e then sect else s_last in
        fill_loop n' info addr_first addr_last (sect + 1) s_first s_last
  end.

(** [rcode], [s_first], [s_last] and [s_count] for the bank. *)
Definition flash_fill_sect_ranges (info : flash_info_t) (addr_first addr_last : Z) : Z * Z * Z * Z :=
  if addr_last <? addr_first then (0, -1, -1, 0)
  else if flash_id info =? FLASH_UNKNOWN then (0, -1, -1, 0)
  else
    let s_end := sector_count info - 1 in
    let '(s_first, s_last) :=
      fill_loop (Z.to_nat (sector_count info)) info addr_first addr_last 0 (-1) (-1) in
    if s_first >=? 0 then
      let r := if s_last <? 0
               then if b_end info <? addr_last then inr s_end else inl 1
               else inr s_last in
      match r with
      | inl rcode => (rcode, s_first, s_last, 0)
      | inr s_last =>
          if s_last <? s_first then (1, s_first, s_last, 0)
          else (0, s_first, s_last, s_last - s_first + 1)
      end
    else if (nthZ (start info) 0 <=? addr_first) && (addr_first <? b_end info) then (1, s_first, s_last, 0)
    else if s_last >=? 0 then (1, s_first, s_last, 0)
    else (0, s_first, s_last, 0).

Definition flash_sect_protect (info : flash_info_t) (p addr_first addr_last : Z) : flash_info_t * Z :=
  let '(rcode, s_first, s_last, planned) := flash_fill_sect_ranges info addr_first addr_last in
  if truth planned && (rcode =? 0) then
    if negb (flash_id info =? FLASH_UNKNOWN) && (s_first >=? 0) && (s_first <=? s_last)
    then (snd (for_n (fun '(i, info) => (i + 1, set_protect info i p))
                 (Z.to_nat (s_last - s_first + 1)) (s_first, info)), rcode)
    else (info, rcode)
  else if rcode =? 0 then (info, 1)
  else (info, rcode).

(** ** The chip's bus *)

Class nor_ops (W : Type) := {
  readb : Z -> W -> Z * W;
  readw : Z -> W -> Z * W;
  writew : Z -> Z -> W -> W;            (* value, address *)
  udelay : Z -> W -> W;
  timestamp : W -> Z;
}.

Definition get_timer `{nor_ops W} (base_ticks : Z) (w : W) : Z := u32 (timestamp w - base_ticks).

(** ** board/sdust/common/S29GL064A_04.c *)

Section driver.
Context `{nor_ops W}.

(** The six writes of a sector erase. *)
Definition erase_command (addr2 : Z) (w : W) : W :=
  let w := writew 0xaa00 FIRST_ADDR w in
  let w := writew 0x5500 SECOND_ADDR w in
  let w := writew 0x8000 FIRST_ADDR w in
  let w := writew 0xaa00 FIRST_ADDR w in
  let w := writew 0x5500 SECOND_ADDR w in
  writew 0x3000 addr2 w.

(** [while (readb (addr2) != 0xff)] with its timeout. *)
Fixpoint erase_wait (fuel : nat) (addr2 start_ : Z) (w : W) : option (Z * W) :=
  match fuel with
  | O => None
  | S f =>
      let '(v, w) := readb addr2 w in
      if v =? 0xff then Some (0, w)
      else
        let w := udelay (1000 * 1000) w in
        if get_timer start_ w >? CONFIG_FLASH_ERASE_TOUT then Some (1, w)
        else erase_wait f addr2 start_ w
  end.

Fixpoint erase_sectors (n : nat) (fuel : nat) (info : flash_info_t) (sect : Z) (w : W) : option (Z * W) :=
  match n with
  | O => Some (0, w)
  | S n' =>
      if nthZ (protect info) sect =? 0 then
        let addr2 := nthZ (start info) sect in
        let w := erase_command addr2 w in
        match erase_wait fuel addr2 (get_timer 0 w) w with
        | None => None
        | Some (rc, w) => if truth rc then Some (rc, w) else erase_sectors n' fuel info (sect + 1) w
        end
      else erase_sectors n' fuel info (sect + 1) w
  end.

Definition flash_erase (fuel : nat) (info : flash_info_t) (s_first s_last : Z) (w : W) : option (Z * W) :=
  if (s_first <? 0) || (s_last <? s_first) then Some (1, w)
  else erase_sectors (Z.to_nat (s_last - s_first + 1)) fuel info s_first w.

Definition flash_sect_erase (fuel : nat) (info : flash_info_t) (addr_first addr_last : Z) (w : W)
    : option (Z * W) :=
  let '(rcode, s_first, s_last, planned) := flash_fill_sect_ranges info addr_first addr_last in
  if truth planned && (rcode =? 0) then
    if s_first >=? 0 then flash_erase fuel info s_first s_last w else Some (rcode, w)
  else if rcode =? 0 then Some (1, w)
  else Some (rcode, w).

(** The four writes of a word program. *)
Definition program_command (b dst : Z) (w : W) : W :=
  let w := writew 0xaa00 FIRST_ADDR w in
  let w := writew 0x5500 SECOND_ADDR w in
  let w := writew 0xa000 FIRST_ADDR w in
  writew b dst w.

(** [while (readw (dst) != b)] with its timeout. *)
Fixpoint program_wait (fuel : nat) (dst b start_ : Z) (w : W) : option (Z * W) :=
  match fuel with
  | O => None
  | S f =>
      let '(v, w) := readw dst w in
      if v =? b then Some (0, w)
      else if get_timer start_ w >? CONFIG_FLASH_WRITE_TOUT then Some (1, w)
      else program_wait f dst b start_ w
  end.

(** A big-endian [unsigned short] of the source buffer. *)
Definition src_word (m : mem) (a : Z) : Z := m a * 256 + m (a + 1).

(** [while (cnt)]; [cnt] is unsigned, so an odd count runs past zero, beyond
    the data: that is the [None] of the outer fuel. *)
Fixpoint write_words (n : nat) (fuel : nat) (m : mem) (src dst cnt : Z) (w : W) : option (Z * W) :=
  match n with
  | O => None
  | S n' =>
      if cnt =? 0 then Some (0, w)
      else
        let b := src_word m src in
        let '(old, w) := readw dst w in
        if negb (Z.land old b =? b) then Some (2, w)
        else
          let w := program_command b dst w in
          match program_wait fuel dst b (get_timer 0 w) w with
          | None => None
          | Some (rc, w) =>
              if truth rc then Some (rc, w)
              else write_words n' fuel m (src + 2) (dst + 2) (u32 (cnt - 2)) w
          end
  end.

Definition write_buff (fuel : nat) (m : mem) (src addr cnt : Z) (w : W) : option (Z * W) :=
  write_words (S (Z.to_nat cnt)) fuel m src addr cnt w.

(** [flash_write] of common/flash.c. *)
Definition flash_write (fuel : nat) (info : flash_info_t) (m : mem) (src addr cnt : Z) (w : W)
    : option (Z * W) :=
  let end_ := u32 (addr + cnt - 1) in
  if cnt =? 0 then Some (ERR_OK, w)
  else if negb (addr2info info addr) || negb (addr2info info end_) then Some (ERR_INVAL, w)
  else if protected_hit (Z.to_nat (sector_count info)) info addr end_ 0 then Some (ERR_PROTECTED, w)
  else
    let len_ := Z.min (u32 (nthZ (start info) 0 + size info - addr)) cnt in
    write_buff fuel m src addr len_ w.
End driver.

(** ** What the chip promises *)

Definition in_flash (a : Z) : Prop :=
  CONFIG_SYS_FLASH_BASE <= a < CONFIG_SYS_FLASH_BASE + CONFIG_SYS_FLASH_SIZE.

(** The chip's sectors, bottom boot: 8 of 8 KB, then 127 of 64 KB. *)
Definition sector_start (i : Z) : Z :=
  CONFIG_SYS_FLASH_BASE + (if i <? 8 then i * SECTSZ_SMALL else (i - 7) * SECTSZ_LARGE).
Definition sector_size (i : Z) : Z := if i <? 8 then SECTSZ_SMALL else SECTSZ_LARGE.

Definition erased (A : mem) (lo n : Z) : mem :=
  fun x => if (lo <=? x) && (x <? lo + n) then 255 else A x.

(** [programming k a b A w]: the chip is busy writing the word [b] at [a],
    the array will be [A], and at most [k] reads of [a] before that one show
    something else than [b]; [erasing] likewise for a sector. *)
Class nor_spec (W : Type) `{nor_ops W} := {
  array : W -> mem;
  idle : W -> Prop;
  programming : nat -> Z -> Z -> mem -> W -> Prop;
  erasing : nat -> Z -> mem -> W -> Prop;
  max_polls : nat;
  array_bytes : forall w, byte_mem (array w);
  readw_idle : forall a w, idle w ->
    let '(v, w') := readw a w in
    v = array w a * 256 + array w (a + 1) /\ idle w' /\ meq (array w') (array w);
  program_start : forall b a w, idle w -> in_flash a -> in_flash (a + 1) -> (2 | a) -> 0 <= b < 2 ^ 16 ->
    Z.land (array w a * 256 + array w (a + 1)) b = b ->
    programming max_polls a b (store_list (array w) a [b / 256; b mod 256]) (program_command b a w);
  program_poll : forall k a b A w, programming k a b A w ->
    let '(v, w') := readw a w in
    (v = b /\ idle w' /\ meq (array w') A) \/
    (v <> b /\ exists k', k = S k' /\ programming k' a b A w');
  erase_start : forall i w, idle w -> 0 <= i < CONFIG_SYS_MAX_FLASH_SECT ->
    erasing max_polls (sector_start i) (erased (array w) (sector_start i) (sector_size i))
      (erase_command (sector_start i) w);
  erase_poll : forall k a A w, erasing k a A w ->
    let '(v, w') := readb a w in
    (v = 255 /\ idle w' /\ meq (array w') A) \/
    (v <> 255 /\ exists k', k = S k' /\ forall us, erasing k' a A (udelay us w'));
}.

(** ** The sector table *)

(** The board's bank with the protection flags [p]. *)
Definition bank (p : list Z) : flash_info_t :=
  mk_info (size flash_init) (sector_count flash_init) (flash_id flash_init) (start flash_init) p.

Lemma bank_start p i : 0 <= i < 135 -> nthZ (start (bank p)) i = sector_start i.
Proof.
  intros Hi. change (start (bank p)) with (start flash_init).
  assert (H : forallb (fun i => nthZ (start flash_init) i =? sector_start i) (seqZ 0 135) = true)
    by (vm_compute; reflexivity).
  rewrite forallb_forall in H. specialize (H i). rewrite <- list_elem_of_In, elem_of_seqZ in H.
  specialize (H Hi). by zb.
Qed.

Lemma bank_sect_end p i : 0 <= i < 135 -> sect_end (bank p) i = sector_start i + sector_size i - 1.
Proof.
  intros Hi. change (sect_end (bank p) i) with (sect_end flash_init i).
  assert (H : forallb (fun i => sect_end flash_init i =? sector_start i + sector_size i - 1) (seqZ 0 135) = true)
    by (vm_compute; reflexivity).
  rewrite forallb_forall in H. specialize (H i). rewrite <- list_elem_of_In, elem_of_seqZ in H.
  specialize (H Hi). by zb.
Qed.

Lemma sector_mono i j : 0 <= i < j -> sector_start i + sector_size i <= sector_start j.
Proof. intros H. unfold sector_start, sector_size, SECTSZ_SMALL, SECTSZ_LARGE. zcases; lia. Qed.

Lemma sector_pos i : 0 < sector_size i.
Proof. unfold sector_size, SECTSZ_SMALL, SECTSZ_LARGE. zcases; lia. Qed.

Lemma sector_bounds i : 0 <= i < 135 ->
  CONFIG_SYS_FLASH_BASE <= sector_start i /\ (2 | sector_start i) /\ (2 | sector_size i) /\
  sector_start i + sector_size i <= CONFIG_SYS_FLASH_BASE + CONFIG_SYS_FLASH_SIZE.
Proof.
  intros H. unfold sector_start, sector_size, SECTSZ_SMALL, SECTSZ_LARGE, CONFIG_SYS_FLASH_BASE, CONFIG_SYS_FLASH_SIZE.
  destruct (Z.ltb_spec i 8); split_and!; try lia.
  - exists (0x78000000 + i * 4096). lia.
  - by exists 4096.
  - exists (0x78000000 + (i - 7) * 32768). lia.
  - by exists 32768.
Qed.

Section proofs.
Context `{Hspec : nor_spec W}.

Lemma program_wait_spec k : forall fuel dst b A st w, programming k dst b A w -> (k < fuel)%nat ->
  exists rc w', program_wait fuel dst b st w = Some (rc, w') /\
    ((rc = 0 /\ idle w' /\ meq (array w') A) \/ rc = 1).
Proof.
  induction k as [|k IH]; intros [|fuel] dst b A st w Hp Hf; try lia;
    cbn [program_wait]; pose proof (program_poll _ _ _ _ _ Hp) as Hpoll;
    destruct (readw dst w) as [v w'];
    (destruct Hpoll as [(-> & Hi & Ha)|(Hv & k' & Ek & Hp')];
      [rewrite Z.eqb_refl; by eexists _, _; split; [done | left] | try done]).
  injection Ek as <-. rewrite (proj2 (Z.eqb_neq _ _) Hv).
  destruct (_ >? _); [by eexists _, _; split; [done | right] |]. apply (IH fuel dst b A); [done | lia].
Qed.

Lemma erase_wait_spec k : forall fuel a A st w, erasing k a A w -> (k < fuel)%nat ->
  exists rc w', erase_wait fuel a st w = Some (rc, w') /\
    ((rc = 0 /\ idle w' /\ meq (array w') A) \/ rc = 1).
Proof.
  induction k as [|k IH]; intros [|fuel] a A st w Hp Hf; try lia;
    cbn [erase_wait]; pose proof (erase_poll _ _ _ _ Hp) as Hpoll;
    destruct (readb a w) as [v w'];
    (destruct Hpoll as [(-> & Hi & Ha)|(Hv & k' & Ek & Hp')];
      [by eexists _, _; split; [done | left] | try done]).
  injection Ek as <-. rewrite (proj2 (Z.eqb_neq _ _) Hv).
  destruct (_ >? _); [by eexists _, _; split; [done | right] |]. apply (IH fuel a A); [done | lia].
Qed.

(** The sectors [s, s + n) that are not protected read as erased. *)
Fixpoint erase_all (n : nat) (p : list Z) (s : Z) (A : mem) : mem :=
  match n with
  | O => A
  | S n' =>
      erase_all n' p (s + 1)
        (if nthZ p s =? 0 then erased A (sector_start s) (sector_size s) else A)
  end.

#[local] Instance erased_proper : Proper (meq ==> eq ==> eq ==> meq) erased.
Proof. intros A A' HA lo ? <- n ? <- x. unfold erased. by rewrite (HA x). Qed.

Lemma erase_all_proper n p : forall s A A', meq A A' -> meq (erase_all n p s A) (erase_all n p s A').
Proof.
  induction n as [|n IH]; intros s A A' HA; simpl; [done |]. apply IH.
  destruct (_ =? 0); [by rewrite HA | done].
Qed.

Lemma erase_sectors_spec n : forall fuel p s w, idle w -> 0 <= s -> s + Z.of_nat n <= 135 ->
  (max_polls < fuel)%nat ->
  exists rc w', erase_sectors n fuel (bank p) s w = Some (rc, w') /\
    ((rc = 0 /\ idle w' /\ meq (array w') (erase_all n p s (array w))) \/ rc = 1).
Proof.
  induction n as [|n IH]; intros fuel p s w Hi Hs Hn Hf; cbn [erase_sectors erase_all].
  - eexists _, _. split; [done |]. by left.
  - change (protect (bank p)) with p. destruct (Z.eqb_spec (nthZ p s) 0) as [E|E].
    + rewrite bank_start by lia.
      pose proof (erase_start s w Hi) as He.
      edestruct erase_wait_spec as (rc & w1 & -> & H1); [apply He; unfold CONFIG_SYS_MAX_FLASH_SECT; lia | done |].
      destruct H1 as [(-> & Hi1 & Ha1)| ->]; [simpl truth; cbv iota | by eexists _, _; split; [done | right]].
      destruct (IH fuel p (s + 1) w1 Hi1) as (rc & w' & -> & H2); [lia | lia | done |].
      eexists _, _. split; [done |]. destruct H2 as [(-> & Hi2 & Ha2)| ->]; [left | by right].
      split_and!; [done | done |]. rewrite Ha2. by apply erase_all_proper.
    + apply IH; [done | lia..].
Qed.

Lemma src_word_range m a : byte (m a) -> byte (m (a + 1)) ->
  0 <= src_word m a < 2 ^ 16 /\ [src_word m a / 256; src_word m a mod 256] = [m a; m (a + 1)].
Proof.
  unfold byte, src_word. intros Ha Hb. split; [lia |]. f_equal; [| f_equal]; Z.div_mod_to_equations; lia.
Qed.

(** [x] lies in sector [i]. *)
Definition in_sector (i x : Z) : bool :=
  (sector_start i <=? x) && (x <? sector_start i + sector_size i).

(** An unprotected sector among [s, s + n) contains [x]. *)
Definition to_erase (p : list Z) (s : Z) (n : nat) (x : Z) : bool :=
  existsb (fun i => (nthZ p i =? 0) && in_sector i x) (seqZ s (Z.of_nat n)).

Lemma erase_all_spec n p : forall s A x,
  erase_all n p s A x = if to_erase p s n x then 255 else A x.
Proof.
  induction n as [|n IH]; intros s A x; [done |]. cbn [erase_all]. rewrite IH.
  unfold to_erase. rewrite (seqZ_cons s) by lia. cbn [existsb].
  replace (Z.pred (Z.of_nat (S n))) with (Z.of_nat n) by lia. change (Z.succ s) with (s + 1).
  destruct (existsb _ (seqZ (s + 1) (Z.of_nat n))); [by rewrite orb_true_r |]. rewrite orb_false_r.
  destruct (_ =? 0); [| done]. simpl. unfold erased, in_sector. done.
Qed.

Lemma protected_hit_spec p addr e : forall n i, Z.of_nat n + i = 135 -> 0 <= i ->
  protected_hit n (bank p) addr e i = true <->
  exists s, i <= s < 135 /\ nthZ p s <> 0 /\ sector_start s <= e /\ addr < sector_start s + sector_size s.
Proof.
  induction n as [|n IH]; intros i Hn Hi; cbn [protected_hit]; [split; [done | intros (s & ? & _); lia] |].
  change (protect (bank p)) with p. rewrite orb_true_iff, IH, !andb_true_iff by lia. rewrite bank_start by lia.
  replace (if i =? sector_count (bank p) - 1 then _ else _) with (sector_start i + sector_size i).
  2: { change (sector_count (bank p) - 1) with 134. destruct (Z.eqb_spec i 134) as [->|]; [by vm_compute |].
       rewrite bank_start by lia. unfold sector_start, sector_size, SECTSZ_SMALL, SECTSZ_LARGE. zcases; lia. }
  unfold truth. rewrite negb_true_iff, Z.eqb_neq, Z.leb_le, Z.ltb_lt. split.
  - intros [((H1 & H2) & H3)|(s & H1 & H2)]; [exists i; split_and!; (done || lia) | exists s; split; [lia | done]].
  - intros (s & H1 & H2 & H3 & H4). destruct (decide (s = i)) as [->|]; [left; done |].
    right. exists s. split_and!; (done || lia).
Qed.

Lemma addr2info_spec p a : addr2info (bank p) a = true <-> in_flash a.
Proof.
  unfold addr2info, in_flash. change (negb (flash_id (bank p) =? FLASH_UNKNOWN)) with true.
  change (nthZ (start (bank p)) 0) with CONFIG_SYS_FLASH_BASE.
  change (b_end (bank p)) with (CONFIG_SYS_FLASH_BASE + CONFIG_SYS_FLASH_SIZE - 1).
  rewrite !andb_true_iff, !Z.leb_le. lia.
Qed.

(** The word [b] only clears bits of the array at [a]. *)
Definition programmable (A : mem) (a b : Z) : Prop := Z.land (A a * 256 + A (a + 1)) b = b.

(** The array after the first [n] bytes of the source have been written. *)
Definition written (A m : mem) (dst src : Z) (n : nat) : mem := store_list A dst (load m src n).

Lemma written_step A A' m dst src k : meq A' (store_list A dst [m src; m (src + 1)]) ->
  meq (written A' m (dst + 2) (src + 2) (2 * k)) (written A m dst src (2 * S k)).
Proof.
  intros HA. unfold written. replace (2 * S k)%nat with (S (S (2 * k)))%nat by lia. cbn [load store_list].
  replace (src + 1 + 1) with (src + 2) by lia. replace (dst + 1 + 1) with (dst + 2) by lia.
  by rewrite HA.
Qed.

Lemma write_words_spec k : forall n fuel m src dst w, idle w -> (k < n)%nat -> (max_polls < fuel)%nat ->
  CONFIG_SYS_FLASH_BASE <= dst -> dst + 2 * Z.of_nat k <= CONFIG_SYS_FLASH_BASE + CONFIG_SYS_FLASH_SIZE ->
  (2 | dst) -> (forall i, 0 <= i < 2 * Z.of_nat k -> byte (m (src + i))) ->
  exists rc w', write_words n fuel m src dst (2 * Z.of_nat k) w = Some (rc, w') /\
    ((rc = 0 /\ idle w' /\ meq (array w') (written (array w) m dst src (2 * k))) \/ rc = 1 \/
     (rc = 2 /\ idle w' /\ exists j, (j < k)%nat /\ meq (array w') (written (array w) m dst src (2 * j)) /\
        ~ programmable (array w) (dst + 2 * Z.of_nat j) (src_word m (src + 2 * Z.of_nat j)))).
Proof.
  induction k as [|k IH]; intros [|n] fuel m src dst w Hi Hn Hf Hlo Hhi Hal Hm; try lia; cbn [write_words].
  { eexists _, _. split; [done |]. by left. }
  replace (2 * Z.of_nat (S k) =? 0) with false by (symmetry; apply Z.eqb_neq; lia).
  pose proof (readw_idle dst w Hi) as Hr. destruct (readw dst w) as [old w0]. destruct Hr as (-> & Hi0 & Ha0).
  assert (Hb0 : byte (m src)) by (rewrite <- (Z.add_0_r src); apply Hm; lia).
  assert (Hb1 : byte (m (src + 1))) by (apply Hm; lia).
  destruct (src_word_range m src Hb0 Hb1) as [Hb Hbytes].
  destruct (Z.eqb_spec (Z.land (array w dst * 256 + array w (dst + 1)) (src_word m src)) (src_word m src)) as [Ep|Ep].
  2: { simpl. eexists _, _. split; [done |]. right. right. split_and!; [done | done |]. exists O.
       split_and!; [lia | done |]. by rewrite !Z.add_0_r. }
  simpl negb. cbv iota.
  destruct (program_wait_spec max_polls fuel dst (src_word m src)
    (store_list (array w0) dst [src_word m src / 256; src_word m src mod 256])
    (get_timer 0 (program_command (src_word m src) dst w0)) (program_command (src_word m src) dst w0))
    as (rc & w1 & -> & H1).
  { apply program_start; try done; unfold in_flash; rewrite ?(Ha0 dst), ?(Ha0 (dst + 1)); try done; lia. }
  { done. }
  destruct H1 as [(-> & Hi1 & Ha1)| ->]; [simpl truth; cbv iota | by eexists _, _; split; [done | right; left]].
  rewrite Hbytes in Ha1.
  assert (Ha1' : meq (array w1) (store_list (array w) dst [m src; m (src + 1)])) by (by rewrite Ha1, Ha0).
  rewrite (wrap_small 32) by (unfold CONFIG_SYS_FLASH_SIZE in *; lia).
  replace (2 * Z.of_nat (S k) - 2) with (2 * Z.of_nat k) by lia.
  destruct (IH n fuel m (src + 2) (dst + 2) w1) as (rc & w' & -> & H2); try done; try lia.
  { destruct Hal as [q ->]. exists (q + 1). lia. }
  { intros i Hi'. replace (src + 2 + i) with (src + (i + 2)) by lia. apply Hm. lia. }
  eexists _, _. split; [done |].
  destruct H2 as [(-> & Hi2 & Ha2)|[-> |(-> & Hi2 & j & Hj & Ha2 & Hp)]]; [left | by right; left | right; right].
  - split_and!; [done | done |]. by rewrite Ha2, (written_step (array w)).
  - split_and!; [done | done |]. exists (S j). split_and!; [lia | by rewrite Ha2, (written_step (array w)) |].
    replace (dst + 2 * Z.of_nat (S j)) with (dst + 2 + 2 * Z.of_nat j) by lia.
    replace (src + 2 * Z.of_nat (S j)) with (src + 2 + 2 * Z.of_nat j) by lia.
    unfold programmable in *. rewrite !Ha1' in Hp.
    rewrite !store_list_out in Hp by (simpl; lia). done.
Qed.

(** What [flash_write] returns and leaves, by cases. *)
Definition write_outcome (p : list Z) (m : mem) (src addr cnt rc : Z) (w w' : W) : Prop :=
  if decide (in_flash addr /\ in_flash (addr + cnt - 1)) then
    if protected_hit 135 (bank p) addr (addr + cnt - 1) 0 then rc = ERR_PROTECTED /\ w' = w
    else
      (rc = ERR_OK /\ idle w' /\ meq (array w') (written (array w) m addr src (Z.to_nat cnt))) \/
      rc = ERR_TIMOUT \/
      (rc = ERR_NOT_ERASED /\ idle w' /\ exists j, 0 <= 2 * j < cnt /\
         meq (array w') (written (array w) m addr src (Z.to_nat (2 * j))) /\
         ~ programmable (array w) (addr + 2 * j) (src_word m (src + 2 * j)))
  else rc = ERR_INVAL /\ w' = w.

Lemma flash_write_core fuel p m src addr cnt w : idle w -> (max_polls < fuel)%nat ->
  0 < cnt -> (2 | cnt) -> (2 | addr) -> 0 <= addr -> addr + cnt <= 2 ^ 32 ->
  (forall i, 0 <= i < cnt -> byte (m (src + i))) ->
  exists rc w', flash_write fuel (bank p) m src addr cnt w = Some (rc, w') /\
    write_outcome p m src addr cnt rc w w'.
Proof.
  intros Hi Hf Hc [k Ek] Ha Ha0 Hend Hm. unfold flash_write, write_outcome.
  rewrite (proj2 (Z.eqb_neq cnt 0)) by lia. rewrite (wrap_small 32 (addr + cnt - 1)) by lia.
  case_decide as Hin.
  2: { replace (negb _ || negb _) with true; [eauto |]. symmetry. apply not_false_iff_true.
       rewrite orb_false_iff, !negb_false_iff, !addr2info_spec. done. }
  replace (negb _ || negb _) with false.
  2: { symmetry. rewrite orb_false_iff, !negb_false_iff, !addr2info_spec. done. }
  change (Z.to_nat (sector_count (bank p))) with 135%nat.
  destruct (protected_hit _ _ _ _ _); [eauto |].
  destruct Hin as [Hin1 Hin2]. unfold in_flash in *.
  change (nthZ (start (bank p)) 0 + size (bank p)) with (CONFIG_SYS_FLASH_BASE + CONFIG_SYS_FLASH_SIZE).
  unfold CONFIG_SYS_FLASH_BASE, CONFIG_SYS_FLASH_SIZE in *.
  rewrite wrap_small, Z.min_r by lia. unfold write_buff.
  destruct (write_words_spec (Z.to_nat k) (S (Z.to_nat cnt)) fuel m src addr w) as (rc & w' & E & HW); try done; try lia.
  { unfold CONFIG_SYS_FLASH_BASE. lia. }
  { unfold CONFIG_SYS_FLASH_BASE, CONFIG_SYS_FLASH_SIZE. lia. }
  { intros i Hi'. apply Hm. lia. }
  replace (2 * Z.of_nat (Z.to_nat k)) with cnt in E by lia.
  exists rc, w'. split; [done |]. replace (Z.to_nat cnt) with (2 * Z.to_nat k)%nat by lia.
  destruct HW as [?|[?|(-> & H1 & j & Hj & H2 & H3)]]; [by left | by right; left |].
  right. right. split_and!; [done | done |]. exists (Z.of_nat j). split_and!; [lia | lia | | done].
  by replace (Z.to_nat (2 * Z.of_nat j)) with (2 * j)%nat by lia.
Qed.

(** [flash_write] of an even number of bytes at an even address.  It
    terminates; a range that leaves the bank gives ERR_INVAL and one that
    touches a protected sector ERR_PROTECTED, without a bus access; otherwise
    it returns 0 with the bytes in the array and the rest unchanged, or a
    timeout, or ERR_NOT_ERASED at the first word that would need a bit set,
    with exactly the words before it written. *)
Theorem flash_write_programs fuel p m src addr cnt w : idle w -> (max_polls < fuel)%nat ->
  0 < cnt -> (2 | cnt) -> (2 | addr) -> 0 <= addr -> addr + cnt <= 2 ^ 32 ->
  (forall i, 0 <= i < cnt -> byte (m (src + i))) ->
  exists rc w', flash_write fuel (bank p) m src addr cnt w = Some (rc, w') /\
    write_outcome p m src addr cnt rc w w'.
Proof. apply flash_write_core. Qed.

Lemma flash_erase_core fuel p s_first s_last w : idle w -> (max_polls < fuel)%nat ->
  0 <= s_first <= s_last -> s_last < 135 ->
  exists rc w', flash_erase fuel (bank p) s_first s_last w = Some (rc, w') /\
    ((rc = 0 /\ idle w' /\ forall x, array w' x =
        if to_erase p s_first (Z.to_nat (s_last - s_first + 1)) x then 255 else array w x) \/
     rc = 1).
Proof.
  intros Hi Hf Hs Hl. unfold flash_erase. zcases; try lia. simpl.
  destruct (erase_sectors_spec (Z.to_nat (s_last - s_first + 1)) fuel p s_first w) as (rc & w' & -> & HW); try done; try lia.
  exists rc, w'. split; [done |]. destruct HW as [(-> & Hi' & Ha)| ->]; [left | by right].
  split_and!; [done | done |]. intros x. by rewrite Ha, erase_all_spec.
Qed.
End proofs.

(** ** Ranges on sector boundaries *)

Lemma fill_loop_aligned p i j : 0 <= i <= j -> j < 135 -> forall n sect, Z.of_nat n + sect = 135 -> 0 <= sect ->
  fill_loop n (bank p) (sector_start i) (sector_start j + sector_size j - 1) sect
    (if i <? sect then i else -1) (if j <? sect then j else -1) = (i, j).
Proof.
  intros Hij Hj. induction n as [|n IH]; intros sect Hn Hs; cbn [fill_loop].
  - zcases; lia || done.
  - rewrite bank_start, bank_sect_end by lia.
    assert (Hmono : forall a b, 0 <= a < b -> sector_start a + sector_size a <= sector_start b) by apply sector_mono.
    pose proof (sector_pos i). pose proof (sector_pos j). pose proof (sector_pos sect).
    specialize (IH (sect + 1) ltac:(lia) ltac:(lia)).
    assert (Hi : sector_start i = sector_start sect <-> i = sect).
    { split; [| by intros ->]. intros E. destruct (Z.lt_total i sect) as [L|[L|L]]; [| done |].
      - pose proof (Hmono i sect). lia.
      - pose proof (Hmono sect i). lia. }
    assert (He : sector_start j + sector_size j - 1 = sector_start sect + sector_size sect - 1 <-> j = sect).
    { split; [| by intros ->]. intros E. destruct (Z.lt_total j sect) as [L|[L|L]]; [| done |].
      - pose proof (Hmono j sect). lia.
      - pose proof (Hmono sect j). lia. }
    destruct (decide (sect < i)) as [L|L].
    { pose proof (Hmono sect i). replace (_ || _) with true.
      - rewrite <- IH. f_equal; zcases; lia || done.
      - symmetry. apply orb_true_iff. left. apply Z.ltb_lt. lia. }
    destruct (decide (j < sect)) as [L'|L'].
    { pose proof (Hmono j sect). replace (_ || _) with true.
      - rewrite <- IH. f_equal; zcases; lia || done.
      - symmetry. apply orb_true_iff. right. apply Z.ltb_lt. lia. }
    assert (sector_start i <= sector_start sect).
    { destruct (decide (i = sect)) as [->|]; [lia |]. pose proof (Hmono i sect). lia. }
    assert (sector_start sect + sector_size sect <= sector_start j + sector_size j).
    { destruct (decide (j = sect)) as [->|]; [lia |]. pose proof (Hmono sect j). lia. }
    replace (_ || _) with false.
    2: { symmetry. apply orb_false_iff. rewrite !Z.ltb_ge. lia. }
    rewrite <- IH. f_equal; zcases; lia || done.
Qed.

Lemma fill_aligned p i j : 0 <= i <= j -> j < 135 ->
  flash_fill_sect_ranges (bank p) (sector_start i) (sector_start j + sector_size j - 1) =
  (0, i, j, j - i + 1).
Proof.
  intros Hij Hj. unfold flash_fill_sect_ranges.
  assert (sector_start i <= sector_start j + sector_size j - 1).
  { pose proof (sector_pos j). destruct (decide (i = j)) as [->|]; [lia |].
    pose proof (sector_mono i j). pose proof (sector_pos i). lia. }
  rewrite (proj2 (Z.ltb_ge _ _)) by done. change (flash_id (bank p) =? FLASH_UNKNOWN) with false. cbv iota.
  change (Z.to_nat (sector_count (bank p))) with 135%nat.
  pose proof (fill_loop_aligned p i j Hij Hj 135 0 eq_refl ltac:(lia)) as E.
  rewrite !(proj2 (Z.ltb_ge _ 0)) in E by lia. rewrite E.
  rewrite Z.geb_leb, (proj2 (Z.leb_le 0 i)), !(proj2 (Z.ltb_ge j _)) by lia. done.
Qed.

Lemma set_protect_bank p i v : set_protect (bank p) i v = bank (<[Z.to_nat i := v]> p).
Proof. done. Qed.

(** Protecting the sectors [i] to [j] sets their flags and no other. *)
Lemma protect_loop n : forall i p v, 0 <= i ->
  exists p', snd (for_n (fun '(i, info) => (i + 1, set_protect info i v)) n (i, bank p)) = bank p' /\
    length p' = length p /\ forall s, 0 <= s < len p ->
      nthZ p' s = if (i <=? s) && (s <? i + Z.of_nat n) then v else nthZ p s.
Proof.
  induction n as [|n IH]; intros i p v Hi; simpl.
  - exists p. split_and!; try done. intros s Hs. by zcases; simpl; try lia.
  - rewrite set_protect_bank. destruct (IH (i + 1) (<[Z.to_nat i := v]> p) v ltac:(lia)) as (p' & -> & Hl & Hp').
    rewrite length_insert in Hl, Hp'. exists p'. split_and!; [done | done |]. intros s Hs. rewrite Hp' by done.
    assert (Hins : nthZ (<[Z.to_nat i:=v]> p) s = if s =? i then v else nthZ p s).
    { unfold nthZ. rewrite !nth_lookup. destruct (Z.eqb_spec s i) as [->|].
      - rewrite list_lookup_insert_eq by lia. done.
      - rewrite list_lookup_insert_ne by lia. done. }
    rewrite Hins. by zcases; simpl; try lia.
Qed.

Lemma flash_sect_protect_spec p v i j : 0 <= i <= j -> j < 135 ->
  exists p', flash_sect_protect (bank p) v (sector_start i) (sector_start j + sector_size j - 1) = (bank p', 0) /\
    length p' = length p /\ forall s, 0 <= s < len p ->
      nthZ p' s = if (i <=? s) && (s <=? j) then v else nthZ p s.
Proof.
  intros Hij Hj. unfold flash_sect_protect. rewrite fill_aligned by done.
  unfold truth. replace (negb (j - i + 1 =? 0)) with true by (symmetry; apply negb_true_iff, Z.eqb_neq; lia).
  change (flash_id (bank p) =? FLASH_UNKNOWN) with false. rewrite Z.geb_leb.
  rewrite !(proj2 (Z.leb_le _ _)) by lia. simpl.
  destruct (protect_loop (Z.to_nat (j - i + 1)) i p v ltac:(lia)) as (p' & E & Hl & Hp').
  rewrite E. exists p'. split_and!; [done | done |]. intros s Hs. rewrite Hp' by done. by zcases; simpl; try lia.
Qed.

Section sect_erase.
Context `{Hspec : nor_spec W}.

Lemma sect_erase_core fuel p i j w : idle w -> (max_polls < fuel)%nat -> 0 <= i <= j -> j < 135 ->
  exists rc w',
    flash_sect_erase fuel (bank p) (sector_start i) (sector_start j + sector_size j - 1) w = Some (rc, w') /\
    ((rc = 0 /\ idle w' /\ forall x, array w' x =
        if to_erase p i (Z.to_nat (j - i + 1)) x then 255 else array w x) \/
     rc = 1).
Proof.
  intros Hi Hf Hij Hj. unfold flash_sect_erase. rewrite fill_aligned by done.
  unfold truth. replace (negb (j - i + 1 =? 0)) with true by (symmetry; apply negb_true_iff, Z.eqb_neq; lia).
  rewrite Z.geb_leb, (proj2 (Z.leb_le _ _)) by lia. simpl. by apply flash_erase_core.
Qed.

(** [flash_sect_erase] of a range on sector boundaries terminates, and
    when it returns 0 exactly the unprotected sectors of the range read 0xff
    and every other byte of the array is as before; otherwise it returns 1
    for a timeout. *)
Theorem flash_sect_erase_erases fuel p i j w : idle w -> (max_polls < fuel)%nat -> 0 <= i <= j -> j < 135 ->
  exists rc w',
    flash_sect_erase fuel (bank p) (sector_start i) (sector_start j + sector_size j - 1) w = Some (rc, w') /\
    ((rc = 0 /\ idle w' /\ forall x, array w' x =
        if to_erase p i (Z.to_nat (j - i + 1)) x then 255 else array w x) \/
     rc = 1).
Proof. apply sect_erase_core. Qed.
End sect_erase.

(** ** A chip that keeps the promises *)

Module NorChip.

Inductive mode :=
| Idle | Unlock1 | Unlock2 | Program
| Erase | EraseUnlock1 | EraseUnlock2
| BusyProgram (k : nat) (a b : Z) (A : mem)
| BusyErase (k : nat) (a : Z) (A : mem).

Record chip := mk_chip { st : mode; cells : mem; clock : Z }.

Definition contents (c : chip) : mem := fun x => u8 (cells c x).

(** Programming can only clear bits of the 16-bit word. *)
Definition program_word (A : mem) (a b : Z) : mem :=
  let v := Z.land (A a * 256 + A (a + 1)) b in store_list A a [v / 256; v mod 256].

Definition sector_at (a : Z) : Z :=
  if a <? CONFIG_SYS_FLASH_BASE + 0x10000 then (a - CONFIG_SYS_FLASH_BASE) / SECTSZ_SMALL
  else (a - CONFIG_SYS_FLASH_BASE) / SECTSZ_LARGE + 7.

Definition write_cycle (v a : Z) (c : chip) : chip :=
  let go m := mk_chip m (cells c) (clock c) in
  match st c with
  | Idle => if (v =? 0xaa00) && (a =? FIRST_ADDR) then go Unlock1 else go Idle
  | Unlock1 => if (v =? 0x5500) && (a =? SECOND_ADDR) then go Unlock2 else go Idle
  | Unlock2 =>
      if (v =? 0xa000) && (a =? FIRST_ADDR) then go Program
      else if (v =? 0x8000) && (a =? FIRST_ADDR) then go Erase else go Idle
  | Program => go (BusyProgram 2 a v (program_word (contents c) a v))
  | Erase => if (v =? 0xaa00) && (a =? FIRST_ADDR) then go EraseUnlock1 else go Idle
  | EraseUnlock1 => if (v =? 0x5500) && (a =? SECOND_ADDR) then go EraseUnlock2 else go Idle
  | EraseUnlock2 =>
      if v =? 0x3000
      then go (BusyErase 2 a (erased (contents c) (sector_start (sector_at a)) (sector_size (sector_at a))))
      else go Idle
  | BusyProgram _ _ _ _ | BusyErase _ _ _ => c
  end.

(** While busy a read gives the status, with the data bits inverted; the
    operation ends after two of them. *)
Definition read_cycle (a : Z) (c : chip) : Z * Z * chip :=
  match st c with
  | BusyProgram (S k) a' b A => (Z.lxor (b / 256) 128, Z.lxor (b mod 256) 128, mk_chip (BusyProgram k a' b A) (cells c) (clock c))
  | BusyErase (S k) a' A => (0, 0, mk_chip (BusyErase k a' A) (cells c) (clock c))
  | BusyProgram O _ _ A | BusyErase O _ A => let c := mk_chip Idle A (clock c) in (contents c a, contents c (a + 1), c)
  | _ => (contents c a, contents c (a + 1), c)
  end.

#[global] Instance chip_ops : nor_ops chip := {
  readb a c := let '(hi, _, c) := read_cycle a c in (hi, c);
  readw a c := let '(hi, lo, c) := read_cycle a c in (hi * 256 + lo, c);
  writew := write_cycle;
  udelay us c := mk_chip (st c) (cells c) (clock c + us / 50000);
  timestamp := clock;
}.

Lemma lxor_128 x : Z.lxor x 128 <> x.
Proof.
  intros E. assert (Z.testbit (Z.lxor x 128) 7 = Z.testbit x 7) as Ht by (by rewrite E).
  rewrite Z.lxor_spec in Ht. by destruct (Z.testbit x 7).
Qed.

Lemma sector_at_start i : 0 <= i < 135 -> sector_at (sector_start i) = i.
Proof.
  intros Hi. unfold sector_at, sector_start, SECTSZ_SMALL, SECTSZ_LARGE, CONFIG_SYS_FLASH_BASE.
  destruct (Z.ltb_spec i 8); zcases; try lia; Z.div_mod_to_equations; lia.
Qed.

#[global, program] Instance chip_spec : nor_spec chip := {
  array := contents;
  idle c := st c = Idle;
  programming k a b A c :=
    exists A', st c = BusyProgram k a b A' /\ (forall x, u8 (A' x) = A x) /\ A a * 256 + A (a + 1) = b;
  erasing k a A c := exists A', st c = BusyErase k a A' /\ (forall x, u8 (A' x) = A x) /\ A a = 255;
  max_polls := 2;
}.
Next Obligation. intros w x. apply byte_u8. Qed.
Next Obligation.
  intros a w Hi. simpl. unfold read_cycle. rewrite Hi. split_and!; done.
Qed.
Next Obligation.
  intros b a w Hi _ _ _ Hb Hl. unfold program_command. simpl. unfold write_cycle at 4. rewrite Hi.
  simpl. exists (program_word (contents w) a b). split; [done |]. split.
  - intros x. unfold program_word. cbv zeta.
    change (contents (mk_chip _ (cells w) _)) with (contents w). rewrite Hl. apply u8_byte.
    assert (forall A l y, byte_mem A -> Forall byte l -> byte (store_list A a l y)) as Hbm.
    { intros A l y HA Hlb. destruct (decide (a <= y < a + len l)) as [Hin|Hout]; [| rewrite store_list_out by lia; apply HA].
      destruct (lookup_lt_is_Some_2 l (Z.to_nat (y - a))) as [v Hv]; [lia |].
      replace y with (a + Z.of_nat (Z.to_nat (y - a))) by lia. rewrite (store_list_in _ _ _ _ _ Hv).
      by apply (Forall_lookup_1 _ _ _ _ Hlb Hv). }
    apply (Hbm (contents w) [b / 256; b mod 256] x); [intros y; apply byte_u8 |].
    repeat constructor; unfold byte; Z.div_mod_to_equations; lia.
  - simpl. unfold store. rewrite !Z.eqb_refl. zcase; [lia |]. Z.div_mod_to_equations; lia.
Qed.
Next Obligation.
  intros k a b A w (A' & Hst & HA & Hab). simpl. unfold read_cycle. rewrite Hst. destruct k as [|k].
  - left. unfold contents. simpl. rewrite !HA. split_and!; [done | done |]. intros x. apply HA.
  - right. split; [| eauto 6]. intros E. assert (Hb : Z.lxor (b mod 256) 128 = b mod 256); [| by apply lxor_128 in Hb].
    pose proof (HA a) as H1. pose proof (HA (a + 1)) as H2.
    assert (byte (A a)) by (rewrite <- H1; apply byte_u8).
    assert (byte (A (a + 1))) by (rewrite <- H2; apply byte_u8). unfold byte in *.
    assert (0 <= Z.lxor (b mod 256) 128 < 2 ^ 8)
      by (apply lxor_range; [lia | Z.div_mod_to_equations; lia | lia]).
    Z.div_mod_to_equations; lia.
Qed.
Next Obligation.
  intros i w Hi Hir. unfold erase_command. simpl. unfold write_cycle at 6. rewrite Hi. simpl.
  change (contents (mk_chip _ (cells w) _)) with (contents w).
  rewrite sector_at_start by (unfold CONFIG_SYS_MAX_FLASH_SECT in *; lia).
  eexists. split; [reflexivity |]. split.
  - intros x. unfold erased. destruct (_ && _); [done |]. apply u8_byte, byte_u8.
  - unfold erased. pose proof (sector_pos i). by zcases; try lia.
Qed.
Next Obligation.
  intros k a A w (A' & Hst & HA & Hab). simpl. unfold read_cycle. rewrite Hst. destruct k as [|k].
  - left. unfold contents. simpl. rewrite HA. split_and!; [done | done |]. intros x. apply HA.
  - right. split; [done |]. exists k. split; [done |]. intros us. exists A'. done.
Qed.

End NorChip.

(** ** Witnesses *)

Definition blank_chip : NorChip.chip := NorChip.mk_chip NorChip.Idle (fun _ => 255) 0.
Definition demo_source : mem := store_list (fun _ => 0) 64 [0x12; 0x34; 0x56; 0x78; 0x9a; 0xbc].

Lemma flash_write_programs_witness :
  exists rc w', flash_write 3 (bank (replicate 135 0)) demo_source 64 0xF0040000 4 blank_chip = Some (rc, w') /\
    (rc = 0 -> array w' 0xF0040001 = 0x34).
Proof.
  assert (Hm : forall i, 0 <= i < 4 -> byte (demo_source (64 + i))).
  { intros i Hi. assert (i = 0 \/ i = 1 \/ i = 2 \/ i = 3) as [->|[->|[->| ->]]] by lia; vm_compute; split; congruence. }
  destruct (flash_write_programs 3 (replicate 135 0) demo_source 64 0xF0040000 4 blank_chip)
    as (rc & w' & E & H); [done | simpl; lia | lia | by exists 2 | by exists 0x78020000 | lia | lia | exact Hm |].
  exists rc, w'. split; [exact E |]. clear E. intros ->. unfold write_outcome in H.
  rewrite decide_True in H by (unfold in_flash, CONFIG_SYS_FLASH_BASE, CONFIG_SYS_FLASH_SIZE; lia).
  change (protected_hit 135 (bank (replicate 135 0)) 0xF0040000 (0xF0040000 + 4 - 1) 0) with false in H.
  destruct H as [(_ & _ & H)|[H|(H & _)]]; [by rewrite (H 0xF0040001) | discriminate H | discriminate H].
Defined.

Lemma flash_sect_erase_erases_witness :
  exists rc w', flash_sect_erase 3 (bank (replicate 135 0)) (sector_start 11)
      (sector_start 11 + sector_size 11 - 1) blank_chip = Some (rc, w') /\ (rc = 0 -> idle w').
Proof.
  destruct (flash_sect_erase_erases 3 (replicate 135 0) 11 11 blank_chip) as (rc & w' & E & H);
    [done | simpl; lia | lia | lia |].
  exists rc, w'. split; [exact E |]. clear E. intros ->. destruct H as [(_ & H & _)|H]; [exact H | discriminate H].
Defined.

(** An odd count makes [cnt] wrap: the words after the data are programmed
    too, until one does not fit. *)
Lemma odd_count_overruns :
  let w := NorChip.mk_chip NorChip.Idle (fun x => if x <? 0xF0040004 then 255 else 0) 0 in
  match write_words 4 3 demo_source 64 0xF0040000 1 w with
  | Some (rc, w') => rc = ERR_NOT_ERASED /\ load (array w') 0xF0040000 4 = [0x12; 0x34; 0x56; 0x78]
  | None => False
  end.
Proof. vm_compute. done. Qed.
