(* ===== verification/FlashCmd.v ===== *)
(** * The flash commands: common/cmd_flash.c

    [erase], [protect] and [flinfo]: the sectors they work on can be given as
    all, as a bank, as a range of sector numbers, as a range of addresses, or
    as an address and a length.  The board has one bank.  The text that the
    commands print is not modelled.

    The theorems: each way to name sectors works on exactly the sectors it
    names, whatever else is typed is refused with the flash untouched, and
    sectors that [protect] has protected survive every [erase]. *)

From S2P Require Import Prelude Memory Ctype Vsprintf Flash.

Local Open Scope Z_scope.

Definition CONFIG_SYS_MAX_FLASH_BANKS : Z := 1.

(** ** Parsing *)

(** [p = strchr (s, c)]: what is before the character and what is behind it. *)
Definition split_at (c : Z) (s : list Z) : option (list Z * list Z) :=
  match drop_while (fun x => negb (x =? c)) s with
  | [] => None
  | _ :: r => Some (take_while (fun x => negb (x =? c)) s, r)
  end.

(** [v = simple_strtoul (s, &ep, base)], none when
    [ep == s || *ep != '\0']. *)
Definition whole_number (base : Z) (s : list Z) : option Z :=
  let '(v, ep) := simple_strtoul s base in
  if bool_decide (ep = s) || negb (chr ep =? 0) then None else Some v.

(** 1 with [*psf] and [*psl], 0, or -1; the bank is the only one. *)
Definition abbrev_spec (info : flash_info_t) (s : list Z) : Z * Z * Z :=
  match split_at 58 (* ':' *) s with
  | None => (0, 0, 0)
  | Some (b, s) =>
      match whole_number 10 b with
      | None => (-1, 0, 0)
      | Some bank =>
          let bank := s32 bank in
          if (bank <? 1) || (CONFIG_SYS_MAX_FLASH_BANKS <? bank) || (flash_id info =? FLASH_UNKNOWN) then (-1, 0, 0)
          else
            let '(s, p) := match split_at 45 (* '-' *) s with Some (s, p) => (s, Some p) | None => (s, None) end in
            match whole_number 10 s with
            | None => (-1, 0, 0)
            | Some first =>
                let first := s32 first in
                if sector_count info <=? first then (-1, 0, 0)
                else
                  match p with
                  | None => (1, first, first)
                  | Some p =>
                      match whole_number 10 p with
                      | None => (-1, 0, 0)
                      | Some last =>
                          let last := s32 last in
                          if (last <? first) || (sector_count info <=? last) then (-1, 0, 0) else (1, first, last)
                      end
                  end
            end
      end
  end.

(** The sector loop of [flash_sect_roundb]: the end of the sector found. *)
Fixpoint round_loop (n : nat) (info : flash_info_t) (i addr : Z) : option Z :=
  match n with
  | O => None
  | S n =>
      let sector_end_addr := sect_end info i in
      if (addr <=? sector_end_addr) && (nthZ (start info) i <=? addr)
      then Some (if addr <? sector_end_addr then sector_end_addr else addr)
      else round_loop n info (i + 1) addr
  end.

(** The code and [*addr]. *)
Definition flash_sect_roundb (info : flash_info_t) (addr : Z) : Z * Z :=
  match round_loop (Z.to_nat (sector_count info)) info 0 addr with
  | Some addr => (0, addr)
  | None => (1, addr)
  end.

(** [*addr_first] and [*addr_last], or none for -1. *)
Definition addr_spec (info : flash_info_t) (arg1 arg2 : list Z) : option (Z * Z) :=
  match whole_number 16 arg1 with
  | None => None
  | Some addr_first =>
      let len_used := chr arg2 =? 43 (* '+' *) in
      let arg2 := if len_used then tail arg2 else arg2 in
      match whole_number 16 arg2 with
      | None => None
      | Some addr_last =>
          if len_used then
            let '(rc, addr_last) := flash_sect_roundb info (u32 (addr_first + addr_last - 1)) in
            if 0 <? rc then None else Some (addr_first, addr_last)
          else Some (addr_first, addr_last)
      end
  end.

(** ** The commands *)

(** Whether the number of a bank is one of the board. *)
Definition bank_number (arg : list Z) : bool :=
  let bank := (simple_strtoul arg 16).1 in
  negb ((bank <? 1) || (CONFIG_SYS_MAX_FLASH_BANKS <? bank)).

Definition do_flinfo (argv : list (list Z)) : Z :=
  match argv with
  | _ :: arg :: _ => if bank_number arg then 0 else 1
  | _ => 0
  end.

Section erase.
Context `{nor_ops W}.

Definition do_flerase (fuel : nat) (info : flash_info_t) (argv : list (list Z)) (w : W) : option (Z * W) :=
  match argv with
  | _ :: arg1 :: rest =>
      if bool_decide (arg1 = str "all") then flash_erase fuel info 0 (sector_count info - 1) w
      else
        let '(n, sect_first, sect_last) := abbrev_spec info arg1 in
        if n <? 0 then Some (1, w)
        else if negb (n =? 0) then flash_erase fuel info sect_first sect_last w
        else
          match rest with
          | [arg2] =>
              if bool_decide (arg1 = str "bank") then
                if negb (bank_number arg2) then Some (1, w) else flash_erase fuel info 0 (sector_count info - 1) w
              else
                match addr_spec info arg1 arg2 with
                | None => Some (1, w)
                | Some (addr_first, addr_last) =>
                    if addr_last <=? addr_first then Some (1, w) else flash_sect_erase fuel info addr_first addr_last w
                end
          | _ => Some (1, w)
          end
  | _ => Some (1, w)
  end.
End erase.

(** [for (...; i++) info->protect[i] = p]: none for a store outside the
    array. *)
Fixpoint protect_sectors (n : nat) (info : flash_info_t) (i p : Z) : option flash_info_t :=
  match n with
  | O => Some info
  | S n => if (0 <=? i) && (i <? CONFIG_SYS_MAX_FLASH_SECT) then protect_sectors n (set_protect info i p) (i + 1) p else None
  end.

Definition protect_on_off (arg : list Z) : option Z :=
  if bool_decide (arg = str "off") then Some 0
  else if bool_decide (arg = str "on") then Some 1
  else None.

(** The table and the code; none for a store outside the table. *)
Definition do_protect (info : flash_info_t) (argv : list (list Z)) : option (flash_info_t * Z) :=
  match argv with
  | _ :: onoff :: arg2 :: rest =>
      match protect_on_off onoff with
      | None => Some (info, 1)
      | Some p =>
          let whole_bank := info ← protect_sectors (Z.to_nat (sector_count info)) info 0 p; Some (info, 0) in
          if bool_decide (arg2 = str "all") then
            if flash_id info =? FLASH_UNKNOWN then Some (info, 0) else whole_bank
          else
            let '(n, sect_first, sect_last) := abbrev_spec info arg2 in
            if n <? 0 then Some (info, 1)
            else if negb (n =? 0) then
              info ← protect_sectors (Z.to_nat (sect_last - sect_first + 1)) info sect_first p;
              Some (info, 0)
            else
              match rest with
              | [arg3] =>
                  if bool_decide (arg2 = str "bank") then
                    if negb (bank_number arg3) then Some (info, 1)
                    else if flash_id info =? FLASH_UNKNOWN then Some (info, 1)
                    else whole_bank
                  else
                    match addr_spec info arg2 arg3 with
                    | None => Some (info, 1)
                    | Some (addr_first, addr_last) =>
                        if addr_last <=? addr_first then Some (info, 1) else Some (flash_sect_protect info p addr_first addr_last)
                    end
              | _ => Some (info, 1)
              end
      end
  | _ => Some (info, 1)
  end.

(** ** What an argument names *)

Definition sector_last (i : Z) : Z := sector_start i + sector_size i - 1.

Lemma split_at_Some c s x y : split_at c s = Some (x, y) <-> s = x ++ c :: y /\ c ∉ x.
Proof.
  unfold split_at. revert x. induction s as [|k s IH]; intros x; cbn [drop_while take_while].
  - split; [done | intros [E _]; by destruct x].
  - destruct (Z.eqb_spec k c) as [->|Hne]; cbn [negb].
    + split; [intros [= <- <-]; split; [done | apply not_elem_of_nil] |]. intros [E Hx]. destruct x as [|k' x]; [by injection E as -> |].
      injection E as <- _. by destruct Hx; left.
    + destruct (drop_while _ s) as [|k' r] eqn:Er.
      * split; [done |]. intros [E Hx]. destruct x as [|k'' x]; [by injection E as -> |]. injection E as <- ->.
        apply not_elem_of_cons in Hx as [_ Hx]. discriminate (proj2 (IH x) (conj eq_refl Hx)).
      * split.
        -- intros [= <- <-]. destruct (proj1 (IH _) eq_refl) as [E Hx]. split; [by rewrite E at 1 |]. apply not_elem_of_cons. split; [congruence | done].
        -- intros [E Hx]. destruct x as [|k'' x]; [by injection E as -> |]. injection E as <- ->.
           apply not_elem_of_cons in Hx as [_ Hx]. pose proof (proj2 (IH x) (conj eq_refl Hx)) as H. by injection H as -> ->.
Qed.

Lemma split_at_None c s : split_at c s = None <-> c ∉ s.
Proof.
  split.
  - intros E Hin. apply list_elem_of_split in Hin as (x & y & ->).
    destruct (split_at c (x ++ c :: y)) eqn:E'; [done |]. unfold split_at in E'.
    destruct (drop_while _ (x ++ c :: y)) eqn:Ed; [| done]. clear -Ed.
    induction x as [|k x IH]; cbn [app drop_while] in Ed; [by rewrite Z.eqb_refl in Ed |].
    destruct (Z.eqb_spec k c); [done | by apply IH].
  - intros H. destruct (split_at c s) as [[x y]|] eqn:E; [| done]. apply split_at_Some in E as [-> _]. destruct H. set_solver.
Qed.

(** The arguments behind the command, or behind [on] and [off], and the first
    and the last sector that they name. *)
Inductive names : list (list Z) -> Z -> Z -> Prop :=
| names_all rest : names (str "all" :: rest) 0 134
| names_bank n : (simple_strtoul n 16).1 = 1 -> names [str "bank"; n] 0 134
| names_sector b f vb vf rest :
    58 ∉ b -> 45 ∉ f -> whole_number 10 b = Some vb -> s32 vb = 1 -> whole_number 10 f = Some vf -> 0 <= s32 vf < 135 ->
    names ((b ++ 58 :: f) :: rest) (s32 vf) (s32 vf)
| names_sectors b f l vb vf vl rest :
    58 ∉ b -> 45 ∉ f -> whole_number 10 b = Some vb -> s32 vb = 1 -> whole_number 10 f = Some vf -> whole_number 10 l = Some vl ->
    0 <= s32 vf <= s32 vl -> s32 vl < 135 ->
    names ((b ++ 58 :: f ++ 45 :: l) :: rest) (s32 vf) (s32 vl)
| names_range a e last i j :
    58 ∉ a -> whole_number 16 a = Some (sector_start i) -> chr e <> 43 -> whole_number 16 e = Some last -> 0 <= i <= j -> j < 135 ->
    last = sector_last j \/ (j = 134 /\ sector_last 134 < last) ->
    names [a; e] i j
| names_length a n k i j :
    58 ∉ a -> whole_number 16 a = Some (sector_start i) -> whole_number 16 n = Some k -> 1 <= k -> 0 <= i <= j -> j < 135 ->
    in_sector j (sector_start i + k - 1) = true ->
    names [a; 43 :: n] i j.

(** ** Sectors and addresses *)

Lemma sector_unique i j x : 0 <= i -> 0 <= j -> in_sector i x = true -> in_sector j x = true -> i = j.
Proof.
  unfold in_sector. rewrite !andb_true_iff, !Z.leb_le, !Z.ltb_lt. intros Hi Hj H1 H2.
  destruct (decide (i < j)); [pose proof (sector_mono i j); lia |]. destruct (decide (j < i)); [pose proof (sector_mono j i); lia | lia].
Qed.

Lemma start_in i : in_sector i (sector_start i) = true /\ in_sector i (sector_last i) = true.
Proof. unfold in_sector, sector_last. pose proof (sector_pos i). rewrite !andb_true_iff, !Z.leb_le, !Z.ltb_lt. lia. Qed.

Lemma start_inj i j : 0 <= i -> 0 <= j -> sector_start i = sector_start j -> i = j.
Proof. intros Hi Hj E. apply (sector_unique i j (sector_start i)); [done | done | apply start_in | rewrite E; apply start_in]. Qed.

Lemma last_inj i j : 0 <= i -> 0 <= j -> sector_last i = sector_last j -> i = j.
Proof. intros Hi Hj E. apply (sector_unique i j (sector_last i)); [done | done | apply start_in | rewrite E; apply start_in]. Qed.

Lemma start_le i j : 0 <= i <= j -> sector_start i <= sector_start j /\ sector_last i <= sector_last j.
Proof.
  intros H. destruct (decide (i = j)) as [->|]; [lia |]. unfold sector_last. pose proof (sector_mono i j). pose proof (sector_pos i). pose proof (sector_pos j). lia.
Qed.

Lemma round_loop_spec p x n : forall i, 0 <= i -> i + Z.of_nat n = 135 ->
  match round_loop n (bank p) i x with
  | Some y => exists j, i <= j < 135 /\ in_sector j x = true /\ y = sector_last j
  | None => forall j, i <= j < 135 -> in_sector j x = false
  end.
Proof.
  induction n as [|n IH]; intros i Hi Hn; cbn [round_loop]; [intros j Hj; lia |].
  rewrite bank_sect_end, bank_start by lia. fold (sector_last i).
  replace ((x <=? sector_last i) && (sector_start i <=? x)) with (in_sector i x).
  2: { unfold in_sector, sector_last. rewrite andb_comm. f_equal. zcases; lia || done. }
  destruct (in_sector i x) eqn:Ei.
  - exists i. split; [lia |]. split; [done |]. unfold in_sector in Ei. unfold sector_last. zcases; lia.
  - specialize (IH (i + 1)). destruct (round_loop n (bank p) (i + 1) x).
    + destruct IH as (j & Hj & H); [lia | lia |]. exists j. split; [lia | done].
    + intros j Hj. destruct (decide (j = i)) as [->|]; [done |]. apply IH; lia.
Qed.

Lemma round_in p x j : 0 <= j < 135 -> in_sector j x = true -> flash_sect_roundb (bank p) x = (0, sector_last j).
Proof.
  intros Hj Hx. unfold flash_sect_roundb. change (Z.to_nat (sector_count (bank p))) with 135%nat.
  pose proof (round_loop_spec p x 135 0 ltac:(lia) eq_refl) as H. destruct (round_loop 135 (bank p) 0 x).
  - destruct H as (k & Hk & Hin & ->). by rewrite (sector_unique j k x) by (done || lia).
  - rewrite H in Hx by lia. done.
Qed.

Lemma round_found p x rc y : flash_sect_roundb (bank p) x = (rc, y) -> (0 <? rc) = false ->
  exists j, 0 <= j < 135 /\ in_sector j x = true /\ y = sector_last j.
Proof.
  unfold flash_sect_roundb. change (Z.to_nat (sector_count (bank p))) with 135%nat.
  pose proof (round_loop_spec p x 135 0 ltac:(lia) eq_refl) as H. destruct (round_loop 135 (bank p) 0 x); intros [= <- <-]; done.
Qed.

(** The sector from [sect] on with [P], or [a] when there is none. *)
Definition found (P : Z -> Prop) (sect a a' : Z) : Prop :=
  (exists s, sect <= s < 135 /\ P s /\ a' = s) \/ (a' = a /\ forall s, sect <= s < 135 -> ~ P s).

Lemma found_step P `{forall s, Decision (P s)} sect a a0 a' : sect < 135 -> (P sect -> a0 = sect) -> (~ P sect -> a0 = a) ->
  found P (sect + 1) a0 a' -> found P sect a a'.
Proof.
  intros Hs Ht Hf [(s & Hr & Hp & ->)|[-> Hn]]; [left; exists s; split_and!; (done || lia) |].
  destruct (decide (P sect)) as [Hp|Hp]; [left; exists sect; split_and!; (lia || done || by apply Ht) |].
  right. split; [by apply Hf |]. intros s Hr. destruct (decide (s = sect)) as [->|]; [done | apply Hn; lia].
Qed.

(** The sector that starts at [f], and the one that ends at [l]. *)
Lemma fill_loop_spec p f l n : forall sect a b, 0 <= sect -> sect + Z.of_nat n = 135 -> f <= l ->
  let '(a', b') := fill_loop n (bank p) f l sect a b in
  found (fun s => sector_start s = f) sect a a' /\ found (fun s => sector_last s = l) sect b b'.
Proof.
  induction n as [|n IH]; intros sect a b Hs Hn Hfl; cbn [fill_loop]; [split; right; (split; [done | intros s Hs'; lia]) |].
  rewrite bank_sect_end, bank_start by lia. fold (sector_last sect).
  pose proof (sector_pos sect) as Hp.
  assert (Hstep : forall a0 b0, (sector_start sect = f -> a0 = sect) -> (sector_start sect <> f -> a0 = a) ->
    (sector_last sect = l -> b0 = sect) -> (sector_last sect <> l -> b0 = b) ->
    let '(a', b') := fill_loop n (bank p) f l (sect + 1) a0 b0 in
    found (fun s => sector_start s = f) sect a a' /\ found (fun s => sector_last s = l) sect b b').
  { intros a0 b0 Ha Ha' Hb Hb'. specialize (IH (sect + 1) a0 b0 ltac:(lia) ltac:(lia) Hfl). destruct (fill_loop n (bank p) f l (sect + 1) a0 b0) as [a' b'].
    split; [apply (found_step _ sect a a0); [lia | done | done | apply IH] | apply (found_step _ sect b b0); [lia | done | done | apply IH]]. }
  unfold sector_last in *. zcases; cbn [orb]; apply Hstep; lia.
Qed.

(** The ranges that [flash_fill_sect_ranges] accepts. *)
Definition aligned (f l i j : Z) : Prop :=
  0 <= i <= j /\ j < 135 /\ f = sector_start i /\ (l = sector_last j \/ (j = 134 /\ sector_last 134 < l)).

Lemma bank_last p : b_end (bank p) = sector_last 134.
Proof. reflexivity. Qed.

Lemma aligned_le f l i j : aligned f l i j -> f <= l.
Proof.
  intros (Hij & Hj & -> & Hl). pose proof (start_le i j Hij). pose proof (sector_pos j). unfold sector_last in *.
  destruct Hl as [->|[-> Hl]]; lia.
Qed.

Lemma fill_hit p f l i j : aligned f l i j -> flash_fill_sect_ranges (bank p) f l = (0, i, j, j - i + 1).
Proof.
  intros Ha. pose proof (aligned_le _ _ _ _ Ha) as Hle. destruct Ha as (Hij & Hj & Hf & Hl). unfold flash_fill_sect_ranges.
  rewrite (proj2 (Z.ltb_ge l f)) by done. change (flash_id (bank p) =? FLASH_UNKNOWN) with false. cbv iota.
  change (Z.to_nat (sector_count (bank p))) with 135%nat. change (sector_count (bank p) - 1) with 134.
  pose proof (fill_loop_spec p f l 135 0 (-1) (-1) ltac:(lia) eq_refl Hle) as H. destruct (fill_loop 135 (bank p) f l 0 (-1) (-1)) as [a b].
  destruct H as [Hfst Hsnd].
  assert (a = i) as ->. { destruct Hfst as [(s & Hs & E & ->)|[_ H]]; [apply start_inj; [lia | lia | congruence] | destruct (H i); [lia | done]]. }
  rewrite Z.geb_leb, (proj2 (Z.leb_le 0 i)) by lia. cbv iota. rewrite bank_last.
  destruct Hl as [->|[-> Hl]].
  - assert (b = j) as ->. { destruct Hsnd as [(s & Hs & E & ->)|[_ H]]; [apply last_inj; (done || lia) | destruct (H j); [lia | done]]. }
    rewrite !(proj2 (Z.ltb_ge j _)) by lia. done.
  - assert (b = -1) as ->. { destruct Hsnd as [(s & Hs & E & ->)|[H _]]; [pose proof (start_le s 134); lia | done]. }
    cbn [Z.ltb Z.compare]. rewrite (proj2 (Z.ltb_lt _ l)) by done. rewrite (proj2 (Z.ltb_ge 134 _)) by lia. done.
Qed.

Lemma fill_inv p f l rc i j n : flash_fill_sect_ranges (bank p) f l = (rc, i, j, n) -> truth n && (rc =? 0) = true -> aligned f l i j.
Proof.
  unfold flash_fill_sect_ranges. destruct (Z.ltb_spec l f) as [|Hfl]; [intros [= <- <- <- <-]; done |].
  change (flash_id (bank p) =? FLASH_UNKNOWN) with false. cbv iota.
  change (Z.to_nat (sector_count (bank p))) with 135%nat. change (sector_count (bank p) - 1) with 134.
  pose proof (fill_loop_spec p f l 135 0 (-1) (-1) ltac:(lia) eq_refl Hfl) as H. destruct (fill_loop 135 (bank p) f l 0 (-1) (-1)) as [a b].
  destruct H as [Hfst Hsnd]. rewrite bank_last, Z.geb_leb. destruct (Z.leb_spec 0 a) as [Ha|Ha].
  - destruct Hfst as [(s & Hs & E & ->)|[-> _]]; [| lia]. destruct (Z.ltb_spec b 0) as [Hb|Hb].
    + destruct (Z.ltb_spec (sector_last 134) l) as [Hl|]; [| intros [= <- <- <- <-]; done].
      rewrite (proj2 (Z.ltb_ge 134 s)) by lia. intros [= <- <- <- <-] _. unfold aligned. split_and!; (lia || auto).
    + destruct Hsnd as [(s' & Hs' & E' & ->)|[-> _]]; [| lia]. destruct (Z.ltb_spec s' s); intros [= <- <- <- <-]; [done |].
      intros _. unfold aligned. split_and!; (lia || auto).
  - destruct (_ && _); [intros [= <- <- <- <-]; done |]. destruct (b >=? 0); intros [= <- <- <- <-]; done.
Qed.

(** ** What the arguments do *)

Lemma absent_number base s : whole_number base s = None \/ exists v, whole_number base s = Some v.
Proof. destruct (whole_number base s); eauto. Qed.

(** The first argument and whether it is an abbreviation. *)
Lemma abbrev_none p a : 58 ∉ a -> abbrev_spec (bank p) a = (0, 0, 0).
Proof. intros H. unfold abbrev_spec. by rewrite (proj2 (split_at_None 58 a) H). Qed.

Lemma abbrev_cases p a rest : let '(n, f, l) := abbrev_spec (bank p) a in
  (n = 0 /\ 58 ∉ a) \/ n = -1 \/ (n = 1 /\ f <= l < 135 /\ (0 <= f -> names (a :: rest) f l)).
Proof.
  unfold abbrev_spec. destruct (split_at 58 a) as [[b s]|] eqn:Ea; [| left; split; [done | by apply split_at_None]].
  apply split_at_Some in Ea as [-> Hb]. destruct (whole_number 10 b) as [vb|] eqn:Eb; [| by right; left].
  change (flash_id (bank p) =? FLASH_UNKNOWN) with false. change (sector_count (bank p)) with 135. unfold CONFIG_SYS_MAX_FLASH_BANKS.
  destruct ((s32 vb <? 1) || (1 <? s32 vb) || false) eqn:Ebank; [by right; left |].
  rewrite orb_false_r, orb_false_iff, !Z.ltb_ge in Ebank.
  destruct (split_at 45 s) as [[f l]|] eqn:Es.
  - apply split_at_Some in Es as [-> Hf]. destruct (whole_number 10 f) as [vf|] eqn:Ef; [| by right; left].
    destruct (Z.leb_spec 135 (s32 vf)); [by right; left |]. destruct (whole_number 10 l) as [vl|] eqn:El; [| by right; left].
    destruct ((s32 vl <? s32 vf) || (135 <=? s32 vl)) eqn:Er; [by right; left |]. rewrite orb_false_iff, Z.ltb_ge, Z.leb_gt in Er.
    right; right. split; [done |]. split; [lia |]. intros H0. apply (names_sectors b f l vb); (done || lia).
  - apply split_at_None in Es. destruct (whole_number 10 s) as [vf|] eqn:Ef; [| by right; left].
    destruct (Z.leb_spec 135 (s32 vf)); [by right; left |]. right; right. split; [done |]. split; [lia |]. intros H0.
    apply (names_sector b s vb); (done || lia).
Qed.

Lemma whole_number_range base s v : whole_number base s = Some v -> 0 <= v < 2 ^ 32.
Proof.
  unfold whole_number. pose proof (simple_strtoul_range s base) as H. destruct (simple_strtoul s base) as [v' ep]. destruct (_ || _); [done | by intros [= <-]].
Qed.

Lemma flash_addresses i : 0 <= i < 135 -> 0xF0000000 <= sector_start i /\ sector_last i < 0xF0800000 /\ sector_start i <= sector_last i.
Proof. intros H. pose proof (sector_bounds i H) as Hb. pose proof (sector_pos i). unfold sector_last, CONFIG_SYS_FLASH_BASE, CONFIG_SYS_FLASH_SIZE in *. lia. Qed.

(** A range of addresses that the driver accepts is named. *)
Lemma addr_cases p a e f l i j : 58 ∉ a -> addr_spec (bank p) a e = Some (f, l) -> aligned f l i j -> names [a; e] i j.
Proof.
  intros Ha. unfold addr_spec. destruct (whole_number 16 a) as [f'|] eqn:Ef; [| done].
  destruct (Z.eqb_spec (chr e) 43) as [Ee|Ee]; cbn [negb].
  - destruct e as [|c n]; [done |]. change (c = 43) in Ee. subst c. cbn [tail]. destruct (whole_number 16 n) as [k|] eqn:En; [| done].
    destruct (flash_sect_roundb (bank p) (u32 (f' + k - 1))) as [rc y] eqn:Er. destruct (0 <? rc) eqn:Erc; [done |]. intros [= -> ->] (Hij & Hj & -> & Hl).
    destruct (round_found _ _ _ _ Er Erc) as (j' & Hj' & Hin & E). pose proof (flash_addresses 134 ltac:(lia)). pose proof (start_le j' 134 ltac:(lia)).
    assert (j' = j) as -> by (destruct Hl as [Hl|[-> Hl]]; [apply last_inj; [lia | lia | congruence] | lia]).
    pose proof (whole_number_range _ _ _ En). pose proof (flash_addresses i ltac:(lia)). pose proof (start_le i j ltac:(lia)).
    assert (Hk : 1 <= k /\ u32 (sector_start i + k - 1) = sector_start i + k - 1).
    { unfold in_sector in Hin. apply andb_true_iff in Hin as [Hlo%Z.leb_le Hhi%Z.ltb_lt]. unfold wrap in *. Z.div_mod_to_equations. lia. }
    destruct Hk as [Hk Ek]. rewrite Ek in Hin. by apply (names_length a n k).
  - destruct (whole_number 16 e) as [l'|] eqn:El; [| done]. intros [= -> ->] (Hij & Hj & -> & Hl). by apply (names_range a e l).
Qed.

(** What [addr_spec] makes of a range or a length that names sectors. *)
Lemma addr_named p a e i j : names [a; e] i j -> 58 ∉ a -> a <> str "all" -> a <> str "bank" ->
  exists f l, addr_spec (bank p) a e = Some (f, l) /\ aligned f l i j.
Proof.
  intros Hn Ha Hall Hbank. unfold addr_spec.
  inversion Hn as [rest E|n Hv E|b f' vb vf rest H1 H2 H3 H4 H5 H6 E|b f' l' vb vf vl rest H1 H2 H3 H4 H5 H6 H7 H8 E
    |a' e' last i' j' H1 H2 H3 H4 H5 H6 H7 E|a' n k i' j' H1 H2 H3 H4 H5 H6 H7 E]; subst.
  - done.
  - done.
  - destruct Ha. set_solver.
  - destruct Ha. set_solver.
  - rewrite H2, (proj2 (Z.eqb_neq _ _) H3), H4. eexists _, _. split; [done |]. unfold aligned. auto.
  - rewrite H2. change (chr (43 :: n) =? 43) with true. cbn [tail]. rewrite H3.
    pose proof (flash_addresses i ltac:(lia)). pose proof (flash_addresses j ltac:(lia)). pose proof H7 as Hin. unfold in_sector in Hin. unfold sector_last in *.
    apply andb_true_iff in Hin as [Hlo%Z.leb_le Hhi%Z.ltb_lt].
    rewrite (wrap_small 32) by lia. rewrite (round_in p _ j) by (done || lia). eexists _, _. split; [done |]. unfold aligned, sector_last. auto.
Qed.

(** A first argument that is neither a word nor an abbreviation. *)
Lemma plain_arg a v : whole_number 16 a = Some v -> a <> str "all" /\ a <> str "bank".
Proof. intros H. split; intros ->; discriminate H. Qed.

Lemma aligned_lt f l i j : aligned f l i j -> f < l.
Proof.
  intros (Hij & Hj & -> & Hl). pose proof (start_le i j Hij). pose proof (start_le j 134 ltac:(lia)).
  assert (sector_start j < sector_last j) by (unfold sector_last, sector_size, SECTSZ_SMALL, SECTSZ_LARGE; zcases; lia). destruct Hl as [->|[-> Hl]]; lia.
Qed.

(** An abbreviation is found. *)
Lemma abbrev_named p a rest i j : names (a :: rest) i j -> 58 ∈ a -> abbrev_spec (bank p) a = (1, i, j).
Proof.
  intros Hn Ha. unfold abbrev_spec.
  inversion Hn as [r E|n Hv E|b f vb vf r H1 H2 H3 H4 H5 H6 E|b f l vb vf vl r H1 H2 H3 H4 H5 H6 H7 H8 E
    |a' e last i' j' H1 H2 H3 H4 H5 H6 H7 E|a' n k i' j' H1 H2 H3 H4 H5 H6 H7 E]; subst; try done;
    try (exfalso; revert Ha; vm_compute; set_solver).
  - rewrite (proj2 (split_at_Some 58 (b ++ 58 :: f) b f)) by done. rewrite H3, H4. cbn [CONFIG_SYS_MAX_FLASH_BANKS Z.ltb Z.compare Pos.compare Pos.compare_cont orb].
    change (flash_id (bank p) =? FLASH_UNKNOWN) with false. cbv iota. rewrite (proj2 (split_at_None 45 f)) by done. rewrite H5.
    change (sector_count (bank p)) with 135. rewrite (proj2 (Z.leb_gt 135 _)) by lia. done.
  - rewrite (proj2 (split_at_Some 58 (b ++ 58 :: f ++ 45 :: l) b (f ++ 45 :: l))) by done. rewrite H3, H4. cbn [CONFIG_SYS_MAX_FLASH_BANKS Z.ltb Z.compare Pos.compare Pos.compare_cont orb].
    change (flash_id (bank p) =? FLASH_UNKNOWN) with false. cbv iota. rewrite (proj2 (split_at_Some 45 (f ++ 45 :: l) f l)) by done. rewrite H5.
    change (sector_count (bank p)) with 135. rewrite (proj2 (Z.leb_gt 135 (s32 vf))), H6 by lia.
    rewrite (proj2 (Z.ltb_ge (s32 vl) (s32 vf))), (proj2 (Z.leb_gt 135 (s32 vl))) by lia. done.
Qed.

Lemma names_sane args i j : names args i j -> 0 <= i <= j /\ j < 135.
Proof. inversion 1; lia. Qed.

(** How the commands see arguments that name sectors. *)
Lemma names_cases p args i j : names args i j ->
  (exists rest, args = str "all" :: rest /\ i = 0 /\ j = 134) \/
  (exists a rest, args = a :: rest /\ a <> str "all" /\ abbrev_spec (bank p) a = (1, i, j)) \/
  (exists n, args = [str "bank"; n] /\ bank_number n = true /\ i = 0 /\ j = 134) \/
  (exists a e f l, args = [a; e] /\ a <> str "all" /\ a <> str "bank" /\ abbrev_spec (bank p) a = (0, 0, 0) /\
     addr_spec (bank p) a e = Some (f, l) /\ aligned f l i j).
Proof.
  intros Hn. pose proof Hn as Hn'. inversion Hn as [rest E|n Hv E|b f vb vf r H1 H2 H3 H4 H5 H6 E|b f l vb vf vl r H1 H2 H3 H4 H5 H6 H7 H8 E
    |a e last i' j' H1 H2 H3 H4 H5 H6 H7 E|a n k i' j' H1 H2 H3 H4 H5 H6 H7 E]; subst.
  - left. by eexists.
  - right; right; left. exists n. split_and!; [done | by unfold bank_number; rewrite Hv | done | done].
  - right; left. eexists _, _. split; [done |]. split; [intros E; assert (58 ∈ str "all") as Hin by (rewrite <- E; set_solver); revert Hin; vm_compute; set_solver |].
    apply (abbrev_named p _ r); [done | set_solver].
  - right; left. eexists _, _. split; [done |]. split; [intros E; assert (58 ∈ str "all") as Hin by (rewrite <- E; set_solver); revert Hin; vm_compute; set_solver |].
    apply (abbrev_named p _ r); [done | set_solver].
  - right; right; right. destruct (plain_arg _ _ H2) as [Ha Hb]. destruct (addr_named p a e i j Hn' H1 Ha Hb) as (f & l & E & Hal).
    exists a, e, f, l. split_and!; try done. by apply abbrev_none.
  - right; right; right. destruct (plain_arg _ _ H2) as [Ha Hb]. destruct (addr_named p a (43 :: n) i j Hn' H1 Ha Hb) as (f & l & E & Hal).
    exists a, (43 :: n), f, l. split_and!; try done. by apply abbrev_none.
Qed.

(** ** Erasing *)

Section erase_theorems.
Context `{Hspec : nor_spec W}.

Lemma erase_named fuel p cmd args i j (w : W) : names args i j -> do_flerase fuel (bank p) (cmd :: args) w = flash_erase fuel (bank p) i j w.
Proof.
  intros Hn. pose proof (names_sane _ _ _ Hn) as Hs. unfold do_flerase.
  destruct (names_cases p args i j Hn) as [(rest & -> & -> & ->)|[(a & rest & -> & Ha & E)|[(n & -> & Hb & -> & ->)|(a & e & f & l & -> & Ha & Hb & E & El & Hal)]]].
  - rewrite bool_decide_true by done. done.
  - rewrite bool_decide_false, E by done. done.
  - rewrite bool_decide_false by done. rewrite (abbrev_none p (str "bank")) by (vm_compute; set_solver). cbn [Z.ltb Z.compare Z.eqb negb].
    rewrite bool_decide_true, Hb by done. done.
  - rewrite bool_decide_false, E by done. cbn [Z.ltb Z.compare Z.eqb negb]. rewrite bool_decide_false, El by done.
    pose proof (aligned_lt _ _ _ _ Hal). rewrite (proj2 (Z.leb_gt l f)) by done.
    unfold flash_sect_erase. rewrite (fill_hit p f l i j Hal). unfold truth. rewrite (proj2 (Z.eqb_neq (j - i + 1) 0)) by lia.
    cbn [negb andb Z.eqb]. by rewrite Z.geb_leb, (proj2 (Z.leb_le 0 i)) by lia.
Qed.

Lemma erase_refused fuel p cmd args (w : W) : do_flerase fuel (bank p) (cmd :: args) w = Some (1, w) \/ exists i j, names args i j.
Proof.
  destruct args as [|a rest]; [by left |]. unfold do_flerase. case_bool_decide as Hall; [subst; right; eexists _, _; apply names_all |].
  pose proof (abbrev_cases p a rest) as Hc. destruct (abbrev_spec (bank p) a) as [[n f] l].
  destruct Hc as [[-> Ha]|[->|(-> & Hfl & Hn)]]; cbn [Z.ltb Z.compare Z.eqb negb]; [| by left |].
  - destruct rest as [|e [|]]; [by left | | by left]. case_bool_decide as Hbank.
    + subst a. destruct (bank_number e) eqn:Eb; [| by left]. right. eexists _, _. apply names_bank.
      unfold bank_number, CONFIG_SYS_MAX_FLASH_BANKS in Eb. apply negb_true_iff, orb_false_iff in Eb as [H1%Z.ltb_ge H2%Z.ltb_ge]. lia.
    + destruct (addr_spec (bank p) a e) as [[f' l']|] eqn:Ea; [| by left]. destruct (l' <=? f'); [by left |]. unfold flash_sect_erase.
      destruct (flash_fill_sect_ranges (bank p) f' l') as [[[rc i] j] n] eqn:Ef. destruct (truth n && (rc =? 0)) eqn:En.
      * right. exists i, j. apply (addr_cases p a e f' l'); [done | done |]. by apply (fill_inv p f' l' rc i j n).
      * left. destruct (Z.eqb_spec rc 0) as [->|Hrc]; [done |].
        assert (rc = 1) as ->; [| done]. clear -Ef Hrc. unfold flash_fill_sect_ranges in Ef. repeat case_match; simplify_eq; done.
  - destruct (decide (0 <= f)) as [H0|H0]; [right; eexists _, _; by apply Hn |]. left. unfold flash_erase. by rewrite (proj2 (Z.ltb_lt f 0)) by lia.
Qed.

(** Every way to name sectors erases exactly the ones named that are not
    protected, and arguments that name none are refused. *)
Lemma erase_core fuel p cmd args (w : W) : idle w -> (max_polls < fuel)%nat ->
  (forall i j, names args i j -> exists rc w', do_flerase fuel (bank p) (cmd :: args) w = Some (rc, w') /\
     ((rc = 0 /\ idle w' /\ forall x, array w' x = if to_erase p i (Z.to_nat (j - i + 1)) x then 255 else array w x) \/ rc = 1)) /\
  ((forall i j, ~ names args i j) -> do_flerase fuel (bank p) (cmd :: args) w = Some (1, w)).
Proof.
  intros Hi Hf. split.
  - intros i j Hn. rewrite (erase_named fuel p cmd args i j w Hn). apply names_sane in Hn as [Hij Hj]. by apply flash_erase_core.
  - intros Hno. destruct (erase_refused fuel p cmd args w) as [E|(i & j & Hn)]; [done | by destruct (Hno i j)].
Qed.
End erase_theorems.

(** ** Protecting *)

Lemma protect_sectors_ok n v : forall info i, 0 <= i -> i + Z.of_nat n <= 135 ->
  protect_sectors n info i v = Some (snd (for_n (fun '(i, info) => (i + 1, set_protect info i v)) n (i, info))).
Proof.
  induction n as [|n IH]; intros info i Hi Hn; cbn [protect_sectors]; [done |].
  rewrite (proj2 (Z.leb_le 0 i)), (proj2 (Z.ltb_lt i _)) by (unfold CONFIG_SYS_MAX_FLASH_SECT; lia). cbn [andb]. rewrite IH by lia. done.
Qed.

(** The flags [i] to [j] are [v] and the others are as before. *)
Definition flags_set (p p' : list Z) (i j v : Z) : Prop :=
  length p' = length p /\ forall s, 0 <= s < len p -> nthZ p' s = if (i <=? s) && (s <=? j) then v else nthZ p s.

Lemma protect_range p v i j : 0 <= i <= j -> j < 135 ->
  exists p', protect_sectors (Z.to_nat (j - i + 1)) (bank p) i v = Some (bank p') /\ flags_set p p' i j v.
Proof.
  intros Hij Hj. rewrite protect_sectors_ok by lia. destruct (protect_loop (Z.to_nat (j - i + 1)) i p v ltac:(lia)) as (p' & E & Hl & Hp). rewrite E.
  exists p'. split; [done |]. split; [done |]. intros s Hs. rewrite Hp by done. by zcases; simpl; try lia.
Qed.

Lemma protect_named p cmd onoff v args i j : protect_on_off onoff = Some v -> names args i j ->
  exists p', do_protect (bank p) (cmd :: onoff :: args) = Some (bank p', 0) /\ flags_set p p' i j v.
Proof.
  intros Hv Hn. pose proof (names_sane _ _ _ Hn) as [Hij Hj]. unfold do_protect.
  change (flash_id (bank p) =? FLASH_UNKNOWN) with false. change (Z.to_nat (sector_count (bank p))) with (Z.to_nat (134 - 0 + 1)).
  destruct (names_cases p args i j Hn) as [(rest & -> & -> & ->)|[(a & rest & -> & Ha & E)|[(n & -> & Hb & -> & ->)|(a & e & f & l & -> & Ha & Hb & E & El & Hal)]]]; rewrite Hv.
  - rewrite bool_decide_true by done. destruct (protect_range p v 0 134) as (p' & -> & Hp); [lia | lia |]. by exists p'.
  - rewrite bool_decide_false, E by done. cbn [Z.ltb Z.compare Z.eqb negb]. destruct (protect_range p v i j) as (p' & -> & Hp); [lia | lia |]. by exists p'.
  - rewrite bool_decide_false by done. rewrite (abbrev_none p (str "bank")) by (vm_compute; set_solver). cbn [Z.ltb Z.compare Z.eqb negb].
    rewrite bool_decide_true, Hb by done. cbn [negb]. destruct (protect_range p v 0 134) as (p' & -> & Hp); [lia | lia |]. by exists p'.
  - rewrite bool_decide_false, E by done. cbn [Z.ltb Z.compare Z.eqb negb]. rewrite bool_decide_false, El by done.
    pose proof (aligned_lt _ _ _ _ Hal). rewrite (proj2 (Z.leb_gt l f)) by done.
    unfold flash_sect_protect. rewrite (fill_hit p f l i j Hal). unfold truth. rewrite (proj2 (Z.eqb_neq (j - i + 1) 0)) by lia.
    change (flash_id (bank p) =? FLASH_UNKNOWN) with false. rewrite Z.geb_leb, !(proj2 (Z.leb_le _ _)) by lia. cbn [negb andb Z.eqb].
    destruct (protect_loop (Z.to_nat (j - i + 1)) i p v ltac:(lia)) as (p' & E' & Hl & Hp). rewrite E'. exists p'. split; [done |].
    split; [done |]. intros s Hs. rewrite Hp by done. by zcases; simpl; try lia.
Qed.

Section flash_commands.
Context `{Hspec : nor_spec W}.

(** A byte of a protected sector is not among those to erase. *)
Lemma protected_kept p i n s x : 0 <= s < 135 -> 0 <= i -> nthZ p s <> 0 -> in_sector s x = true -> to_erase p i n x = false.
Proof.
  intros Hs Hi Hp Hx. unfold to_erase. destruct (existsb _ _) eqn:E; [| done]. apply existsb_exists in E as (k & Hk & H2).
  apply list_elem_of_In, elem_of_seqZ in Hk. apply andb_true_iff in H2 as [H2%Z.eqb_eq H3]. rewrite (sector_unique k s x) in H2 by (done || lia). done.
Qed.


(** C19: protected sectors survive.  [protect on], with the sectors named in any
    way, sets the flags of exactly those sectors and returns 0; after it no
    [erase] command whatever that ends with the code 0 changes a byte of them,
    until [protect off] clears the flags again. *)
Theorem protected_survives p cmd args i j : length p = 135%nat -> names args i j ->
  exists p', do_protect (bank p) (cmd :: str "on" :: args) = Some (bank p', 0) /\ flags_set p p' i j 1 /\
    (forall fuel cmd' args' (w : W), idle w -> (max_polls < fuel)%nat ->
       exists rc w', do_flerase fuel (bank p') (cmd' :: args') w = Some (rc, w') /\
         (rc = 0 -> forall s x, i <= s <= j -> in_sector s x = true -> array w' x = array w x)) /\
    exists p'', do_protect (bank p') (cmd :: str "off" :: args) = Some (bank p'', 0) /\ flags_set p' p'' i j 0.
Proof.
  intros Hp Hn. pose proof (names_sane _ _ _ Hn) as [Hij Hj]. destruct (protect_named p cmd (str "on") 1 args i j eq_refl Hn) as (p' & E & Hl & Hf).
  exists p'. split; [done |]. split; [by split |]. split; [| by apply protect_named].
  intros fuel cmd' args' w Hi Hfu. destruct (erase_core fuel p' cmd' args' w Hi Hfu) as [Hnm _].
  destruct (erase_refused fuel p' cmd' args' w) as [E'|(i' & j' & Hn')]; [exists 1, w; by split |].
  pose proof (names_sane _ _ _ Hn') as [Hij' Hj']. destruct (Hnm i' j' Hn') as (rc & w' & E' & Hout). exists rc, w'. split; [done |].
  intros -> s x Hs Hx. destruct Hout as [(_ & _ & Ha)|]; [| done]. rewrite Ha. rewrite (protected_kept p' i' _ s x); [done | lia | lia | | done].
  rewrite Hf by lia. rewrite !(proj2 (Z.leb_le _ _)) by lia. done.
Qed.
End flash_commands.

(** ** Witnesses *)

Lemma demo_names : names [str "1:3-5"] 3 5 /\ names [str "f0000000"; str "+2001"] 0 1 /\ names [str "F0010000"; str "F001FFFF"] 8 8.
Proof.
  split_and!.
  - apply (names_sectors (str "1") (str "3") (str "5") 1 3 5 []); first [reflexivity | vm_compute; set_solver | vm_compute; split; congruence | vm_compute; congruence].
  - apply (names_length (str "f0000000") (str "2001") 0x2001 0 1); first [reflexivity | vm_compute; set_solver | lia].
  - apply (names_range (str "F0010000") (str "F001FFFF") 0xF001FFFF 8 8); first [reflexivity | left; reflexivity | vm_compute; set_solver | lia | vm_compute; congruence].
Qed.


Lemma protected_survives_witness :
  exists p', do_protect (bank (replicate 135 0)) [str "protect"; str "on"; str "1:3-5"] = Some (bank p', 0) /\
    flags_set (replicate 135 0) p' 3 5 1.
Proof.
  destruct (protected_survives (W := NorChip.chip) (replicate 135 0) (str "protect") [str "1:3-5"] 3 5 (length_replicate _ _) (proj1 demo_names)) as (p' & E & Hf & _).
  exists p'. exact (conj E Hf).
Defined.

(** ** What the hypotheses exclude *)

(** The first sector number is compared with the number of sectors only from
    above: a number of 2 ^ 31 or more is negative, and [protect] stores in
    front of the flags, in the table of sector addresses. *)
Lemma negative_sector_stored p : do_protect (bank p) [str "protect"; str "on"; str "1:4294967295"] = None.
Proof. reflexivity. Qed.
