(* ===== verification/Env.v ===== *)
(** * The environment: common/env_common.c, common/cmd_nvedit.c

    The environment is a byte array of NUL-terminated "name=value" strings
    with an empty string at the end, preceded by a CRC-32.  It lives in
    flash; [env_relocate] copies it to RAM, where [setenv] changes it.
    The array is a memory [d] indexed from 0, so [*env] of the code is
    [d env] with [env] the offset from [env_data].  Strings passed by the
    caller are the lists of their bytes; they lie outside the array.

    The theorems refine the array to a list of (name, value) pairs: [getenv]
    is the list's lookup, [setenv] its update, with the overflow error as the
    code has it. *)

From S2P Require Import Prelude Memory Ctype Strings Vsprintf Crc.

Local Open Scope Z_scope.

Definition CONFIG_ENV_SIZE : Z := 65536.
Definition ENV_HEADER_SIZE : Z := 4.
Definition ENV_SIZE : Z := CONFIG_ENV_SIZE - ENV_HEADER_SIZE.

(** More than any scan of the array can need. *)
Definition env_fuel : nat := Z.to_nat (CONFIG_ENV_SIZE + 2).

(** ** State *)

(** [struct environment_s]. *)
Record env_t := mk_env_t { crc : Z; data : mem }.

(** What [env_ptr] and [gd->env_addr] can point to. *)
Inductive place := AtFlash | AtRam | AtDefault.

Record env_store := mk_store {
  flash_env : env_t;          (* the sector at CONFIG_ENV_ADDR *)
  ram_env : env_t;            (* the buffer env_relocate allocates *)
  default_environment : mem;
  env_ptr : place;
  env_addr : place;           (* gd->env_addr *)
  env_valid : Z;              (* gd->env_valid *)
}.

Definition entry_line (s : list Z) : list Z := s ++ [0].

(** The defaults this board's configuration selects. *)
Definition board_defaults : list Z :=
  entry_line (str "bootdelay=3") ++ entry_line (str "baudrate=115200") ++
  entry_line (str "ethaddr=08:00:3e:26:0a:5b") ++ entry_line (str "ipaddr=192.168.2.190") ++
  entry_line (str "serverip=192.168.2.100") ++ entry_line (str "gatewayip=192.168.2.100") ++
  entry_line (str "netmask=255.255.255.0") ++ [0; 0].

Definition env_at (w : env_store) (p : place) : env_t :=
  match p with
  | AtFlash => flash_env w
  | AtRam => ram_env w
  | AtDefault => mk_env_t 0 (default_environment w)
  end.

(** A plain store reaches RAM and the default array; the flash chip does not
    take it as data. *)
Definition put_at (w : env_store) (p : place) (e : env_t) : env_store :=
  match p with
  | AtFlash => w
  | AtRam => mk_store (flash_env w) e (default_environment w) (env_ptr w) (env_addr w) (env_valid w)
  | AtDefault => mk_store (flash_env w) (ram_env w) (data e) (env_ptr w) (env_addr w) (env_valid w)
  end.

Definition data_crc (d : mem) : Z := crc32 0 (load d 0 (Z.to_nat ENV_SIZE)) ENV_SIZE.

Definition env_crc_update (w : env_store) : env_store :=
  let e := env_at w (env_ptr w) in put_at w (env_ptr w) (mk_env_t (data_crc (data e)) (data e)).

(** [env_get_char]: the relocated and the early variant read the same place. *)
Definition env_get_char (w : env_store) (index : Z) : Z :=
  if truth (env_valid w) then data (env_at w (env_addr w)) index
  else default_environment w index.

(** [env_get_addr (0)]: where [setenv] works. *)
Definition env_get_addr (w : env_store) : place :=
  if truth (env_valid w) then env_addr w else AtDefault.

Definition env_mem (w : env_store) : mem := data (env_at w (env_get_addr w)).

(** ** Initialisation *)

Definition env_init (w : env_store) : env_store :=
  let e := env_at w (env_ptr w) in
  if data_crc (data e) =? crc e
  then mk_store (flash_env w) (ram_env w) (default_environment w) (env_ptr w) (env_ptr w) 1
  else mk_store (flash_env w) (ram_env w) (default_environment w) (env_ptr w) AtDefault 0.

(** [sizeof(default_environment)]; the array is far smaller than ENV_SIZE. *)
Definition default_size : Z := len board_defaults.

Definition set_default_env (w : env_store) : env_store :=
  if ENV_SIZE <? default_size then w
  else
    let d := fst (memset (data (env_at w (env_ptr w))) 0 0 ENV_SIZE) in
    let d := store_list d 0 (load (default_environment w) 0 (Z.to_nat default_size)) in
    let w := env_crc_update (put_at w (env_ptr w) (mk_env_t 0 d)) in
    mk_store (flash_env w) (ram_env w) (default_environment w) (env_ptr w) (env_addr w) 1.

Definition env_relocate_spec (w : env_store) : env_store := put_at w (env_ptr w) (flash_env w).

(** The malloc of the buffer is [env_ptr := AtRam]. *)
Definition env_relocate (w : env_store) : env_store :=
  let w := mk_store (flash_env w) (ram_env w) (default_environment w) AtRam (env_addr w) (env_valid w) in
  let w := if env_valid w =? 0 then set_default_env w else env_relocate_spec w in
  mk_store (flash_env w) (ram_env w) (default_environment w) (env_ptr w) (env_ptr w) (env_valid w).

(** ** Lookup *)

(** [envmatch]: the index of the value, or -1.  [None]: the name and the
    entry ended together and the loop went on beyond the name's NUL. *)
Fixpoint envmatch (d : mem) (s1 : list Z) (i2 : Z) : option Z :=
  match s1 with
  | [] =>
      if d i2 =? 0 then None
      else if d i2 =? 61 (* '=' *) then Some (i2 + 1) else Some (-1)
  | c :: s1' =>
      if c =? d i2
      then if c =? 61 then Some (i2 + 1) else envmatch d s1' (i2 + 1)
      else Some (-1)
  end.

(** [for (nxt=i; env_get_char(nxt) != '\0'; ++nxt)] *)
Definition entry_end (d : mem) (i : Z) : option Z :=
  loop (fun nxt => if d nxt =? 0 then inr nxt else inl (nxt + 1)) env_fuel i.

(** The same with the bound [getenv] checks: [inr None] leaves the function. *)
Definition entry_end_bounded (d : mem) (i : Z) : option (option Z) :=
  loop (fun nxt => if d nxt =? 0 then inr (Some nxt)
                   else if nxt >=? CONFIG_ENV_SIZE then inr None else inl (nxt + 1)) env_fuel i.

(** The search of [getenv] and [getenv_r] for the value's index; -1 when
    there is none. *)
Fixpoint find_value (fuel : nat) (d : mem) (name : list Z) (i : Z) : option Z :=
  match fuel with
  | O => None
  | S f =>
      if d i =? 0 then Some (-1)
      else
        match entry_end_bounded d i with
        | None => None
        | Some None => Some (-1)
        | Some (Some nxt) =>
            match envmatch d name i with
            | None => None
            | Some val => if val <? 0 then find_value f d name (nxt + 1) else Some val
            end
        end
  end.

(** The offset of the value in the environment, -1 for NULL. *)
Definition getenv (w : env_store) (name : list Z) : option Z :=
  find_value env_fuel (env_get_char w) name 0.

(** The value of a variable, as a C string. *)
Definition getenv_str (e : env_store) (name : list Z) : option (option (list Z)) :=
  match getenv e name with
  | None => None
  | Some idx =>
      if idx <? 0 then Some None
      else Some (Some (take_while (fun c => negb (c =? 0)) (load (env_get_char e) idx (Z.to_nat ENV_SIZE))))
  end.

(** The copying [while] of [getenv_r], with [buf] indexed from 0: the array,
    [buf] and [n] afterwards. *)
Definition copy_out (d : mem) (len_ val : Z) (out : mem) : option (mem * Z * Z) :=
  loop (fun '(out, buf, n, val) =>
          if len_ >? n then
            let out := store out buf (d val) in
            if d val =? 0 then inr (out, buf + 1, n + 1) else inl (out, buf + 1, n + 1, val + 1)
          else inr (out, buf, n + 1)) env_fuel (out, 0, 0, val).

Definition getenv_r (w : env_store) (name : list Z) (out : mem) (len_ : Z) : option (mem * Z) :=
  match find_value env_fuel (env_get_char w) name 0 with
  | None => None
  | Some val =>
      if val <? 0 then Some (out, -1)
      else
        match copy_out (env_get_char w) len_ val out with
        | None => None
        | Some (out, buf, n) =>
            let out := if len_ =? n then store out buf 0 else out in
            Some (out, n)
        end
  end.

(** ** Printing *)

(** [for (k=i; k<nxt; ++k) putc(env_get_char(k));] *)
Definition put_range (d : mem) (i nxt : Z) : list Z := load d i (Z.to_nat (nxt - i)).

(** All variables; [ctrlc] answers the test after each line.  The code, and
    the offset of the end, which the closing message prints. *)
Fixpoint printenv_all (fuel : nat) (d : mem) (ctrlc : list bool) (i : Z) (out : list Z)
    : option (list Z * Z * Z) :=
  match fuel with
  | O => None
  | S f =>
      if d i =? 0 then Some (out, i, 0)
      else
        match entry_end d i with
        | None => None
        | Some nxt =>
            let out := out ++ put_range d i nxt ++ [10] in
            match ctrlc with
            | true :: _ => Some (out ++ [10] ++ str " ** Abort" ++ [10], i, 1)
            | _ => printenv_all f d (tail ctrlc) (nxt + 1) out
            end
        end
  end.

(** One name: its line, or [None] in the pair when it is not defined. *)
Fixpoint printenv_one (fuel : nat) (d : mem) (name : list Z) (j : Z) : option (option (list Z)) :=
  match fuel with
  | O => None
  | S f =>
      if d j =? 0 then Some None
      else
        match entry_end d j with
        | None => None
        | Some nxt =>
            match envmatch d name j with
            | None => None
            | Some k =>
                if k <? 0 then printenv_one f d name (nxt + 1)
                else Some (Some (name ++ [61] ++ put_range d k nxt ++ [10]))
            end
        end
  end.

Fixpoint printenv_names (d : mem) (names : list (list Z)) (out : list Z) (rcode : Z)
    : option (list Z * Z) :=
  match names with
  | [] => Some (out, rcode)
  | name :: names' =>
      match printenv_one env_fuel d name 0 with
      | None => None
      | Some (Some line) => printenv_names d names' (out ++ line) rcode
      | Some None =>
          printenv_names d names'
            (out ++ str "## Error: " ++ [34] ++ name ++ [34] ++ str " not defined" ++ [10]) (rcode + 1)
      end
  end.

(** The output and the return code; [names] is [argv[1..]]. *)
Definition do_printenv (w : env_store) (ctrlc : list bool) (names : list (list Z))
    : option (list Z * Z) :=
  match names with
  | [] =>
      match printenv_all env_fuel (env_get_char w) ctrlc 0 [] with
      | None => None
      | Some (out, i, 1) => Some (out, 1)
      | Some (out, i, rc) =>
          match sprintf ([10] ++ str "Environment size: %d/%ld bytes" ++ [10]) [VWord i; VWord ENV_SIZE] with
          | None => None
          | Some (msg, _) => Some (out ++ msg, rc)
          end
      end
  | _ => printenv_names (env_get_char w) names [] 0
  end.

(** ** Completion of variable names *)

(** The names that start with [var], "..." when the table or the buffer is
    full; [found] is the length of the result. *)
Fixpoint env_complete_loop (fuel : nat) (d : mem) (var : list Z) (maxv bufsz : Z) (i : Z)
    (cmdv : list (list Z)) : option (list (list Z)) :=
  match fuel with
  | O => None
  | S f =>
      if d i =? 0 then Some cmdv
      else
        match entry_end d i with
        | None => None
        | Some nxt =>
            let lval := load d i (Z.to_nat (nxt - i)) in
            (* strchr (lval, '='), else strlen (lval) *)
            let name := take_while (fun c => negb (c =? 61)) lval in
            let vallen := len name in
            if (0 <? len var) && ((vallen <? len var) ||
                 negb (bool_decide (load d i (length var) = var)))
            then env_complete_loop f d var maxv bufsz (nxt + 1) cmdv
            else if (len cmdv >=? maxv - 2) || (bufsz <? vallen + 1)
            then Some (cmdv ++ [str "..."])
            else env_complete_loop f d var maxv (bufsz - vallen - 1) (nxt + 1) (cmdv ++ [name])
        end
  end.

Definition env_complete (w : env_store) (var : list Z) (maxv bufsz : Z) : option (list (list Z)) :=
  env_complete_loop env_fuel (env_get_char w) var maxv bufsz 0 [].

(** ** Setting variables *)

(** [copy_filename]: the string left in [dst] of [size] bytes. *)
Fixpoint copy_filename_loop (size : nat) (src : list Z) : list Z :=
  match size, src with
  | S k, c :: src' => if c =? 34 (* a double quote *) then [] else c :: copy_filename_loop k src'
  | _, _ => []
  end.

Definition copy_filename (src : list Z) (size : Z) : list Z :=
  if chr src =? 34
  then copy_filename_loop (Z.to_nat (size - 1 - 1)) (tail src)
  else copy_filename_loop (Z.to_nat (size - 1)) src.

(** [for (i...) { v = s ? simple_strtoul(s, &e, base) : 0; s = *e ? e+1 : e; }] *)
Fixpoint read_fields (n : nat) (s : list Z) (base : Z) : list Z :=
  match n with
  | O => []
  | S n' => let '(v, e) := simple_strtoul s base in v :: read_fields n' (tail e) base
  end.

Definition addr_of_fields (vs : list Z) : Z :=
  fold_left (fun addr v => Z.lor (u32 (Z.shiftl addr 8)) (Z.land v 0xff)) vs 0.

Definition streq (a b : list Z) : bool := bool_decide (a = b).

(** The search for the name: [oldval], [env] and [nxt] after the loop. *)
Fixpoint setenv_search (fuel : nat) (d : mem) (name : list Z) (env : Z) : option (Z * Z * Z) :=
  match fuel with
  | O => None
  | S f =>
      if d env =? 0 then Some (-1, env, env)
      else
        match entry_end d env with
        | None => None
        | Some nxt =>
            match envmatch d name env with
            | None => None
            | Some v => if v >=? 0 then Some (v, env, nxt) else setenv_search f d name (nxt + 1)
            end
        end
  end.

(** [for (;;) { *env = *nxt++; if (...) break; ++env; }]: the array and [env]. *)
Definition shift_body (s : mem * Z * Z) : (mem * Z * Z) + (mem * Z) :=
  let '(d, env, nxt) := s in
  let d := store d env (d nxt) in
  if (d env =? 0) && (d (nxt + 1) =? 0) then inr (d, env) else inl (d, env + 1, nxt + 1).

(** Delete the entry at [env] whose NUL is at [nxt]. *)
Definition delete_entry (d : mem) (env nxt : Z) : option mem :=
  let nxt := nxt + 1 in
  let r :=
    if d nxt =? 0
    then if 0 <? env then Some (d, env - 1) else Some (store d env 0, env)
    else loop shift_body env_fuel (d, env, nxt) in
  match r with
  | None => None
  | Some (d, env) => Some (store d (env + 1) 0)
  end.

(** [for (env=env_data; *env || *(env+1); ++env); if (env > env_data) ++env;] *)
Definition append_point (d : mem) : option Z :=
  match loop (fun env => if truth (d env) || truth (d (env + 1)) then inl (env + 1) else inr env)
          env_fuel 0 with
  | None => None
  | Some env => Some (if 0 <? env then env + 1 else env)
  end.

(** The values after the name: '=' or ' ', then the string with its NUL. *)
Fixpoint append_values (d : mem) (env : Z) (first : bool) (vals : list (list Z)) : mem * Z :=
  match vals with
  | [] => (d, env)
  | v :: vals' =>
      let d := store d env (if first then 61 else 32) in
      append_values (store_list d (env + 1) (v ++ [0])) (env + 1 + len v) false vals'
  end.

(** The new definition at [env], or [None] for the overflow. *)
Definition append_entry (d : mem) (env : Z) (name : list Z) (vals : list (list Z)) : option mem :=
  let need := len name + 2 + fold_right (fun v n => len v + 1 + n) 0 vals in
  if need >? ENV_SIZE - env then None
  else
    let '(d, env) := append_values (store_list d env (name ++ [0])) (env + len name) true vals in
    Some (store d (env + 1) 0).

Section setenv.
(** The console devices: [console_assign] with its state. *)
Variable console : Type.
Variable console_assign : Z -> list Z -> console -> Z * console.

(** The variables [setenv] keeps in step with the environment, and the
    console input that confirms a new baud rate. *)
Record env_vars := mk_vars {
  env_id : Z;
  bi_enetaddr : list Z;
  bi_ip_addr : Z;
  load_addr : Z;
  BootFile : list Z;
  baudrate : Z;               (* gd->baudrate *)
  brg : list Z;               (* the rates serial_setbrg programmed *)
  input : list Z;             (* what getc will deliver *)
  cons : console;
}.

Definition baudrate_table : list Z := [115200].

(** [stdin], [stdout], [stderr] of include/common.h. *)
Definition console_file (name : list Z) : Z :=
  if streq name (str "stdin") then 0
  else if streq name (str "stdout") then 1
  else if streq name (str "stderr") then 2 else -1.

(** The checks before an existing definition is deleted: [Ok], or the code
    returned.  [None]: a NULL [argv[2]] is read, or [getc] waits for ever. *)
Definition setenv_checks (name : list Z) (vals : list (list Z)) (v : env_vars)
    : option (Z * env_vars + env_vars) :=
  let console := console_file name in
  let r :=
    if console =? -1 then inr v
    else match vals with
         | [] => inl (1, v)
         | dev :: _ =>
             let '(rc, c) := console_assign console dev (cons v) in
             let v := mk_vars (env_id v) (bi_enetaddr v) (bi_ip_addr v) (load_addr v) (BootFile v)
                        (baudrate v) (brg v) (input v) c in
             if rc <? 0 then inl (1, v) else inr v
         end in
  match r with
  | inl rc => Some (inl rc)
  | inr v =>
      if streq name (str "baudrate") then
        match vals with
        | [] => None
        | arg :: _ =>
            let b := s32 (fst (simple_strtoul arg 10)) in
            if existsb (Z.eqb (u32 b)) baudrate_table then
              match drop_while (fun c => negb (c =? 13)) (input v) with
              | [] => None
              | _ :: rest =>
                  Some (inr (mk_vars (env_id v) (bi_enetaddr v) (bi_ip_addr v) (load_addr v)
                               (BootFile v) b (brg v ++ [b]) rest (cons v)))
              end
            else Some (inl (1, v))
        end
      else Some (inr v)
  end.

(** The variables updated after a definition has been appended. *)
Definition setenv_updates (name arg : list Z) (v : env_vars) : env_vars :=
  if streq name (str "ethaddr") then
    mk_vars (env_id v) (map u8 (read_fields 6 arg 16)) (bi_ip_addr v) (load_addr v) (BootFile v)
      (baudrate v) (brg v) (input v) (cons v)
  else if streq name (str "ipaddr") then
    mk_vars (env_id v) (bi_enetaddr v) (addr_of_fields (read_fields 4 arg 10)) (load_addr v)
      (BootFile v) (baudrate v) (brg v) (input v) (cons v)
  else if streq name (str "loadaddr") then
    mk_vars (env_id v) (bi_enetaddr v) (bi_ip_addr v) (fst (simple_strtoul arg 16)) (BootFile v)
      (baudrate v) (brg v) (input v) (cons v)
  else if streq name (str "bootfile") then
    mk_vars (env_id v) (bi_enetaddr v) (bi_ip_addr v) (load_addr v) (copy_filename arg 128)
      (baudrate v) (brg v) (input v) (cons v)
  else v.

(** [_do_setenv] with [name] for [argv[1]] and [vals] for [argv[2..]]. *)
Definition _do_setenv (name : list Z) (vals : list (list Z)) (w : env_store) (v : env_vars)
    : option (Z * env_store * env_vars) :=
  let p := env_get_addr w in
  let put d := put_at w p (mk_env_t (crc (env_at w p)) d) in
  if existsb (Z.eqb 61) name then Some (1, w, v)
  else
    let v := mk_vars (s32 (env_id v + 1)) (bi_enetaddr v) (bi_ip_addr v) (load_addr v) (BootFile v)
               (baudrate v) (brg v) (input v) (cons v) in
    let d := env_mem w in
    match setenv_search env_fuel d name 0 with
    | None => None
    | Some (oldval, env, nxt) =>
        let r :=
          if oldval >=? 0 then
            match setenv_checks name vals v with
            | None => None
            | Some (inl (rc, v)) => Some (inl (rc, w, v))
            | Some (inr v) =>
                match delete_entry d env nxt with
                | None => None
                | Some d => Some (inr (d, v))
                end
            end
          else Some (inr (d, v)) in
        match r with
        | None => None
        | Some (inl res) => Some res
        | Some (inr (d, v)) =>
            match vals with
            | [] => Some (0, env_crc_update (put d), v)
            | arg :: _ =>
                match append_point d with
                | None => None
                | Some env =>
                    match append_entry d env name vals with
                    | None => Some (1, put d, v)
                    | Some d => Some (0, env_crc_update (put d), setenv_updates name arg v)
                    end
                end
            end
        end
    end.

Definition setenv (varname : list Z) (varvalue : option (list Z)) (w : env_store) (v : env_vars)
    : option (Z * env_store * env_vars) :=
  match varvalue with
  | None => _do_setenv varname [] w v
  | Some val => _do_setenv varname [val] w v
  end.

(** [do_setenv] with [argv[1..]]: at least the name. *)
Definition do_setenv (args : list (list Z)) (w : env_store) (v : env_vars)
    : option (Z * env_store * env_vars) :=
  match args with
  | [] => Some (1, w, v)
  | name :: vals => _do_setenv name vals w v
  end.
End setenv.

Lemma env_fuel_big : Z.of_nat env_fuel = 65538.
Proof. unfold env_fuel. rewrite Z2Nat.id; done. Qed.

#[local] Opaque env_fuel data_crc.

(** Arithmetic with the sizes of the array. *)
Ltac env_lia :=
  pose proof env_fuel_big; unfold ENV_SIZE, CONFIG_ENV_SIZE, ENV_HEADER_SIZE in *; lia.

(** ** The array as a list of strings *)

Fixpoint flen (es : list (list Z)) : Z :=
  match es with [] => 0 | e :: es' => len e + 1 + flen es' end.

(** The strings of [es], each followed by its NUL, from offset [i]. *)
Fixpoint strs_at (d : mem) (i : Z) (es : list (list Z)) : Prop :=
  match es with
  | [] => True
  | e :: es' => e <> [] /\ cstr d i e /\ strs_at d (i + len e + 1) es'
  end.

(** A variable: its name and its value. *)
Abbreviation var := (list Z * list Z)%type.

Definition entry (x : var) : list Z := fst x ++ 61 :: snd x.

Definition good_name (n : list Z) : Prop := n <> [] /\ Forall (fun c => c <> 0 /\ c <> 61) n.
Definition good_val (v : list Z) : Prop := Forall (fun c => c <> 0) v.
Definition good_var (x : var) : Prop := good_name (fst x) /\ good_val (snd x).

Abbreviation size_of es := (flen (map entry es)).

(** The array holds the variables [es], the closing empty string included. *)
Definition env_holds (d : mem) (es : list var) : Prop :=
  Forall good_var es /\ strs_at d 0 (map entry es) /\ d (size_of es) = 0 /\
  (es = [] -> d 1 = 0) /\ size_of es + 1 <= ENV_SIZE.

(** The first definition of a name. *)
Fixpoint env_lookup (n : list Z) (es : list var) : option (list Z) :=
  match es with
  | [] => None
  | (n', v) :: es' => if decide (n' = n) then Some v else env_lookup n es'
  end.

Fixpoint env_remove (n : list Z) (es : list var) : list var :=
  match es with
  | [] => []
  | (n', v) :: es' => if decide (n' = n) then es' else (n', v) :: env_remove n es'
  end.

Lemma flen_app es fs : flen (es ++ fs) = flen es + flen fs.
Proof. induction es as [|e es IH]; simpl; lia. Qed.

Lemma flen_nonneg es : len es <= flen es.
Proof. induction es as [|e es IH]; simpl; lia. Qed.

Lemma entry_length x : len (entry x) = len (fst x) + 1 + len (snd x).
Proof. unfold entry. rewrite length_app. simpl. lia. Qed.

Lemma strs_at_app d i es fs :
  strs_at d i (es ++ fs) <-> strs_at d i es /\ strs_at d (i + flen es) fs.
Proof.
  revert i. induction es as [|e es IH]; intros i; simpl; [rewrite Z.add_0_r; tauto |].
  rewrite IH. replace (i + len e + 1 + flen es) with (i + (len e + 1 + flen es)) by lia. tauto.
Qed.

Lemma strs_at_ext d d' i k es :
  (forall j, i <= j < i + flen es -> d' (j + k) = d j) -> strs_at d i es -> strs_at d' (i + k) es.
Proof.
  revert i. induction es as [|e es IH]; intros i H; [done |]. simpl in *.
  pose proof (flen_nonneg es). intros (Hne & Hc & Hs). split_and!; [done | |].
  - apply (cstr_ext d d' i (i + k)); [| done]. intros j Hj. rewrite <- (H (i + j)) by lia. f_equal. lia.
  - replace (i + k + len e + 1) with (i + len e + 1 + k) by lia. apply IH; [| done].
    intros j Hj. apply H. lia.
Qed.

Lemma strs_at_frame d d' i es :
  (forall j, i <= j < i + flen es -> d' j = d j) -> strs_at d i es -> strs_at d' i es.
Proof.
  intros H Hs. rewrite <- (Z.add_0_r i). apply (strs_at_ext d); [| done].
  intros j Hj. rewrite Z.add_0_r. by apply H.
Qed.

(** No two NULs meet before the last string's. *)
Lemma no_double_nul d i es j : strs_at d i es -> i <= j < i + flen es - 1 ->
  d j <> 0 \/ d (j + 1) <> 0.
Proof.
  revert i. induction es as [|e es IH]; intros i Hs Hj; simpl in *; [lia |].
  destruct Hs as (_ & Hc & Hs). destruct (Z.lt_total j (i + len e)) as [Hlt|[->|Hgt]].
  - left. replace j with (i + (j - i)) by lia. apply (cstr_nonzero d i e); [done | lia].
  - right. destruct es as [|f es]; simpl in *; [lia |]. destruct Hs as (Hf & Hcf & _).
    destruct f as [|c f]; [done |]. apply cstr_cons in Hcf as (Hc0 & -> & _). done.
  - apply (IH (i + len e + 1)); [done | lia].
Qed.

Lemma last_nul d i es : strs_at d i es -> es <> [] -> d (i + flen es - 1) = 0.
Proof.
  revert i. induction es as [|e es IH]; intros i Hs Hne; [done |]. simpl in *.
  destruct Hs as (_ & Hc & Hs). destruct es as [|f es].
  - simpl. replace (i + (len e + 1 + 0) - 1) with (i + len e) by lia. by apply (cstr_end d i e).
  - replace (i + (len e + 1 + flen (f :: es)) - 1) with (i + len e + 1 + flen (f :: es) - 1) by lia.
    by apply IH.
Qed.

(** ** Scanning one entry *)

Lemma entry_end_spec d i e : cstr d i e -> len e < CONFIG_ENV_SIZE -> entry_end d i = Some (i + len e).
Proof.
  intros Hc He. apply (strlen_loop_spec d i e); [done |].
  env_lia.
Qed.

Lemma entry_end_bounded_spec d i e : cstr d i e -> 0 <= i -> i + len e < CONFIG_ENV_SIZE ->
  entry_end_bounded d i = Some (Some (i + len e)).
Proof.
  intros Hc Hi He. unfold entry_end_bounded.
  assert (Hf : (length e < env_fuel)%nat) by (env_lia).
  revert i Hc Hi He Hf. generalize env_fuel. induction e as [|c e IH]; intros [|fuel] i Hc Hi He Hf; try lia.
  - apply cstr_nil in Hc. simpl. rewrite Hc. simpl. by rewrite Z.add_0_r.
  - apply cstr_cons in Hc as (Hc0 & Hci & Hc). simpl in He, Hf. cbn [loop].
    rewrite Hci, (proj2 (Z.eqb_neq c 0) Hc0), Z.geb_leb, (proj2 (Z.leb_gt _ _)) by lia.
    rewrite IH by (done || lia). do 2 f_equal. simpl. lia.
Qed.

(** The names are compared exactly: a proper prefix does not match. *)
Lemma envmatch_spec d n v name i : cstr d i (entry (n, v)) ->
  Forall (fun c => c <> 0 /\ c <> 61) n -> Forall (fun c => c <> 0 /\ c <> 61) name ->
  envmatch d name i = Some (if decide (n = name) then i + len n + 1 else -1).
Proof.
  unfold entry. simpl. revert i name. induction n as [|c n IH]; intros i name Hc Hn Hm; simpl in Hc;
    apply cstr_cons in Hc as (Hc0 & Hci & Hc).
  - destruct name as [|b name]; simpl; rewrite Hci; simpl; [f_equal; lia |].
    apply Forall_cons in Hm as [Hb _]. rewrite (proj2 (Z.eqb_neq b 61)) by tauto. done.
  - apply Forall_cons in Hn as [Hcn Hn]. destruct name as [|b name]; simpl; rewrite Hci.
    + rewrite !(proj2 (Z.eqb_neq c _)) by tauto. done.
    + apply Forall_cons in Hm as [Hb Hm]. destruct (Z.eqb_spec b c) as [->|Hne].
      * rewrite (proj2 (Z.eqb_neq c 61)) by tauto. rewrite (IH (i + 1)) by done. f_equal.
        destruct (decide (n = name)), (decide (c :: n = c :: name)); try congruence. simpl. lia.
      * destruct (decide (c :: n = b :: name)); [congruence | done].
Qed.

Lemma strs_at_value d i x : strs_at d i [entry x] -> cstr d (i + len (fst x) + 1) (snd x).
Proof.
  intros (_ & Hc & _). destruct x as [n v]. unfold entry in Hc. simpl in *.
  pose proof (cstr_drop d i _ (length n + 1) Hc) as H. rewrite length_app in H. simpl in H.
  rewrite drop_app_add' in H by done. replace (i + len n + 1) with (i + Z.of_nat (length n + 1)) by lia.
  apply H. lia.
Qed.

Lemma good_name_chars n : good_name n -> Forall (fun c => c <> 0 /\ c <> 61) n.
Proof. by intros [_ ?]. Qed.

Lemma find_value_spec d name : Forall (fun c => c <> 0 /\ c <> 61) name -> forall es fuel i,
  Forall good_var es -> strs_at d i (map entry es) -> d (i + size_of es) = 0 -> 0 <= i ->
  i + size_of es < CONFIG_ENV_SIZE -> (length es < fuel)%nat ->
  exists idx, find_value fuel d name i = Some idx /\
    match env_lookup name es with Some v => 0 <= idx /\ cstr d idx v | None => idx = -1 end.
Proof.
  intros Hname. induction es as [|[n v] es IH]; intros [|fuel] i Hg Hs Hz Hi Hsz Hf; simpl in *; try lia.
  - rewrite Z.add_0_r in Hz. rewrite Hz. simpl. eauto.
  - apply Forall_cons in Hg as [[Hn Hv] Hg]. destruct Hs as (Hne & Hc & Hs). simpl in Hn, Hv.
    pose proof (flen_nonneg (map entry es)).
    replace (d i =? 0) with false.
    2: { symmetry. apply Z.eqb_neq. rewrite <- (Z.add_0_r i). eapply cstr_nonzero; [exact Hc |].
         rewrite entry_length. simpl. lia. }
    rewrite (entry_end_bounded_spec d i _ Hc) by lia.
    rewrite (envmatch_spec d n v name i Hc) by (done || by apply good_name_chars).
    destruct (decide (n = name)) as [->|Hne'].
    + rewrite (proj2 (Z.ltb_ge _ _)) by lia. eexists. split; [done |]. split; [lia |].
      by apply (strs_at_value d i (name, v)).
    + rewrite (proj2 (Z.ltb_lt _ _)) by lia. apply IH; try done; try lia.
      by replace (i + len (entry (n, v)) + 1 + size_of es) with (i + (len (entry (n, v)) + 1 + size_of es)) by lia.
Qed.

Lemma env_holds_count d es : env_holds d es -> (length es < env_fuel)%nat.
Proof.
  intros (_ & _ & _ & _ & H). pose proof (flen_nonneg (map entry es)). rewrite length_map in *.
  env_lia.
Qed.

Lemma getenv_lookup w name es : env_holds (env_get_char w) es ->
  Forall (fun c => c <> 0 /\ c <> 61) name ->
  exists idx, getenv w name = Some idx /\
    match env_lookup name es with
    | Some v => 0 <= idx /\ cstr (env_get_char w) idx v
    | None => idx = -1
    end.
Proof.
  intros Hh Hn. pose proof (env_holds_count _ _ Hh) as Hf. destruct Hh as (Hg & Hs & Hz & _ & Hsz).
  apply find_value_spec; try done.
  env_lia.
Qed.

(** ** Searching, deleting, appending *)

Lemma env_split name es v : env_lookup name es = Some v ->
  exists es1 es2, es = es1 ++ (name, v) :: es2 /\ env_lookup name es1 = None /\
    env_remove name es = es1 ++ es2.
Proof.
  induction es as [|[n u] es IH]; simpl; [done |]. destruct (decide (n = name)) as [->|Hne].
  - intros [= ->]. by exists [], es.
  - intros H. destruct (IH H) as (es1 & es2 & -> & Hl & Hr). exists ((n, u) :: es1), es2. simpl.
    rewrite decide_False by done. by rewrite Hr.
Qed.

Lemma env_remove_none name es : env_lookup name es = None -> env_remove name es = es.
Proof.
  induction es as [|[n u] es IH]; simpl; [done |]. destruct (decide (n = name)); [done |].
  intros. by rewrite IH.
Qed.

Lemma setenv_search_spec d name : Forall (fun c => c <> 0 /\ c <> 61) name -> forall es fuel i,
  Forall good_var es -> strs_at d i (map entry es) -> d (i + size_of es) = 0 -> 0 <= i ->
  i + size_of es < CONFIG_ENV_SIZE -> (length es < fuel)%nat ->
  exists oldval env nxt, setenv_search fuel d name i = Some (oldval, env, nxt) /\
    match env_lookup name es with
    | None => oldval = -1
    | Some v => 0 <= oldval /\ exists es1 es2, es = es1 ++ (name, v) :: es2 /\
        env_remove name es = es1 ++ es2 /\ env = i + size_of es1 /\ nxt = env + len (entry (name, v))
    end.
Proof.
  intros Hname. induction es as [|[n v] es IH]; intros [|fuel] i Hg Hs Hz Hi Hsz Hf; simpl in *; try lia.
  - rewrite Z.add_0_r in Hz. rewrite Hz. simpl. eauto 6.
  - apply Forall_cons in Hg as [[Hn Hv] Hg]. destruct Hs as (Hne & Hc & Hs). simpl in Hn, Hv.
    pose proof (flen_nonneg (map entry es)).
    replace (d i =? 0) with false.
    2: { symmetry. apply Z.eqb_neq. rewrite <- (Z.add_0_r i). eapply cstr_nonzero; [exact Hc |].
         rewrite entry_length. simpl. lia. }
    rewrite (entry_end_spec d i _ Hc) by lia.
    rewrite (envmatch_spec d n v name i Hc) by (done || by apply good_name_chars).
    destruct (decide (n = name)) as [->|Hne'].
    + rewrite Z.geb_leb, (proj2 (Z.leb_le _ _)) by lia. eexists _, _, _. split; [done |].
      split; [lia |]. exists [], es. simpl. rewrite Z.add_0_r. done.
    + rewrite Z.geb_leb, (proj2 (Z.leb_gt _ _)) by lia.
      edestruct (IH fuel (i + len (entry (n, v)) + 1)) as (o & env & nxt & -> & Hm); try done; try lia.
      { by replace (i + len (entry (n, v)) + 1 + size_of es) with (i + (len (entry (n, v)) + 1 + size_of es)) by lia. }
      eexists _, _, _. split; [done |]. destruct (env_lookup name es); [| done].
      destruct Hm as (Ho & es1 & es2 & -> & -> & -> & ->). split; [done |].
      exists ((n, v) :: es1), es2. simpl. split_and!; try done; lia.
Qed.

(** The shift copies the strings [es] from [nxt] down to [env]. *)
Lemma shift_loop_spec d0 env nxt es : env < nxt -> strs_at d0 nxt es -> es <> [] ->
  d0 (nxt + flen es) = 0 -> flen es < CONFIG_ENV_SIZE ->
  exists d', loop shift_body env_fuel (d0, env, nxt) = Some (d', env + flen es - 1) /\
    forall x, d' x = if (env <=? x) && (x <? env + flen es) then d0 (x - env + nxt) else d0 x.
Proof.
  intros Hlt Hs Hne Hz Hb.
  set (P := fun (m : nat) (s : mem * Z * Z) => let '(d, e, n) := s in
    exists k, 0 <= k < flen es /\ e = env + k /\ n = nxt + k /\ Z.of_nat m = flen es - k /\
      forall x, d x = if (env <=? x) && (x <? env + k) then d0 (x - env + nxt) else d0 x).
  destruct (loop_total shift_body P (fun r => exists d', r = (d', env + flen es - 1) /\
     forall x, d' x = if (env <=? x) && (x <? env + flen es) then d0 (x - env + nxt) else d0 x))
    with (n := Z.to_nat (flen es)) (s := (d0, env, nxt)) (f := env_fuel) as (r & -> & d' & -> & H); [| | | eauto].
  - intros m [[d e] n] (k & Hk & -> & -> & Hm & Hd). unfold shift_body.
    assert (Hn : d (nxt + k) = d0 (nxt + k)) by (rewrite Hd; zcases; (done || lia)).
    assert (Hn1 : d (nxt + k + 1) = d0 (nxt + k + 1)) by (rewrite Hd; zcases; (done || lia)).
    rewrite store_eq, store_ne, Hn, Hn1 by lia.
    assert (Hnew : forall x, store d (env + k) (d0 (nxt + k)) x =
      if (env <=? x) && (x <? env + (k + 1)) then d0 (x - env + nxt) else d0 x).
    { intros x. unfold store. rewrite Hd. zcases; simpl; try lia; try done. f_equal. lia. }
    destruct (decide (k = flen es - 1)) as [->|Hk1].
    + replace (nxt + (flen es - 1)) with (nxt + flen es - 1) in * by lia.
      rewrite last_nul by done. replace (nxt + flen es - 1 + 1) with (nxt + flen es) by lia.
      rewrite Hz. simpl. eexists. split; [f_equal; lia |]. intros x.
      rewrite last_nul in Hnew by done. rewrite Hnew. by replace (flen es - 1 + 1) with (flen es) by lia.
    + replace ((d0 (nxt + k) =? 0) && (d0 (nxt + k + 1) =? 0)) with false.
      2: { symmetry. apply andb_false_iff. rewrite !Z.eqb_neq. apply (no_double_nul d0 nxt es); [done | lia]. }
      exists (Z.to_nat (flen es - (k + 1))). split; [lia |]. exists (k + 1). split_and!; try lia. done.
  - exists 0. pose proof (flen_nonneg es). destruct es; [done |]. simpl length in *.
    split_and!; try lia. intros x. by zcases; try lia.
  - pose proof (flen_nonneg es). env_lia.
Qed.

(** Deleting an entry shifts the later ones down and writes nothing outside
    the array. *)
Lemma delete_entry_spec d es1 x es2 : env_holds d (es1 ++ x :: es2) ->
  exists d', delete_entry d (size_of es1) (size_of es1 + len (entry x)) = Some d' /\
    env_holds d' (es1 ++ es2) /\ forall a, ~ (0 <= a < ENV_SIZE) -> d' a = d a.
Proof.
  intros (Hg & Hs & Hz & _ & Hsz). rewrite map_app, flen_app in *. simpl in *.
  apply strs_at_app in Hs as [Hs1 (Hne & Hc & Hs2)]. rewrite Z.add_0_l in *.
  apply Forall_app in Hg as [Hg1 Hg2]. apply Forall_cons in Hg2 as [Hgx Hg2].
  pose proof (flen_nonneg (map entry es1)). pose proof (flen_nonneg (map entry es2)).
  pose proof (entry_length x) as Hel.
  set (p := size_of es1) in *. set (L := len (entry x)) in *.
  assert (Hgood : Forall good_var (es1 ++ es2)) by (by apply Forall_app).
  unfold delete_entry. destruct (decide (es2 = [])) as [->|Hne2].
  - simpl in *. replace (d (p + L + 1)) with 0 by (symmetry; by replace (p + L + 1) with (p + (L + 1 + 0)) by lia).
    simpl. rewrite app_nil_r in *. destruct (Z.ltb_spec 0 p).
    + exists (store d p 0). replace (p - 1 + 1) with p by lia. split; [done |]. split.
      * split_and!; [done | | apply store_eq | | lia].
        { apply (strs_at_frame d); [| done]. intros j Hj. apply store_ne. lia. }
        { intros ->. simpl in *. lia. }
      * intros a Ha. apply store_ne. env_lia.
    + assert (E : es1 = []) by (destruct es1; [done | simpl in *; unfold p in *; simpl in *; lia]).
      subst es1. unfold p in *. simpl in *. eexists. split; [done |]. split.
      * split_and!; done.
      * intros a Ha. rewrite !store_ne by env_lia. done.
  - assert (Hd0 : d (p + L + 1) <> 0).
    { destruct es2 as [|y es2]; [done |]. simpl in Hs2. destruct Hs2 as (_ & Hcy & _).
      rewrite <- (Z.add_0_r (p + L + 1)). eapply cstr_nonzero; [exact Hcy |]. rewrite entry_length. lia. }
    rewrite (proj2 (Z.eqb_neq _ _) Hd0).
    destruct (shift_loop_spec d p (p + L + 1) (map entry es2)) as (d' & -> & Hd').
    + lia.
    + done.
    + by destruct es2.
    + by replace (p + L + 1 + size_of es2) with (p + (L + 1 + size_of es2)) by lia.
    + env_lia.
    + exists (store d' (p + size_of es2) 0). replace (p + size_of es2 - 1 + 1) with (p + size_of es2) by lia.
      split; [done |]. split.
      * unfold env_holds. rewrite map_app, flen_app, strs_at_app. fold p.
        split_and!; [done | | | apply store_eq | by destruct es1, es2 | lia].
        { apply (strs_at_frame d); [| done]. intros j Hj. rewrite store_ne, Hd' by lia.
          by zcases; simpl; try lia. }
        { rewrite Z.add_0_l. replace p with (p + L + 1 + (- (L + 1))) by lia. apply (strs_at_ext d); [| done].
          intros j Hj. rewrite store_ne, Hd' by lia. zcases; simpl; try lia. f_equal. lia. }
      * intros a Ha. rewrite store_ne, Hd' by env_lia. by zcases; simpl; try env_lia.
Qed.

(** The append point is the end of the strings. *)
Lemma append_point_spec d es : env_holds d es -> append_point d = Some (size_of es).
Proof.
  intros (Hg & Hs & Hz & He & Hsz). unfold append_point.
  pose proof (flen_nonneg (map entry es)).
  set (L := size_of es) in *.
  set (P := fun (m : nat) (e : Z) => 0 <= e <= Z.max 0 (L - 1) /\ Z.of_nat m = Z.max 0 (L - 1) - e).
  set (body := fun env => if truth (d env) || truth (d (env + 1)) then inl (env + 1) else inr env).
  destruct (loop_total body P (fun r => r = Z.max 0 (L - 1))) with (n := Z.to_nat (Z.max 0 (L - 1))) (s := 0) (f := env_fuel)
    as (r & -> & ->).
  - intros m e (He1 & Hm). unfold body, truth. destruct (decide (e = Z.max 0 (L - 1))) as [Ee|Hlt].
    + assert (Hd0 : d e = 0 /\ d (e + 1) = 0).
      { destruct es as [|x es]; [unfold L in *; simpl in *; subst e; simpl; auto |].
        assert (1 <= L) by (unfold L; simpl; pose proof (flen_nonneg (map entry es)); lia).
        replace (e + 1) with L by lia. split; [| done]. replace e with (0 + L - 1) by lia.
        by apply last_nul. }
      destruct Hd0 as [-> ->]. done.
    + destruct (no_double_nul d 0 (map entry es) e Hs) as [Hd|Hd]; [fold L; lia | |];
        rewrite (proj2 (Z.eqb_neq _ _) Hd); simpl; rewrite ?orb_true_r;
        exists (Z.to_nat (Z.max 0 (L - 1) - (e + 1))); (split; [lia | split; lia]).
  - split; lia.
  - env_lia.
  - destruct es as [|x es]; [done |].
    assert (2 <= L) by (unfold L; simpl; rewrite entry_length; pose proof (flen_nonneg (map entry es));
      apply Forall_cons in Hg as [[[Hn _] _] _]; destruct x as [[|c n] v]; simpl in *; [done | lia]).
    destruct (Z.ltb_spec 0 (Z.max 0 (L - 1))); f_equal; lia.
Qed.

(** What follows the name in an entry made of the words [vals]. *)
Fixpoint values_text (first : bool) (vals : list (list Z)) : list Z :=
  match vals with
  | [] => []
  | v :: vals' => (if first then 61 else 32) :: v ++ values_text false vals'
  end.

(** The words joined with blanks. *)
Definition join (vals : list (list Z)) : list Z := tail (values_text true vals).

Lemma store_list_shadow m a l k :
  meq (store_list (store_list m a (l ++ [0])) (a + len l) (k ++ [0])) (store_list m a (l ++ k ++ [0])).
Proof.
  intros x. rewrite !store_list_app. simpl.
  assert (H : forall m1 m2 y (q : list Z), m1 y = m2 y \/ y < a + len l + len q /\ a + len l <= y ->
    store_list m1 (a + len l) q y = store_list m2 (a + len l) q y).
  { intros m1 m2 y q Hy. destruct (decide (a + len l <= y < a + len l + len q)) as [Hin|Hout].
    - destruct (lookup_lt_is_Some_2 q (Z.to_nat (y - (a + len l)))) as [u Hu]; [lia |].
      replace y with (a + len l + Z.of_nat (Z.to_nat (y - (a + len l)))) by lia.
      by rewrite !(store_list_in _ _ _ _ _ Hu).
    - rewrite !store_list_out by lia. destruct Hy; [done | lia]. }
  unfold store at 1 3. destruct (Z.eqb_spec x (a + len l + len k)) as [|Hx]; [done |].
  apply H. destruct (decide (a + len l <= x < a + len l + len k)); [right; lia |]. left.
  apply store_ne. intros ->. destruct k; simpl in *; lia.
Qed.

Lemma append_values_spec vals : forall d env first, d env = 0 ->
  snd (append_values d env first vals) = env + len (values_text first vals) /\
  meq (fst (append_values d env first vals)) (store_list d env (values_text first vals ++ [0])).
Proof.
  induction vals as [|v vals IH]; intros d env first Hz; simpl.
  - split; [lia |]. intros x. unfold store. by destruct (Z.eqb_spec x env) as [->|].
  - set (s := if first then 61 else 32).
    destruct (IH (store_list (store d env s) (env + 1) (v ++ [0])) (env + 1 + len v) false) as [H1 H2].
    { rewrite store_list_app. apply store_eq. }
    split; [rewrite H1, length_app; lia |]. rewrite H2, store_list_shadow. by rewrite <- app_assoc.
Qed.

Lemma values_text_good vals : Forall good_val vals -> vals <> [] ->
  values_text true vals = 61 :: join vals /\ good_val (join vals).
Proof.
  intros Hv Hne. destruct vals as [|v vals]; [done |]. split; [done |]. unfold join. simpl.
  apply Forall_cons in Hv as [Hv0 Hv]. apply Forall_app. split; [done |]. clear Hne Hv0.
  induction vals as [|u vals IH]; simpl; [constructor |]. apply Forall_cons in Hv as [Hu Hv].
  constructor; [done |]. apply Forall_app. auto.
Qed.

Lemma values_text_length vals b : len (values_text b vals) = fold_right (fun v n => len v + 1 + n) 0 vals.
Proof.
  revert b. induction vals as [|v vals IH]; intros b; simpl; [done |].
  rewrite length_app. specialize (IH false). lia.
Qed.

(** Appending a definition, or the overflow. *)
Lemma append_entry_spec d es name vals : env_holds d es -> good_name name -> Forall good_val vals ->
  vals <> [] ->
  match append_entry d (size_of es) name vals with
  | None => ENV_SIZE < size_of (es ++ [(name, join vals)]) + 1
  | Some d' => env_holds d' (es ++ [(name, join vals)]) /\ forall a, ~ (0 <= a < ENV_SIZE) -> d' a = d a
  end.
Proof.
  intros (Hg & Hs & Hz & He & Hsz) Hn Hv Hne.
  destruct (values_text_good vals Hv Hne) as [Ht Hj]. pose proof (values_text_length vals true) as Hl.
  assert (Hlen : size_of (es ++ [(name, join vals)]) = size_of es + len name + len (values_text true vals) + 1).
  { rewrite map_app, flen_app. simpl. rewrite entry_length, Ht. simpl. lia. }
  unfold append_entry. rewrite <- Hl. pose proof (flen_nonneg (map entry es)) as Hpos.
  destruct (_ >? _) eqn:E; rewrite Z.gtb_ltb in E; zb; [lia |].
  set (p := size_of es) in *.
  destruct (append_values_spec vals (store_list d p (name ++ [0])) (p + len name) true) as [H1 H2].
  { rewrite store_list_app. apply store_eq. }
  destruct (append_values _ _ _ _) as [d1 e1]. simpl in H1, H2. subst e1.
  assert (Hd : meq (store d1 (p + len name + len (values_text true vals) + 1) 0)
                   (store_list d p (entry (name, join vals) ++ [0; 0]))).
  { unfold entry. simpl fst. simpl snd. rewrite <- Ht.
    replace [0; 0] with ([0] ++ [0]) by done. rewrite app_assoc, store_list_app.
    rewrite H2, store_list_shadow. rewrite <- app_assoc. intros x. simpl. f_equal.
    rewrite !length_app. simpl. lia. }
  set (d2 := store d1 _ 0) in *.
  assert (Hin : forall x, x < p \/ p + len (entry (name, join vals)) + 2 <= x -> d2 x = d x).
  { intros x Hx. rewrite Hd. apply store_list_out. rewrite length_app. simpl. lia. }
  rewrite entry_length in Hin. simpl in Hin. rewrite Ht in *. simpl in *. split.
  - unfold env_holds. rewrite Hlen, map_app, strs_at_app. simpl.
    split_and!; [apply Forall_app; split; [done | by apply Forall_singleton] | | | | done | | by destruct es | lia].
    + apply (strs_at_frame d); [| done]. intros j Hjj. apply Hin. lia.
    + unfold entry. simpl. by destruct name.
    + fold p. rewrite Z.add_0_l. rewrite (Hd : meq d2 _).
      replace [0; 0] with ([0] ++ [0]) by done. rewrite app_assoc, store_list_app.
      apply (cstr_frame (store_list d p (entry (name, join vals) ++ [0]))).
      * apply cstr_store_list. unfold entry. apply Forall_app. split; [| by constructor].
        destruct Hn as [_ Hn]. eapply Forall_impl; [exact Hn |]. by intros c [? _].
      * intros x Hx. simpl. apply store_ne. rewrite length_app. simpl. lia.
    + unfold d2. rewrite Ht. apply store_eq.
  - intros a Ha. apply Hin. lia.
Qed.

(** ** [setenv] as an update of the list *)

(** The state after [env_relocate]: the environment in use is the RAM copy. *)
Definition relocated (w : env_store) : Prop :=
  env_ptr w = AtRam /\ env_addr w = AtRam /\ env_valid w <> 0.

(** The CRC of the RAM copy matches its data. *)
Definition crc_ok (w : env_store) : Prop := crc (ram_env w) = data_crc (data (ram_env w)).

(** Variables whose change has no effect that can fail. *)
Definition plain (name : list Z) : Prop := console_file name = -1 /\ name <> str "baudrate".

Lemma relocated_mem w : relocated w -> env_get_addr w = AtRam /\ env_mem w = data (ram_env w).
Proof.
  intros (_ & H & Hv). unfold env_mem, env_get_addr, truth. rewrite (proj2 (Z.eqb_neq _ _) Hv), H. done.
Qed.

Lemma relocated_chars w : relocated w -> env_get_char w = data (ram_env w).
Proof.
  intros (_ & H & Hv). unfold env_get_char, truth. rewrite (proj2 (Z.eqb_neq _ _) Hv), H. done.
Qed.

(** A new array in the RAM copy, with and without its CRC. *)
Lemma put_ram w d c : relocated w ->
  let w1 := put_at w AtRam (mk_env_t c d) in
  relocated w1 /\ env_mem w1 = d /\ flash_env w1 = flash_env w /\ crc (ram_env w1) = c.
Proof. intros (H1 & H2 & H3). unfold env_mem, env_get_addr, truth. simpl. rewrite H2. by rewrite (proj2 (Z.eqb_neq _ _) H3). Qed.

Lemma crc_update_ram w : relocated w ->
  let w1 := env_crc_update w in
  relocated w1 /\ env_mem w1 = env_mem w /\ flash_env w1 = flash_env w /\ crc_ok w1.
Proof.
  intros Hr. destruct (relocated_mem w Hr) as [_ ->]. destruct Hr as (H1 & H2 & H3). unfold env_crc_update, crc_ok, env_mem, env_get_addr, truth.
  rewrite H1. simpl. rewrite H2. by rewrite (proj2 (Z.eqb_neq _ _) H3).
Qed.

Section setenv_spec.
Context {console : Type} (console_assign : Z -> list Z -> console -> Z * console).

Lemma setenv_checks_plain name vals (v : env_vars console) : plain name ->
  setenv_checks console console_assign name vals v = Some (inr v).
Proof.
  intros [Hc Hb]. unfold setenv_checks. rewrite Hc. simpl. unfold streq.
  by rewrite bool_decide_eq_false_2.
Qed.

(** The state [setenv] leaves, the array seen as the list [es']. *)
Definition setenv_post (w w' : env_store) (es' : list var) : Prop :=
  relocated w' /\ flash_env w' = flash_env w /\ env_holds (env_mem w') es' /\
  forall a, ~ (0 <= a < ENV_SIZE) -> env_mem w' a = env_mem w a.

Lemma setenv_post_intro w w' d' es' : relocated w' -> flash_env w' = flash_env w ->
  env_mem w' = d' -> env_holds d' es' -> (forall a, ~ (0 <= a < ENV_SIZE) -> d' a = env_mem w a) ->
  setenv_post w w' es'.
Proof. intros H1 H2 <- H4 H5. by split_and!. Qed.

(** Every way through [_do_setenv] for a plain or new variable. *)
Lemma do_setenv_spec name vals w (v : env_vars console) es :
  relocated w -> env_holds (env_mem w) es -> good_name name -> Forall good_val vals ->
  plain name \/ env_lookup name es = None ->
  let es0 := env_remove name es in
  let es1 := es0 ++ [(name, join vals)] in
  exists rc w' v', _do_setenv console console_assign name vals w v = Some (rc, w', v') /\
    if decide (vals = []) then rc = 0 /\ setenv_post w w' es0 /\ crc_ok w'
    else if decide (size_of es1 + 1 <= ENV_SIZE) then rc = 0 /\ setenv_post w w' es1 /\ crc_ok w'
    else rc = 1 /\ setenv_post w w' es0 /\ crc (ram_env w') = crc (ram_env w).
Proof.
  intros Hr Hh Hn Hv Hp es0 es1. unfold _do_setenv.
  replace (existsb (Z.eqb 61) name) with false.
  2: { symmetry. apply not_true_iff_false. rewrite existsb_exists. intros (c & Hin & Hc). zb. subst c.
       destruct Hn as [_ Hn]. rewrite Forall_forall in Hn. apply list_elem_of_In in Hin. by destruct (Hn _ Hin). }
  destruct (relocated_mem w Hr) as [Hga Hmem]. rewrite Hga. simpl env_at.
  set (v1 := mk_vars _ _ _ _ _ _ _ _ _ _).
  pose proof (env_holds_count _ _ Hh) as Hcnt. pose proof Hh as (Hg & Hs & Hz & _ & Hsz).
  destruct (setenv_search_spec (env_mem w) name (good_name_chars _ Hn) es env_fuel 0)
    as (o & env & nxt & -> & Hm); try done; [env_lia |].
  (* the deletion *)
  assert (Hdel : exists d v2,
    (if o >=? 0 then
       match setenv_checks console console_assign name vals v1 with
       | None => None
       | Some (inl (rc, v)) => Some (inl (rc, w, v))
       | Some (inr v) => match delete_entry (env_mem w) env nxt with
                         | None => None | Some d => Some (inr (d, v)) end
       end
     else Some (inr (env_mem w, v1))) = Some (inr (d, v2)) /\
    env_holds d es0 /\ forall a, ~ (0 <= a < ENV_SIZE) -> d a = env_mem w a).
  { unfold es0. destruct (env_lookup name es) as [u|] eqn:El.
    - destruct Hm as (Ho & l1 & l2 & Hes & Hrem & -> & ->). rewrite Z.geb_leb, (proj2 (Z.leb_le _ _)) by lia.
      destruct Hp as [Hp|]; [| done]. rewrite setenv_checks_plain by done.
      rewrite Hes in Hh. destruct (delete_entry_spec _ _ _ _ Hh) as (d' & Hd & Hh' & Hout).
      rewrite Z.add_0_l, Hd, Hrem. eauto 6.
    - subst o. simpl. rewrite env_remove_none by done. eauto 6. }
  destruct Hdel as (d & v2 & -> & Hd & Hout).
  assert (Hput : forall d' l, env_holds d' l -> (forall a, ~ (0 <= a < ENV_SIZE) -> d' a = d a) ->
    setenv_post w (put_at w AtRam (mk_env_t (crc (ram_env w)) d')) l /\
    setenv_post w (env_crc_update (put_at w AtRam (mk_env_t (crc (ram_env w)) d'))) l /\
    crc_ok (env_crc_update (put_at w AtRam (mk_env_t (crc (ram_env w)) d')))).
  { intros d' l Hl Hl'. destruct (put_ram w d' (crc (ram_env w)) Hr) as (P1 & P2 & P3 & _).
    destruct (crc_update_ram _ P1) as (Q1 & Q2 & Q3 & Q4). cbv zeta in *.
    assert (Hall : forall a, ~ (0 <= a < ENV_SIZE) -> d' a = env_mem w a)
      by (intros a Ha; rewrite Hl' by exact Ha; apply Hout; exact Ha).
    split; [| split; [| exact Q4]].
    - exact (setenv_post_intro w _ d' l P1 P3 P2 Hl Hall).
    - refine (setenv_post_intro w _ d' l Q1 _ _ Hl Hall); [by rewrite Q3, P3 | by rewrite Q2, P2]. }
  destruct vals as [|arg vals].
  - eexists _, _, _. split; [reflexivity |]. rewrite decide_True by done.
    destruct (Hput d es0) as (_ & ? & ?); auto.
  - rewrite (append_point_spec d es0 Hd).
    pose proof (append_entry_spec d es0 name (arg :: vals) Hd Hn Hv ltac:(done)) as Ha. fold es1 in Ha.
    destruct (append_entry _ _ _ _) as [d'|];
      (eexists _, _, _; split; [reflexivity |]; rewrite decide_False by done).
    + destruct Ha as [Hh' Hout']. pose proof Hh' as (_ & _ & _ & _ & Hsz'). rewrite decide_True by done.
      destruct (Hput d' es1 Hh' Hout') as (_ & ? & ?). auto.
    + rewrite decide_False by lia. destruct (Hput d es0 Hd) as (? & _); [by intros |]. auto.
Qed.
End setenv_spec.

(** [getenv] on an environment that holds the variables [es]: it
    terminates and returns the place of the value of the first definition of
    the name, or NULL (-1) when there is none. *)
Theorem getenv_refines w name es : env_holds (env_get_char w) es -> good_name name ->
  exists idx, getenv w name = Some idx /\
    match env_lookup name es with
    | Some v => 0 <= idx /\ cstr (env_get_char w) idx v
    | None => idx = -1
    end.
Proof. intros Hh Hn. apply getenv_lookup; [done | by apply good_name_chars]. Qed.

(** C12: [_do_setenv] on the RAM copy, for a new variable or one without side
    conditions.  It terminates and writes nothing outside the array.  Without
    a value the variable is removed and the CRC updated; with one it is
    removed and appended at the end when it fits, the CRC updated; otherwise
    the code 1 is returned, the variable is gone and the CRC is left as it
    was. *)
Theorem setenv_refines {console : Type} (console_assign : Z -> list Z -> console -> Z * console)
    name vals w v es :
  relocated w -> env_holds (env_mem w) es -> good_name name -> Forall good_val vals ->
  plain name \/ env_lookup name es = None ->
  let es0 := env_remove name es in
  let es1 := es0 ++ [(name, join vals)] in
  exists rc w' v', _do_setenv console console_assign name vals w v = Some (rc, w', v') /\
    if decide (vals = []) then rc = 0 /\ setenv_post w w' es0 /\ crc_ok w'
    else if decide (size_of es1 + 1 <= ENV_SIZE) then rc = 0 /\ setenv_post w w' es1 /\ crc_ok w'
    else rc = 1 /\ setenv_post w w' es0 /\ crc (ram_env w') = crc (ram_env w).
Proof. apply do_setenv_spec. Qed.

Lemma env_lookup_app name es fs :
  env_lookup name (es ++ fs) =
  match env_lookup name es with Some v => Some v | None => env_lookup name fs end.
Proof. induction es as [|[n u] es IH]; simpl; [done |]. by destruct (decide (n = name)). Qed.

Lemma env_lookup_None name es : env_lookup name es = None <-> name ∉ es.*1.
Proof.
  induction es as [|[n u] es IH]; simpl; [split; [intros _; apply not_elem_of_nil | done] |].
  rewrite not_elem_of_cons. destruct (decide (n = name)) as [->|]; [naive_solver |]. naive_solver.
Qed.

Lemma env_remove_NoDup name es : NoDup es.*1 ->
  NoDup (env_remove name es).*1 /\ env_lookup name (env_remove name es) = None /\
  forall other, other <> name -> env_lookup other (env_remove name es) = env_lookup other es.
Proof.
  induction es as [|[n u] es IH]; simpl; [intros; split_and!; done |].
  rewrite NoDup_cons. intros [Hn Hd]. destruct (IH Hd) as (H1 & H2 & H3).
  destruct (decide (n = name)) as [->|Hne].
  - split_and!; [done | by apply env_lookup_None |]. intros o Ho. by rewrite decide_False by congruence.
  - simpl. rewrite decide_False by done. split_and!; [| done |].
    + rewrite NoDup_cons. split; [| done]. rewrite <- env_lookup_None, H3, env_lookup_None by done. done.
    + intros o Ho. by rewrite H3.
Qed.

(** What [getenv] gives after a [setenv] that succeeds. *)
Lemma setenv_then_getenv {console : Type} (console_assign : Z -> list Z -> console -> Z * console)
    name val w v es w' v' :
  relocated w -> env_holds (env_mem w) es -> NoDup es.*1 -> good_name name -> good_val val ->
  plain name \/ env_lookup name es = None ->
  setenv console console_assign name (Some val) w v = Some (0, w', v') ->
  exists es', env_holds (env_get_char w') es' /\ NoDup es'.*1 /\
    (exists idx, getenv w' name = Some idx /\ 0 <= idx /\ cstr (env_get_char w') idx val) /\
    forall other, good_name other -> other <> name -> exists idx, getenv w' other = Some idx /\
      match env_lookup other es with
      | Some u => 0 <= idx /\ cstr (env_get_char w') idx u
      | None => idx = -1
      end.
Proof.
  intros Hr Hh Hnd Hn Hv Hp E. unfold setenv in E.
  destruct (do_setenv_spec console_assign name [val] w v es) as (rc & w1 & v1 & E' & H); try done;
    [by apply Forall_singleton |].
  rewrite E in E'. injection E' as <- <- <-. rewrite decide_False in H by done.
  destruct (env_remove_NoDup name es Hnd) as (H1 & H2 & H3).
  assert (Ej : join [val] = val) by (unfold join; simpl; by rewrite app_nil_r). rewrite Ej in H.
  destruct (decide _); [destruct H as (_ & (Hr' & _ & Hh' & _) & _) | by destruct H].
  exists (env_remove name es ++ [(name, val)]).
  destruct (relocated_mem w' Hr') as [_ Hm]. rewrite Hm, <- (relocated_chars w' Hr') in Hh'.
  split_and!; [done | | |].
  - rewrite fmap_app. apply NoDup_app. split_and!; [done | | apply NoDup_singleton].
    intros x Hx [= Hx']%list_elem_of_singleton. subst x. by apply env_lookup_None in H2.
  - destruct (getenv_lookup w' name _ Hh' (good_name_chars _ Hn)) as (idx & E1 & H4).
    rewrite env_lookup_app, H2 in H4. simpl in H4. rewrite decide_True in H4 by done. eauto.
  - intros other Ho Hne. destruct (getenv_lookup w' other _ Hh' (good_name_chars _ Ho)) as (idx & E1 & H4).
    exists idx. split; [done |]. rewrite env_lookup_app, H3 in H4 by done. simpl in H4.
    rewrite decide_False in H4 by congruence. by destruct (env_lookup other es).
Qed.

(** C2: round trip.  With no name defined twice, a [setenv] that returns 0
    makes [getenv] of that name give the value, leaves what [getenv] gives
    for every other name, and again leaves no name defined twice. *)
Theorem setenv_getenv {console : Type} (console_assign : Z -> list Z -> console -> Z * console)
    name val w v es w' v' :
  relocated w -> env_holds (env_mem w) es -> NoDup es.*1 -> good_name name -> good_val val ->
  plain name \/ env_lookup name es = None ->
  setenv console console_assign name (Some val) w v = Some (0, w', v') ->
  exists es', env_holds (env_get_char w') es' /\ NoDup es'.*1 /\
    (exists idx, getenv w' name = Some idx /\ 0 <= idx /\ cstr (env_get_char w') idx val) /\
    forall other, good_name other -> other <> name -> exists idx, getenv w' other = Some idx /\
      match env_lookup other es with
      | Some u => 0 <= idx /\ cstr (env_get_char w') idx u
      | None => idx = -1
      end.
Proof. apply setenv_then_getenv. Qed.

(** ** The environment as a list of variables *)

(** The relocated environment holds exactly the variables [es]. *)
Definition env_is (w : env_store) (es : list var) : Prop := relocated w /\ env_holds (env_mem w) es /\ NoDup es.*1.

Definition env_update (name val : list Z) (es : list var) : list var := env_remove name es ++ [(name, val)].

Lemma env_remove_size name es : size_of (env_remove name es) <= size_of es.
Proof.
  induction es as [|[n v] es IH]; simpl; [lia |]. destruct (decide (n = name)); simpl; lia.
Qed.

Lemma env_update_lookup name val es n : NoDup es.*1 ->
  env_lookup n (env_update name val es) = if decide (n = name) then Some val else env_lookup n es.
Proof.
  intros Hnd. destruct (env_remove_NoDup name es Hnd) as (_ & H2 & H3). unfold env_update. rewrite env_lookup_app.
  destruct (decide (n = name)) as [->|Hne]; [rewrite H2; simpl; by rewrite decide_True |].
  rewrite H3 by done. simpl. rewrite decide_False by congruence. by destruct (env_lookup n es).
Qed.

Lemma env_update_size name val es : size_of (env_update name val es) <= size_of es + len name + len val + 2.
Proof.
  pose proof (env_remove_size name es). unfold env_update. rewrite map_app, flen_app. cbn [map flen]. rewrite entry_length. cbn [fst snd]. lia.
Qed.

(** [getenv] is lookup. *)
Lemma getenv_str_lookup w es name : env_is w es -> good_name name -> getenv_str w name = Some (env_lookup name es).
Proof.
  intros (Hr & Hh & _) Hn. destruct (relocated_mem w Hr) as [_ Hm]. rewrite Hm, <- (relocated_chars w Hr) in Hh.
  destruct (getenv_lookup w name es Hh (good_name_chars _ Hn)) as (idx & E & H). unfold getenv_str. rewrite E.
  destruct (env_lookup name es) as [u|] eqn:El; [| by rewrite H].
  destruct H as [Hi Hc]. rewrite (proj2 (Z.ltb_ge _ _)) by done. do 2 f_equal.
  assert (Hsz : len u < ENV_SIZE).
  { clear -Hh El. destruct Hh as (_ & _ & _ & _ & Hsz). revert Hsz. induction es as [|[n x] es IH]; [done |]. simpl in El. cbn [map flen].
    rewrite entry_length. cbn [fst snd]. pose proof (flen_nonneg (map entry es)). destruct (decide (n = name)); [injection El as ->; lia |].
    intros. apply IH; [done | lia]. }
  destruct Hc as (Hl & Hz & Hf). replace (Z.to_nat ENV_SIZE) with (length u + S (Z.to_nat ENV_SIZE - length u - 1))%nat by lia.
  rewrite load_app, Hl. cbn [load]. rewrite Hz. generalize (load (env_get_char w) (idx + len u + 1) (Z.to_nat ENV_SIZE - length u - 1)) as tl. clear -Hf.
  intros tl. induction Hf as [|c l Hc Hf IH]; [done |].
  cbn [app take_while]. rewrite (proj2 (Z.eqb_neq _ _) Hc). cbn [negb]. by rewrite IH.
Qed.

(** The variables kept in step, after [env_id] has been counted. *)
Definition counted {console} (v : env_vars console) : env_vars console :=
  mk_vars console (s32 (env_id console v + 1)) (bi_enetaddr console v) (bi_ip_addr console v) (load_addr console v)
    (BootFile console v) (baudrate console v) (brg console v) (input console v) (cons console v).

Lemma do_setenv_vars {console} (console_assign : Z -> list Z -> console -> Z * console) name val w v w' v' :
  plain name -> _do_setenv console console_assign name [val] w v = Some (0, w', v') -> v' = setenv_updates console name val (counted v).
Proof.
  intros [Hc Hb]. unfold _do_setenv. destruct (existsb _ _); [done |]. destruct (setenv_search _ _ _ _) as [[[o e] n]|]; [| done].
  assert (Hk : forall x, setenv_checks console console_assign name [val] x = Some (inr x)).
  { intros x. unfold setenv_checks. rewrite Hc. cbn [Z.eqb Pos.eqb]. unfold streq. by rewrite bool_decide_eq_false_2. }
  rewrite Hk. fold (counted v). destruct (o >=? 0); [destruct (delete_entry _ _ _); [| done] |].
  all: destruct (append_point _); [| done]; destruct (append_entry _ _ _ _); intros [=]; done.
Qed.

(** [setenv] is update, for a variable without side conditions that fits. *)
Lemma setenv_update {console} (console_assign : Z -> list Z -> console -> Z * console) name val w v es :
  env_is w es -> good_name name -> good_val val -> plain name -> size_of es + len name + len val + 3 <= ENV_SIZE ->
  exists w', setenv console console_assign name (Some val) w v = Some (0, w', setenv_updates console name val (counted v)) /\
    env_is w' (env_update name val es).
Proof.
  intros (Hr & Hh & Hnd) Hn Hv Hp Hroom. unfold setenv.
  destruct (do_setenv_spec console_assign name [val] w v es) as (rc & w' & v' & E & H); try done; [by apply Forall_singleton | by left |].
  rewrite decide_False in H by done. assert (Ej : join [val] = val) by (unfold join; simpl; by rewrite app_nil_r). rewrite Ej in H.
  pose proof (env_update_size name val es) as Hsz. unfold env_update in Hsz. rewrite decide_True in H by lia. destruct H as (-> & (Hr' & _ & Hh' & _) & _).
  exists w'. pose proof (do_setenv_vars _ _ _ _ _ _ _ Hp E) as ->. split; [exact E |]. split_and!; [done | done |].
  destruct (env_remove_NoDup name es Hnd) as (H1 & H2 & _). unfold env_update. rewrite fmap_app. apply NoDup_app. split_and!; [done | | apply NoDup_singleton].
  intros x Hx [= Hx']%list_elem_of_singleton. subst x. by apply env_lookup_None in H2.
Qed.

(** ** Start-up *)

Lemma strs_at_of_load d i es : Forall (fun e => e <> [] /\ good_val e) es ->
  load d i (length (concat (map entry_line es))) = concat (map entry_line es) -> strs_at d i es.
Proof.
  revert i. induction es as [|e es IH]; intros i Hg Hl; simpl; [done |].
  apply Forall_cons in Hg as [[Hne He] Hg]. simpl in Hl. unfold entry_line in Hl at 1 3.
  rewrite !length_app, !load_app in Hl. simpl in Hl. rewrite <- !app_assoc in Hl.
  apply app_inj_1 in Hl as [H1 H2]; [| by rewrite load_length].
  simpl in H2. injection H2 as H2 H3. split_and!; [done | by split_and! |].
  apply IH; [done |]. rewrite <- H3. f_equal; [| by rewrite H3]. lia.
Qed.

Definition default_vars : list var :=
  [(str "bootdelay", str "3"); (str "baudrate", str "115200");
   (str "ethaddr", str "08:00:3e:26:0a:5b"); (str "ipaddr", str "192.168.2.190");
   (str "serverip", str "192.168.2.100"); (str "gatewayip", str "192.168.2.100");
   (str "netmask", str "255.255.255.0")].

Lemma load_app_l d i n k l1 l2 : length l1 = n -> length l2 = k ->
  load d i (n + k) = l1 ++ l2 -> load d i n = l1 /\ load d (i + Z.of_nat n) k = l2.
Proof.
  intros H1 H2 H. rewrite load_app in H. apply app_inj_1 in H; [done |]. by rewrite load_length.
Qed.

Lemma defaults_hold d : load d 0 (length board_defaults) = board_defaults -> env_holds d default_vars.
Proof.
  intros Hl. change (length board_defaults) with (length (concat (map entry_line (map entry default_vars))) + 2)%nat in Hl.
  change board_defaults with (concat (map entry_line (map entry default_vars)) ++ [0; 0]) in Hl.
  apply load_app_l in Hl as [H1 H2]; [| done | done].
  split_and!; [| | | done | by vm_compute].
  - repeat (apply Forall_cons; split; [split; [split; [done |] |]; vm_compute; repeat constructor; done |]).
    by apply Forall_nil.
  - apply strs_at_of_load; [| done].
    repeat (apply Forall_cons; split; [split; [done |]; vm_compute; repeat constructor; done |]).
    by apply Forall_nil.
  - simpl in H2. by injection H2.
Qed.

(** Power-on: [env_ptr] points to the flash sector and the default array is
    as compiled. *)
Definition power_on (w : env_store) : Prop :=
  env_ptr w = AtFlash /\ load (default_environment w) 0 (length board_defaults) = board_defaults.

Lemma set_default_env_spec w : env_ptr w = AtRam ->
  load (default_environment w) 0 (length board_defaults) = board_defaults ->
  let w' := set_default_env w in
  env_ptr w' = AtRam /\ env_valid w' = 1 /\ env_holds (data (ram_env w')) default_vars /\ crc_ok w'.
Proof.
  intros Hp Hd. unfold set_default_env. change (ENV_SIZE <? default_size) with false. cbv iota.
  unfold default_size. rewrite Nat2Z.id, Hd, Hp.
  set (d := store_list _ _ _).
  assert (Hh : env_holds d default_vars) by (apply defaults_hold, load_store_list).
  clearbody d. unfold env_crc_update, crc_ok. cbn. rewrite Hp. cbn. split_and!; [done | done | exact Hh | done].
Qed.

#[local] Opaque set_default_env.

Lemma env_boot_core w : power_on w ->
  let w' := env_relocate (env_init w) in
  relocated w' /\
  if decide (data_crc (data (flash_env w)) = crc (flash_env w))
  then ram_env w' = flash_env w
  else env_holds (env_get_char w') default_vars /\ crc_ok w'.
Proof.
  intros [Hp Hd]. unfold env_init. rewrite Hp. simpl env_at.
  destruct (Z.eqb_spec (data_crc (data (flash_env w))) (crc (flash_env w))) as [E|E].
  - rewrite decide_True by done. unfold env_relocate. simpl. split; [| done]. split_and!; done.
  - rewrite decide_False by done. unfold env_relocate. cbn.
    set (w0 := mk_store (flash_env w) (ram_env w) (default_environment w) AtRam AtDefault 0).
    destruct (set_default_env_spec w0 eq_refl Hd) as (H1 & H2 & H3 & H4).
    split; [split_and!; cbn; rewrite ?H1, ?H2; done |]. split; [| exact H4].
    unfold env_get_char. cbn. by rewrite H1, H2.
Qed.

(** C13: start-up.  After [env_init] and [env_relocate] the environment in use
    is the RAM copy; when the flash sector's CRC is right the copy equals the
    sector, and otherwise it holds the default variables with a right CRC. *)
Theorem env_boot w : power_on w ->
  let w' := env_relocate (env_init w) in
  relocated w' /\
  if decide (data_crc (data (flash_env w)) = crc (flash_env w))
  then ram_env w' = flash_env w
  else env_holds (env_get_char w') default_vars /\ crc_ok w'.
Proof. apply env_boot_core. Qed.

(** ** Witnesses *)

Definition demo_array : mem := fun i => nthZ board_defaults i.

Lemma demo_array_holds : env_holds demo_array default_vars.
Proof. apply defaults_hold. by vm_compute. Qed.

Definition demo_store : env_store :=
  mk_store (mk_env_t 0 (fun _ => 255)) (mk_env_t 0 demo_array) demo_array AtRam AtRam 1.

Definition demo_vars : env_vars unit := mk_vars unit 1 [] 0 0 [] 115200 [] [] tt.

Lemma str_good s : forallb (fun c => negb (c =? 0) && negb (c =? 61)) (str s) = true -> str s <> [] ->
  good_name (str s).
Proof.
  intros H Hne. split; [done |]. apply Forall_forall. intros c Hc. rewrite forallb_forall in H.
  apply list_elem_of_In in Hc. specialize (H c Hc). zb. done.
Qed.

Lemma getenv_refines_witness :
  exists idx, getenv demo_store (str "serverip") = Some idx /\
    cstr demo_array idx (str "192.168.2.100").
Proof.
  destruct (getenv_refines demo_store (str "serverip") default_vars) as (idx & E & H).
  - apply demo_array_holds.
  - by apply str_good.
  - exists idx. split; [done |]. apply H.
Defined.

Lemma setenv_refines_witness :
  exists rc w' v', _do_setenv unit (fun _ _ c => (0, c)) (str "bootargs") [str "root=/dev/ram"; str "rw"]
    demo_store demo_vars = Some (rc, w', v') /\ rc = 0 /\
    env_holds (env_mem w') (default_vars ++ [(str "bootargs", str "root=/dev/ram rw")]).
Proof.
  destruct (setenv_refines (fun _ _ c => (0, c)) (str "bootargs") [str "root=/dev/ram"; str "rw"]
    demo_store demo_vars default_vars) as (rc & w' & v' & E & H).
  - by split_and!.
  - apply demo_array_holds.
  - by apply str_good.
  - repeat (apply Forall_cons; split; [vm_compute; repeat constructor; done |]). by apply Forall_nil.
  - by right.
  - exists rc, w', v'. split; [exact E |]. rewrite decide_False in H by done.
    rewrite decide_True in H by (vm_compute; discriminate). destruct H as (-> & (_ & _ & H & _) & _). auto.
Defined.

Lemma setenv_getenv_witness :
  exists w' v' idx, setenv unit (fun _ _ c => (0, c)) (str "bootfile") (Some (str "vmlinux")) demo_store demo_vars =
    Some (0, w', v') /\ getenv w' (str "bootfile") = Some idx /\ cstr (env_get_char w') idx (str "vmlinux").
Proof.
  assert (Hr : relocated demo_store) by (by split_and!).
  assert (Hv : good_val (str "vmlinux")) by (vm_compute; repeat constructor; done).
  destruct (do_setenv_spec (fun _ _ c => (0, c)) (str "bootfile") [str "vmlinux"] demo_store demo_vars default_vars)
    as (rc & w' & v' & E & H); [done | apply demo_array_holds | by apply str_good | by apply Forall_singleton | by right |].
  rewrite decide_False in H by done.
  rewrite decide_True in H by (vm_compute; discriminate). destruct H as (-> & _).
  assert (Hnd : NoDup default_vars.*1) by (apply (bool_decide_unpack _); by vm_compute).
  destruct (setenv_getenv (fun _ _ c => (0, c)) (str "bootfile") (str "vmlinux") demo_store demo_vars default_vars w' v')
    as (es' & _ & _ & (idx & E1 & _ & E2) & _);
    [exact Hr | apply demo_array_holds | exact Hnd | by apply str_good | exact Hv | by right | exact E |].
  exists w', v', idx. split; [exact E | auto].
Defined.

Lemma env_boot_witness :
  power_on (mk_store (mk_env_t 0 (fun _ => 255)) (mk_env_t 0 (fun _ => 0)) demo_array AtFlash AtDefault 0) /\
  relocated (env_relocate (env_init
    (mk_store (mk_env_t 0 (fun _ => 255)) (mk_env_t 0 (fun _ => 0)) demo_array AtFlash AtDefault 0))).
Proof.
  assert (H : power_on (mk_store (mk_env_t 0 (fun _ => 255)) (mk_env_t 0 (fun _ => 0)) demo_array AtFlash AtDefault 0))
    by (split; [done | by vm_compute]).
  split; [exact H |]. destruct (env_boot _ H) as [H1 _]. exact H1.
Defined.

(** ** What the code does at the edges *)

(** [getenv_r] with a buffer that the value and its NUL fill exactly writes
    one byte more, and with a shorter one leaves the string unterminated. *)
Lemma getenv_r_edges :
  (exists out, getenv_r demo_store (str "bootdelay") (fun _ => 170) 2 = Some (out, 2) /\
     load out 0 3 = [51; 0; 0]) /\
  (exists out, getenv_r demo_store (str "baudrate") (fun _ => 170) 3 = Some (out, 4) /\
     load out 0 4 = [49; 49; 53; 170]).
Proof. split; eexists; (split; [vm_compute; reflexivity | vm_compute; reflexivity]). Qed.
