(* ===== verification/EnvFlash.v ===== *)
(** * Saving the environment: common/env_flash.c

    [saveenv] unprotects, erases and programs the flash sector at
    CONFIG_ENV_ADDR with the RAM copy, and protects it again.  It is written
    against the flash layer ([Flash]); the theorem joins it with the start-up
    code ([Env]): what is saved is what the next boot reads. *)

From S2P Require Import Prelude Memory Crc Env Flash.

Local Open Scope Z_scope.

Definition U_BOOT_BIN_MAX_SIZE : Z := 64 * 1024 * 4.
Definition CONFIG_ENV_ADDR : Z := CONFIG_SYS_FLASH_BASE + U_BOOT_BIN_MAX_SIZE.

(** The bytes of an [env_t] in memory: the CRC, big-endian, then the data. *)
Definition image (e : env_t) : mem :=
  fun i => if i <? 4 then nthZ (be_bytes 4 (crc e)) i else data e (i - 4).

(** The [env_t] that the flash array holds at CONFIG_ENV_ADDR. *)
Definition flash_view (A : mem) : env_t :=
  mk_env_t (be_val (load A CONFIG_ENV_ADDR 4)) (fun i => A (CONFIG_ENV_ADDR + 4 + i)).

Section save.
Context `{nor_ops W}.

(** CONFIG_ENV_SECT_SIZE is CONFIG_ENV_SIZE here, so the buffer written is
    the RAM copy [e] itself. *)
Definition saveenv (fuel : nat) (info : flash_info_t) (e : env_t) (w : W)
    : option (Z * flash_info_t * W) :=
  let flash_sect_addr := CONFIG_ENV_ADDR in
  let len_ := CONFIG_ENV_SIZE in
  let end_addr := flash_sect_addr + len_ - 1 in
  let '(info, rc) := flash_sect_protect info 0 flash_sect_addr end_addr in
  if truth rc then Some (1, info, w)
  else
    match flash_sect_erase fuel info flash_sect_addr end_addr w with
    | None => None
    | Some (rc, w) =>
        if truth rc then Some (1, info, w)
        else
          match flash_write fuel info (image e) 0 flash_sect_addr len_ w with
          | None => None
          | Some (rc, w) =>
              let rcode := if truth rc then 1 else 0 in
              let '(info, _) := flash_sect_protect info 1 flash_sect_addr end_addr in
              Some (rcode, info, w)
          end
    end.

(** [do_saveenv]: the command's return code. *)
Definition do_saveenv (fuel : nat) (info : flash_info_t) (e : env_t) (w : W)
    : option (Z * flash_info_t * W) :=
  match saveenv fuel info e w with
  | None => None
  | Some (rc, info, w) => Some (if truth rc then 1 else 0, info, w)
  end.
End save.

(** ** The sector of the environment *)

Lemma env_sector : CONFIG_ENV_ADDR = sector_start 11 /\
  CONFIG_ENV_ADDR + CONFIG_ENV_SIZE - 1 = sector_start 11 + sector_size 11 - 1.
Proof. done. Qed.

(** The bytes of the RAM copy. *)
Definition env_bytes (e : env_t) : Prop :=
  word32 (crc e) /\ forall i, 0 <= i < ENV_SIZE -> byte (data e i).

Lemma image_byte e i : env_bytes e -> 0 <= i < CONFIG_ENV_SIZE -> byte (image e i).
Proof.
  intros [_ Hd] Hi. unfold image. destruct (Z.ltb_spec i 4).
  - pose proof (be_bytes_bytes 4 (crc e)) as Hb. unfold nthZ.
    rewrite nth_lookup. destruct (lookup_lt_is_Some_2 (be_bytes 4 (crc e)) (Z.to_nat i)) as [v Hv].
    { rewrite be_bytes_length. lia. }
    rewrite Hv. simpl. by apply (Forall_lookup_1 _ _ _ _ Hb Hv).
  - apply Hd. unfold ENV_SIZE, CONFIG_ENV_SIZE, ENV_HEADER_SIZE in *. lia.
Qed.

Lemma image_crc e : load (image e) 0 4 = be_bytes 4 (crc e).
Proof. done. Qed.

(** Reading the saved sector back gives the copy. *)
Lemma view_of_written A e : word32 (crc e) ->
  (forall i, 0 <= i < CONFIG_ENV_SIZE -> A (CONFIG_ENV_ADDR + i) = image e i) ->
  crc (flash_view A) = crc e /\ forall i, 0 <= i < ENV_SIZE -> data (flash_view A) i = data e i.
Proof.
  intros Hc HA. split.
  - unfold flash_view. cbn [crc].
    rewrite (load_ext A (image e) CONFIG_ENV_ADDR 0).
    + rewrite image_crc, be_val_bytes. apply (wrap_small 32). apply Hc.
    + intros i Hi. rewrite Z.add_0_l. apply HA. unfold CONFIG_ENV_SIZE. lia.
  - intros i Hi. unfold flash_view. cbn [data]. replace (CONFIG_ENV_ADDR + 4 + i) with (CONFIG_ENV_ADDR + (i + 4)) by lia.
    unfold ENV_SIZE, ENV_HEADER_SIZE in Hi. rewrite HA by lia. unfold image.
    rewrite (proj2 (Z.ltb_ge _ _)) by lia. f_equal. lia.
Qed.

Lemma env_holds_ext d d' es : (forall i, 0 <= i < ENV_SIZE -> d' i = d i) -> env_holds d es -> env_holds d' es.
Proof.
  intros Hd (Hg & Hs & Hz & He & Hsz). pose proof (flen_nonneg (map entry es)).
  split_and!; [done | | | | done].
  - apply (strs_at_frame d); [| done]. intros j Hj. apply Hd. lia.
  - rewrite Hd by lia. done.
  - intros E. rewrite Hd by (unfold ENV_SIZE, CONFIG_ENV_SIZE, ENV_HEADER_SIZE; lia). auto.
Qed.

Lemma data_crc_ext d d' : (forall i, 0 <= i < ENV_SIZE -> d' i = d i) -> data_crc d' = data_crc d.
Proof.
  intros Hd. unfold data_crc. rewrite (load_ext d' d 0 0); [reflexivity |].
  intros i Hi. rewrite Z.add_0_l. apply Hd. rewrite Z2Nat.id in Hi; [exact Hi | done].
Qed.

Lemma written_at A m dst src n i : 0 <= i < Z.of_nat n -> written A m dst src n (dst + i) = m (src + i).
Proof.
  intros Hi. unfold written. replace i with (Z.of_nat (Z.to_nat i)) at 1 by lia.
  apply store_list_in. rewrite load_lookup by lia. do 2 f_equal. lia.
Qed.

Lemma written_out A m dst src n x : ~ (dst <= x < dst + Z.of_nat n) -> written A m dst src n x = A x.
Proof. intros Hx. apply store_list_out. rewrite load_length. lia. Qed.

Section save_proofs.
Context `{Hspec : nor_spec W}.

(** An erased word takes any value. *)
Lemma erased_programmable A a b : A a = 255 -> A (a + 1) = 255 -> 0 <= b < 2 ^ 16 -> programmable A a b.
Proof.
  intros H1 H2 Hb. unfold programmable. rewrite H1, H2. change (255 * 256 + 255) with (Z.ones 16).
  rewrite Z.land_comm, Z.land_ones by lia. by apply Z.mod_small.
Qed.

Lemma saveenv_spec fuel p e w : idle w -> (max_polls < fuel)%nat -> length p = 135%nat -> env_bytes e ->
  exists rc p' w', saveenv fuel (bank p) e w = Some (rc, bank p', w') /\ (rc = 0 \/ rc = 1) /\
    (rc = 0 -> idle w' /\ nthZ p' 11 = 1 /\
      (forall i, 0 <= i < CONFIG_ENV_SIZE -> array w' (CONFIG_ENV_ADDR + i) = image e i) /\
      forall x, ~ (CONFIG_ENV_ADDR <= x < CONFIG_ENV_ADDR + CONFIG_ENV_SIZE) -> array w' x = array w x).
Proof.
  intros Hi Hf Hp He. destruct env_sector as [E1 E2]. unfold saveenv. rewrite E2, E1.
  destruct (flash_sect_protect_spec p 0 11 11) as (p1 & -> & Hl1 & Hp1); [lia | lia |].
  simpl truth. cbv iota.
  destruct (sect_erase_core fuel p1 11 11 w Hi Hf ltac:(lia) ltac:(lia)) as (rc1 & w1 & -> & H1).
  destruct H1 as [(-> & Hi1 & Ha1)| ->]; [| by exists 1, p1, w1; split_and!; [| right | ]].
  simpl truth. cbv iota. assert (Hu : nthZ p1 11 = 0) by (rewrite Hp1 by lia; done).
  change (Z.to_nat (11 - 11 + 1)) with 1%nat in Ha1.
  assert (Hall : forall x, array w1 x = if in_sector 11 x then 255 else array w x).
  { intros x. rewrite Ha1. unfold to_erase. change (seqZ 11 (Z.of_nat 1)) with [11].
    cbn [existsb]. rewrite Hu, orb_false_r. done. }
  destruct (flash_write_core fuel p1 (image e) 0 (sector_start 11) CONFIG_ENV_SIZE w1 Hi1 Hf)
    as (rc2 & w2 & -> & H2); [done | by exists 32768 | by exists 0x78020000 | done | done | |].
  { intros i Hir. rewrite Z.add_0_l. by apply image_byte. }
  destruct (flash_sect_protect_spec p1 1 11 11) as (p2 & -> & Hl2 & Hp2); [lia | lia |].
  exists (if truth rc2 then 1 else 0), p2, w2. split; [done |].
  unfold write_outcome in H2. rewrite decide_True in H2 by (split; done).
  destruct (protected_hit _ _ _ _ _) eqn:Eh.
  { exfalso. apply protected_hit_spec in Eh as (s & Hs & Hns & Hs1 & Hs2); [| done | done].
    destruct (decide (s = 11)) as [->|]; [done |].
    assert (s < 11 \/ 11 < s) as [L|L] by lia.
    - pose proof (sector_mono s 11). lia.
    - pose proof (sector_mono 11 s). change CONFIG_ENV_SIZE with (sector_size 11) in *. lia. }
  destruct H2 as [(-> & Hi2 & Ha2)|[-> |(-> & _ & j & Hj & _ & Hnp)]].
  - split; [by left |]. intros _. split_and!; [done | rewrite Hp2 by lia; done | |].
    + intros i Hir. rewrite Ha2. apply written_at. rewrite Z2Nat.id; [exact Hir | done].
    + intros x Hx. rewrite Ha2, written_out, Hall.
      * unfold in_sector. change (sector_size 11) with CONFIG_ENV_SIZE. zcases; simpl; (done || lia).
      * rewrite Z2Nat.id; [exact Hx | done].
  - split; [by right | done].
  - exfalso. apply Hnp. assert (Hsec : forall i, 0 <= i < CONFIG_ENV_SIZE -> array w1 (sector_start 11 + i) = 255).
    { intros i Hir. rewrite Hall. unfold in_sector. change (sector_size 11) with CONFIG_ENV_SIZE.
      zcases; simpl; (done || lia). }
    apply erased_programmable.
    + apply Hsec. lia.
    + rewrite <- Z.add_assoc. apply Hsec. unfold CONFIG_ENV_SIZE in *. lia.
    + destruct (src_word_range (image e) (0 + 2 * j)) as [? _]; [| | done]; apply image_byte; try done;
        unfold CONFIG_ENV_SIZE in *; lia.
Qed.

End save_proofs.

(** ** Witness: the default variables saved to a blank chip *)

Definition demo_env : env_t := mk_env_t (data_crc demo_array) demo_array.
Definition demo_saved : env_store := mk_store demo_env demo_env demo_array AtRam AtRam 1.

Lemma demo_array_byte i : byte (demo_array i).
Proof.
  unfold demo_array, nthZ. rewrite nth_lookup. destruct (board_defaults !! Z.to_nat i) as [v|] eqn:E; [| done].
  assert (H : Forall byte board_defaults) by bytes_eval. by apply (Forall_lookup_1 _ _ _ _ H E).
Qed.

Lemma demo_env_bytes : env_bytes demo_env.
Proof.
  split; [| intros i _; apply demo_array_byte].
  unfold demo_env. cbn [crc]. unfold data_crc. apply crc32_range.
  - apply load_byte_mem; intro; apply demo_array_byte.
  - rewrite load_length, Z2Nat.id; done.
Qed.

