(* ===== verification/SRecord.v ===== *)
(** * Motorola S-records: common/s_record.c, include/s_record.h

    The decoder behind the [loads] command.  A line is the list of its
    characters; reading beyond its end gives the NUL.  The theorems: the
    decoder inverts a reference encoder for every record type, whatever
    precedes and follows the record, and it never stores more bytes than the
    caller's buffer holds. *)

From S2P Require Import Prelude Ctype Vsprintf.

Local Open Scope Z_scope.

Definition SREC_START : Z := 0.
Definition SREC_DATA2 : Z := 1.
Definition SREC_DATA3 : Z := 2.
Definition SREC_DATA4 : Z := 3.
Definition SREC_COUNT : Z := 5.
Definition SREC_END4 : Z := 7.
Definition SREC_END3 : Z := 8.
Definition SREC_END2 : Z := 9.
Definition SREC_EMPTY : Z := 10.
Definition SREC_E_BADTYPE : Z := -1.
Definition SREC_E_NOSREC : Z := -2.
Definition SREC_E_BADCHKS : Z := -3.
Definition SREC_MAXBINLEN : Z := 255.

Definition hex1_bin (c : Z) : Z :=
  if (48 <=? c) && (c <=? 57) then c - 48
  else if (97 <=? c) && (c <=? 102) then c + 10 - 97
  else if (65 <=? c) && (c <=? 70) then c + 10 - 65
  else -1.

Definition hex2_bin (s : list Z) : Z :=
  let i := hex1_bin (chr s) in
  if i <? 0 then -1
  else
    let j := hex1_bin (chr (tail s)) in
    if j <? 0 then -1 else Z.shiftl i 4 + j.

(** What the decoder leaves in its arguments, and its result. *)
Record srec := mk_srec { rc : Z; count : Z; addr : Z; data : list Z }.

(** The record type and what [*count] becomes. *)
Definition srec_type (v count : Z) : option (Z * Z) :=
  if v =? 48 then Some (SREC_START, count - 3)
  else if v =? 49 then Some (SREC_DATA2, count - 3)
  else if v =? 50 then Some (SREC_DATA3, count - 4)
  else if v =? 51 then Some (SREC_DATA4, count - 5)
  else if v =? 53 then Some (SREC_COUNT, 0)
  else if v =? 55 then Some (SREC_END4, count - 5)
  else if v =? 56 then Some (SREC_END3, count - 4)
  else if v =? 57 then Some (SREC_END2, count - 3)
  else None.

(** The width of the address field that the second [switch] falls through. *)
Definition addr_bytes (v : Z) : nat :=
  if (v =? 51) || (v =? 55) then 4 else if (v =? 50) || (v =? 56) then 3 else 2.

(** Read [n] bytes of the address field: [Err] for a bad digit. *)
Fixpoint read_addr (n : nat) (input : list Z) (addr chksum : Z) : result Z (list Z * Z * Z) :=
  match n with
  | O => Ok (input, addr, chksum)
  | S n' =>
      let v := hex2_bin input in
      if v <? 0 then Err addr
      else read_addr n' (drop 2 input) (u32 (u32 (Z.shiftl addr 8) + v)) (u8 (chksum + v))
  end.

(** The data bytes: [Err] with those stored before a bad digit. *)
Fixpoint read_data (n : nat) (input data : list Z) (chksum : Z)
    : result (list Z) (list Z * list Z * Z) :=
  match n with
  | O => Ok (input, data, chksum)
  | S n' =>
      let v := hex2_bin input in
      if v <? 0 then Err data
      else read_data n' (drop 2 input) (data ++ [v]) (u8 (chksum + v))
  end.

(** [count0], [addr0]: what the caller's variables held. *)
Definition srec_decode (input : list Z) (count0 addr0 : Z) : srec :=
  (* skip anything before 'S', and the 'S' itself *)
  let input := tail (drop_while (fun c => negb (c =? 83)) input) in
  if chr input =? 0 then mk_srec SREC_EMPTY count0 addr0 []
  else
    let v := chr input in
    let input := tail input in
    let count := hex2_bin input in
    if count <? 0 then mk_srec SREC_E_NOSREC count addr0 []
    else
      let chksum := u8 count in
      let input := drop 2 input in
      match srec_type v count with
      | None => mk_srec SREC_E_BADTYPE count addr0 []
      | Some (t, count) =>
          match read_addr (addr_bytes v) input 0 chksum with
          | Err a => mk_srec SREC_E_NOSREC count a []
          | Ok (input, addr, chksum) =>
              match read_data (Z.to_nat count) input [] chksum with
              | Err data => mk_srec SREC_E_NOSREC count addr data
              | Ok (input, data, chksum) =>
                  let v := hex2_bin input in
                  if v <? 0 then mk_srec SREC_E_NOSREC count addr data
                  else if negb (u8 v =? u8 (Z.lnot chksum)) then mk_srec SREC_E_BADCHKS count addr data
                  else mk_srec t count addr data
              end
          end
      end.

(** ** The reference encoder *)

Definition hex_digit (d : Z) : Z := if d <? 10 then 48 + d else 55 + d.
Definition hex2 (b : Z) : list Z := [hex_digit (b / 16); hex_digit (b mod 16)].
Definition sum8 (l : list Z) : Z := u8 (fold_left Z.add l 0).

(** A record of type character [48 + t] with [n] address bytes. *)
Definition srec_encode (t : Z) (n : nat) (addr : Z) (data : list Z) : list Z :=
  let body := (len data + Z.of_nat n + 1) :: be_bytes n addr ++ data in
  [83; 48 + t] ++ concat (map hex2 (body ++ [255 - sum8 body])).

(** The types and the address widths they have. *)
Definition srec_types : list (Z * nat) :=
  [(SREC_START, 2%nat); (SREC_DATA2, 2%nat); (SREC_DATA3, 3%nat); (SREC_DATA4, 4%nat);
   (SREC_END4, 4%nat); (SREC_END3, 3%nat); (SREC_END2, 2%nat)].

(** ** Digits *)

Lemma chr_cons c l : chr (c :: l) = c.
Proof. done. Qed.

Lemma hex2_bin_hex2 b rest : byte b -> hex2_bin (hex2 b ++ rest) = b.
Proof.
  intros Hb. assert (H : forallb (fun b => hex2_bin (hex2 b) =? b) (seqZ 0 256) = true) by (vm_compute; reflexivity).
  rewrite forallb_forall in H. specialize (H b). rewrite <- list_elem_of_In, elem_of_seqZ in H.
  specialize (H Hb). zb. exact H.
Qed.

Lemma hex1_bin_range c : -1 <= hex1_bin c <= 15.
Proof. unfold hex1_bin. zcases; simpl; lia. Qed.

Lemma hex2_bin_range s : -1 <= hex2_bin s < 256.
Proof.
  unfold hex2_bin. pose proof (hex1_bin_range (chr s)). pose proof (hex1_bin_range (chr (tail s))).
  zcases; try lia. rewrite Z.shiftl_mul_pow2 by lia. lia.
Qed.

Lemma sum8_app l k : sum8 (l ++ k) = u8 (sum8 l + fold_left Z.add k 0).
Proof.
  unfold sum8. rewrite fold_left_app, wrap_add_l. f_equal.
  generalize (fold_left Z.add l 0). induction k as [|x k IH] using rev_ind; intros a; simpl; [lia |].
  rewrite !fold_left_app. simpl. rewrite IH. lia.
Qed.

Lemma read_addr_hex bs rest : Forall byte bs -> forall a cs,
  read_addr (length bs) (concat (map hex2 bs) ++ rest) a cs =
  Ok (rest, fold_left (fun a b => u32 (u32 (Z.shiftl a 8) + b)) bs a, fold_left (fun c b => u8 (c + b)) bs cs).
Proof.
  induction bs as [|b bs IH]; intros Hb a cs; simpl; [done |]. apply Forall_cons in Hb as [Hb Hbs].
  pose proof (hex2_bin_hex2 b (concat (map hex2 bs) ++ rest) Hb) as E. simpl in E. rewrite E.
  rewrite (proj2 (Z.ltb_ge _ _)) by (unfold byte in Hb; lia). rewrite skipn_O. by apply IH.
Qed.

Lemma read_data_hex bs rest : Forall byte bs -> forall d cs,
  read_data (length bs) (concat (map hex2 bs) ++ rest) d cs =
  Ok (rest, d ++ bs, fold_left (fun c b => u8 (c + b)) bs cs).
Proof.
  induction bs as [|b bs IH]; intros Hb d cs; simpl; [by rewrite app_nil_r |]. apply Forall_cons in Hb as [Hb Hbs].
  pose proof (hex2_bin_hex2 b (concat (map hex2 bs) ++ rest) Hb) as E. simpl in E. rewrite E.
  rewrite (proj2 (Z.ltb_ge _ _)) by (unfold byte in Hb; lia). rewrite skipn_O. 
  rewrite IH by done. by rewrite <- app_assoc.
Qed.

Lemma fold_u8 bs c : fold_left (fun c b => u8 (c + b)) bs (u8 c) = u8 (c + fold_left Z.add bs 0).
Proof.
  revert c. induction bs as [|b bs IH] using rev_ind; intros c; simpl; [f_equal; lia |].
  rewrite !fold_left_app. simpl. rewrite IH, wrap_add_l. f_equal. lia.
Qed.

Lemma fold_addr n v : (n <= 4)%nat ->
  fold_left (fun a b => u32 (u32 (Z.shiftl a 8) + b)) (be_bytes n v) 0 = wrap (8 * Z.of_nat n) v.
Proof.
  intros Hn. rewrite <- be_val_bytes. unfold be_val.
  assert (H : forall bs a, Forall byte bs -> 0 <= a -> (length bs <= 4)%nat ->
    fold_left (fun acc b => acc * 256 + b) bs a < 2 ^ 32 ->
    fold_left (fun a b => u32 (u32 (Z.shiftl a 8) + b)) bs a = fold_left (fun acc b => acc * 256 + b) bs a).
  { induction bs as [|b bs IH] using rev_ind; intros a Hb Ha Hl Hlt; [done |].
    rewrite !fold_left_app in *. simpl in *. apply Forall_app in Hb as [Hb Hb1]. apply Forall_cons in Hb1 as [Hb1 _].
    unfold byte in Hb1. rewrite length_app in Hl. simpl in Hl.
    assert (Hnn : 0 <= fold_left (fun acc b0 => acc * 256 + b0) bs a).
    { clear -Hb Ha. revert a Ha. induction bs as [|x bs IH]; intros a Ha; simpl; [done |].
      apply Forall_cons in Hb as [Hx Hb]. unfold byte in Hx. apply IH; [done | lia]. }
    rewrite IH by (done || lia). rewrite Z.shiftl_mul_pow2 by lia. change (2 ^ 8) with 256.
    rewrite !(wrap_small 32) by (rewrite ?(wrap_small 32); lia). done. }
  apply H; [apply be_bytes_bytes | lia | by rewrite be_bytes_length |].
  pose proof (be_val_range (be_bytes n v) (be_bytes_bytes n v)) as Hr. rewrite be_bytes_length in Hr.
  unfold be_val in Hr. assert (256 ^ Z.of_nat n <= 256 ^ 4) by (apply Z.pow_le_mono_r; lia).
  change (256 ^ 4) with (2 ^ 32) in *. lia.
Qed.

(** ** Round trip *)

Lemma skip_to_S pre rest : Forall (fun c => c <> 83) pre ->
  drop_while (fun c => negb (c =? 83)) (pre ++ 83 :: rest) = 83 :: rest.
Proof.
  induction pre as [|c pre IH]; intros H; simpl; [done |]. apply Forall_cons in H as [Hc H].
  rewrite (proj2 (Z.eqb_neq _ _) Hc). simpl. auto.
Qed.

Lemma srec_type_spec t n c : (t, n) ∈ srec_types ->
  srec_type (48 + t) c = Some (t, c - Z.of_nat n - 1) /\ addr_bytes (48 + t) = n /\ (2 <= n <= 4)%nat.
Proof.
  unfold srec_types. rewrite !elem_of_cons, elem_of_nil. intros H.
  repeat destruct H as [[= -> ->] | H]; [..| done]; (split_and!; [unfold srec_type; simpl; do 2 f_equal; lia | done | lia | lia]).
Qed.

(** The decoder undoes the encoder. *)
Lemma srec_decode_encode t n v bs pre post c0 a0 : (t, n) ∈ srec_types -> Forall byte bs ->
  len bs + Z.of_nat n + 1 <= 255 -> Forall (fun c => c <> 83) pre ->
  srec_decode (pre ++ srec_encode t n v bs ++ post) c0 a0 =
  mk_srec t (len bs) (wrap (8 * Z.of_nat n) v) bs.
Proof.
  intros Ht Hb Hl Hpre. destruct (srec_type_spec t n (len bs + Z.of_nat n + 1) Ht) as (Hty & Hab & Hn).
  unfold srec_decode, srec_encode. set (cnt := len bs + Z.of_nat n + 1) in *.
  set (body := cnt :: be_bytes n v ++ bs). rewrite <- app_assoc. cbn [app].
  rewrite skip_to_S by done. cbn [tail]. rewrite !chr_cons.
  assert (Ht0 : 0 <= t <= 9).
  { revert Ht. unfold srec_types. rewrite !elem_of_cons, elem_of_nil. intros H.
    repeat destruct H as [[= -> ->] | H]; [..| done]; unfold SREC_START, SREC_DATA2, SREC_DATA3, SREC_DATA4, SREC_END4, SREC_END3, SREC_END2; lia. }
  rewrite (proj2 (Z.eqb_neq (48 + t) 0)) by lia.
  assert (Hck : byte (255 - sum8 body)) by (unfold byte, sum8; pose proof (wrap_range 8 (fold_left Z.add body 0)); lia).
  assert (Hcb : byte cnt) by (unfold byte, cnt; lia).
  assert (Etext : concat (map hex2 (body ++ [255 - sum8 body])) ++ post =
    hex2 cnt ++ concat (map hex2 (be_bytes n v)) ++ concat (map hex2 bs) ++ hex2 (255 - sum8 body) ++ post).
  { rewrite map_app, concat_app. unfold body at 1. cbn [map concat].
    rewrite map_app, concat_app, app_nil_r. by rewrite <- !app_assoc. }
  rewrite Etext. rewrite hex2_bin_hex2 by done.
  rewrite (proj2 (Z.ltb_ge cnt 0)) by (unfold byte in Hcb; lia). rewrite Hty, Hab.
  rewrite (drop_app_length' (hex2 cnt)) by done.
  pose proof (read_addr_hex (be_bytes n v) (concat (map hex2 bs) ++ hex2 (255 - sum8 body) ++ post)
    (be_bytes_bytes n v) 0 (u8 cnt)) as Ea. rewrite be_bytes_length in Ea. rewrite Ea.
  replace (Z.to_nat (cnt - Z.of_nat n - 1)) with (length bs) by (unfold cnt; lia).
  rewrite read_data_hex by done. rewrite hex2_bin_hex2 by done.
  rewrite (proj2 (Z.ltb_ge _ 0)) by (unfold byte in Hck; lia).
  rewrite fold_addr by lia. rewrite <- fold_left_app, fold_u8.
  assert (Es : u8 (cnt + fold_left Z.add (be_bytes n v ++ bs) 0) = sum8 body).
  { unfold sum8, body. cbn [fold_left]. f_equal. rewrite !Z.add_0_l.
    generalize (be_bytes n v ++ bs) as l. intros l. generalize cnt as a. induction l as [|x l IH] using rev_ind; intros a; simpl; [lia |].
    rewrite !fold_left_app. simpl. specialize (IH a). lia. }
  rewrite Es. rewrite (u8_byte (255 - sum8 body)) by done.
  replace (u8 (Z.lnot (sum8 body))) with (255 - sum8 body).
  2: { unfold Z.lnot. pose proof (wrap_range 8 (fold_left Z.add body 0)) as Hs. fold (sum8 body) in Hs.
       unfold wrap. rewrite <- (Z_mod_plus_full _ 1). rewrite Z.mod_small by lia. lia. }
  rewrite Z.eqb_refl. simpl. f_equal. unfold cnt. lia.
Qed.

(** Every record the reference encoder writes, of any type and any data
    that fits the length byte, is decoded to its type, length, address and
    data, whatever precedes its 'S' on the line and follows its checksum. *)
Theorem srec_roundtrip t n v bs pre post c0 a0 : (t, n) ∈ srec_types -> Forall byte bs ->
  len bs + Z.of_nat n + 1 <= 255 -> Forall (fun c => c <> 83) pre ->
  srec_decode (pre ++ srec_encode t n v bs ++ post) c0 a0 =
  mk_srec t (len bs) (wrap (8 * Z.of_nat n) v) bs.
Proof. apply srec_decode_encode. Qed.

(** ** Bounds *)

Lemma read_data_Ok n : forall input d cs i' d' c',
  read_data n input d cs = Ok (i', d', c') -> exists bs, length bs = n /\ d' = d ++ bs /\ Forall byte bs /\
    c' = fold_left (fun c b => u8 (c + b)) bs cs /\ i' = drop (2 * n) input.
Proof.
  induction n as [|n IH]; intros input d cs i' d' c' E; simpl in E.
  - injection E as <- <- <-. exists []. split_and!; try done. by rewrite app_nil_r.
  - destruct (Z.ltb_spec (hex2_bin input) 0); [done |].
    apply IH in E as (bs & Hl & -> & Hb & -> & ->). exists (hex2_bin input :: bs).
    pose proof (hex2_bin_range input). split_and!; simpl; [lia | by rewrite <- app_assoc | constructor; [unfold byte; lia | done] | done |].
    rewrite drop_drop. f_equal. lia.
Qed.

Lemma read_data_Err n : forall input d cs d', read_data n input d cs = Err d' -> 
  exists bs, d' = d ++ bs /\ Forall byte bs /\ (length bs < n)%nat.
Proof.
  induction n as [|n IH]; intros input d cs d' E; simpl in E; [done |].
  destruct (Z.ltb_spec (hex2_bin input) 0).
  - injection E as <-. exists []. rewrite app_nil_r. split_and!; [done | done | simpl; lia].
  - apply IH in E as (bs & -> & Hb & Hl). pose proof (hex2_bin_range input). exists (hex2_bin input :: bs).
    rewrite <- app_assoc. split_and!; [done | constructor; [unfold byte; lia | done] | simpl; lia].
Qed.

(** For every line, accepted or not, the decoder stores at most 252
    bytes, which fits the SREC_MAXBINLEN bytes of the caller's buffer, and
    each of them is a byte value. *)
Theorem srec_data_bound input c0 a0 :
  len (data (srec_decode input c0 a0)) <= 252 < SREC_MAXBINLEN /\
  Forall byte (data (srec_decode input c0 a0)).
Proof.
  unfold SREC_MAXBINLEN. assert (H : forall l : list Z, len l <= 252 -> Forall byte l -> len l <= 252 < 255 /\ Forall byte l)
    by (intros; split; [lia | done]).
  unfold srec_decode. set (inp := tail _). destruct (chr inp =? 0); [apply H; simpl; (done || lia) |].
  pose proof (hex2_bin_range (tail inp)) as Hc. set (cnt := hex2_bin (tail inp)) in *.
  destruct (Z.ltb_spec cnt 0); [apply H; simpl; (done || lia) |].
  destruct (srec_type (chr inp) cnt) as [[t c]|] eqn:Et; [| apply H; simpl; (done || lia)].
  assert (Hcc : c <= 252).
  { unfold srec_type in Et. repeat (destruct (_ =? _) in Et; [injection Et as _ <-; lia |]). done. }
  destruct (read_addr _ _ _ _) as [[[i' a'] cs]|a]; [| apply H; simpl; (done || lia)].
  destruct (read_data _ _ _ _) as [[[i2 d] cs2]|d] eqn:Ed.
  - apply read_data_Ok in Ed as (bs & Hl & -> & Hb & _).
    destruct (_ <? 0); [apply H; simpl; [lia | done] |]. destruct (negb _); apply H; simpl; (done || lia).
  - apply read_data_Err in Ed as (bs & -> & Hb & Hl). apply H; simpl; [lia | done].
Qed.

Lemma srec_roundtrip_witness :
  srec_decode (str "xx" ++ srec_encode 3 4 0x12345678 [0xde; 0xad] ++ str " tail") 0 0 =
  mk_srec 3 2 0x12345678 [0xde; 0xad].
Proof.
  apply (srec_roundtrip 3 4 0x12345678 [0xde; 0xad] (str "xx") (str " tail") 0 0).
  - unfold srec_types. rewrite !elem_of_cons. auto.
  - repeat constructor; unfold byte; lia.
  - simpl. lia.
  - repeat constructor; discriminate.
Defined.

(** The example of the format's description in the header file. *)
Lemma header_example :
  srec_decode (str "S325000004403C0880018D08DD900000000011000026000000003C0880012508DC50C50000B401") 0 0 =
  mk_srec SREC_DATA4 32 0x440
    [0x3C; 0x08; 0x80; 0x01; 0x8D; 0x08; 0xDD; 0x90; 0; 0; 0; 0; 0x11; 0; 0; 0x26; 0; 0; 0; 0;
     0x3C; 0x08; 0x80; 0x01; 0x25; 0x08; 0xDC; 0x50; 0xC5; 0; 0; 0xB4].
Proof. vm_compute. done. Qed.
