(* ===== verification/Image.v ===== *)
(** * Legacy images: include/image.h, common/image.c, common/cmd_bootm.c, tools/mkimage.c

    The 64-byte header with its two CRCs, the checks [bootm] makes before it
    uses an image, the table of a multi-file image, the copy to the load
    address, and the header the host tool [mkimage] builds.  The header is
    read from memory at [hdr], its fields big-endian as the OpenRISC and the
    format have them.

    The theorems: what mkimage writes is accepted and read back; any change
    of one byte of a header or of its data is rejected; a component of a
    multi-file image is found where mkimage put it; the loaded kernel is the
    image's data unless an error is returned. *)

From S2P Require Import Prelude Memory Strings Crc.

Local Open Scope Z_scope.

Definition IH_MAGIC : Z := 0x27051956.
Definition IH_NMLEN : Z := 32.
Definition IH_OS_LINUX : Z := 5.
Definition IH_ARCH_OR1K : Z := 19.
Definition IH_TYPE_RAMDISK : Z := 3.
Definition IH_COMP_NONE : Z := 0.
Definition IH_COMP_GZIP : Z := 1.

(** [sizeof (image_header_t)] *)
Definition image_get_header_size : Z := 64.

(** ** The accessors *)

Definition image_get_magic (m : mem) (hdr : Z) : Z := get32 m hdr.
Definition image_get_hcrc (m : mem) (hdr : Z) : Z := get32 m (hdr + 4).
Definition image_get_time (m : mem) (hdr : Z) : Z := get32 m (hdr + 8).
Definition image_get_size (m : mem) (hdr : Z) : Z := get32 m (hdr + 12).
Definition image_get_load (m : mem) (hdr : Z) : Z := get32 m (hdr + 16).
Definition image_get_ep (m : mem) (hdr : Z) : Z := get32 m (hdr + 20).
Definition image_get_dcrc (m : mem) (hdr : Z) : Z := get32 m (hdr + 24).
Definition image_get_os (m : mem) (hdr : Z) : Z := m (hdr + 28).
Definition image_get_arch (m : mem) (hdr : Z) : Z := m (hdr + 29).
Definition image_get_type (m : mem) (hdr : Z) : Z := m (hdr + 30).
Definition image_get_comp (m : mem) (hdr : Z) : Z := m (hdr + 31).
Definition image_get_data_size (m : mem) (hdr : Z) : Z := image_get_size m hdr.
Definition image_get_data (hdr : Z) : Z := u32 (hdr + image_get_header_size).
Definition image_get_image_size (m : mem) (hdr : Z) : Z :=
  u32 (image_get_size m hdr + image_get_header_size).
Definition image_get_image_end (m : mem) (hdr : Z) : Z := u32 (hdr + image_get_image_size m hdr).

Definition image_check_magic (m : mem) (hdr : Z) : bool := image_get_magic m hdr =? IH_MAGIC.
Definition image_check_type (m : mem) (hdr type : Z) : bool := image_get_type m hdr =? type.
Definition image_check_arch (m : mem) (hdr arch : Z) : bool := image_get_arch m hdr =? arch.
Definition image_check_os (m : mem) (hdr os : Z) : bool := image_get_os m hdr =? os.
Definition image_check_target_arch (m : mem) (hdr : Z) : bool := image_check_arch m hdr IH_ARCH_OR1K.

(** ** The checks *)

(** [image_set_hcrc] on a copy of the header. *)
Definition set_hcrc (header : list Z) (val : Z) : list Z :=
  take 4 header ++ be_bytes 4 val ++ drop 8 header.

Definition image_check_hcrc (m : mem) (hdr : Z) : bool :=
  let header := set_hcrc (load m hdr (Z.to_nat image_get_header_size)) 0 in
  crc32 0 header image_get_header_size =? image_get_hcrc m hdr.

Definition image_check_dcrc (m : mem) (hdr : Z) : bool :=
  let data := image_get_data hdr in
  let len_ := image_get_data_size m hdr in
  crc32_wd 0 (load m data (Z.to_nat len_)) len_ (64 * 1024) =? image_get_dcrc m hdr.

(** [image_get_kernel]: the header address, or 0 with the number the boot
    progress shows. *)
Definition image_get_kernel (m : mem) (img_addr : Z) (verify : bool) : Z * Z :=
  let hdr := img_addr in
  if negb (image_check_magic m hdr) then (0, -1)
  else if negb (image_check_hcrc m hdr) then (0, -2)
  else if verify && negb (image_check_dcrc m hdr) then (0, -3)
  else if negb (image_check_target_arch m hdr) then (0, -4)
  else (hdr, 4).

Definition image_get_ramdisk (m : mem) (rd_addr arch : Z) (verify : bool) : Z * Z :=
  let rd_hdr := rd_addr in
  if negb (image_check_magic m rd_hdr) then (0, -10)
  else if negb (image_check_hcrc m rd_hdr) then (0, -11)
  else if verify && negb (image_check_dcrc m rd_hdr) then (0, -12)
  else if negb (image_check_os m rd_hdr IH_OS_LINUX) || negb (image_check_arch m rd_hdr arch)
          || negb (image_check_type m rd_hdr IH_TYPE_RAMDISK) then (0, -13)
  else (rd_hdr, 11).

(** ** Multi-file images *)

(** [for (i = 0; size[i]; ++i) count++;] *)
Fixpoint multi_count_loop (fuel : nat) (m : mem) (size i : Z) : option Z :=
  match fuel with
  | O => None
  | S f => if get32 m (size + 4 * i) =? 0 then Some i else multi_count_loop f m size (i + 1)
  end.

Definition image_multi_count (fuel : nat) (m : mem) (hdr : Z) : option Z :=
  multi_count_loop fuel m (image_get_data hdr) 0.

(** [offset += (uimage_to_cpu (size[i]) + 3) & ~3] for [i < idx]. *)
Definition multi_offset (m : mem) (size idx : Z) : Z :=
  snd (for_n (fun '(i, offset) =>
    (i + 1, u32 (offset + Z.land (u32 (get32 m (size + 4 * i) + 3)) (u32 (Z.lnot 3))))) (Z.to_nat idx) (0, 0)).

(** [*data] and [*len]. *)
Definition image_multi_getimg (fuel : nat) (m : mem) (hdr idx : Z) : option (Z * Z) :=
  match image_multi_count fuel m hdr with
  | None => None
  | Some count =>
      let size := image_get_data hdr in
      let img_data := u32 (image_get_data hdr + (count + 1) * 4) in
      if idx <? count
      then Some (u32 (img_data + multi_offset m size idx), get32 m (size + 4 * idx))
      else Some (0, 0)
  end.

(** ** Loading *)

Record image_info_t := mk_image_info {
  start : Z; end_ : Z; image_start : Z; image_len : Z; load_ : Z; comp : Z; type : Z; os : Z;
}.

Definition BOOTM_ERR_RESET : Z := -1.
Definition BOOTM_ERR_OVERLAP : Z := -2.
Definition BOOTM_ERR_UNIMPLEMENTED : Z := -3.

Section load_os.
(** The decompressor: memory, destination, its size, source, its length; the
    memory afterwards, the code, and the length written. *)
Variable gunzip : mem -> Z -> Z -> Z -> Z -> mem * Z * Z.

Definition CONFIG_SYS_BOOTM_LEN : Z := 0x800000.

(** The memory, the code and [*load_end]. *)
Definition bootm_load_os (m : mem) (os : image_info_t) : mem * Z * Z :=
  let load_addr := load_ os in
  let overlap m load_end :=
    if (load_addr <? end_ os) && (start os <? load_end) then (m, BOOTM_ERR_OVERLAP, load_end)
    else (m, 0, load_end) in
  if comp os =? IH_COMP_NONE then
    let m :=
      if load_addr =? start os then m
      else if negb (load_addr =? image_start os)
      then fst (memmove m load_addr (image_start os) (image_len os))
      else m in
    overlap m (u32 (load_addr + image_len os))
  else if comp os =? IH_COMP_GZIP then
    let '(m, rc, unc_len) := gunzip m load_addr CONFIG_SYS_BOOTM_LEN (image_start os) (image_len os) in
    if truth rc then (m, BOOTM_ERR_RESET, 0)
    else overlap m (u32 (load_addr + unc_len))
  else (m, BOOTM_ERR_UNIMPLEMENTED, 0).
End load_os.

(** ** tools/mkimage.c *)

Record mkimage_opts := mk_opts {
  opt_time : Z; opt_addr : Z; opt_ep : Z; opt_os : Z; opt_arch : Z; opt_type : Z; opt_comp : Z; opt_name : list Z;
}.

(** [copy_file]: a component, padded when another one follows. *)
Definition copy_file (data : list Z) (pad : bool) : list Z :=
  data ++ (if pad && negb (len data mod 4 =? 0) then replicate (Z.to_nat (4 - len data mod 4)) 0 else []).

(** The components one after the other; all but the last are padded. *)
Fixpoint copy_files (files : list (list Z)) : list Z :=
  match files with
  | [] => []
  | [f] => copy_file f false
  | f :: files' => copy_file f true ++ copy_files files'
  end.

(** The payload of a multi-file image: the sizes, a zero, the files. *)
Definition multi_payload (files : list (list Z)) : list Z :=
  concat (map (fun f => be_bytes 4 (len f)) files) ++ be_bytes 4 0 ++ copy_files files.

(** The name field: [strncpy] into 32 zeroed bytes. *)
Definition name_field (name : list Z) : list Z :=
  take 32 name ++ replicate (32 - length name) 0.

(** The header before its CRC is set, then with it. *)
Definition mkimage_header (o : mkimage_opts) (payload : list Z) : list Z :=
  let checksum := crc32 0 payload (len payload) in
  let hdr := be_bytes 4 IH_MAGIC ++ be_bytes 4 0 ++ be_bytes 4 (opt_time o) ++ be_bytes 4 (len payload) ++
             be_bytes 4 (opt_addr o) ++ be_bytes 4 (opt_ep o) ++ be_bytes 4 checksum ++
             [opt_os o; opt_arch o; opt_type o; opt_comp o] ++ name_field (opt_name o) in
  let checksum := crc32 0 hdr image_get_header_size in
  set_hcrc hdr checksum.

Definition mkimage (o : mkimage_opts) (payload : list Z) : list Z := mkimage_header o payload ++ payload.

(** ** Reading back *)

Local Opaque crc32.

Lemma get32_bytes v : 0 <= v < 2 ^ 32 -> be_val (be_bytes 4 v) = v.
Proof. intros Hv. rewrite be_val_bytes. by apply (wrap_small 32). Qed.

Definition opts_ok (o : mkimage_opts) : Prop :=
  (0 <= opt_time o < 2 ^ 32 /\ 0 <= opt_addr o < 2 ^ 32 /\ 0 <= opt_ep o < 2 ^ 32) /\
  (byte (opt_os o) /\ byte (opt_arch o) /\ byte (opt_type o) /\ byte (opt_comp o)) /\
  Forall byte (opt_name o).

Lemma name_field_ok name : Forall byte name -> length (name_field name) = 32%nat /\ Forall byte (name_field name).
Proof.
  intros Hn. unfold name_field. split.
  - rewrite length_app, length_take, length_replicate. lia.
  - apply Forall_app. split; [by apply Forall_take |]. by apply Forall_replicate.
Qed.

(** The header with both CRCs as parameters. *)
Definition raw_header (o : mkimage_opts) (size dcrc hcrc : Z) : list Z :=
  be_bytes 4 IH_MAGIC ++ be_bytes 4 hcrc ++ be_bytes 4 (opt_time o) ++ be_bytes 4 size ++
  be_bytes 4 (opt_addr o) ++ be_bytes 4 (opt_ep o) ++ be_bytes 4 dcrc ++
  [opt_os o; opt_arch o; opt_type o; opt_comp o] ++ name_field (opt_name o).

Lemma set_raw_header o s d h h' : set_hcrc (raw_header o s d h) h' = raw_header o s d h'.
Proof. done. Qed.

Lemma raw_header_length o s d h : opts_ok o -> length (raw_header o s d h) = 64%nat.
Proof. intros (_ & _ & Hn). unfold raw_header. rewrite !length_app, !be_bytes_length. simpl.
  destruct (name_field_ok _ Hn) as [-> _]. done. Qed.

Lemma raw_header_bytes o s d h : opts_ok o -> Forall byte (raw_header o s d h).
Proof.
  intros (_ & (? & ? & ? & ?) & Hn). unfold raw_header. destruct (name_field_ok _ Hn) as [_ ?].
  rewrite !Forall_app. split_and!; try apply be_bytes_bytes; [| done].
  by rewrite !Forall_cons.
Qed.

(** The fields of a header in memory. *)
Lemma header_fields m hdr o s d h :
  opts_ok o -> 0 <= s < 2 ^ 32 -> 0 <= d < 2 ^ 32 -> 0 <= h < 2 ^ 32 ->
  load m hdr 64 = raw_header o s d h ->
  image_get_magic m hdr = IH_MAGIC /\ image_get_hcrc m hdr = h /\ image_get_time m hdr = opt_time o /\
  image_get_size m hdr = s /\ image_get_load m hdr = opt_addr o /\ image_get_ep m hdr = opt_ep o /\
  image_get_dcrc m hdr = d /\ image_get_os m hdr = opt_os o /\ image_get_arch m hdr = opt_arch o /\
  image_get_type m hdr = opt_type o /\ image_get_comp m hdr = opt_comp o.
Proof.
  intros Ho Hs Hd Hh HL. pose proof (raw_header_length o s d h Ho) as Hl.
  pose proof Ho as ((Ht & Ha & He) & _).
  assert (Hsub : forall z n, 0 <= z -> z + Z.of_nat n <= 64 ->
    load m (hdr + z) n = take n (drop (Z.to_nat z) (raw_header o s d h))).
  { intros z n Hz Hn. rewrite <- (Z2Nat.id z) at 1 by lia. apply load_sub; rewrite Hl; [exact HL | lia]. }
  assert (H1 : forall z, 0 <= z < 64 -> m (hdr + z) = nth (Z.to_nat z) (raw_header o s d h) 0).
  { intros z Hz. pose proof (Hsub z 1%nat ltac:(lia) ltac:(lia)) as E. rewrite load_one in E.
    rewrite nth_lookup. destruct (lookup_lt_is_Some_2 (raw_header o s d h) (Z.to_nat z)) as [v Hv]; [lia |].
    rewrite Hv. rewrite (drop_S _ _ _ Hv) in E. simpl in E. injection E. done. }
  unfold image_get_magic, image_get_hcrc, image_get_time, image_get_size, image_get_load, image_get_ep,
    image_get_dcrc, get32, image_get_os, image_get_arch, image_get_type, image_get_comp.
  replace (load m hdr 4) with (load m (hdr + 0) 4) by (by rewrite Z.add_0_r).
  rewrite !Hsub, !H1 by lia.
  change (take 4 (drop (Z.to_nat 0) (raw_header o s d h))) with (be_bytes 4 IH_MAGIC).
  change (take 4 (drop (Z.to_nat 4) (raw_header o s d h))) with (be_bytes 4 h).
  change (take 4 (drop (Z.to_nat 8) (raw_header o s d h))) with (be_bytes 4 (opt_time o)).
  change (take 4 (drop (Z.to_nat 12) (raw_header o s d h))) with (be_bytes 4 s).
  change (take 4 (drop (Z.to_nat 16) (raw_header o s d h))) with (be_bytes 4 (opt_addr o)).
  change (take 4 (drop (Z.to_nat 20) (raw_header o s d h))) with (be_bytes 4 (opt_ep o)).
  change (take 4 (drop (Z.to_nat 24) (raw_header o s d h))) with (be_bytes 4 d).
  assert (Hm : 0 <= IH_MAGIC < 2 ^ 32) by (unfold IH_MAGIC; lia).
  rewrite !get32_bytes by assumption. split_and!; reflexivity.
Qed.

Lemma mkimage_split m hdr o p : opts_ok o -> load m hdr (length (mkimage o p)) = mkimage o p ->
  load m hdr 64 = raw_header o (len p) (crc32 0 p (len p))
    (crc32 0 (raw_header o (len p) (crc32 0 p (len p)) 0) 64) /\
  load m (hdr + 64) (length p) = p.
Proof.
  intros Ho HL. unfold mkimage in HL.
  change (mkimage_header o p) with (raw_header o (len p) (crc32 0 p (len p))
    (crc32 0 (raw_header o (len p) (crc32 0 p (len p)) 0) 64)) in HL.
  rewrite length_app, raw_header_length, load_app in HL by done.
  apply app_inj_1; [| exact HL]. by rewrite load_length, raw_header_length.
Qed.

Lemma mkimage_checks m hdr o p : opts_ok o -> Forall byte p -> 0 <= hdr -> hdr + 64 + len p < 2 ^ 32 ->
  load m hdr (length (mkimage o p)) = mkimage o p ->
  image_check_magic m hdr = true /\ image_check_hcrc m hdr = true /\ image_check_dcrc m hdr = true.
Proof.
  intros Ho Hp Hh Hend HL. destruct (mkimage_split m hdr o p Ho HL) as [H1 H2].
  assert (Hd : 0 <= crc32 0 p (len p) < 2 ^ 32) by (apply crc32_range; [done | lia]).
  set (hc := crc32 0 (raw_header o (len p) (crc32 0 p (len p)) 0) 64) in *.
  assert (Hhc : 0 <= hc < 2 ^ 32).
  { apply crc32_range; [by apply raw_header_bytes |]. rewrite raw_header_length by done. lia. }
  destruct (header_fields m hdr o (len p) _ hc Ho ltac:(lia) Hd Hhc H1)
    as (E1 & E2 & _ & E4 & _ & _ & E7 & _).
  unfold image_check_magic, image_check_hcrc, image_check_dcrc, image_get_data_size, image_get_data,
    image_get_header_size, crc32_wd. rewrite E1, E2, E4, E7.
  rewrite (wrap_small 32) by lia. rewrite Nat2Z.id, H2. change (Z.to_nat 64) with 64%nat.
  rewrite H1, set_raw_header. fold hc.
  rewrite !Z.eqb_refl. split_and!; reflexivity.
Qed.

(** An image that mkimage made and that lies in memory unchanged passes
    the magic number and both checksums, and its size, load address, entry
    point and type bytes read back; for the OR1K architecture
    [image_get_kernel] accepts it, with verification on. *)
Theorem mkimage_accepted m hdr o p : opts_ok o -> Forall byte p -> 0 <= hdr -> hdr + 64 + len p < 2 ^ 32 ->
  load m hdr (length (mkimage o p)) = mkimage o p ->
  image_get_data_size m hdr = len p /\ load m (image_get_data hdr) (length p) = p /\
  image_get_load m hdr = opt_addr o /\ image_get_ep m hdr = opt_ep o /\
  image_get_type m hdr = opt_type o /\ image_get_comp m hdr = opt_comp o /\ image_get_os m hdr = opt_os o /\
  (opt_arch o = IH_ARCH_OR1K -> image_get_kernel m hdr true = (hdr, 4)).
Proof.
  intros Ho Hp Hh Hend HL. destruct (mkimage_checks m hdr o p Ho Hp Hh Hend HL) as (C1 & C2 & C3).
  destruct (mkimage_split m hdr o p Ho HL) as [H1 H2].
  assert (Hd : 0 <= crc32 0 p (len p) < 2 ^ 32) by (apply crc32_range; [done | lia]).
  assert (Hhc : 0 <= crc32 0 (raw_header o (len p) (crc32 0 p (len p)) 0) 64 < 2 ^ 32).
  { apply crc32_range; [by apply raw_header_bytes |]. rewrite raw_header_length by done. lia. }
  destruct (header_fields m hdr o (len p) _ _ Ho ltac:(lia) Hd Hhc H1)
    as (_ & _ & _ & E4 & E5 & E6 & _ & E8 & E9 & E10 & E11).
  unfold image_get_data, image_get_header_size. rewrite (wrap_small 32) by lia.
  split_and!; try assumption. intros Harch. unfold image_get_kernel, image_check_target_arch, image_check_arch.
  rewrite C1, C2, C3, E9, Harch. reflexivity.
Qed.

(** ** Corruption *)

Lemma crc32_insert L i v w : Forall byte L -> byte v -> L !! i = Some w -> w <> v ->
  crc32 0 L (len L) <> crc32 0 (<[i := v]> L) (len L).
Proof.
  intros HL Hv Hi Hw. pose proof (lookup_lt_Some _ _ _ Hi) as Hlt.
  rewrite (insert_take_drop L) by done.
  pose proof (take_drop_middle L i w Hi) as HE. rewrite <- HE in HL. apply Forall_app in HL as [H1 H2].
  apply Forall_cons in H2 as [H2 H3].
  pose proof (crc32_byte_error 0 _ w v _ ltac:(done) H1 H3 H2 Hv Hw) as HC.
  rewrite HE in HC. replace (len (take i L ++ v :: drop (S i) L)) with (len L) in HC; [exact HC |].
  rewrite <- HE at 1. by rewrite !length_app.
Qed.

Lemma set_hcrc_lookup L v j : (8 <= length L)%nat ->
  set_hcrc L v !! j = if (4 <=? j)%nat && (j <? 8)%nat then be_bytes 4 v !! (j - 4)%nat else L !! j.
Proof.
  intros HL. unfold set_hcrc. set (B := be_bytes 4 v).
  assert (HB : length B = 4%nat) by done. clearbody B.
  destruct (decide (j < 4)%nat); [| destruct (decide (j < 8)%nat)].
  - rewrite lookup_app_l by (rewrite length_take; lia). rewrite lookup_take_lt by done.
    destruct (Nat.leb_spec 4 j); [lia | done].
  - rewrite lookup_app_r, length_take, Nat.min_l, lookup_app_l by (rewrite ?length_take; lia).
    destruct (Nat.leb_spec 4 j), (Nat.ltb_spec j 8); done || lia.
  - rewrite lookup_app_r, length_take, Nat.min_l, lookup_app_r by (rewrite ?length_take; lia).
    rewrite lookup_drop, HB. replace (8 + (j - 4 - 4))%nat with j by lia.
    destruct (Nat.ltb_spec j 8); [lia |]. by rewrite andb_false_r.
Qed.

Lemma set_hcrc_insert L i v : length L = 64%nat -> (i < 64)%nat ->
  set_hcrc (<[i := v]> L) 0 =
  if (4 <=? i)%nat && (i <? 8)%nat then set_hcrc L 0 else <[i := v]> (set_hcrc L 0).
Proof.
  intros HL Hi. assert (HS : length (set_hcrc L 0) = 64%nat).
  { unfold set_hcrc. rewrite !length_app, length_take, length_drop, HL. done. }
  apply list_eq. intros j. rewrite set_hcrc_lookup by (rewrite length_insert; lia).
  destruct ((4 <=? i)%nat && (i <? 8)%nat) eqn:Ei; rewrite ?set_hcrc_lookup by lia;
  (destruct (decide (i = j)) as [<-|Hij];
   [rewrite Ei; rewrite ?list_lookup_insert_eq by lia; done
   | rewrite ?(list_lookup_insert_ne _ i j) by done; rewrite ?set_hcrc_lookup by lia; done]).
Qed.

Lemma be_val_inj L L' : Forall byte L -> Forall byte L' -> length L = length L' -> be_val L = be_val L' -> L = L'.
Proof. intros HL HL' Hl E. by rewrite <- (be_bytes_val L HL), <- (be_bytes_val L' HL'), E, Hl. Qed.

(** A changed header byte. *)
Lemma hcrc_detects m hdr i v : byte_mem m -> byte v -> 0 <= i < 64 -> v <> m (hdr + i) ->
  image_check_hcrc m hdr = true -> image_check_hcrc (store m (hdr + i) v) hdr = false.
Proof.
  intros Hm Hv Hi Hne Hok. unfold image_check_hcrc in *. apply Z.eqb_eq in Hok. apply Z.eqb_neq.
  change (Z.to_nat image_get_header_size) with 64%nat in *.
  assert (Hlk : load m hdr 64 !! Z.to_nat i = Some (m (hdr + i))).
  { rewrite load_lookup by lia. do 2 f_equal. lia. }
  replace (hdr + i) with (hdr + Z.of_nat (Z.to_nat i)) in Hne |- * by lia.
  rewrite load_store by lia. rewrite set_hcrc_insert by (rewrite ?load_length; lia).
  unfold image_get_hcrc, get32 in *.
  assert (Hcase : (4 <= Z.to_nat i < 8)%nat /\ (4 <=? Z.to_nat i)%nat && (Z.to_nat i <? 8)%nat = true \/
                  (Z.to_nat i < 4 \/ 8 <= Z.to_nat i)%nat /\ (4 <=? Z.to_nat i)%nat && (Z.to_nat i <? 8)%nat = false).
  { destruct (Nat.leb_spec 4 (Z.to_nat i)), (Nat.ltb_spec (Z.to_nat i) 8); simpl; lia. }
  destruct Hcase as [[Hc E]|[Hc E]]; rewrite E.
  - rewrite Hok. intros E2.
    apply be_val_inj in E2; [| by apply load_byte_mem | by apply load_byte_mem, store_byte_mem | by rewrite !load_length].
    apply Hne. pose proof (f_equal (fun l => l !! (Z.to_nat i - 4)%nat) E2) as E3. cbv beta in E3.
    rewrite !load_lookup in E3 by lia. injection E3 as E3. unfold store in E3.
    replace (hdr + 4 + Z.of_nat (Z.to_nat i - 4)) with (hdr + Z.of_nat (Z.to_nat i)) in E3 by lia.
    by rewrite Z.eqb_refl in E3.
  - rewrite load_store_out by lia. rewrite <- Hok. apply not_eq_sym.
    set (H := set_hcrc (load m hdr 64) 0). assert (HH : len H = 64) by reflexivity.
    unfold image_get_header_size. rewrite <- HH. apply (crc32_insert _ _ _ (m (hdr + i))); [| done | | by rewrite Z2Nat.id in Hne by lia].
    + unfold H, set_hcrc. rewrite !Forall_app.
      split_and!; [apply Forall_take, load_byte_mem | apply be_bytes_bytes | apply Forall_drop, load_byte_mem]; done.
    + unfold H. rewrite set_hcrc_lookup by (rewrite load_length; lia).
      by rewrite E.
Qed.

(** A changed data byte. *)
Lemma dcrc_detects m hdr i v : byte_mem m -> byte v -> 0 <= hdr -> hdr + 64 + image_get_data_size m hdr < 2 ^ 32 ->
  0 <= i < image_get_data_size m hdr -> v <> m (hdr + 64 + i) ->
  image_check_dcrc m hdr = true -> image_check_dcrc (store m (hdr + 64 + i) v) hdr = false.
Proof.
  intros Hm Hv Hh Hend Hi Hne Hok. unfold image_check_dcrc in *.
  apply Z.eqb_eq in Hok. apply Z.eqb_neq.
  assert (Es : image_get_data_size (store m (hdr + 64 + i) v) hdr = image_get_data_size m hdr).
  { unfold image_get_data_size, image_get_size, get32. by rewrite load_store_out by lia. }
  assert (Ed : image_get_dcrc (store m (hdr + 64 + i) v) hdr = image_get_dcrc m hdr).
  { unfold image_get_dcrc, get32. by rewrite load_store_out by lia. }
  rewrite Es, Ed, <- Hok. set (n := image_get_data_size m hdr) in *.
  unfold image_get_data, image_get_header_size, crc32_wd. rewrite (wrap_small 32) by lia. apply not_eq_sym.
  replace (hdr + 64 + i) with (hdr + 64 + Z.of_nat (Z.to_nat i)) by lia. rewrite load_store by lia.
  replace n with (len (load m (hdr + 64) (Z.to_nat n))) at 2 4 by (rewrite load_length; lia).
  apply (crc32_insert _ _ _ (m (hdr + 64 + i))); [by apply load_byte_mem | done | | by apply not_eq_sym].
  rewrite load_lookup by lia. do 2 f_equal. lia.
Qed.

Lemma size_store_header m hdr a v : hdr + 64 <= a -> image_check_hcrc (store m a v) hdr = image_check_hcrc m hdr /\
  image_check_magic (store m a v) hdr = image_check_magic m hdr.
Proof.
  intros Ha. unfold image_check_hcrc, image_check_magic, image_get_hcrc, image_get_magic, get32.
  change (Z.to_nat image_get_header_size) with 64%nat. by rewrite !load_store_out by lia.
Qed.

(** C3: an accepted image in which one byte, of the header or of the data,
    has changed to any other value is not accepted when verification is on:
    a header byte stops it at the magic number or the header CRC, before any
    field is used, and a data byte at the data CRC. *)
Theorem image_corruption_rejected m hdr a v :
  byte_mem m -> byte v -> 0 <= hdr -> hdr + 64 + image_get_data_size m hdr < 2 ^ 32 ->
  image_get_kernel m hdr true = (hdr, 4) ->
  hdr <= a < hdr + 64 + image_get_data_size m hdr -> v <> m a ->
  (a < hdr + 64 -> image_get_kernel (store m a v) hdr true = (0, -1) \/
                   image_get_kernel (store m a v) hdr true = (0, -2)) /\
  (hdr + 64 <= a -> image_get_kernel (store m a v) hdr true = (0, -3)).
Proof.
  intros Hm Hv Hh Hend Hok Ha Hne. unfold image_get_kernel in Hok.
  destruct (image_check_magic m hdr) eqn:E1; [| done]. destruct (image_check_hcrc m hdr) eqn:E2; [| done].
  destruct (image_check_dcrc m hdr) eqn:E3; [| done]. clear Hok. split; intros Hr; unfold image_get_kernel.
  - replace a with (hdr + (a - hdr)) in Hne |- * by lia.
    rewrite (hcrc_detects m hdr (a - hdr) v) by (assumption || lia).
    destruct (image_check_magic (store _ _ _) _); [right | left]; reflexivity.
  - destruct (size_store_header m hdr a v Hr) as [-> ->]. rewrite E1, E2.
    replace a with (hdr + 64 + (a - hdr - 64)) in Hne |- * by lia.
    rewrite dcrc_detects by (assumption || lia). reflexivity.
Qed.

(** ** Multi-file images *)

Lemma round4_land v : 0 <= v -> v + 3 < 2 ^ 32 ->
  Z.land (u32 (v + 3)) (u32 (Z.lnot 3)) = (v + 3) / 4 * 4.
Proof.
  intros Hv Hb. rewrite (wrap_small 32) by lia.
  replace (Z.land (v + 3) (u32 (Z.lnot 3))) with (Z.ldiff (v + 3) (Z.ones 2)).
  - rewrite Z.ldiff_ones_r, Z.shiftl_mul_pow2, Z.shiftr_div_pow2 by lia. done.
  - apply Z.bits_inj'. intros i Hi. rewrite Z.land_spec, Z.ldiff_spec, wrap_testbit, Z.lnot_spec by lia.
    destruct (Z.ltb_spec i 32); [done |]. by rewrite (testbit_small 32 (v + 3) i) by lia.
Qed.

(** Where a component starts after the table, and where its size is. *)
Definition file_offset (files : list (list Z)) (k : nat) : Z :=
  foldr (fun f acc => (len f + 3) / 4 * 4 + acc) 0 (take k files).

Lemma copy_file_length f : len (copy_file f true) = (len f + 3) / 4 * 4.
Proof.
  unfold copy_file. rewrite length_app. simpl. zcase.
  - simpl. zb. Z.div_mod_to_equations. lia.
  - simpl. rewrite length_replicate. Z.div_mod_to_equations. lia.
Qed.

Lemma file_offset_nonneg files k : 0 <= file_offset files k.
Proof.
  unfold file_offset. induction (take k files) as [|f l IH]; simpl; [lia |].
  assert (0 <= (len f + 3) / 4) by (apply Z.div_pos; lia). lia.
Qed.

Lemma file_offset_succ files k f : files !! k = Some f ->
  file_offset files (S k) = file_offset files k + (len f + 3) / 4 * 4.
Proof.
  intros Hk. unfold file_offset. rewrite (take_S_r _ _ _ Hk), foldr_app. simpl. rewrite Z.add_0_r.
  generalize ((len f + 3) / 4 * 4). intros z. induction (take k files) as [|g l IH]; simpl; lia.
Qed.

Lemma copy_files_cons f g files : copy_files (f :: g :: files) = copy_file f true ++ copy_files (g :: files).
Proof. done. Qed.

(** The text of the components splits at component [k]. *)
Lemma copy_files_at files k f : files !! k = Some f ->
  exists pre post, copy_files files = pre ++ f ++ post /\ len pre = file_offset files k.
Proof.
  revert k. induction files as [|g files IH]; intros k Hk; [done |]. destruct k as [|k].
  - injection Hk as ->. exists []. destruct files as [|g files].
    + exists []. done.
    + rewrite copy_files_cons. unfold copy_file. rewrite <- app_assoc. eexists. split; reflexivity.
  - simpl in Hk. destruct files as [|g' files]; [done |].
    destruct (IH k Hk) as (pre & post & E & Hl).
    exists (copy_file g true ++ pre), post. rewrite copy_files_cons, E, app_assoc. split; [done |].
    rewrite length_app, Nat2Z.inj_add, copy_file_length, Hl. done.
Qed.

Definition size_table (files : list (list Z)) : list Z := concat (map (fun f => be_bytes 4 (len f)) files).

Lemma size_table_length files : length (size_table files) = (4 * length files)%nat.
Proof.
  induction files as [|f files IH]; [done |].
  change (size_table (f :: files)) with (be_bytes 4 (len f) ++ size_table files).
  rewrite length_app, be_bytes_length, IH. simpl length. lia.
Qed.

Lemma size_table_at files k f : files !! k = Some f ->
  take 4 (drop (4 * k) (size_table files)) = be_bytes 4 (len f).
Proof.
  revert k. induction files as [|g files IH]; intros k Hk; [done |]. destruct k as [|k].
  - by injection Hk as ->.
  - replace (4 * S k)%nat with (4 + 4 * k)%nat by lia.
    change (size_table (g :: files)) with (be_bytes 4 (len g) ++ size_table files).
    rewrite drop_app_add' by done. by apply IH.
Qed.

Section multi.
Context (m : mem) (hdr : Z) (files : list (list Z)).
Hypothesis Hhdr : 0 <= hdr.
Hypothesis Hend : hdr + 64 + len (multi_payload files) + 3 < 2 ^ 32.
Hypothesis Hfiles : Forall (fun f => f <> []) files.
Hypothesis Hload : load m (hdr + 64) (length (multi_payload files)) = multi_payload files.

Lemma payload_split : multi_payload files = size_table files ++ be_bytes 4 0 ++ copy_files files.
Proof. done. Qed.

Lemma payload_length : len (multi_payload files) = 4 * len files + 4 + len (copy_files files).
Proof. rewrite payload_split, !length_app, size_table_length, be_bytes_length. lia. Qed.

Lemma data_addr : image_get_data hdr = hdr + 64.
Proof. unfold image_get_data, image_get_header_size. apply (wrap_small 32). lia. Qed.

Lemma table_entry k f : files !! k = Some f -> get32 m (hdr + 64 + 4 * Z.of_nat k) = len f.
Proof.
  intros Hk. pose proof (lookup_lt_Some _ _ _ Hk) as Hlt. pose proof payload_length as Hl.
  unfold get32. replace (hdr + 64 + 4 * Z.of_nat k) with (hdr + 64 + Z.of_nat (4 * k)) by lia.
  rewrite (load_sub _ _ _ _ _ Hload) by lia.
  rewrite payload_split, drop_app_le by (rewrite size_table_length; lia).
  rewrite take_app_le by (rewrite length_drop, size_table_length; lia).
  rewrite (size_table_at _ _ _ Hk). apply get32_bytes.
  destruct (copy_files_at files k f Hk) as (pre & post & E & _).
  rewrite E, !length_app in Hl. lia.
Qed.

Lemma table_end : get32 m (hdr + 64 + 4 * len files) = 0.
Proof.
  pose proof payload_length as Hl. unfold get32.
  replace (hdr + 64 + 4 * len files) with (hdr + 64 + Z.of_nat (4 * length files)) by lia.
  rewrite (load_sub _ _ _ _ _ Hload) by lia.
  rewrite payload_split, drop_app_length' by (by rewrite size_table_length). done.
Qed.

Lemma multi_count_spec fuel k : (k <= length files)%nat -> (length files - k < fuel)%nat ->
  multi_count_loop fuel m (hdr + 64) (Z.of_nat k) = Some (len files).
Proof.
  revert k. induction fuel as [|fuel IH]; intros k Hk Hf; [lia |]. simpl.
  destruct (decide (k = length files)) as [->|Hne]; [by rewrite table_end |].
  destruct (lookup_lt_is_Some_2 files k) as [f Hfk]; [lia |].
  rewrite (table_entry _ _ Hfk). pose proof (Forall_lookup_1 _ _ _ _ Hfiles Hfk) as Hnz.
  destruct f as [|c f]; [done |]. rewrite (proj2 (Z.eqb_neq _ _)) by (simpl; lia).
  replace (Z.of_nat k + 1) with (Z.of_nat (S k)) by lia. apply IH; lia.
Qed.

Lemma offset_bound k f : files !! k = Some f -> file_offset files k + len f <= len (copy_files files).
Proof.
  intros Hk. destruct (copy_files_at files k f Hk) as (pre & post & E & <-). rewrite E, !length_app. lia.
Qed.

Lemma multi_offset_spec k : (k <= length files)%nat -> 
  (forall j f, (j < k)%nat -> files !! j = Some f -> file_offset files j + len f <= len (copy_files files)) ->
  for_n (fun '(i, offset) =>
    (i + 1, u32 (offset + Z.land (u32 (get32 m (hdr + 64 + 4 * i) + 3)) (u32 (Z.lnot 3))))) k (0, 0) =
  (Z.of_nat k, file_offset files k).
Proof.
  intros Hk Hb. induction k as [|k IH]; [done |]. rewrite for_n_succ, IH by (lia || eauto).
  destruct (lookup_lt_is_Some_2 files k) as [f Hf]; [lia |].
  rewrite (table_entry _ _ Hf), (file_offset_succ _ _ _ Hf).
  pose proof (Hb k f ltac:(lia) Hf) as Hle. pose proof (file_offset_nonneg files k).
  pose proof payload_length. rewrite round4_land by lia.
  f_equal; [lia |]. apply (wrap_small 32). Z.div_mod_to_equations. lia.
Qed.

Lemma multi_getimg_spec fuel k f : (length files < fuel)%nat -> files !! k = Some f ->
  exists a, image_multi_getimg fuel m hdr (Z.of_nat k) = Some (a, len f) /\ load m a (length f) = f.
Proof.
  intros Hfuel Hk. pose proof (lookup_lt_Some _ _ _ Hk) as Hlt. pose proof payload_length as Hl.
  unfold image_multi_getimg, image_multi_count. rewrite data_addr.
  change 0 with (Z.of_nat 0) at 1. rewrite (multi_count_spec fuel 0) by lia. rewrite (proj2 (Z.ltb_lt _ _)) by lia.
  rewrite (table_entry _ _ Hk). eexists. split; [reflexivity |].
  unfold multi_offset. rewrite Nat2Z.id, multi_offset_spec by (lia || (intros; by apply offset_bound)). simpl snd.
  pose proof (offset_bound k f Hk). pose proof (file_offset_nonneg files k).
  rewrite !(wrap_small 32) by (rewrite ?(wrap_small 32); lia).
  destruct (copy_files_at files k f Hk) as (pre & post & E & Hpre).
  replace (hdr + 64 + (len files + 1) * 4 + file_offset files k)
    with (hdr + 64 + Z.of_nat (length (size_table files ++ be_bytes 4 0 ++ pre)))
    by (rewrite !length_app, size_table_length, be_bytes_length; lia).
  assert (HP : multi_payload files = (size_table files ++ be_bytes 4 0 ++ pre) ++ f ++ post)
    by (rewrite payload_split, E, <- !app_assoc; done).
  rewrite (load_sub _ _ _ _ _ Hload) by (rewrite HP, !length_app; lia).
  by rewrite HP, drop_app_length, take_app_length.
Qed.
End multi.

(** From a multi-file image as mkimage lays it out, with no component
    empty, [image_multi_count] counts the components, and for each index
    [image_multi_getimg] returns the address and length of exactly that
    component's bytes, padding and table skipped; an index past the last one
    gives the null answer. *)
Theorem image_multi_roundtrip m hdr files fuel :
  0 <= hdr -> hdr + 64 + len (multi_payload files) + 3 < 2 ^ 32 -> Forall (fun f => f <> []) files ->
  load m (hdr + 64) (length (multi_payload files)) = multi_payload files -> (length files < fuel)%nat ->
  image_multi_count fuel m hdr = Some (len files) /\
  (forall k f, files !! k = Some f ->
    exists a, image_multi_getimg fuel m hdr (Z.of_nat k) = Some (a, len f) /\ load m a (length f) = f) /\
  (forall idx, len files <= idx -> image_multi_getimg fuel m hdr idx = Some (0, 0)).
Proof.
  intros Hh He Hf Hl Hfuel.
  assert (Hc : image_multi_count fuel m hdr = Some (len files)).
  { unfold image_multi_count. rewrite (data_addr hdr files) by done. by apply (multi_count_spec m hdr files Hh He Hf Hl fuel 0); lia. }
  split; [exact Hc |]. split; [intros k f Hk; by apply (multi_getimg_spec m hdr files) |].
  intros idx Hi. unfold image_multi_getimg. rewrite Hc. by rewrite (proj2 (Z.ltb_ge _ _)) by lia.
Qed.

(** ** Loading *)

(** A blob: the whole image in memory, its data part inside it, and a load
    area that does not wrap. *)
Definition blob_ok (o : image_info_t) : Prop :=
  0 <= start o <= image_start o /\ 0 <= image_len o /\ image_start o + image_len o <= end_ o < 2 ^ 32 /\
  0 <= load_ o /\ load_ o + image_len o < 2 ^ 32.

(** Whether the load area meets the blob. *)
Definition areas_meet (o : image_info_t) : Prop := load_ o < end_ o /\ start o < load_ o + image_len o.

#[export] Instance areas_meet_dec o : Decision (areas_meet o).
Proof. unfold areas_meet. apply _. Defined.

(** The memory after an uncompressed image is loaded. *)
Definition loaded (m : mem) (o : image_info_t) : mem :=
  if decide (load_ o = start o) then m else store_list m (load_ o) (load m (image_start o) (Z.to_nat (image_len o))).

Lemma load_none_spec gz m o : blob_ok o -> comp o = IH_COMP_NONE ->
  exists m', bootm_load_os gz m o =
    (m', if decide (areas_meet o) then BOOTM_ERR_OVERLAP else 0, load_ o + image_len o) /\ meq m' (loaded m o).
Proof.
  intros (H1 & H2 & H3 & H4 & H5) Hc. unfold bootm_load_os, loaded. rewrite Hc. simpl (_ =? _).
  rewrite (wrap_small 32) by lia.
  assert (Ho : (load_ o <? end_ o) && (start o <? load_ o + image_len o) = if decide (areas_meet o) then true else false).
  { unfold areas_meet. case_decide as Hd; zcases; simpl; lia || done. }
  rewrite Ho.
  set (m1 := if load_ o =? start o then m else _).
  exists m1. split; [by destruct (decide (areas_meet o)) |]. unfold m1. clear m1 Ho.
  destruct (Z.eqb_spec (load_ o) (start o)) as [E|E]; [by rewrite decide_True by done |].
  rewrite decide_False by done. destruct (Z.eqb_spec (load_ o) (image_start o)) as [E2|E2]; simpl negb; cbn iota.
  - intros x. rewrite E2, store_list_load. destruct (_ && _); [f_equal; lia | done].
  - pose proof (memmove_spec m (load_ o) (image_start o) (image_len o) H2) as HM.
    destruct (memmove m (load_ o) (image_start o) (image_len o)) as [m' r]. by destruct HM as [HM _].
Qed.

(** Loading an uncompressed image.  When [bootm_load_os] returns 0 the
    load area holds the image's data and the image itself is intact, and it
    returns 0 exactly when the load area does not meet the image.  On an
    overlap the data has still been moved to the load address in full, unless
    the image is executed in place, when nothing is written.  A compression
    other than none and gzip is refused with the memory untouched, and a
    failing decompression asks for a reset. *)
Theorem bootm_load_os_loads gz m o : blob_ok o ->
  (comp o = IH_COMP_NONE -> exists m' rc, bootm_load_os gz m o = (m', rc, load_ o + image_len o) /\
    (rc = 0 \/ rc = BOOTM_ERR_OVERLAP) /\ (rc = 0 <-> ~ areas_meet o) /\
    (rc = 0 -> forall a, start o <= a < end_ o -> m' a = m a) /\
    (rc = 0 \/ load_ o <> start o ->
      load m' (load_ o) (Z.to_nat (image_len o)) = load m (image_start o) (Z.to_nat (image_len o))) /\
    (load_ o = start o -> meq m' m)) /\
  (comp o <> IH_COMP_NONE -> comp o <> IH_COMP_GZIP -> bootm_load_os gz m o = (m, BOOTM_ERR_UNIMPLEMENTED, 0)) /\
  (forall m' rc n, comp o = IH_COMP_GZIP -> rc <> 0 ->
    gz m (load_ o) CONFIG_SYS_BOOTM_LEN (image_start o) (image_len o) = (m', rc, n) ->
    bootm_load_os gz m o = (m', BOOTM_ERR_RESET, 0)).
Proof.
  intros Hb. split_and!.
  - intros Hc. destruct (load_none_spec gz m o Hb Hc) as (m' & E & HM).
    exists m', (if decide (areas_meet o) then BOOTM_ERR_OVERLAP else 0). split; [exact E |].
    destruct Hb as (H1 & H2 & H3 & H4 & H5). unfold loaded in HM.
    assert (HL : load_ o <> start o ->
      load m' (load_ o) (Z.to_nat (image_len o)) = load m (image_start o) (Z.to_nat (image_len o))).
    { intros Hne. rewrite decide_False in HM by done. rewrite HM.
      pose proof (load_store_list m (load_ o) (load m (image_start o) (Z.to_nat (image_len o)))) as HS.
      by rewrite load_length in HS. }
    destruct (decide (areas_meet o)) as [Hd|Hd]; split_and!; try (by auto); try done.
    + intros [? | ?]; [done | auto].
    + intros Hl. by rewrite decide_True in HM by done.
    + intros _ a Ha. rewrite HM. case_decide; [done |]. apply store_list_out. rewrite load_length.
      unfold areas_meet in Hd. lia.
    + intros _. destruct (decide (load_ o = start o)) as [Hx|]; [| auto].
      assert (image_len o = 0) as -> by (unfold areas_meet in Hd; lia). done.
    + intros Hl. by rewrite decide_True in HM by done.
  - intros Hn Hg. unfold bootm_load_os. by rewrite !(proj2 (Z.eqb_neq _ _)) by done.
  - intros m' rc n Hg Hrc E. unfold bootm_load_os. rewrite Hg. simpl (_ =? _). rewrite E.
    unfold truth. by rewrite (proj2 (Z.eqb_neq _ _)) by done.
Qed.

(** ** Witnesses *)

Definition demo_opts : mkimage_opts := mk_opts 0x4a000000 0x100000 0x100100 IH_OS_LINUX IH_ARCH_OR1K 2 IH_COMP_NONE (str "Linux").
Definition demo_payload : list Z := [0x18; 0; 1; 2; 255].
Definition demo_image : list Z := Eval vm_compute in mkimage demo_opts demo_payload.
Definition demo_ram : mem := store_list (fun _ => 0) 0x1000 demo_image.

Lemma demo_opts_ok : opts_ok demo_opts.
Proof. unfold opts_ok. split_and!; try (by vm_compute). bytes_eval. Qed.

Lemma demo_ram_bytes : byte_mem demo_ram.
Proof. apply store_list_byte_mem; [by intros a |]. bytes_eval. Qed.

Lemma demo_ram_kernel : image_get_kernel demo_ram 0x1000 true = (0x1000, 4).
Proof. vm_compute. reflexivity. Qed.

Lemma mkimage_accepted_witness :
  image_get_kernel demo_ram 0x1000 true = (0x1000, 4) /\ image_get_load demo_ram 0x1000 = 0x100000.
Proof.
  destruct (mkimage_accepted demo_ram 0x1000 demo_opts demo_payload demo_opts_ok)
    as (_ & _ & HL & _ & _ & _ & _ & HK); [bytes_eval | lia | simpl; lia | vm_compute; reflexivity |].
  split; [exact (HK eq_refl) | exact HL].
Defined.

Lemma image_corruption_rejected_witness :
  image_get_kernel (store demo_ram 0x1042 7) 0x1000 true = (0, -3).
Proof.
  apply (image_corruption_rejected demo_ram 0x1000 0x1042 7 demo_ram_bytes);
    [done | lia | vm_compute; reflexivity | exact demo_ram_kernel |
     change (image_get_data_size demo_ram 0x1000) with 5; lia | vm_compute; discriminate | lia].
Defined.

Definition demo_files : list (list Z) := [[1; 2; 3]; [4; 5; 6; 7]; [8]].
Definition demo_multi : mem := store_list (fun _ => 0) 0x1040 (multi_payload demo_files).

Lemma image_multi_roundtrip_witness :
  image_multi_count 4 demo_multi 0x1000 = Some 3 /\
  (exists a, image_multi_getimg 4 demo_multi 0x1000 2 = Some (a, 1) /\ load demo_multi a 1 = [8]) /\
  image_multi_getimg 4 demo_multi 0x1000 3 = Some (0, 0).
Proof.
  destruct (image_multi_roundtrip demo_multi 0x1000 demo_files 4) as (H1 & H2 & H3);
    [lia | simpl; lia | by repeat constructor | vm_compute; reflexivity | simpl; lia |].
  split_and!; [exact H1 | exact (H2 2%nat [8] eq_refl) | apply H3; simpl; lia].
Defined.

(** The demo image, its data loaded at [0x2000]. *)
Definition demo_info : image_info_t := mk_image_info 0x1000 0x1045 0x1040 5 0x2000 IH_COMP_NONE 2 IH_OS_LINUX.
Definition no_gunzip (m : mem) (dst dstlen src n : Z) : mem * Z * Z := (m, -1, 0).

Lemma bootm_load_os_loads_witness :
  exists m' rc, bootm_load_os no_gunzip demo_ram demo_info = (m', rc, 0x2005) /\ (rc = 0 \/ rc = BOOTM_ERR_OVERLAP).
Proof.
  destruct (bootm_load_os_loads no_gunzip demo_ram demo_info) as (H & _ & _); [unfold blob_ok; simpl; lia |].
  destruct (H eq_refl) as (m' & rc & E & Hrc & _). exists m', rc. split; [exact E | exact Hrc].
Defined.
