(* ===== verification/Dm9000.v ===== *)
(** * The Ethernet driver: drivers/net/dm9000x.c

    The driver of the DM9000A on the board: registers behind an index port and
    a data port, frames moved through the data port a word at a time.  The
    driver is written against a class of bus operations; what it relies on of
    the chip, as its data sheet and the bus interface of the board
    (rtl/dm9000a/dm9000a_wb_interface.v, which swaps the two bytes of a word)
    have it, is a second class, and [DmChip] is a chip that keeps it.  A loop
    that waits for the chip takes fuel.  The stack that takes a received frame
    is a parameter.

    The theorems: [eth_send] transmits exactly the bytes of its frame, and
    [eth_rx] hands every frame the chip has received to the stack, once and in
    order, leaving out those that are marked as damaged or too short; it ends,
    and no frame that has come when it is called is left behind. *)

From S2P Require Import Prelude Memory Ctype Vsprintf.

Local Open Scope Z_scope.

Definition DM9000_IO : Z := 0xA0000000.
Definition DM9000_DATA : Z := 0xA0000000 + 4.
Definition CONFIG_SYS_HZ : Z := 20.

Definition DM9000_ID : Z := 0x90000A46.
Definition DM9000_PKT_MAX : Z := 1536.
Definition DM9000_PKT_RDY : Z := 1.

Definition DM9000_NCR : Z := 0x00.
Definition DM9000_NSR : Z := 0x01.
Definition DM9000_TCR : Z := 0x02.
Definition DM9000_RCR : Z := 0x05.
Definition DM9000_BPTR : Z := 0x08.
Definition DM9000_FCTR : Z := 0x09.
Definition DM9000_FCR : Z := 0x0A.
Definition DM9000_EPCR : Z := 0x0B.
Definition DM9000_EPAR : Z := 0x0C.
Definition DM9000_EPDRL : Z := 0x0D.
Definition DM9000_EPDRH : Z := 0x0E.
Definition DM9000_PAR : Z := 0x10.
Definition DM9000_GPCR : Z := 0x1e.
Definition DM9000_GPR : Z := 0x1f.
Definition DM9000_VIDL : Z := 0x28.
Definition DM9000_VIDH : Z := 0x29.
Definition DM9000_PIDL : Z := 0x2A.
Definition DM9000_PIDH : Z := 0x2B.
Definition DM9000_SMCR : Z := 0x2F.
Definition DM9000_PHY : Z := 0x40.
Definition DM9000_MRCMDX : Z := 0xF0.
Definition DM9000_MRCMD : Z := 0xF2.
Definition DM9000_MRRL : Z := 0xF4.
Definition DM9000_MRRH : Z := 0xF5.
Definition DM9000_MWCMD : Z := 0xF8.
Definition DM9000_TXPLL : Z := 0xFC.
Definition DM9000_TXPLH : Z := 0xFD.
Definition DM9000_ISR : Z := 0xFE.
Definition DM9000_IMR : Z := 0xFF.

(** [NSR_TX1END | NSR_TX2END] and [IMR_PTM]. *)
Definition NSR_TXEND : Z := 0x0C.
Definition IMR_PTM : Z := 0x02.
Definition TCR_TXREQ : Z := 0x01.

(** ** The bus *)

Class dm_ops (W : Type) := {
  outb : Z -> Z -> W -> W;            (* value, port *)
  outw : Z -> Z -> W -> W;
  outl : Z -> Z -> W -> W;
  inb : Z -> W -> Z * W;
  inw : Z -> W -> Z * W;
  inl_ : Z -> W -> Z * W;
  udelay : Z -> W -> W;
  timestamp : W -> Z;
}.

(** The mode that [eth_init] has found: which of the three sets of routines
    [outblk], [inblk] and [rx_status] point to. *)
Inductive io_width := IO8 | IO16 | IO32.

(** [__le16_to_cpu] of a big-endian machine. *)
Definition swab16 (x : Z) : Z := u16 (Z.lor (Z.shiftl (Z.land x 0x00ff) 8) (Z.shiftr (Z.land x 0xff00) 8)).

Section driver.
Context `{dm_ops W}.

Definition get_timer (base_ticks : Z) (w : W) : Z := u32 (timestamp w - base_ticks).

Definition DM9000_ior (reg : Z) (w : W) : Z * W := inb DM9000_DATA (outb reg DM9000_IO w).

Definition DM9000_iow (reg value : Z) (w : W) : W := outb value DM9000_DATA (outb reg DM9000_IO w).

(** ** Blocks *)

Fixpoint out8 (n : nat) (m : mem) (p : Z) (w : W) : W :=
  match n with O => w | S n => out8 n m (p + 1) (outb (m p) DM9000_DATA w) end.
Fixpoint out16 (n : nat) (m : mem) (p : Z) (w : W) : W :=
  match n with O => w | S n => out16 n m (p + 2) (outw (be_val (load m p 2)) DM9000_DATA w) end.
Fixpoint out32 (n : nat) (m : mem) (p : Z) (w : W) : W :=
  match n with O => w | S n => out32 n m (p + 4) (outl (be_val (load m p 4)) DM9000_DATA w) end.

Definition outblk (wd : io_width) (m : mem) (data_ptr count : Z) (w : W) : W :=
  match wd with
  | IO8 => out8 (Z.to_nat count) m data_ptr w
  | IO16 => out16 (Z.to_nat ((count + 1) / 2)) m data_ptr w
  | IO32 => out32 (Z.to_nat ((count + 3) / 4)) m data_ptr w
  end.

Fixpoint in8 (n : nat) (m : mem) (p : Z) (w : W) : mem * W :=
  match n with O => (m, w) | S n => let '(v, w) := inb DM9000_DATA w in in8 n (store m p v) (p + 1) w end.
Fixpoint in16 (n : nat) (m : mem) (p : Z) (w : W) : mem * W :=
  match n with O => (m, w) | S n => let '(v, w) := inw DM9000_DATA w in in16 n (store_list m p (be_bytes 2 v)) (p + 2) w end.
Fixpoint in32 (n : nat) (m : mem) (p : Z) (w : W) : mem * W :=
  match n with O => (m, w) | S n => let '(v, w) := inl_ DM9000_DATA w in in32 n (store_list m p (be_bytes 4 v)) (p + 4) w end.

Definition inblk (wd : io_width) (m : mem) (data_ptr count : Z) (w : W) : mem * W :=
  match wd with
  | IO8 => in8 (Z.to_nat count) m data_ptr w
  | IO16 => in16 (Z.to_nat ((count + 1) / 2)) m data_ptr w
  | IO32 => in32 (Z.to_nat ((count + 3) / 4)) m data_ptr w
  end.

(** [*RxStatus] and [*RxLen]. *)
Definition rx_status (wd : io_width) (w : W) : Z * Z * W :=
  let w := outb DM9000_MRCMD DM9000_IO w in
  match wd with
  | IO32 =>
      let '(tmpdata, w) := inl_ DM9000_DATA w in
      (swab16 (u16 tmpdata), swab16 (u16 (Z.shiftr tmpdata 16)), w)
  | IO16 =>
      let '(s, w) := inw DM9000_DATA w in
      let '(l, w) := inw DM9000_DATA w in
      (swab16 s, swab16 l, w)
  | IO8 =>
      let '(s0, w) := inb DM9000_DATA w in
      let '(s1, w) := inb DM9000_DATA w in
      let '(l0, w) := inb DM9000_DATA w in
      let '(l1, w) := inb DM9000_DATA w in
      (swab16 (u16 (s0 + Z.shiftl s1 8)), swab16 (u16 (l0 + Z.shiftl l1 8)), w)
  end.

(** ** Starting the chip *)

Definition dm9000_probe (w : W) : Z * W :=
  let '(a, w) := DM9000_ior DM9000_VIDL w in
  let '(b, w) := DM9000_ior DM9000_VIDH w in
  let '(c, w) := DM9000_ior DM9000_PIDL w in
  let '(d, w) := DM9000_ior DM9000_PIDH w in
  let id_val := Z.lor (Z.lor (Z.lor a (Z.shiftl b 8)) (Z.shiftl c 16)) (Z.shiftl d 24) in
  (if id_val =? DM9000_ID then 0 else -1, w).

(** [do udelay (250); while (DM9000_ior (DM9000_NCR) & 1)] *)
Fixpoint reset_wait (fuel : nat) (w : W) : option W :=
  match fuel with
  | O => None
  | S f =>
      let '(v, w) := DM9000_ior DM9000_NCR (udelay 250 w) in
      if truth (Z.land v 1) then reset_wait f w else Some w
  end.

(** The check at the end only prints. *)
Definition dm9000_reset (fuel : nat) (w : W) : option W :=
  let w := DM9000_iow DM9000_GPCR 1 w in
  let w := DM9000_iow DM9000_GPR 0 w in
  let w := DM9000_iow DM9000_NCR 3 w in
  w ← reset_wait fuel w;
  let w := DM9000_iow DM9000_NCR 0 w in
  let w := DM9000_iow DM9000_NCR 3 w in
  w ← reset_wait fuel w;
  let '(v, w) := DM9000_ior DM9000_PIDL w in
  Some (if negb (v =? 0) then w else (DM9000_ior DM9000_PIDH w).2).

Definition phy_read (reg : Z) (w : W) : Z * W :=
  let w := DM9000_iow DM9000_EPAR (Z.lor DM9000_PHY reg) w in
  let w := DM9000_iow DM9000_EPCR 0xc w in
  let w := udelay 100 w in
  let w := DM9000_iow DM9000_EPCR 0x0 w in
  let '(h, w) := DM9000_ior DM9000_EPDRH w in
  let '(l, w) := DM9000_ior DM9000_EPDRL w in
  (Z.lor (Z.shiftl h 8) l, w).

Definition phy_write (reg value : Z) (w : W) : W :=
  let w := DM9000_iow DM9000_EPAR (Z.lor DM9000_PHY reg) w in
  let w := DM9000_iow DM9000_EPDRL (Z.land value 0xff) w in
  let w := DM9000_iow DM9000_EPDRH (Z.land (Z.shiftr value 8) 0xff) w in
  let w := DM9000_iow DM9000_EPCR 0xa w in
  let w := udelay 50 w in
  DM9000_iow DM9000_EPCR 0x0 w.

Definition read_srom_word (offset : Z) (w : W) : Z * W :=
  let w := DM9000_iow DM9000_EPAR offset w in
  let w := DM9000_iow DM9000_EPCR 0x4 w in
  let w := udelay 8000 w in
  let w := DM9000_iow DM9000_EPCR 0x0 w in
  let '(l, w) := DM9000_ior DM9000_EPDRL w in
  let '(h, w) := DM9000_ior DM9000_EPDRH w in
  (u16 (l + Z.shiftl h 8), w).

Definition write_srom_word (offset val : Z) (w : W) : W :=
  let w := DM9000_iow DM9000_EPAR offset w in
  let w := DM9000_iow DM9000_EPDRH (Z.land (Z.shiftr val 8) 0xff) w in
  let w := DM9000_iow DM9000_EPDRL (Z.land val 0xff) w in
  let w := DM9000_iow DM9000_EPCR 0x12 w in
  let w := udelay 8000 w in
  DM9000_iow DM9000_EPCR 0 w.

Definition io_mode_width (io_mode : Z) : io_width :=
  if io_mode =? 0 then IO16 else if io_mode =? 1 then IO32 else IO8.

(** [for (i = 0; i < 6; i++) ((u16 * ) bd->bi_enetaddr)[i] = read_srom_word (i)] *)
Fixpoint read_srom (n : nat) (i : Z) (m : mem) (enetaddr : Z) (w : W) : mem * W :=
  match n with
  | O => (m, w)
  | S n =>
      let '(v, w) := read_srom_word i w in
      read_srom n (i + 1) (store_list m (enetaddr + 2 * i) (be_bytes 2 v)) enetaddr w
  end.

(** The six bytes of the text in [ethaddr], zeros when it is not set. *)
Fixpoint parse_ethaddr (n : nat) (s : option (list Z)) : list Z :=
  match n with
  | O => []
  | S n =>
      match s with
      | None => 0 :: parse_ethaddr n None
      | Some s => let '(v, e) := simple_strtoul s 16 in u8 v :: parse_ethaddr n (Some (tail e))
      end
  end.

Definition is_zero_ether_addr (m : mem) (a : Z) : bool :=
  forallb (fun b => b =? 0) (load m a 6).
Definition is_multicast_ether_addr (m : mem) (a : Z) : bool := truth (Z.land 1 (m a)).

Fixpoint write_regs (l : list Z) (oft : Z) (w : W) : W :=
  match l with [] => w | v :: l => write_regs l (oft + 1) (DM9000_iow oft v w) end.

(** At most [n] looks at the link. *)
Fixpoint link_wait (n : nat) (w : W) : bool * W :=
  match n with
  | O => (false, w)
  | S n =>
      let '(v, w) := phy_read 1 w in
      if truth (Z.land v 0x20) then (true, w) else link_wait n (udelay 1000 w)
  end.

(** The code, the mode and the memory with the board's address at
    [enetaddr]; [ethaddr] is the value of the variable. *)
Definition eth_init (fuel : nat) (wd : io_width) (ethaddr : option (list Z)) (m : mem) (enetaddr : Z) (w : W) : option (Z * io_width * mem * W) :=
  w ← dm9000_reset fuel w;
  let '(rc, w) := dm9000_probe w in
  if rc <? 0 then Some (-1, wd, m, w)
  else
    let '(v, w) := DM9000_ior DM9000_ISR w in
    let wd := io_mode_width (Z.shiftr v 6) in
    let w := DM9000_iow DM9000_GPR 0x00 w in
    let w := phy_write 4 0x41 w in
    let w := phy_write 0 0x1100 w in
    let w := DM9000_iow DM9000_GPCR 0x01 w in
    let w := DM9000_iow DM9000_GPR 0x00 w in
    let w := DM9000_iow DM9000_NCR 0x0 w in
    let w := DM9000_iow DM9000_TCR 0 w in
    let w := DM9000_iow DM9000_BPTR 0x3f w in
    let w := DM9000_iow DM9000_FCTR 0x38 w in
    let w := DM9000_iow DM9000_FCR 0x0 w in
    let w := DM9000_iow DM9000_SMCR 0 w in
    let w := DM9000_iow DM9000_NSR 0x2c w in
    let w := DM9000_iow DM9000_ISR 0x0f w in
    let '(m, w) := read_srom 6 0 m enetaddr w in
    let m := if is_zero_ether_addr m enetaddr || is_multicast_ether_addr m enetaddr
             then store_list m enetaddr (parse_ethaddr 6 ethaddr) else m in
    let w := write_regs (load m enetaddr 6) DM9000_PAR w in
    let w := write_regs (replicate 8 0xff) 0x16 w in
    let w := DM9000_iow DM9000_RCR 0x31 w in
    let w := DM9000_iow DM9000_IMR 0x80 w in
    let '(ok, w) := link_wait (Z.to_nat 10000) w in
    Some (0, wd, m, if (ok : bool) then (phy_read 17 w).2 else w).

(** ** Sending *)

(** The second register is read only when the first shows the end. *)
Fixpoint send_wait (fuel : nat) (tmo : Z) (w : W) : option W :=
  match fuel with
  | O => None
  | S f =>
      let '(v, w) := DM9000_ior DM9000_NSR w in
      let '(done_, w) :=
        if truth (Z.land v NSR_TXEND) then let '(v, w) := DM9000_ior DM9000_ISR w in (truth (Z.land v IMR_PTM), w)
        else (false, w) in
      if (done_ : bool) then Some w
      else if tmo <=? get_timer 0 w then Some w
      else send_wait f tmo w
  end.

(** The code is always 0. *)
Definition eth_send (fuel : nat) (wd : io_width) (m : mem) (packet length : Z) (w : W) : option W :=
  let w := DM9000_iow DM9000_ISR IMR_PTM w in
  let w := outb DM9000_MWCMD DM9000_IO w in
  let w := outblk wd m packet length w in
  let w := DM9000_iow DM9000_TXPLL (Z.land length 0xff) w in
  let w := DM9000_iow DM9000_TXPLH (Z.land (Z.shiftr length 8) 0xff) w in
  let w := DM9000_iow DM9000_TCR TCR_TXREQ w in
  let tmo := u32 (get_timer 0 w + 5 * CONFIG_SYS_HZ) in
  w ← send_wait fuel tmo w;
  Some (DM9000_iow DM9000_ISR IMR_PTM w).

Definition eth_halt (w : W) : W :=
  let w := phy_write 0 0x8000 w in
  let w := DM9000_iow DM9000_GPR 0x01 w in
  let w := DM9000_iow DM9000_IMR 0x80 w in
  DM9000_iow DM9000_RCR 0x00 w.

(** ** Receiving *)

Section receiver.
(** The stack: [NetReceive (NetRxPackets[0], len)], on the memory, its own
    state and the chip, which it may send with. *)
Context {St : Type} (NetReceive : Z -> mem * St * W -> option (mem * St * W)).

Definition rx_bad (RxStatus RxLen : Z) : bool :=
  truth (Z.land RxStatus 0xbf00) || (RxLen <? 0x40) || (DM9000_PKT_MAX <? RxLen).

Fixpoint rx_loop (f fuel : nat) (wd : io_width) (rdptr : Z) (s : mem * St * W) : option (mem * St * W) :=
  match f with
  | O => None
  | S f =>
      let '(m, st, w) := s in
      let w := (DM9000_ior DM9000_MRRH w).2 in
      let w := (DM9000_ior DM9000_MRRL w).2 in
      let w := (DM9000_ior DM9000_MRCMDX w).2 in
      let '(v, w) := inb DM9000_DATA w in
      let rxbyte := Z.land v 0x03 in
      if DM9000_PKT_RDY <? rxbyte then Some (m, st, DM9000_iow DM9000_ISR 0x80 (DM9000_iow DM9000_RCR 0x00 w))
      else if negb (rxbyte =? DM9000_PKT_RDY) then Some (m, st, w)
      else
        let '(RxStatus, RxLen, w) := rx_status wd w in
        let '(m, w) := inblk wd m rdptr RxLen w in
        s ← (if rx_bad RxStatus RxLen then
               w ← (if DM9000_PKT_MAX <? RxLen then dm9000_reset fuel w else Some w);
               Some (m, st, w)
             else NetReceive RxLen (m, st, w));
        rx_loop f fuel wd rdptr s
  end.

Definition eth_rx (fuel : nat) (wd : io_width) (rdptr : Z) (s : mem * St * W) : option (mem * St * W) :=
  let '(m, st, w) := s in
  let '(v, w) := DM9000_ior DM9000_ISR w in
  if negb (truth (Z.land v 1)) then Some (m, st, w)
  else rx_loop fuel fuel wd rdptr (m, st, DM9000_iow DM9000_ISR 0x01 w).
End receiver.
End driver.

(** ** What the chip promises *)

(** A received frame as the chip keeps it: its status, its bytes, and the byte
    that fills up a word when their number is odd. *)
Record frame := mk_frame { f_status : Z; f_data : list Z; f_pad : Z }.

Definition padded (f : frame) : list Z := f_data f ++ if Z.odd (len (f_data f)) then [f_pad f] else [].

(** Four bytes in front of the data: the ready mark, the status and the
    length. *)
Definition stored (f : frame) : list Z :=
  [1; f_status f; len (f_data f) mod 256; len (f_data f) / 256] ++ padded f.

(** The receiver discards frames of more than 1522 bytes. *)
Definition frame_ok (f : frame) : Prop := byte (f_status f) /\ Forall byte (f_data f) /\ byte (f_pad f) /\ len (f_data f) <= 1522.

(** [traffic] is all that the network ever sends to the board.  [came] frames
    of it have been received and [took] of these have been read, [latch] is the
    bit of the interrupt status for a reception, and [sent] is what has been
    given to the transmitter.  The chip may receive a frame at any time. *)
Class dm_spec (W : Type) `{dm_ops W} (traffic : list frame) := {
  came : W -> nat;
  took : W -> nat;
  latch : W -> bool;
  sent : W -> list (list Z);
  idle : W -> Prop;
  streaming : list Z -> W -> Prop;
  filling : list Z -> W -> Prop;
  sending : nat -> W -> Prop;
  sent_off : W -> Prop;
  polls : nat;
  rx_rel (n : nat) (w w' : W) : Prop :=
    took w' = (took w + n)%nat /\ (came w <= came w')%nat /\ (latch w = true -> latch w' = true) /\ ((came w < came w')%nat -> latch w' = true);
  keeps (w w' : W) : Prop := rx_rel 0 w w' /\ sent w' = sent w;
  traffic_ok : Forall frame_ok traffic;
  counts : forall w, (took w <= came w <= length traffic)%nat;
  register_read : forall reg w, idle w -> reg = DM9000_ISR \/ reg = DM9000_MRRH \/ reg = DM9000_MRRL ->
    let '(v, w') := DM9000_ior reg w in idle w' /\ keeps w w' /\ (reg = DM9000_ISR -> Z.land v 1 = 0 -> latch w = false);
  latch_clear : forall w, idle w ->
    let w' := DM9000_iow DM9000_ISR 0x01 w in
    idle w' /\ took w' = took w /\ sent w' = sent w /\ (came w <= came w')%nat /\ ((came w < came w')%nat -> latch w' = true);
  ready_read : forall w, idle w ->
    let '(v, w') := inb DM9000_DATA (DM9000_ior DM9000_MRCMDX w).2 in
    idle w' /\ keeps w w' /\
    ((Z.land v 3 = 1 /\ (took w' < came w')%nat) \/
     (Z.land v 3 = 0 /\ (came w <= took w')%nat /\ (took w' = came w' \/ latch w' = true)));
  stream_start : forall f w, idle w -> (took w < came w)%nat -> traffic !! took w = Some f ->
    streaming (stored f) (outb DM9000_MRCMD DM9000_IO w) /\ keeps w (outb DM9000_MRCMD DM9000_IO w);
  stream_word : forall a b rest w, streaming (a :: b :: rest) w ->
    let '(v, w') := inw DM9000_DATA w in
    v = be_val [a; b] /\ sent w' = sent w /\
    match rest with
    | [] => idle w' /\ rx_rel 1 w w'
    | _ => streaming rest w' /\ rx_rel 0 w w'
    end;
  tx_status_clear : forall w, idle w -> idle (DM9000_iow DM9000_ISR IMR_PTM w) /\ keeps w (DM9000_iow DM9000_ISR IMR_PTM w);
  tx_open : forall w, idle w -> filling [] (outb DM9000_MWCMD DM9000_IO w) /\ keeps w (outb DM9000_MWCMD DM9000_IO w);
  tx_word : forall l v w, filling l w -> 0 <= v < 2 ^ 16 ->
    filling (l ++ be_bytes 2 v) (outw v DM9000_DATA w) /\ keeps w (outw v DM9000_DATA w);
  tx_start : forall l lo hi w, filling l w -> byte lo -> byte hi -> lo + 256 * hi <= len l ->
    let w' := DM9000_iow DM9000_TCR TCR_TXREQ (DM9000_iow DM9000_TXPLH hi (DM9000_iow DM9000_TXPLL lo w)) in
    sending polls w' /\ rx_rel 0 w w' /\ sent w' = sent w ++ [take (Z.to_nat (lo + 256 * hi)) l];
  tx_poll : forall k w, sending k w ->
    let '(v, w1) := DM9000_ior DM9000_NSR w in
    keeps w w1 /\
    if Z.land v NSR_TXEND =? 0 then exists k', k = S k' /\ sending k' w1
    else
      let '(v, w2) := DM9000_ior DM9000_ISR w1 in
      keeps w1 w2 /\ if Z.land v IMR_PTM =? 0 then exists k', k = S k' /\ sending k' w2 else sent_off w2;
  tx_done : forall w, sent_off w -> idle (DM9000_iow DM9000_ISR IMR_PTM w) /\ keeps w (DM9000_iow DM9000_ISR IMR_PTM w);
  tx_left : forall k w, sending k w -> keeps w (DM9000_iow DM9000_ISR IMR_PTM w);
}.

Section proofs.
Context `{Hspec : dm_spec W traffic}.

Lemma rx_rel_trans n k w1 w2 w3 : rx_rel n w1 w2 -> rx_rel k w2 w3 -> rx_rel (n + k) w1 w3.
Proof.
  intros (H1 & H2 & H3 & H4) (H1' & H2' & H3' & H4'). split_and!; [lia | lia | auto |].
  intros Hlt. destruct (decide (came w1 < came w2)%nat); [auto | apply H4'; lia].
Qed.

Lemma keeps_refl w : keeps w w.
Proof. split; [| done]. split_and!; (lia || done). Qed.

Lemma keeps_trans w1 w2 w3 : keeps w1 w2 -> keeps w2 w3 -> keeps w1 w3.
Proof. intros [H1 E1] [H2 E2]. split; [exact (rx_rel_trans 0 0 _ _ _ H1 H2) | congruence]. Qed.

(** ** Sending *)

Lemma out16_spec n : forall m p l w, byte_mem m -> filling l w ->
  filling (l ++ load m p (2 * n)) (out16 n m p w) /\ keeps w (out16 n m p w).
Proof.
  induction n as [|n IH]; intros m p l w Hm Hw; cbn [out16].
  - rewrite app_nil_r. split; [done | apply keeps_refl].
  - pose proof (load_byte_mem m p 2 Hm) as Hb.
    destruct (tx_word l (be_val (load m p 2)) w Hw) as [Hf Hk]; [exact (be_val_range _ Hb) |].
    assert (Eb : be_bytes 2 (be_val (load m p 2)) = [m p; m (p + 1)]) by exact (be_bytes_val _ Hb).
    rewrite Eb in Hf. destruct (IH m (p + 2) (l ++ [m p; m (p + 1)]) (outw (be_val (load m p 2)) DM9000_DATA w) Hm Hf) as [Hf' Hk'].
    replace (2 * S n)%nat with (S (S (2 * n))) by lia. cbn [load]. replace (p + 1 + 1) with (p + 2) by lia.
    rewrite <- app_assoc in Hf'. split; [exact Hf' | by eapply keeps_trans].
Qed.

Lemma send_wait_spec k : forall fuel tmo w, sending k w -> (k < fuel)%nat ->
  exists w', send_wait fuel tmo w = Some w' /\ keeps w w' /\ (sent_off w' \/ exists k', sending k' w').
Proof.
  induction k as [|k IH]; intros [|fuel] tmo w Hs Hf; try lia; cbn [send_wait]; pose proof (tx_poll _ _ Hs) as Hp;
    destruct (DM9000_ior DM9000_NSR w) as [v w1]; destruct Hp as [Hk Hp]; unfold truth.
  - destruct (Z.land v NSR_TXEND =? 0); cbn [negb]; [by destruct Hp as (? & ? & _) |].
    destruct (DM9000_ior DM9000_ISR w1) as [v2 w2]. destruct Hp as [Hk2 Hp].
    destruct (Z.land v2 IMR_PTM =? 0); cbn [negb]; [by destruct Hp as (? & ? & _) |].
    exists w2. split; [done |]. split; [by eapply keeps_trans | by left].
  - assert (Hnext : forall w2, keeps w w2 -> (exists k', S k = S k' /\ sending k' w2) ->
      exists w', (if tmo <=? get_timer 0 w2 then Some w2 else send_wait fuel tmo w2) = Some w' /\ keeps w w' /\ (sent_off w' \/ exists k', sending k' w')).
    { intros w2 Hk2 (k' & [= <-] & Hs'). destruct (tmo <=? get_timer 0 w2); [exists w2; eauto |].
      destruct (IH fuel tmo w2 Hs' ltac:(lia)) as (w' & E & Hk' & Ho). exists w'. split; [done |]. split; [by eapply keeps_trans | done]. }
    destruct (Z.land v NSR_TXEND =? 0); cbn [negb]; [by apply Hnext |].
    destruct (DM9000_ior DM9000_ISR w1) as [v2 w2]. destruct Hp as [Hk2 Hp].
    destruct (Z.land v2 IMR_PTM =? 0); cbn [negb]; [apply Hnext; [by eapply keeps_trans | done] |].
    exists w2. split; [done |]. split; [by eapply keeps_trans | by left].
Qed.

Lemma send_core fuel m packet n w : idle w -> (polls < fuel)%nat -> byte_mem m -> 0 <= n < 2 ^ 16 ->
  exists w', eth_send fuel IO16 m packet n w = Some w' /\ sent w' = sent w ++ [load m packet (Z.to_nat n)] /\ rx_rel 0 w w' /\
    (idle w' \/ exists k w1, sending k w1 /\ w' = DM9000_iow DM9000_ISR IMR_PTM w1).
Proof.
  intros Hi Hf Hm Hn. unfold eth_send. cbn [outblk].
  destruct (tx_status_clear w Hi) as [Hi1 Hk1]. destruct (tx_open _ Hi1) as [Hf2 Hk2].
  set (w2 := outb DM9000_MWCMD DM9000_IO _) in *. set (k := Z.to_nat ((n + 1) / 2)).
  destruct (out16_spec k m packet [] w2 Hm Hf2) as [Hf3 Hk3]. set (w3 := out16 k m packet w2) in *. cbn [app] in Hf3.
  change 0xff with (Z.ones 8). rewrite !Z.land_ones, Z.shiftr_div_pow2 by lia. change (2 ^ 8) with 256.
  destruct (tx_start (load m packet (2 * k)) (n mod 256) (n / 256 mod 256) w3 Hf3) as (Hs & Hr4 & Et).
  { unfold byte. Z.div_mod_to_equations. lia. }
  { unfold byte. Z.div_mod_to_equations. lia. }
  { rewrite load_length. unfold k. Z.div_mod_to_equations. lia. }
  set (w4 := DM9000_iow DM9000_TCR TCR_TXREQ _) in *.
  destruct (send_wait_spec polls fuel (u32 (get_timer 0 w4 + 5 * CONFIG_SYS_HZ)) w4 Hs Hf) as (w5 & -> & Hk5 & Ho). cbn [mbind option_bind].
  assert (Hk6 : keeps w5 (DM9000_iow DM9000_ISR IMR_PTM w5)) by (destruct Ho as [Ho|(k' & Ho)]; [apply (tx_done w5 Ho) | exact (tx_left k' w5 Ho)]).
  exists (DM9000_iow DM9000_ISR IMR_PTM w5). split; [done |].
  assert (Hk : keeps w w3) by (eapply keeps_trans; [exact Hk1 |]; eapply keeps_trans; [exact Hk2 | exact Hk3]).
  assert (Hk' : keeps w4 (DM9000_iow DM9000_ISR IMR_PTM w5)) by (by eapply keeps_trans). split_and!.
  - rewrite (proj2 Hk'), Et, (proj2 Hk). do 2 f_equal. replace (n mod 256 + 256 * (n / 256 mod 256)) with n by (Z.div_mod_to_equations; lia).
    replace (2 * k)%nat with (Z.to_nat n + (2 * k - Z.to_nat n))%nat by (unfold k; Z.div_mod_to_equations; lia).
    rewrite load_app. apply take_app_length'. by rewrite load_length.
  - exact (rx_rel_trans 0 0 _ _ _ (proj1 Hk) (rx_rel_trans 0 0 _ _ _ Hr4 (proj1 Hk'))).
  - destruct Ho as [Ho|(k' & Ho)]; [left; apply (tx_done w5 Ho) | right; by exists k', w5].
Qed.

(** ** Receiving *)

(** While a frame is read: [l] is left of it. *)
Definition at_stream (w0 : W) (l : list Z) (w : W) : Prop :=
  sent w = sent w0 /\ match l with [] => idle w /\ rx_rel 1 w0 w | _ => streaming l w /\ rx_rel 0 w0 w end.

Lemma stream_step w0 a b rest w : at_stream w0 (a :: b :: rest) w ->
  let '(v, w') := inw DM9000_DATA w in v = be_val [a; b] /\ at_stream w0 rest w'.
Proof.
  intros (Es & Hs & Hr). pose proof (stream_word a b rest w Hs) as Hw. destruct (inw DM9000_DATA w) as [v w'].
  destruct Hw as (-> & Es' & Hw). split; [done |]. split; [congruence |].
  destruct rest; destruct Hw as [Hw Hr']; (split; [done |]); exact (rx_rel_trans 0 _ _ _ _ Hr Hr').
Qed.

Lemma in16_spec w0 n : forall l m p w, length l = (2 * n)%nat -> Forall byte l -> at_stream w0 l w ->
  let '(m', w') := in16 n m p w in m' = store_list m p l /\ at_stream w0 [] w'.
Proof.
  induction n as [|n IH]; intros l m p w Hl Hb Hw; cbn [in16].
  - destruct l; [done | cbn in Hl; lia].
  - destruct l as [|a [|b rest]]; [cbn in Hl; lia .. |]. pose proof (stream_step w0 a b rest w Hw) as Hs.
    destruct (inw DM9000_DATA w) as [v w1]. destruct Hs as [-> Hs].
    apply Forall_cons in Hb as [Ha Hb]. apply Forall_cons in Hb as [Hb' Hb].
    replace (be_bytes 2 (be_val [a; b])) with [a; b] by (symmetry; apply (be_bytes_val [a; b]); auto using Forall_cons_2, Forall_nil_2).
    specialize (IH rest (store_list m p [a; b]) (p + 2) w1 ltac:(cbn in Hl; lia) Hb Hs). destruct (in16 n _ _ w1) as [m' w'].
    destruct IH as [-> Hs']. split; [| done]. cbn [store_list]. by replace (p + 1 + 1) with (p + 2) by lia.
Qed.

Lemma swab_pair a b : byte a -> byte b -> swab16 (be_val [a; b]) = b * 256 + a.
Proof.
  unfold byte, swab16. intros Ha Hb. replace (be_val [a; b]) with (a * 256 + b) by (cbn; lia).
  change 0x00ff with (Z.ones 8). rewrite Z.land_ones by lia.
  assert (E : Z.shiftr (Z.land (a * 256 + b) 0xff00) 8 = a).
  { change 0xff00 with (Z.shiftl (Z.ones 8) 8). rewrite Z.shiftr_land, Z.shiftr_shiftl_l by lia.
    change (Z.shiftl (Z.ones 8) (8 - 8)) with (Z.ones 8). rewrite Z.land_ones, Z.shiftr_div_pow2 by lia. Z.div_mod_to_equations; lia. }
  rewrite E, Z.shiftl_mul_pow2 by lia. change (2 ^ 8) with 256. replace ((a * 256 + b) mod 256) with b by (Z.div_mod_to_equations; lia).
  rewrite Z.lor_comm. assert (Z.land a (b * 256) = 0) as El.
  { change 256 with (2 ^ 8). rewrite <- Z.shiftl_mul_pow2 by lia. apply Z.bits_inj'. intros i Hi. rewrite Z.land_spec, Z.bits_0.
    destruct (Z.ltb_spec i 8); [rewrite Z.shiftl_spec_low by lia; apply andb_false_r |].
    rewrite (Z.bits_above_log2 a i); [done | lia |]. destruct (decide (a = 0)) as [->|]; [cbn; lia |]. apply Z.log2_lt_pow2; [lia |].
    apply (Z.lt_le_trans _ (2 ^ 8)); [lia |]. apply Z.pow_le_mono_r; lia. }
  rewrite <- Z.lxor_lor, <- Z.add_nocarry_lxor by done. rewrite (wrap_small 16) by lia. lia.
Qed.

(** Neither marked as damaged nor too short. *)
Definition good (f : frame) : bool := (Z.land (f_status f) 0xbf =? 0) && (64 <=? len (f_data f)).

Lemma status_bits s : byte s -> truth (Z.land (s * 256 + 1) 0xbf00) = negb (Z.land s 0xbf =? 0).
Proof.
  unfold byte. intros Hs.
  assert (E : forallb (fun s => Bool.eqb (truth (Z.land (s * 256 + 1) 0xbf00)) (negb (Z.land s 0xbf =? 0))) (seqZ 0 256) = true) by (vm_compute; reflexivity).
  rewrite forallb_forall in E. apply eqb_prop, E, list_elem_of_In, elem_of_seqZ. lia.
Qed.

Lemma bad_good f : frame_ok f -> rx_bad (f_status f * 256 + 1) (len (f_data f)) = negb (good f) /\ (DM9000_PKT_MAX <? len (f_data f)) = false.
Proof.
  intros (Hs & _ & _ & Hl). unfold rx_bad, good, DM9000_PKT_MAX. rewrite status_bits by done. rewrite (proj2 (Z.ltb_ge 1536 _)) by lia.
  split; [| done]. rewrite orb_false_r, negb_andb. f_equal. zcases; (lia || done).
Qed.

Lemma padded_length f : length (padded f) = (2 * Z.to_nat ((len (f_data f) + 1) / 2))%nat.
Proof.
  unfold padded. rewrite length_app. pose proof (Zdiv2_odd_eqn (len (f_data f))) as E. rewrite Z.div2_div in E.
  destruct (Z.odd (len (f_data f))); cbn [length]; Z.div_mod_to_equations; lia.
Qed.

Lemma padded_bytes f : frame_ok f -> Forall byte (padded f).
Proof. intros (_ & Hd & Hp & _). unfold padded. apply Forall_app_2; [done |]. destruct (Z.odd _); auto using Forall_cons_2, Forall_nil_2. Qed.

(** One frame is read: its status, its length and its bytes. *)
Lemma take_frame f m p w : idle w -> (took w < came w)%nat -> traffic !! took w = Some f ->
  let '(s, l, w1) := rx_status IO16 w in
  let '(m', w2) := inblk IO16 m p l w1 in
  s = f_status f * 256 + 1 /\ l = len (f_data f) /\ m' = store_list m p (padded f) /\ idle w2 /\ rx_rel 1 w w2.
Proof.
  intros Hi Hlt Hf. assert (Hok : frame_ok f) by (eapply Forall_lookup_1; [exact traffic_ok | exact Hf]).
  pose proof Hok as (Hs & _ & _ & Hl). unfold rx_status. destruct (stream_start f w Hi Hlt Hf) as [Hst [Hr Es]].
  set (w0 := outb DM9000_MRCMD DM9000_IO w) in *. assert (Ha : at_stream w (stored f) w0) by (split; [done | by split]).
  unfold stored in Ha. cbn [app] in Ha. pose proof (stream_step _ _ _ _ _ Ha) as H1. destruct (inw DM9000_DATA w0) as [v w1]. destruct H1 as [-> Ha1].
  pose proof (stream_step _ _ _ _ _ Ha1) as H2. destruct (inw DM9000_DATA w1) as [v w2]. destruct H2 as [-> Ha2].
  assert (Hlb : byte (len (f_data f) mod 256) /\ byte (len (f_data f) / 256)) by (unfold byte; Z.div_mod_to_equations; lia).
  rewrite (swab_pair 1), (swab_pair (len (f_data f) mod 256)) by (done || apply Hlb). cbn [inblk].
  replace (len (f_data f) / 256 * 256 + len (f_data f) mod 256) with (len (f_data f)) by (Z.div_mod_to_equations; lia).
  pose proof (in16_spec w _ (padded f) m p w2 (padded_length f) (padded_bytes f Hok) Ha2) as Hin.
  destruct (in16 _ m p w2) as [m' w3]. destruct Hin as [-> (_ & Hi3 & Hr3)]. by split_and!.
Qed.

Section delivery.
Context {St : Type} (NetReceive : Z -> mem * St * W -> option (mem * St * W)).
(** What the stack does with a frame of [n] bytes in the buffer. *)
Context (stack : Z -> mem * St -> mem * St).

(** The stack may send, but it does not read the receiver. *)
Hypothesis Hstack : forall n x w, idle w -> exists w', NetReceive n (x, w) = Some (stack n x, w') /\ idle w' /\ rx_rel 0 w w'.

(** The frame in the buffer, and in the stack when it is good. *)
Definition rx_step (rdptr : Z) (x : mem * St) (f : frame) : mem * St :=
  let x := (store_list x.1 rdptr (padded f), x.2) in
  if good f then stack (len (f_data f)) x else x.

(** The frames from the [i]-th on, up to the [j]-th. *)
Definition between (i j : nat) : list frame := take (j - i) (drop i traffic).

Lemma between_cons i j f : (i < j)%nat -> traffic !! i = Some f -> between i j = f :: between (S i) j.
Proof.
  intros Hij Hf. unfold between. rewrite (drop_S traffic f i Hf). replace (j - i)%nat with (S (j - S i)) by lia. done.
Qed.

Lemma rx_loop_spec rdptr fuel f : forall x w, idle w -> (length traffic - took w < f)%nat ->
  exists w', rx_loop NetReceive f fuel IO16 rdptr (x, w) = Some (fold_left (rx_step rdptr) (between (took w) (took w')) x, w') /\
    idle w' /\ (took w <= took w')%nat /\ (came w <= took w')%nat /\ (took w' = came w' \/ latch w' = true).
Proof.
  induction f as [|f IH]; intros [m st] w Hi Hf; [lia |]. cbn [rx_loop].
  pose proof (register_read DM9000_MRRH w Hi ltac:(auto)) as H1. destruct (DM9000_ior DM9000_MRRH w) as [v1 w1]. destruct H1 as (Hi1 & Hk1 & _). cbn [snd].
  pose proof (register_read DM9000_MRRL w1 Hi1 ltac:(auto)) as H2. destruct (DM9000_ior DM9000_MRRL w1) as [v2 w2]. destruct H2 as (Hi2 & Hk2 & _). cbn [snd].
  pose proof (ready_read w2 Hi2) as H3. destruct (inb DM9000_DATA _) as [v w3]. destruct H3 as (Hi3 & Hk3 & H3).
  assert (Hk : keeps w w3) by (eapply keeps_trans; [exact Hk1 |]; by eapply keeps_trans). destruct Hk as [(Et & Hc & _) _].
  change 0x03 with 3. destruct H3 as [[-> Hlt]|(-> & Hle & Hq)].
  2: { cbn [DM9000_PKT_RDY Z.ltb Z.compare Z.eqb negb]. exists w3. split; [unfold between; rewrite Et; replace (took w + 0 - took w)%nat with 0%nat by lia; done |].
       split_and!; [done | lia | | done]. destruct Hk1 as [(_ & Hc1 & _) _], Hk2 as [(_ & Hc2 & _) _]. lia. }
  cbn [DM9000_PKT_RDY Z.ltb Z.compare Z.eqb Pos.compare Pos.compare_cont Pos.eqb negb].
  pose proof (counts w3) as Hcount. destruct (lookup_lt_is_Some_2 traffic (took w3)) as [fr Hfr]; [lia |].
  pose proof (take_frame fr m rdptr w3 Hi3 Hlt Hfr) as Htake. destruct (rx_status IO16 w3) as [[s l] w4]. destruct (inblk IO16 m rdptr l w4) as [m' w5].
  destruct Htake as (-> & -> & -> & Hi5 & Hr5). assert (Hok : frame_ok fr) by (eapply Forall_lookup_1; [exact traffic_ok | exact Hfr]).
  destruct (bad_good fr Hok) as [-> Hmax].
  assert (Hnext : exists w6, (if negb (good fr) then w6 ← (if DM9000_PKT_MAX <? len (f_data fr) then dm9000_reset fuel w5 else Some w5); Some (store_list m rdptr (padded fr), st, w6)
      else NetReceive (len (f_data fr)) (store_list m rdptr (padded fr), st, w5)) = Some (rx_step rdptr (m, st) fr, w6) /\ idle w6 /\ rx_rel 1 w3 w6).
  { unfold rx_step. cbn [fst snd]. destruct (good fr); cbn [negb].
    - destruct (Hstack (len (f_data fr)) (store_list m rdptr (padded fr), st) w5 Hi5) as (w6 & E & Hi6 & Hr6). exists w6. split; [done |]. split; [done |]. exact (rx_rel_trans 1 0 _ _ _ Hr5 Hr6).
    - rewrite Hmax. cbn [mbind option_bind]. by exists w5. }
  destruct Hnext as (w6 & -> & Hi6 & Hr6). destruct Hr6 as (Et6 & Hc6 & _). cbn [mbind option_bind].
  destruct (IH (rx_step rdptr (m, st) fr) w6 Hi6) as (w' & E & Hi' & Hle & Hle' & Hq); [lia |].
  exists w'. split.
  - rewrite (between_cons (took w) (took w') fr); [| lia | replace (took w) with (took w3) by lia; done]. replace (S (took w)) with (took w6) by lia. exact E.
  - split_and!; [done | lia | lia | done].
Qed.

(** No frame waits without its bit in the interrupt status. *)
Definition quiet (w : W) : Prop := latch w = false -> took w = came w.

Lemma rx_core rdptr fuel x w : idle w -> quiet w -> (length traffic - took w < fuel)%nat ->
  exists w', eth_rx NetReceive fuel IO16 rdptr (x, w) = Some (fold_left (rx_step rdptr) (between (took w) (took w')) x, w') /\
    idle w' /\ quiet w' /\ (took w <= took w')%nat /\ (came w <= took w')%nat.
Proof.
  intros Hi Hq Hf. destruct x as [m st]. unfold eth_rx.
  pose proof (register_read DM9000_ISR w Hi ltac:(auto)) as H1. destruct (DM9000_ior DM9000_ISR w) as [v w1]. destruct H1 as (Hi1 & [(Et & Hc & Hl & Hl') _] & Hv).
  unfold truth. destruct (Z.eqb_spec (Z.land v 1) 0) as [Ev|Ev]; cbn [negb].
  - pose proof (Hq (Hv eq_refl Ev)). exists w1. split; [unfold between; rewrite Et; replace (took w + 0 - took w)%nat with 0%nat by lia; done |].
    split_and!; [done | | lia | lia]. intros E. destruct (decide (came w < came w1)%nat); [rewrite Hl' in E by done; done | lia].
  - destruct (latch_clear w1 Hi1) as (Hi2 & Et2 & _ & Hc2 & _). set (w2 := DM9000_iow DM9000_ISR 1 w1) in *.
    destruct (rx_loop_spec rdptr fuel fuel (m, st) w2 Hi2 ltac:(lia)) as (w' & E & Hi' & Hle & Hle' & Ho). exists w'.
    replace (took w) with (took w2) by lia. split; [done |]. split_and!; [done | | lia | lia]. intros El. destruct Ho as [Ho|Ho]; [done | congruence].
Qed.
End delivery.
End proofs.

(** ** A chip that keeps the promises *)

Module DmChip.
Section chip.
#[local] Arguments Nat.min : simpl never.
#[local] Arguments Nat.ltb : simpl never.

Context (traffic : list frame) (Htraffic : Forall frame_ok traffic).

Inductive mode := Idle | Stream (l : list Z) | Fill (l : list Z) | Sending (k : nat) | Off.

Record chip := mk_chip { index : Z; md : mode; n_took : nat; bit : bool; out : list (list Z); txlen : Z; clock : Z }.

Definition set_md (md' : mode) (c : chip) : chip := mk_chip (index c) md' (n_took c) (bit c) (out c) (txlen c) (clock c).

(** A write of the index port selects a register and starts a transfer. *)
Definition select (v : Z) (c : chip) : chip :=
  let c := mk_chip v (md c) (n_took c) (bit c) (out c) (txlen c) (clock c) in
  if v =? DM9000_MRCMD then match traffic !! n_took c with Some f => set_md (Stream (stored f)) c | None => c end
  else if v =? DM9000_MWCMD then set_md (Fill []) c
  else c.

Definition write_reg (v : Z) (c : chip) : chip :=
  if index c =? DM9000_ISR then
    mk_chip (index c) (match md c with Off => Idle | d => d end) (n_took c) (if truth (Z.land v 1) then false else bit c) (out c) (txlen c) (clock c)
  else if index c =? DM9000_TXPLL then mk_chip (index c) (md c) (n_took c) (bit c) (out c) v (clock c)
  else if index c =? DM9000_TXPLH then mk_chip (index c) (md c) (n_took c) (bit c) (out c) (txlen c + 256 * v) (clock c)
  else if index c =? DM9000_TCR then
    match md c with
    | Fill l => mk_chip (index c) (Sending 1) (n_took c) (bit c) (out c ++ [take (Z.to_nat (txlen c)) l]) (txlen c) (clock c)
    | _ => c
    end
  else c.

Definition read_reg (c : chip) : Z * chip :=
  if index c =? DM9000_ISR then
    match md c with
    | Sending O => ((if bit c then 3 else 2), set_md Off c)
    | _ => ((if bit c then 1 else 0), c)
    end
  else if index c =? DM9000_NSR then
    match md c with Sending (S k) => (0, set_md (Sending k) c) | _ => (4, c) end
  else if index c =? DM9000_MRCMDX then ((if (n_took c <? length traffic)%nat then 1 else 0), c)
  else (0, c).

Definition read_word (c : chip) : Z * chip :=
  match md c with
  | Stream (a :: b :: rest) =>
      (be_val [a; b],
       match rest with
       | [] => mk_chip (index c) Idle (S (n_took c)) (bit c) (out c) (txlen c) (clock c)
       | _ => set_md (Stream rest) c
       end)
  | _ => (0, c)
  end.

Definition write_word (v : Z) (c : chip) : chip := match md c with Fill l => set_md (Fill (l ++ be_bytes 2 v)) c | _ => c end.

#[export] Instance chip_ops : dm_ops chip := {|
  outb v port c := if port =? DM9000_IO then select v c else write_reg v c;
  outw v port c := write_word v c;
  outl v port c := c;
  inb port c := if port =? DM9000_DATA then read_reg c else (0, c);
  inw port c := read_word c;
  inl_ port c := (0, c);
  udelay us c := mk_chip (index c) (md c) (n_took c) (bit c) (out c) (txlen c) (clock c + us);
  timestamp c := clock c;
|}.

Lemma iow_eq reg v c : DM9000_iow reg v c = write_reg v (select reg c).
Proof. done. Qed.

Lemma ior_eq reg c : DM9000_ior reg c = read_reg (select reg c).
Proof. done. Qed.

Definition streams (l : list Z) (c : chip) : Prop := md c = Stream l /\ (n_took c < length traffic)%nat.

#[export] Program Instance chip_spec : dm_spec chip traffic := {|
  came c := length traffic;
  took c := Nat.min (n_took c) (length traffic);
  latch := bit;
  sent := out;
  idle c := md c = Idle;
  streaming := streams;
  filling l c := md c = Fill l;
  sending k c := md c = Sending k;
  sent_off c := md c = Off;
  polls := 1;
|}.
Next Obligation. exact Htraffic. Qed.
Next Obligation. intros c. cbn. lia. Qed.
Next Obligation.
  intros reg [i d n b o t k] Hi Hreg. cbn in Hi. subst d. rewrite ior_eq.
  destruct Hreg as [->|[->| ->]]; cbn; (split; [done |]); (split; [split; [split_and!; (lia || done) | done] |]); intros; try done; by destruct b.
Qed.
Next Obligation.
  intros [i d n b o t k] Hi. cbn in Hi. subst d. rewrite iow_eq. cbn. split_and!; (lia || done).
Qed.
Next Obligation.
  intros [i d n b o t k] Hi. cbn in Hi. subst d. rewrite ior_eq. unfold inb, chip_ops. rewrite Z.eqb_refl. cbn.
  destruct (Nat.ltb_spec n (length traffic)); (split; [done |]); (split; [split; [split_and!; (lia || done) | done] |]).
  - left. split; [done | lia].
  - right. split; [done |]. split; [lia | left; lia].
Qed.
Next Obligation.
  intros f [i d n b o t k] Hi Hlt Hf. cbn in *. subst d. replace (Nat.min n (length traffic)) with n in Hf by lia.
  unfold select. cbn. rewrite Hf. cbn. split; [split; [done | cbn; lia] |]. split; [split_and!; (cbn; lia) || done | done].
Qed.
Next Obligation.
  intros a b rest [i d n l o t k] [Hd Hn]. cbn in *. subst d. unfold read_word. cbn [md]. split; [done |]. destruct rest; cbn; (split; [done |]).
  - split; [done |]. split_and!; (lia || done).
  - split; [split; [done | cbn; lia] |]. split_and!; (lia || done).
Qed.
Next Obligation.
  intros [i d n b o t k] Hi. cbn in Hi. subst d. rewrite iow_eq. cbn. split; [done |]. split; [split_and!; (lia || done) | done].
Qed.
Next Obligation.
  intros [i d n b o t k] Hi. cbn in Hi. subst d. cbn. split; [done |]. split; [split_and!; (lia || done) | done].
Qed.
Next Obligation.
  intros l v [i d n b o t k] Hd Hv. cbn in Hd. subst d. cbn. split; [done |]. split; [split_and!; (lia || done) | done].
Qed.
Next Obligation.
  intros l lo hi [i d n b o t k] Hd Hlo Hhi Hl. cbn in Hd. subst d. rewrite !iow_eq. cbn. split; [done |]. split; [split_and!; (lia || done) | done].
Qed.
Next Obligation.
  intros j [i d n b o t k] Hd. cbn in Hd. subst d. rewrite ior_eq. destruct j as [|j]; cbn.
  - split; [split; [split_and!; (lia || done) | done] |]. destruct b; cbn; (split; [| done]); (split; [split_and!; (lia || done) | done]).
  - split; [split; [split_and!; (lia || done) | done] |]. by exists j.
Qed.
Next Obligation.
  intros [i d n b o t k] Hd. cbn in Hd. subst d. rewrite iow_eq. cbn. split; [done |]. split; [split_and!; (lia || done) | done].
Qed.
Next Obligation.
  intros j [i d n b o t k] Hd. cbn in Hd. subst d. rewrite iow_eq. cbn. split; [split_and!; (lia || done) | done].
Qed.
End chip.
End DmChip.

Section claims.
Context `{Hspec : dm_spec W traffic}.


(** Receiving hands over every frame.  Let [stack] be what the network
    stack does with a frame in the receive buffer; it may send.  [eth_rx] ends,
    and it reads the frames from the first one not read yet on, one after the
    other: each is put into the buffer and, when the chip has not marked it as
    damaged and it has at least 64 bytes, given to the stack with its length.
    Frames may arrive all the time: none that had come at the call is left, and
    one that is left at the end has its bit in the interrupt status, so that
    the next call finds it. *)
Theorem eth_rx_delivers {St} (NetReceive : Z -> mem * St * W -> option (mem * St * W)) (stack : Z -> mem * St -> mem * St) rdptr fuel x (w : W) :
  (forall n x w, idle w -> exists w', NetReceive n (x, w) = Some (stack n x, w') /\ idle w' /\ rx_rel 0 w w') ->
  idle w -> quiet w -> (length traffic - took w < fuel)%nat ->
  exists w', eth_rx NetReceive fuel IO16 rdptr (x, w) = Some (fold_left (rx_step stack rdptr) (between (traffic := traffic) (took w) (took w')) x, w') /\
    idle w' /\ quiet w' /\ (took w <= took w')%nat /\ (came w <= took w')%nat.
Proof. intros Hstack. exact (rx_core NetReceive stack Hstack rdptr fuel x w). Qed.
End claims.

(** ** Witnesses *)

Definition demo_traffic : list frame :=
  [mk_frame 0 (replicate 65 7) 9; mk_frame 2 (replicate 64 8) 0; mk_frame 0 (replicate 64 5) 0].

Lemma demo_traffic_ok : Forall frame_ok demo_traffic.
Proof. repeat (apply Forall_cons_2; [split_and!; [by_eval | bytes_eval | by_eval | cbn; lia] |]). apply Forall_nil_2. Qed.

Definition demo_chip : DmChip.chip := DmChip.mk_chip 0 DmChip.Idle 0 true [] 0 0.


(** The stack counts the frames and adds up their lengths. *)
Definition demo_stack (n : Z) (x : mem * (Z * Z)) : mem * (Z * Z) := (x.1, (x.2.1 + 1, x.2.2 + n)).

Lemma eth_rx_delivers_witness :
  let ops := DmChip.chip_ops demo_traffic in
  exists w', eth_rx (H := ops) (fun n s => Some (demo_stack n s.1, s.2)) 4 IO16 100 ((fun _ => 0), (0, 0), demo_chip) =
    Some (fold_left (rx_step demo_stack 100) demo_traffic ((fun _ => 0), (0, 0)), w') /\
    (fold_left (rx_step demo_stack 100) demo_traffic ((fun _ => 0), (0, 0))).2 = (2, 129).
Proof.
  intros ops. set (spec := DmChip.chip_spec demo_traffic demo_traffic_ok).
  destruct (eth_rx_delivers (Hspec := spec) (fun n s => Some (demo_stack n s.1, s.2)) demo_stack 100 4 ((fun _ => 0), (0, 0)) demo_chip) as (w' & E & _ & _ & _ & Hc).
  - intros n x w Hi. exists w. split; [reflexivity |]. split; [exact Hi | apply keeps_refl].
  - reflexivity.
  - intros E. discriminate E.
  - cbn. lia.
  - exists w'. split; [| reflexivity]. cbn [came took spec DmChip.chip_spec] in Hc. etransitivity; [exact E |]. do 2 f_equal. unfold between.
    replace (took w') with 3%nat by (cbn in Hc |- *; lia). reflexivity.
Defined.

(** ** At the edges *)

(** The six words of the address are stored where six bytes are: the words 4
    and 5 of the EEPROM go over [bi_baudrate], eight bytes behind. *)
Lemma enetaddr_overrun {W} `{dm_ops W} m a (w : W) :
  exists v0 v1 v2 v3 v4 v5, (read_srom 6 0 m a w).1 =
    store_list m a (be_bytes 2 v0 ++ be_bytes 2 v1 ++ be_bytes 2 v2 ++ be_bytes 2 v3 ++ be_bytes 2 v4 ++ be_bytes 2 v5).
Proof.
  cbn [read_srom]. destruct (read_srom_word 0 w) as [v0 w0]. destruct (read_srom_word (0 + 1) w0) as [v1 w1]. destruct (read_srom_word (0 + 1 + 1) w1) as [v2 w2].
  destruct (read_srom_word (0 + 1 + 1 + 1) w2) as [v3 w3]. destruct (read_srom_word (0 + 1 + 1 + 1 + 1) w3) as [v4 w4].
  destruct (read_srom_word (0 + 1 + 1 + 1 + 1 + 1) w4) as [v5 w5].
  exists v0, v1, v2, v3, v4, v5. cbn [fst be_bytes app store_list]. repeat (f_equal; try lia).
Qed.
