(* ===== verification/Net.v ===== *)
(** * The network layer: net/net.c, include/net.h

    Ethernet, ARP, IP, UDP and ICMP echo as [NetReceive] and
    [NetSendUDPPacket] do them, the one-packet ARP wait queue with its
    retries, the timeout and handler registers, and the restart policy.  The
    frames handed to [eth_send] are collected in [sent]; [now] is
    [get_timer(0)].  A received frame is a memory read from 0 and a length;
    the packet handler is called last on every path that calls it, so
    [NetReceive] returns the call it makes as a [delivery].

    The theorems: a datagram that is sent is delivered, byte for byte and with
    its ports, by a receiver with that address; a datagram held back for ARP
    is sent on the reply exactly as it would have been sent at once; any
    change of one byte of an IP header is dropped; retries of ARP are bounded;
    addresses round-trip through their text form. *)

From S2P Require Import Prelude Memory Ctype Strings Vsprintf.

Local Open Scope Z_scope.

Definition ETHER_HDR_SIZE : Z := 14.
Definition E802_HDR_SIZE : Z := 22.
Definition VLAN_ETHER_HDR_SIZE : Z := 18.
Definition PROT_IP : Z := 0x0800.
Definition PROT_ARP : Z := 0x0806.
Definition PROT_RARP : Z := 0x8035.
Definition PROT_VLAN : Z := 0x8100.
Definition IPPROTO_ICMP : Z := 1.
Definition IPPROTO_UDP : Z := 17.
Definition IP_OFFS : Z := 0x1fff.
Definition IP_FLAGS_DFRAG : Z := 0x4000.
Definition IP_FLAGS_MFRAG : Z := 0x2000.
Definition IP_HDR_SIZE_NO_UDP : Z := 20.
Definition IP_HDR_SIZE : Z := 28.
Definition ARP_ETHER : Z := 1.
Definition ARPOP_REQUEST : Z := 1.
Definition ARPOP_REPLY : Z := 2.
Definition RARPOP_REPLY : Z := 4.
Definition ARP_HDR_SIZE : Z := 28.
Definition ICMP_ECHO_REPLY : Z := 0.
Definition ICMP_REDIRECT : Z := 5.
Definition ICMP_ECHO_REQUEST : Z := 8.
Definition VLAN_NONE : Z := 4095.
Definition VLAN_IDMASK : Z := 0x0fff.
Definition NETLOOP_CONTINUE : Z := 1.
Definition NETLOOP_RESTART : Z := 2.
Definition NETLOOP_SUCCESS : Z := 3.
Definition NETLOOP_FAIL : Z := 4.
Definition ARP_TIMEOUT : Z := 100.
Definition ARP_TIMEOUT_COUNT : Z := 5.

(** ** State *)

(** The addresses the stack is configured with. *)
Record net_cfg := mk_cfg {
  NetOurIP : Z; NetServerIP : Z; NetOurGatewayIP : Z; NetOurSubnetMask : Z;
  NetOurVLAN : Z; NetOurNativeVLAN : Z; NetPingIP : Z; NetOurEther : list Z;
  netretry : option (list Z);  (* the variable of that name *)
}.

(** What [NetArpWaitPacketMAC] points to: [NetServerEther], or the [mac] of
    [PingSend]. *)
Inductive mac_ref := ServerEther | PingMac.

(** The packet held back for an ARP reply; [WaitTx] is the first
    [NetArpWaitTxPacketSize] bytes of [NetArpWaitTxPacket]. *)
Record arp_wait := mk_arp {
  WaitPacketIP : Z; WaitReplyIP : Z; WaitPacketMAC : option mac_ref;
  WaitTx : list Z; WaitTimerStart : Z; WaitTry : Z;
}.

(** The handler functions [NetSetHandler] and [NetSetTimeout] are given. *)
Inductive rxhand := TftpHandler_f | NfsHandler_f | DhcpHandler_f | RarpHandler_f | PingHandler_f | startAgainHandler_f.
Inductive thand := TftpTimeout_f | NfsTimeout_f | BootpTimeout_f | RarpTimeout_f | PingTimeout_f | startAgainTimeout_f.

Record timer := mk_timer { timeHandler : option thand; timeStart : Z; timeDelta : Z }.

Record net := mk_net {
  cfg : net_cfg;
  arp : arp_wait;
  NetServerEther : list Z;
  ping_mac : list Z;
  NetIPID : Z;
  PingSeqNo : Z;
  packetHandler : rxhand;
  tmr : timer;
  NetState : Z;
  NetBootFileXferSize : Z;
  sent : list (list Z);   (* frames given to [eth_send], oldest first *)
  eth_on : bool;          (* false after [eth_halt] *)
}.

Definition set_cfg (c : net_cfg) (s : net) : net :=
  mk_net c (arp s) (NetServerEther s) (ping_mac s) (NetIPID s) (PingSeqNo s) (packetHandler s) (tmr s)
    (NetState s) (NetBootFileXferSize s) (sent s) (eth_on s).
Definition set_arp (a : arp_wait) (s : net) : net :=
  mk_net (cfg s) a (NetServerEther s) (ping_mac s) (NetIPID s) (PingSeqNo s) (packetHandler s) (tmr s)
    (NetState s) (NetBootFileXferSize s) (sent s) (eth_on s).
Definition set_mac (r : mac_ref) (m : list Z) (s : net) : net :=
  mk_net (cfg s) (arp s) (match r with ServerEther => m | PingMac => NetServerEther s end)
    (match r with ServerEther => ping_mac s | PingMac => m end) (NetIPID s) (PingSeqNo s) (packetHandler s)
    (tmr s) (NetState s) (NetBootFileXferSize s) (sent s) (eth_on s).
Definition set_ids (i q : Z) (s : net) : net :=
  mk_net (cfg s) (arp s) (NetServerEther s) (ping_mac s) i q (packetHandler s) (tmr s)
    (NetState s) (NetBootFileXferSize s) (sent s) (eth_on s).
Definition set_NetState (v : Z) (s : net) : net :=
  mk_net (cfg s) (arp s) (NetServerEther s) (ping_mac s) (NetIPID s) (PingSeqNo s) (packetHandler s) (tmr s)
    v (NetBootFileXferSize s) (sent s) (eth_on s).
Definition set_xfer (v : Z) (s : net) : net :=
  mk_net (cfg s) (arp s) (NetServerEther s) (ping_mac s) (NetIPID s) (PingSeqNo s) (packetHandler s) (tmr s)
    (NetState s) v (sent s) (eth_on s).

Definition eth_send (frame : list Z) (s : net) : net :=
  mk_net (cfg s) (arp s) (NetServerEther s) (ping_mac s) (NetIPID s) (PingSeqNo s) (packetHandler s) (tmr s)
    (NetState s) (NetBootFileXferSize s) (sent s ++ [frame]) (eth_on s).
Definition eth_halt (s : net) : net :=
  mk_net (cfg s) (arp s) (NetServerEther s) (ping_mac s) (NetIPID s) (PingSeqNo s) (packetHandler s) (tmr s)
    (NetState s) (NetBootFileXferSize s) (sent s) false.

Definition mac_at (r : mac_ref) (s : net) : list Z :=
  match r with ServerEther => NetServerEther s | PingMac => ping_mac s end.

(** ** Registers *)

Definition NetSetHandler (f : rxhand) (s : net) : net :=
  mk_net (cfg s) (arp s) (NetServerEther s) (ping_mac s) (NetIPID s) (PingSeqNo s) f (tmr s)
    (NetState s) (NetBootFileXferSize s) (sent s) (eth_on s).

Definition NetSetTimeout (now iv : Z) (f : thand) (s : net) : net :=
  let t := if iv =? 0 then mk_timer None (timeStart (tmr s)) (timeDelta (tmr s)) else mk_timer (Some f) now iv in
  mk_net (cfg s) (arp s) (NetServerEther s) (ping_mac s) (NetIPID s) (PingSeqNo s) (packetHandler s) t
    (NetState s) (NetBootFileXferSize s) (sent s) (eth_on s).

Definition startAgainTimeout (s : net) : net := set_NetState NETLOOP_RESTART s.

(** Without CONFIG_NET_MULTI. *)
Definition NetStartAgain (now : Z) (s : net) : net :=
  if bool_decide (netretry (cfg s) = Some (str "no"))
  then set_NetState NETLOOP_FAIL (eth_halt s)
  else NetSetHandler startAgainHandler_f (NetSetTimeout now 10000 startAgainTimeout_f s).

(** ** Checksum *)

(** [while (len-- > 0) xsum += *p++;] over the bytes from [ptr] on. *)
Fixpoint cksum_loop (len : nat) (ptr : list Z) (xsum : Z) : Z :=
  match len, ptr with
  | S len', a :: b :: ptr' => cksum_loop len' ptr' (u32 (xsum + (a * 256 + b)))
  | _, _ => xsum
  end.

Definition NetCksum (ptr : list Z) (len : Z) : Z :=
  let xsum := cksum_loop (Z.to_nat len) ptr 0 in
  let xsum := u32 (Z.land xsum 0xffff + Z.shiftr xsum 16) in
  let xsum := u32 (Z.land xsum 0xffff + Z.shiftr xsum 16) in
  Z.land xsum 0xffff.

Definition NetCksumOk (ptr : list Z) (len : Z) : bool :=
  negb (truth (Z.land (NetCksum ptr len + 1) 0xfffe)).

(** ** Headers *)

Definition myvlanid (vlan : Z) : Z := if vlan =? 0xffff then VLAN_NONE else vlan.

Definition NetEthHdrSize (c : net_cfg) : Z :=
  if Z.land (myvlanid (NetOurVLAN c)) VLAN_IDMASK =? VLAN_NONE then ETHER_HDR_SIZE else VLAN_ETHER_HDR_SIZE.

(** The bytes [NetSetEther] writes; their number is what it returns. *)
Definition NetSetEther (c : net_cfg) (addr : list Z) (prot : Z) : list Z :=
  let vlan := Z.land (myvlanid (NetOurVLAN c)) VLAN_IDMASK in
  addr ++ NetOurEther c ++
  (if vlan =? VLAN_NONE then be_bytes 2 prot
   else be_bytes 2 PROT_VLAN ++ be_bytes 2 vlan ++ be_bytes 2 prot).

(** The fields of [IP_t] with the UDP header. *)
Definition ip_fields (c : net_cfg) (ipid dest dport sport len sum : Z) : list Z :=
  [0x45; 0] ++ be_bytes 2 (IP_HDR_SIZE + len) ++ be_bytes 2 ipid ++ be_bytes 2 IP_FLAGS_DFRAG ++
  [255; 17] ++ be_bytes 2 sum ++ be_bytes 4 (NetOurIP c) ++ be_bytes 4 dest ++
  be_bytes 2 sport ++ be_bytes 2 dport ++ be_bytes 2 (8 + len) ++ be_bytes 2 0.

(** The header [NetSetIP] writes.  (The zero byte it puts after data of odd
    length is past the end of what is sent.) *)
Definition NetSetIP (c : net_cfg) (ipid dest dport sport len : Z) : list Z :=
  let ip := ip_fields c ipid dest dport sport len 0 in
  ip_fields c ipid dest dport sport len (u16 (Z.lnot (NetCksum ip (IP_HDR_SIZE_NO_UDP / 2)))).

(** ** ARP requests and UDP sending *)

Definition NetBcastAddr : list Z := [255; 255; 255; 255; 255; 255].
Definition NetEtherNullAddr : list Z := [0; 0; 0; 0; 0; 0].

Definition arp_reply_ip (s : net) : Z :=
  let c := cfg s in
  if negb (Z.land (WaitPacketIP (arp s)) (NetOurSubnetMask c) =? Z.land (NetOurIP c) (NetOurSubnetMask c))
  then if NetOurGatewayIP c =? 0 then WaitPacketIP (arp s) else NetOurGatewayIP c
  else WaitPacketIP (arp s).

Definition ArpRequest (s : net) : net :=
  let c := cfg s in
  let a := arp s in
  let reply := arp_reply_ip s in
  let s := set_arp (mk_arp (WaitPacketIP a) reply (WaitPacketMAC a) (WaitTx a) (WaitTimerStart a) (WaitTry a)) s in
  eth_send (NetSetEther c NetBcastAddr PROT_ARP ++
    be_bytes 2 ARP_ETHER ++ be_bytes 2 PROT_IP ++ [6; 4] ++ be_bytes 2 ARPOP_REQUEST ++
    NetOurEther c ++ be_bytes 4 (NetOurIP c) ++ [0; 0; 0; 0; 0; 0] ++ be_bytes 4 reply) s.

Definition ArpTimeoutCheck (now : Z) (s : net) : net :=
  let a := arp s in
  if WaitPacketIP a =? 0 then s
  else if ARP_TIMEOUT <? u32 (now - WaitTimerStart a) then
    let try := WaitTry a + 1 in
    if ARP_TIMEOUT_COUNT <=? try
    then NetStartAgain now (set_arp (mk_arp (WaitPacketIP a) (WaitReplyIP a) (WaitPacketMAC a) (WaitTx a) (WaitTimerStart a) 0) s)
    else ArpRequest (set_arp (mk_arp (WaitPacketIP a) (WaitReplyIP a) (WaitPacketMAC a) (WaitTx a) now try) s)
  else s.

(** [ether] is one of the two arrays the callers pass; the bytes after the
    headers, which the callers have put into [NetTxPacket], are [payload]. *)
Definition NetSendUDPPacket (now : Z) (ether : mac_ref) (dest dport sport : Z) (payload : list Z) (s : net) : net * Z :=
  let dest := if dest =? 0 then 0xFFFFFFFF else dest in
  let addr := if dest =? 0xFFFFFFFF then NetBcastAddr else mac_at ether s in
  let frame := NetSetEther (cfg s) addr PROT_IP ++
               NetSetIP (cfg s) (NetIPID s) dest dport sport (len payload) ++ payload in
  let s := set_ids (u32 (NetIPID s + 1)) (PingSeqNo s) s in
  if bool_decide (addr = NetEtherNullAddr) then
    (ArpRequest (set_arp (mk_arp dest (WaitReplyIP (arp s)) (Some ether) frame now 1) s), 1)
  else (eth_send frame s, 0).

(** ** Receiving *)

(** [( *packetHandler)(pkt, dest, src, len)]: [d_pkt] is the offset of the
    data in the frame, [None] a null pointer. *)
Record delivery := mk_delivery { d_pkt : option Z; d_dest : Z; d_src : Z; d_len : Z }.

Definition set16 (m : mem) (a v : Z) : mem := store_list m a (be_bytes 2 v).
Definition copy_bytes (m : mem) (d s : Z) (n : nat) : mem := store_list m d (load m s n).

(** The header checks of an ARP packet at [a]. *)
Definition arp_header_ok (p : mem) (a : Z) : bool :=
  (get16 p a =? ARP_ETHER) && (get16 p (a + 2) =? PROT_IP) && (p (a + 4) =? 6) && (p (a + 5) =? 4).

(** The answer to a request: the frame is changed in place and sent. *)
Definition arp_answer (p : mem) (a : Z) (s : net) : net :=
  let hdr := NetSetEther (cfg s) (load p 6 6) PROT_ARP in
  let p := store_list p 0 hdr in
  let p := set16 p (a + 6) ARPOP_REPLY in
  let p := copy_bytes p (a + 18) (a + 8) 6 in
  let p := copy_bytes p (a + 24) (a + 14) 4 in
  let p := store_list p (a + 8) (NetOurEther (cfg s)) in
  let p := store_list p (a + 14) (be_bytes 4 (NetOurIP (cfg s))) in
  eth_send (load p 0 (length hdr + Z.to_nat ARP_HDR_SIZE)) s.

(** A reply: when it is the one waited for, its address is stored through the
    saved pointer and the held packet goes out. *)
Definition arp_resolve (p : mem) (a : Z) (s : net) : net :=
  let w := arp s in
  match WaitPacketMAC w with
  | None => s
  | Some r =>
      if WaitPacketIP w =? 0 then s
      else if get32 p (a + 14) =? WaitReplyIP w then
        let mac := load p (a + 8) 6 in
        let s := set_mac r mac s in
        let s := eth_send (mac ++ drop 6 (WaitTx w)) s in
        set_arp (mk_arp 0 (WaitReplyIP w) None [] (WaitTimerStart w) (WaitTry w)) s
      else s
  end.

Definition receive_arp (p : mem) (a len : Z) (s : net) : net :=
  if len <? ARP_HDR_SIZE then s
  else if negb (arp_header_ok p a) then s
  else if NetOurIP (cfg s) =? 0 then s
  else if negb (get32 p (a + 24) =? NetOurIP (cfg s)) then s
  else if get16 p (a + 6) =? ARPOP_REQUEST then arp_answer p a s
  else if get16 p (a + 6) =? ARPOP_REPLY then arp_resolve p a s
  else s.

Definition receive_rarp (p : mem) (a len : Z) (s : net) : net * option delivery :=
  if len <? ARP_HDR_SIZE then (s, None)
  else if negb (get16 p (a + 6) =? RARPOP_REPLY) || negb (arp_header_ok p a) then (s, None)
  else
    let c := cfg s in
    let c := mk_cfg (get32 p (a + 24)) (if NetServerIP c =? 0 then get32 p (a + 14) else NetServerIP c)
               (NetOurGatewayIP c) (NetOurSubnetMask c) (NetOurVLAN c) (NetOurNativeVLAN c) (NetPingIP c)
               (NetOurEther c) (netretry c) in
    (set_mac ServerEther (load p (a + 8) 6) (set_cfg c s), Some (mk_delivery None 0 0 0)).

(** An echo request is turned round in place. *)
Definition icmp_answer (p : mem) (ip len : Z) (s : net) : net :=
  let p := copy_bytes p 0 6 6 in
  let p := store_list p 6 (NetOurEther (cfg s)) in
  let p := set16 p (ip + 10) 0 in
  let p := set16 p (ip + 6) 0 in
  let p := copy_bytes p (ip + 16) (ip + 12) 4 in
  let p := store_list p (ip + 12) (be_bytes 4 (NetOurIP (cfg s))) in
  let p := set16 p (ip + 10) (u16 (Z.lnot (NetCksum (load p ip 20) (Z.shiftr IP_HDR_SIZE_NO_UDP 1)))) in
  let p := store p (ip + 20) ICMP_ECHO_REPLY in
  let p := set16 p (ip + 22) 0 in
  let n := u32 (len - IP_HDR_SIZE_NO_UDP) in
  let p := set16 p (ip + 22) (u16 (Z.lnot (NetCksum (load p (ip + 20) (Z.to_nat n)) (Z.shiftr n 1)))) in
  eth_send (load p 0 (Z.to_nat (ETHER_HDR_SIZE + len))) s.

Definition receive_icmp (p : mem) (ip len : Z) (s : net) : net * option delivery :=
  let type := p (ip + 20) in
  if type =? ICMP_REDIRECT then (s, None)  (* only a message *)
  else if type =? ICMP_ECHO_REPLY then (s, Some (mk_delivery (Some ip) 0 0 0))
  else if type =? ICMP_ECHO_REQUEST then (icmp_answer p ip len s, None)
  else (s, None).

(** The header checks of an IP packet at [ip], in the order of the code. *)
Definition ip_accepts (c : net_cfg) (p : mem) (ip len : Z) : bool :=
  negb (u32 len <? IP_HDR_SIZE) &&
  negb (len <? get16 p (ip + 2)) &&
  (Z.land (p ip) 0xf0 =? 0x40) &&
  (Z.land (get16 p (ip + 6)) (Z.lor IP_OFFS IP_FLAGS_MFRAG) =? 0) &&
  negb (0x05 <? Z.land (p ip) 0x0f) &&
  NetCksumOk (load p ip 20) (IP_HDR_SIZE_NO_UDP / 2) &&
  negb (truth (NetOurIP c) && negb (get32 p (ip + 16) =? NetOurIP c) && negb (get32 p (ip + 16) =? 0xFFFFFFFF)).

Definition receive_ip (p : mem) (ip len : Z) (s : net) : net * option delivery :=
  if negb (ip_accepts (cfg s) p ip len) then (s, None)
  else if p (ip + 9) =? IPPROTO_ICMP then receive_icmp p ip (get16 p (ip + 2)) s
  else if negb (p (ip + 9) =? IPPROTO_UDP) then (s, None)
  else (s, Some (mk_delivery (Some (ip + IP_HDR_SIZE)) (get16 p (ip + 22)) (get16 p (ip + 20))
                   (u32 (get16 p (ip + 24) - 8)))).

(** The framing: the protocol, the offset of the packet, its length and its
    VLAN; [None] when the frame is dropped. *)
Definition frame_proto (c : net_cfg) (p : mem) (len : Z) : option (Z * Z * Z * Z) :=
  if len <? ETHER_HDR_SIZE then None
  else
    let x := get16 p 12 in
    if x <? 1514 then Some (get16 p 20, E802_HDR_SIZE, len - E802_HDR_SIZE, VLAN_NONE)
    else if negb (x =? PROT_VLAN) then Some (x, ETHER_HDR_SIZE, len - ETHER_HDR_SIZE, VLAN_NONE)
    else if len <? VLAN_ETHER_HDR_SIZE then None
    else if Z.land (NetOurVLAN c) VLAN_IDMASK =? VLAN_NONE then None
    else Some (get16 p 16, VLAN_ETHER_HDR_SIZE, len - VLAN_ETHER_HDR_SIZE, Z.land (get16 p 14) VLAN_IDMASK).

(** Whether the frame's VLAN is ours. *)
Definition vlan_accepts (c : net_cfg) (vlanid : Z) : bool :=
  let my := Z.land (myvlanid (NetOurVLAN c)) VLAN_IDMASK in
  if negb (my =? VLAN_NONE) then
    (if vlanid =? VLAN_NONE then Z.land (myvlanid (NetOurNativeVLAN c)) VLAN_IDMASK else vlanid) =? my
  else true.

Definition NetReceive (p : mem) (len : Z) (s : net) : net * option delivery :=
  match frame_proto (cfg s) p len with
  | None => (s, None)
  | Some (x, ip, len, vlanid) =>
      if negb (vlan_accepts (cfg s) vlanid) then (s, None)
      else if x =? PROT_ARP then (receive_arp p ip len s, None)
      else if x =? PROT_RARP then receive_rarp p ip len s
      else if x =? PROT_IP then receive_ip p ip len s
      else (s, None)
  end.

(** ** Ping *)

Definition PingSend (now : Z) (s : net) : net :=
  let c := cfg s in
  let fields sum := [0x45; 0] ++ be_bytes 2 (IP_HDR_SIZE_NO_UDP + 8) ++ be_bytes 2 (NetIPID s) ++
    be_bytes 2 IP_FLAGS_DFRAG ++ [255; 1] ++ be_bytes 2 sum ++ be_bytes 4 (NetOurIP c) ++ be_bytes 4 (NetPingIP c) in
  let ip := fields (u16 (Z.lnot (NetCksum (fields 0) (IP_HDR_SIZE_NO_UDP / 2)))) in
  let echo sum := be_bytes 2 0x0800 ++ be_bytes 2 sum ++ be_bytes 2 0 ++ be_bytes 2 (PingSeqNo s) in
  let icmp := echo (u16 (Z.lnot (NetCksum (echo 0) 4))) in
  let s := set_mac PingMac NetEtherNullAddr s in
  let s := set_ids (u32 (NetIPID s + 1)) (u16 (PingSeqNo s + 1)) s in
  let frame := NetSetEther c NetEtherNullAddr PROT_IP ++ ip ++ icmp in
  ArpRequest (set_arp (mk_arp (NetPingIP c) (WaitReplyIP (arp s)) (Some PingMac) frame now 1) s).

Definition PingTimeout (s : net) : net := set_NetState NETLOOP_FAIL (eth_halt s).

(** [pkt] is the IP packet in the frame [p]; with a null packet the address
    is read from low memory, which is not modelled. *)
Definition PingHandler (p : mem) (pkt : Z) (s : net) : net :=
  if negb (get32 p (pkt + 12) =? NetPingIP (cfg s)) then s else set_NetState NETLOOP_SUCCESS s.

Definition PingStart (now : Z) (s : net) : net :=
  PingSend now (NetSetHandler PingHandler_f (NetSetTimeout now 10000 PingTimeout_f s)).

(** ** Addresses as text *)

(** [ip_to_string]: the characters written, with the NUL. *)
Definition ip_to_string (x : Z) : option (list Z) :=
  fst <$> sprintf (str "%d.%d.%d.%d")
    [VWord (Z.land (Z.shiftr x 24) 0xff); VWord (Z.land (Z.shiftr x 16) 0xff);
     VWord (Z.land (Z.shiftr x 8) 0xff); VWord (Z.land (Z.shiftr x 0) 0xff)].

Fixpoint string_to_ip_loop (n : nat) (s : list Z) (addr : Z) : Z :=
  match n with
  | O => addr
  | S n' =>
      let '(val, e) := simple_strtoul s 10 in
      let addr := Z.lor (u32 (Z.shiftl addr 8)) (Z.land val 0xFF) in
      string_to_ip_loop n' (if chr e =? 0 then e else tail e) addr
  end.

(** The string without its NUL; [None] is a null pointer. *)
Definition string_to_ip (s : option (list Z)) : Z :=
  match s with None => 0 | Some s => string_to_ip_loop 4 s 0 end.

Definition string_to_VLAN (s : option (list Z)) : Z :=
  match s with
  | None => VLAN_NONE
  | Some s => if (chr s <? 48) || (57 <? chr s) then VLAN_NONE else u16 (simple_strtoul s 10).1
  end.

Definition VLAN_to_string (x : Z) : option (list Z) :=
  let x := if x =? 0xffff then VLAN_NONE else x in
  if x =? VLAN_NONE then Some (str "none" ++ [0])
  else fst <$> sprintf (str "%d") [VWord (Z.land x VLAN_IDMASK)].

(** ** What sending leaves alone *)

(** The parts of the stack that sending and most packets do not change. *)
Definition same_session (n n' : net) : Prop :=
  cfg n' = cfg n /\ packetHandler n' = packetHandler n /\ tmr n' = tmr n /\ NetState n' = NetState n /\
  NetBootFileXferSize n' = NetBootFileXferSize n.

#[export] Instance same_session_preorder : PreOrder same_session.
Proof.
  split; [intros n; by repeat split |]. intros a b c (A1 & A2 & A3 & A4 & A5) (B1 & B2 & B3 & B4 & B5).
  split_and!; congruence.
Qed.

Lemma ArpRequest_session n : same_session n (ArpRequest n) /\ forall r, mac_at r (ArpRequest n) = mac_at r n.
Proof. split; [by repeat split | by intros []]. Qed.

Lemma send_udp_session now r dest dport sport payload n :
  let n' := fst (NetSendUDPPacket now r dest dport sport payload n) in
  same_session n n' /\ forall r, mac_at r n' = mac_at r n.
Proof.
  unfold NetSendUDPPacket. destruct (bool_decide _); simpl.
  - split; [by repeat split | by intros []].
  - split; [by repeat split | by intros []].
Qed.

(** ** The checksum as a one's complement sum *)

(** The sum of the first [n] big-endian words, unbounded. *)
Fixpoint sum16 (n : nat) (l : list Z) : Z :=
  match n, l with
  | S n', a :: b :: l' => a * 256 + b + sum16 n' l'
  | _, _ => 0
  end.

Lemma sum16_range n l : Forall byte l -> 0 <= sum16 n l <= 65535 * Z.of_nat n.
Proof.
  revert l. induction n as [|n IH]; intros l Hl; [simpl; lia |]. destruct l as [|a [|b l]]; [simpl; lia | simpl; lia |].
  apply Forall_cons in Hl as [Ha Hl]. apply Forall_cons in Hl as [Hb Hl]. specialize (IH l Hl).
  unfold byte in *. change (sum16 (S n) (a :: b :: l)) with (a * 256 + b + sum16 n l). lia.
Qed.

Lemma sum16_app k n l1 l2 : length l1 = (2 * k)%nat -> sum16 (k + n) (l1 ++ l2) = sum16 k l1 + sum16 n l2.
Proof.
  revert l1. induction k as [|k IH]; intros l1 Hl; [by destruct l1 |].
  destruct l1 as [|a [|b l1]]; simpl in Hl; [lia | lia |]. simpl. rewrite IH by lia. lia.
Qed.

Lemma cksum_loop_sum n l x : Forall byte l -> 0 <= x -> x + 65535 * Z.of_nat n < 2 ^ 32 ->
  cksum_loop n l x = x + sum16 n l.
Proof.
  revert l x. induction n as [|n IH]; intros l x Hl Hx Hb; simpl; [lia |].
  destruct l as [|a [|b l]]; [lia | lia |].
  apply Forall_cons in Hl as [Ha Hl]. apply Forall_cons in Hl as [Hc Hl]. unfold byte in Ha, Hc.
  rewrite (wrap_small 32) by lia. rewrite IH by (done || lia). lia.
Qed.

(** The checksum is the residue of the sum modulo 65535, with 65535 for the
    positive multiples and 0 only for a zero sum. *)
Lemma NetCksum_spec l n : Forall byte l -> Z.of_nat n <= 65536 ->
  let c := NetCksum l (Z.of_nat n) in
  0 <= c <= 65535 /\ (c = 0 <-> sum16 n l = 0) /\ exists k, sum16 n l = c + 65535 * k.
Proof.
  intros Hl Hn. unfold NetCksum. rewrite Nat2Z.id, cksum_loop_sum by (done || lia). rewrite Z.add_0_l.
  pose proof (sum16_range n l Hl) as HS. set (S := sum16 n l) in *. clearbody S.
  assert (HS' : 0 <= S < 2 ^ 32) by lia. clear HS.
  change 0xffff with (Z.ones 16). rewrite !Z.land_ones, !Z.shiftr_div_pow2 by lia.
  change (2 ^ 16) with 65536. 
  assert (H1 : 0 <= S mod 65536 + S / 65536 <= 131070) by (Z.div_mod_to_equations; lia).
  rewrite (wrap_small 32 (S mod 65536 + S / 65536)) by lia.
  set (S1 := S mod 65536 + S / 65536) in *.
  assert (E1 : S = S1 + 65535 * (S / 65536)) by (unfold S1; Z.div_mod_to_equations; lia).
  assert (H2 : 0 <= S1 mod 65536 + S1 / 65536 <= 65535) by (Z.div_mod_to_equations; lia).
  rewrite (wrap_small 32) by lia. set (S2 := S1 mod 65536 + S1 / 65536) in *.
  assert (E2 : S1 = S2 + 65535 * (S1 / 65536)) by (unfold S2; Z.div_mod_to_equations; lia).
  rewrite (Z.mod_small S2) by lia. change (Z.ones 16) with 65535.
  assert (Hz : S2 = 0 <-> S = 0).
  { assert (S2 = 0 <-> S1 = 0) by (unfold S2; clearbody S1; Z.div_mod_to_equations; lia).
    assert (S1 = 0 <-> S = 0) by (unfold S1; Z.div_mod_to_equations; lia). tauto. }
  clearbody S1 S2.
  assert (0 <= S / 65536) by (apply Z.div_pos; lia). assert (0 <= S1 / 65536) by (apply Z.div_pos; lia).
  split_and!; [lia | lia | exact Hz |]. exists (S / 65536 + S1 / 65536). lia.
Qed.

Lemma NetCksumOk_spec l n : Forall byte l -> Z.of_nat n <= 65536 ->
  NetCksumOk l (Z.of_nat n) = true <-> (65535 | sum16 n l).
Proof.
  intros Hl Hn. unfold NetCksumOk. destruct (NetCksum_spec l n Hl Hn) as (Hr & Hz & k & Hk).
  set (c := NetCksum l (Z.of_nat n)) in *. clearbody c.
  assert (Hb : Z.land (c + 1) 0xfffe = (c + 1) mod 65536 / 2 * 2).
  { change 0xfffe with (Z.land (Z.ones 16) (Z.lnot (Z.ones 1))).
    rewrite Z.land_assoc, Z.land_ones, <- Z.ldiff_land, Z.ldiff_ones_r, Z.shiftl_mul_pow2, Z.shiftr_div_pow2 by lia. done. }
  assert (Hc : negb (truth (Z.land (c + 1) 0xfffe)) = (c =? 0) || (c =? 65535)).
  { rewrite Hb. unfold truth. rewrite negb_involutive.
    destruct (decide (c = 65535)) as [->|]; [done |]. rewrite Z.mod_small by lia.
    rewrite (proj2 (Z.eqb_neq c 65535)), orb_false_r by lia.
    destruct (Z.eqb_spec c 0) as [->|]; [done |]. apply Z.eqb_neq. Z.div_mod_to_equations. lia. }
  rewrite Hc. clear Hb Hc. split.
  - intros H. apply orb_true_iff in H as [H|H]; zb.
    + rewrite (proj1 Hz) by done. apply Z.divide_0_r.
    + exists (k + 1). lia.
  - intros [q Hq]. apply orb_true_iff. destruct (decide (c = 0)); [left; by apply Z.eqb_eq |].
    right. apply Z.eqb_eq. lia.
Qed.

Lemma sum16_be2 v l n : sum16 (S n) (be_bytes 2 v ++ l) = u16 v + sum16 n l.
Proof.
  pose proof (be_val_bytes 2 v) as H. change (8 * Z.of_nat 2) with 16 in H. rewrite <- H.
  unfold be_val. simpl. lia.
Qed.

(** Filling the sum field of a header with the complement makes it valid. *)
Lemma cksum_complement pre post n k : Forall byte (pre ++ be_bytes 2 0 ++ post) ->
  length pre = (2 * k)%nat -> (k < n)%nat -> Z.of_nat n <= 65536 -> 0 < sum16 n (pre ++ be_bytes 2 0 ++ post) ->
  NetCksumOk (pre ++ be_bytes 2 (u16 (Z.lnot (NetCksum (pre ++ be_bytes 2 0 ++ post) (Z.of_nat n)))) ++ post)
    (Z.of_nat n) = true.
Proof.
  intros Hb Hk Hkn Hn Hpos. destruct (NetCksum_spec _ n Hb ltac:(lia)) as (Hr & Hz & q & Hq).
  set (c := NetCksum _ _) in *. clearbody c. apply NetCksumOk_spec; [| lia |].
  { rewrite !Forall_app in *. destruct Hb as (? & _ & ?). split_and!; [done | apply be_bytes_bytes | done]. }
  replace n with (k + S (n - k - 1))%nat in Hpos, Hq, Hz |- * by lia.
  rewrite sum16_app, sum16_be2 in * by done.
  assert (E : u16 (u16 (Z.lnot c)) = 65535 - c).
  { rewrite wrap_wrap. unfold Z.lnot. wrap_lia. }
  rewrite E. change (u16 0) with 0 in *. exists (q + 1). lia.
Qed.

Lemma ip_fields_bytes c ipid dest dport sport n sum : Forall byte (ip_fields c ipid dest dport sport n sum).
Proof.
  unfold ip_fields. rewrite !Forall_app. split_and!; try apply be_bytes_bytes; rewrite !Forall_cons; unfold byte; split_and!; (lia || apply Forall_nil; done).
Qed.

(** The header [NetSetIP] makes passes the receiver's check. *)
Lemma NetSetIP_valid c ipid dest dport sport n :
  NetCksumOk (NetSetIP c ipid dest dport sport n) 10 = true.
Proof.
  unfold NetSetIP. change (IP_HDR_SIZE_NO_UDP / 2) with (Z.of_nat 10). change 10 with (Z.of_nat 10).
  pose proof (ip_fields_bytes c ipid dest dport sport n 0) as Hb.
  assert (E : forall sum, ip_fields c ipid dest dport sport n sum =
    ([0x45; 0] ++ be_bytes 2 (IP_HDR_SIZE + n) ++ be_bytes 2 ipid ++ be_bytes 2 IP_FLAGS_DFRAG ++ [255; 17]) ++
    be_bytes 2 sum ++ (be_bytes 4 (NetOurIP c) ++ be_bytes 4 dest ++
    be_bytes 2 sport ++ be_bytes 2 dport ++ be_bytes 2 (8 + n) ++ be_bytes 2 0)) by done.
  rewrite !E in *. apply (cksum_complement _ _ 10 5); [done | done | lia | lia |].
  assert (0 <= sum16 9 (drop 2 ((([0x45; 0] ++ be_bytes 2 (IP_HDR_SIZE + n) ++ be_bytes 2 ipid ++ be_bytes 2 IP_FLAGS_DFRAG ++ [255; 17]) ++
    be_bytes 2 0 ++ (be_bytes 4 (NetOurIP c) ++ be_bytes 4 dest ++
    be_bytes 2 sport ++ be_bytes 2 dport ++ be_bytes 2 (8 + n) ++ be_bytes 2 0))))) by (apply sum16_range, Forall_drop, Hb).
  change (sum16 10 (([0x45; 0] ++ ?x) ++ ?y)) with (0x45 * 256 + 0 + sum16 9 (x ++ y)).
  change (drop 2 (([0x45; 0] ++ ?x) ++ ?y)) with (x ++ y) in *. lia.
Qed.

(** ** Damaged headers *)

Lemma sum16_insert n l i v w : (i < 2 * n)%nat -> (2 * n <= length l)%nat -> l !! i = Some w ->
  sum16 n (<[i := v]> l) = sum16 n l + (v - w) * (if Nat.even i then 256 else 1).
Proof.
  revert l i. induction n as [|n IH]; intros l i Hi Hl Hw; [lia |].
  destruct l as [|a [|b l]]; simpl in Hl; [lia | lia |].
  destruct i as [|[|i]]; simpl in Hw.
  - injection Hw as ->. simpl. lia.
  - injection Hw as ->. simpl. lia.
  - simpl. rewrite (IH l i) by (done || lia). lia.
Qed.

Lemma cksum_insert_bad l n i v w : Forall byte l -> byte v -> Z.of_nat n <= 65536 -> (2 * n <= length l)%nat ->
  (i < 2 * n)%nat -> l !! i = Some w -> w <> v ->
  NetCksumOk l (Z.of_nat n) = true -> NetCksumOk (<[i := v]> l) (Z.of_nat n) = false.
Proof.
  intros Hl Hv Hn Hlen Hi Hw Hne Hok. pose proof (Forall_lookup_1 _ _ _ _ Hl Hw) as Hb.
  apply NetCksumOk_spec in Hok as [q Hq]; [| done | done].
  apply not_true_is_false. intros Hok.
  apply NetCksumOk_spec in Hok as [q' Hq']; [| by apply Forall_insert | done].
  rewrite (sum16_insert _ _ _ _ w) in Hq' by done. unfold byte in *. destruct (Nat.even i); lia.
Qed.

Lemma NetReceive_ip p len s : get16 p 12 = PROT_IP -> ETHER_HDR_SIZE <= len ->
  NetReceive p len s = if vlan_accepts (cfg s) VLAN_NONE then receive_ip p 14 (len - 14) s else (s, None).
Proof.
  intros Hx Hl. unfold NetReceive, frame_proto. rewrite Hx. simpl (PROT_IP <? 1514).
  rewrite (proj2 (Z.ltb_ge _ _)) by done. simpl. by destruct (vlan_accepts _ _).
Qed.

(** C38: an IP packet whose header was accepted is dropped, with no change of
    state and nothing delivered or sent, when any one byte of its 20 header
    bytes has another value. *)
Theorem ip_header_damage_dropped p len s a v : byte_mem p -> byte v ->
  get16 p 12 = PROT_IP -> ETHER_HDR_SIZE <= len -> ip_accepts (cfg s) p 14 (len - 14) = true ->
  14 <= a < 34 -> v <> p a -> NetReceive (store p a v) len s = (s, None).
Proof.
  intros Hp Hv Hx Hl Hok Ha Hne. rewrite NetReceive_ip; [| unfold get16 in *; by rewrite load_store_out by lia | done].
  destruct (vlan_accepts _ _); [| done]. unfold receive_ip.
  assert (Hbad : NetCksumOk (load (store p a v) 14 20) (IP_HDR_SIZE_NO_UDP / 2) = false).
  { replace a with (14 + Z.of_nat (Z.to_nat (a - 14))) by lia. rewrite load_store by lia.
    change (IP_HDR_SIZE_NO_UDP / 2) with (Z.of_nat 10).
    apply (cksum_insert_bad _ _ _ _ (p a)); try done.
    - by apply load_byte_mem.
    - lia.
    - rewrite load_lookup by lia. do 2 f_equal. lia.
    - unfold ip_accepts in Hok. rewrite !andb_true_iff in Hok. apply Hok. }
  unfold ip_accepts. by rewrite Hbad, andb_false_r.
Qed.

(** ** Datagrams *)

Definition untagged (c : net_cfg) : Prop := Z.land (myvlanid (NetOurVLAN c)) VLAN_IDMASK = VLAN_NONE.

(** The frame of a datagram sent by [c] to the station [addr]. *)
Definition udp_frame (c : net_cfg) (addr : list Z) (ipid dest dport sport : Z) (payload : list Z) : list Z :=
  NetSetEther c addr PROT_IP ++ NetSetIP c ipid dest dport sport (len payload) ++ payload.

(** Reads of a frame that lies at 0, by the list operations. *)
Lemma get_at m L off n v : load m 0 (length L) = L -> (off + n <= length L)%nat ->
  take n (drop off L) = be_bytes n v -> be_val (load m (Z.of_nat off) n) = wrap (8 * Z.of_nat n) v.
Proof.
  intros HL Hn HV. replace (Z.of_nat off) with (0 + Z.of_nat off) by lia.
  rewrite (load_sub _ _ _ _ _ HL Hn), HV. apply be_val_bytes.
Qed.

Lemma byte_at m L off v : load m 0 (length L) = L -> L !! off = Some v -> m (Z.of_nat off) = v.
Proof.
  intros HL Hv. pose proof (lookup_lt_Some _ _ _ Hv).
  pose proof (load_eq_inv m 0 L (Z.of_nat off) HL ltac:(lia)) as E.
  rewrite Nat2Z.id, Hv in E. injection E as ->. f_equal.
Qed.

Lemma cksum_loop_take n l k x : (2 * n <= k)%nat -> cksum_loop n (take k l) x = cksum_loop n l x.
Proof.
  revert l k x. induction n as [|n IH]; intros l k x Hk; [done |].
  destruct k as [|[|k]]; [lia | lia |]. destruct l as [|a [|b l]]; [done | done |]. simpl. apply IH. lia.
Qed.

Lemma NetCksumOk_take l : NetCksumOk (take 20 l) 10 = NetCksumOk l 10.
Proof. unfold NetCksumOk, NetCksum. by rewrite cksum_loop_take by (simpl; lia). Qed.

Lemma six_list (l : list Z) : length l = 6%nat -> exists a b c d e f, l = [a; b; c; d; e; f].
Proof. intros H. destruct l as [|a [|b [|c [|d [|e [|f [|g l]]]]]]]; try done. by exists a, b, c, d, e, f. Qed.

Lemma untagged_ether c addr prot : untagged c -> NetSetEther c addr prot = addr ++ NetOurEther c ++ be_bytes 2 prot.
Proof. intros H. unfold NetSetEther. by rewrite H. Qed.

Section datagram.
Context (c : net_cfg) (addr : list Z) (ipid dest dport sport : Z) (payload : list Z) (p : mem).
Let F := udp_frame c addr ipid dest dport sport payload.
Hypothesis Haddr : length addr = 6%nat.
Hypothesis Hether : length (NetOurEther c) = 6%nat.
Hypothesis Hvlan : untagged c.
Hypothesis Hdest : 0 <= dest < 2 ^ 32.
Hypothesis Hlen : len payload <= 65507.
Hypothesis Hp : load p 0 (length F) = F.

Let sum := u16 (Z.lnot (NetCksum (ip_fields c ipid dest dport sport (len payload) 0) (IP_HDR_SIZE_NO_UDP / 2))).

Lemma udp_frame_length : length F = (42 + length payload)%nat.
Proof.
  unfold F, udp_frame. rewrite untagged_ether by done. rewrite !length_app, Haddr, Hether. simpl. lia.
Qed.

Lemma udp_frame_fields :
  get16 p 12 = PROT_IP /\ p 14 = 0x45 /\ get16 p 16 = 28 + len payload /\ get16 p 20 = 0x4000 /\ p 23 = IPPROTO_UDP /\
  get32 p 30 = dest /\ get16 p 34 = u16 sport /\ get16 p 36 = u16 dport /\ get16 p 38 = 8 + len payload /\
  load p 14 20 = take 20 (NetSetIP c ipid dest dport sport (len payload)) /\ load p 42 (length payload) = payload.
Proof.
  pose proof udp_frame_length as HF. unfold get16, get32.
  destruct (six_list _ Haddr) as (a0 & a1 & a2 & a3 & a4 & a5 & Ea).
  destruct (six_list _ Hether) as (e0 & e1 & e2 & e3 & e4 & e5 & Ee).
  assert (EF : F = [a0; a1; a2; a3; a4; a5; e0; e1; e2; e3; e4; e5] ++ be_bytes 2 PROT_IP ++
                   ip_fields c ipid dest dport sport (len payload) sum ++ payload).
  { unfold F, udp_frame. rewrite untagged_ether by done. rewrite Ea, Ee. reflexivity. }
  assert (E1 : NetSetIP c ipid dest dport sport (len payload) = ip_fields c ipid dest dport sport (len payload) sum) by done.
  rewrite E1. clearbody F. clearbody sum. unfold ip_fields in EF.
  pose proof (fun off n v H1 H2 => get_at p F off n v Hp H1 H2) as G.
  rewrite HF, EF in G. pose proof (fun off v H1 => byte_at p F off v Hp H1) as B. rewrite EF in B.
  split_and!.
  - exact (G 12%nat 2%nat PROT_IP ltac:(lia) eq_refl).
  - exact (B 14%nat 0x45 eq_refl).
  - etransitivity; [exact (G 16%nat 2%nat (IP_HDR_SIZE + len payload) ltac:(lia) eq_refl) |]. apply wrap_small. unfold IP_HDR_SIZE. lia.
  - exact (G 20%nat 2%nat IP_FLAGS_DFRAG ltac:(lia) eq_refl).
  - exact (B 23%nat 17 eq_refl).
  - etransitivity; [exact (G 30%nat 4%nat dest ltac:(lia) eq_refl) |]. by apply wrap_small.
  - exact (G 34%nat 2%nat sport ltac:(lia) eq_refl).
  - exact (G 36%nat 2%nat dport ltac:(lia) eq_refl).
  - etransitivity; [exact (G 38%nat 2%nat (8 + len payload) ltac:(lia) eq_refl) |]. apply wrap_small. lia.
  - change 14 with (0 + Z.of_nat 14). rewrite (load_sub p 0 F 14 20 Hp) by lia. by rewrite EF.
  - change 42 with (0 + Z.of_nat 42). rewrite (load_sub p 0 F 42 (length payload) Hp) by lia. rewrite EF.
    change (drop 42 _) with payload. by apply firstn_all.
Qed.

Lemma udp_delivered r n : len F <= n < 2 ^ 31 -> vlan_accepts (cfg r) VLAN_NONE = true ->
  NetOurIP (cfg r) = 0 \/ NetOurIP (cfg r) = dest \/ dest = 0xFFFFFFFF ->
  NetReceive p n r = (r, Some (mk_delivery (Some 42) (u16 dport) (u16 sport) (len payload))) /\
  load p 42 (length payload) = payload.
Proof.
  intros Hn Hv Hip. rewrite udp_frame_length in Hn.
  destruct udp_frame_fields as (E1 & E2 & E3 & E4 & E5 & E6 & E7 & E8 & E9 & E10 & E11).
  split; [| done]. rewrite NetReceive_ip by (done || unfold ETHER_HDR_SIZE; lia). rewrite Hv.
  unfold receive_ip, ip_accepts.
  change (14 + 2) with 16. change (14 + 6) with 20. change (14 + 16) with 30. change (14 + 9) with 23.
  change (14 + 22) with 36. change (14 + 20) with 34. change (14 + 24) with 38.
  rewrite E2, E3, E4, E5, E6, E7, E8, E9, E10. change (IP_HDR_SIZE_NO_UDP / 2) with 10.
  rewrite NetCksumOk_take, NetSetIP_valid. rewrite !(wrap_small 32) by lia. unfold IP_HDR_SIZE.
  rewrite (proj2 (Z.ltb_ge (n - 14) 28)), (proj2 (Z.ltb_ge (n - 14) (28 + len payload))) by lia.
  replace (truth (NetOurIP (cfg r)) && negb (dest =? NetOurIP (cfg r)) && negb (dest =? 0xFFFFFFFF)) with false.
  - simpl. do 3 f_equal. lia.
  - symmetry. destruct Hip as [-> | [-> | ->]]; [done | by rewrite Z.eqb_refl, andb_false_r | by rewrite andb_false_r].
Qed.
End datagram.

(** ** Address resolution between two stacks *)

Definition arp_frame (dst src : list Z) (op : Z) (sha : list Z) (spa : Z) (tha : list Z) (tpa : Z) : list Z :=
  dst ++ src ++ be_bytes 2 PROT_ARP ++ be_bytes 2 ARP_ETHER ++ be_bytes 2 PROT_IP ++ [6; 4] ++ be_bytes 2 op ++
  sha ++ be_bytes 4 spa ++ tha ++ be_bytes 4 tpa.

Lemma arp_request_sent s : untagged (cfg s) ->
  ArpRequest s = eth_send (arp_frame NetBcastAddr (NetOurEther (cfg s)) ARPOP_REQUEST (NetOurEther (cfg s))
                             (NetOurIP (cfg s)) [0; 0; 0; 0; 0; 0] (arp_reply_ip s))
    (set_arp (mk_arp (WaitPacketIP (arp s)) (arp_reply_ip s) (WaitPacketMAC (arp s)) (WaitTx (arp s))
                (WaitTimerStart (arp s)) (WaitTry (arp s))) s).
Proof. intros H. unfold ArpRequest. rewrite untagged_ether by done. unfold arp_frame. by rewrite <- !app_assoc. Qed.

Section resolution.
Context (dst src sha tha : list Z) (op spa tpa : Z) (p : mem).
Hypothesis H1 : length dst = 6%nat.
Hypothesis H2 : length src = 6%nat.
Hypothesis H3 : length sha = 6%nat.
Hypothesis H4 : length tha = 6%nat.
Hypothesis Hspa : 0 <= spa < 2 ^ 32.
Hypothesis Htpa : 0 <= tpa < 2 ^ 32.
Hypothesis Hop : op = ARPOP_REQUEST \/ op = ARPOP_REPLY.
Hypothesis Hp : load p 0 42 = arp_frame dst src op sha spa tha tpa.

Lemma arp_frame_fields : get16 p 12 = PROT_ARP /\ arp_header_ok p 14 = true /\ get16 p 20 = op /\
  get32 p 28 = spa /\ get32 p 38 = tpa /\ load p 6 6 = src /\ load p 22 6 = sha /\ load p 28 4 = be_bytes 4 spa /\
  load p 14 6 = be_bytes 2 ARP_ETHER ++ be_bytes 2 PROT_IP ++ [6; 4].
Proof.
  destruct (six_list _ H1) as (a0 & a1 & a2 & a3 & a4 & a5 & E1).
  destruct (six_list _ H2) as (b0 & b1 & b2 & b3 & b4 & b5 & E2).
  destruct (six_list _ H3) as (c0 & c1 & c2 & c3 & c4 & c5 & E3).
  destruct (six_list _ H4) as (d0 & d1 & d2 & d3 & d4 & d5 & E4).
  set (F := arp_frame dst src op sha spa tha tpa) in *.
  assert (HF : length F = 42%nat) by (unfold F, arp_frame; by rewrite E1, E2, E3, E4).
  assert (HL : load p 0 (length F) = F) by (by rewrite HF).
  assert (EF : F = arp_frame dst src op sha spa tha tpa) by done. clearbody F. unfold arp_frame in EF.
  rewrite E1, E2, E3, E4 in EF.
  pose proof (fun off n v Ha Hb => get_at p F off n v HL Ha Hb) as G. rewrite HF, EF in G.
  pose proof (fun off v Ha => byte_at p F off v HL Ha) as B. rewrite EF in B.
  assert (L : forall off n, (off + n <= 42)%nat -> load p (Z.of_nat off) n = take n (drop off F)).
  { intros off n Hn. replace (Z.of_nat off) with (0 + Z.of_nat off) by lia. apply load_sub; [done | lia]. }
  rewrite EF in L. split_and!.
  - exact (G 12%nat 2%nat PROT_ARP ltac:(lia) eq_refl).
  - unfold arp_header_ok, get16. change (14 + 2) with (Z.of_nat 16). change (14 + 4) with (Z.of_nat 18).
    change (14 + 5) with (Z.of_nat 19). change 14 with (Z.of_nat 14).
    rewrite (G 14%nat 2%nat ARP_ETHER ltac:(lia) eq_refl), (G 16%nat 2%nat PROT_IP ltac:(lia) eq_refl).
    rewrite (B 18%nat 6 eq_refl), (B 19%nat 4 eq_refl). reflexivity.
  - etransitivity; [exact (G 20%nat 2%nat op ltac:(lia) eq_refl) |]. by destruct Hop as [-> | ->].
  - etransitivity; [exact (G 28%nat 4%nat spa ltac:(lia) eq_refl) |]. by apply wrap_small.
  - etransitivity; [exact (G 38%nat 4%nat tpa ltac:(lia) eq_refl) |]. by apply wrap_small.
  - rewrite E2. exact (L 6%nat 6%nat ltac:(lia)).
  - rewrite E3. exact (L 22%nat 6%nat ltac:(lia)).
  - exact (L 28%nat 4%nat ltac:(lia)).
  - exact (L 14%nat 6%nat ltac:(lia)).
Qed.

Lemma arp_received s n : 42 <= n -> vlan_accepts (cfg s) VLAN_NONE = true -> NetOurIP (cfg s) <> 0 ->
  NetOurIP (cfg s) = tpa ->
  NetReceive p n s = (if op =? ARPOP_REQUEST then arp_answer p 14 s else arp_resolve p 14 s, None).
Proof.
  intros Hn Hv Hz Ht. destruct arp_frame_fields as (E1 & E2 & E3 & E4 & E5 & _).
  unfold NetReceive, frame_proto. rewrite E1. simpl (PROT_ARP <? 1514).
  rewrite (proj2 (Z.ltb_ge _ _)) by (unfold ETHER_HDR_SIZE; lia). simpl. rewrite Hv. simpl. unfold receive_arp.
  change ETHER_HDR_SIZE with 14.
  rewrite E2. change (14 + 24) with 38. change (14 + 6) with 20. rewrite E3, E5, Ht, Z.eqb_refl.
  rewrite (proj2 (Z.ltb_ge _ _)) by (unfold ARP_HDR_SIZE; lia). rewrite (proj2 (Z.eqb_neq tpa 0)) by lia.
  by destruct Hop as [-> | ->].
Qed.

(** The answer to a request. *)
Lemma arp_answer_frame s : untagged (cfg s) -> length (NetOurEther (cfg s)) = 6%nat ->
  arp_answer p 14 s = eth_send (arp_frame src (NetOurEther (cfg s)) ARPOP_REPLY (NetOurEther (cfg s))
                                 (NetOurIP (cfg s)) sha spa) s.
Proof.
  intros Hu He. destruct arp_frame_fields as (_ & _ & _ & _ & _ & E6 & E7 & E8 & E9).
  unfold arp_answer. rewrite E6, untagged_ether by done.
  destruct (six_list _ H2) as (b0 & b1 & b2 & b3 & b4 & b5 & E2).
  destruct (six_list _ H3) as (c0 & c1 & c2 & c3 & c4 & c5 & E3).
  destruct (six_list _ He) as (e0 & e1 & e2 & e3 & e4 & e5 & Ee).
  rewrite E2, E3, Ee in *. f_equal.
  injection E7 as F22 F23 F24 F25 F26 F27. injection E8 as F28 F29 F30 F31. injection E9 as F14 F15 F16 F17 F18 F19.
  clear Hp E6. cbv -[wrap Z.shiftr NetOurIP cfg].
  repeat (apply f_equal2; [first [reflexivity | assumption] |]). reflexivity.
Qed.

(** A reply that is waited for. *)
Lemma arp_resolve_sends s r : WaitPacketMAC (arp s) = Some r -> WaitPacketIP (arp s) <> 0 ->
  WaitReplyIP (arp s) = spa ->
  let s' := arp_resolve p 14 s in
  sent s' = sent s ++ [sha ++ drop 6 (WaitTx (arp s))] /\ mac_at r s' = sha /\
  WaitPacketIP (arp s') = 0 /\ cfg s' = cfg s.
Proof.
  intros Hm Hz Hr. destruct arp_frame_fields as (_ & _ & _ & E4 & _ & _ & E7 & _).
  unfold arp_resolve. rewrite Hm, (proj2 (Z.eqb_neq _ _) Hz). change (14 + 14) with 28. change (14 + 8) with 22.
  rewrite E4, Hr, Z.eqb_refl, E7. by destruct r.
Qed.
End resolution.

(** A configured stack that does not tag its frames. *)
Definition station (s : net) : Prop :=
  untagged (cfg s) /\ length (NetOurEther (cfg s)) = 6%nat /\ (forall r, length (mac_at r s) = 6%nat) /\
  0 < NetOurIP (cfg s) < 2 ^ 32.

Lemma untagged_accepts c : untagged c -> vlan_accepts c VLAN_NONE = true.
Proof. intros H. unfold vlan_accepts. by rewrite H. Qed.

Lemma send_udp_eq now r dest dport sport payload s : dest <> 0 -> dest <> 0xFFFFFFFF ->
  let frame := udp_frame (cfg s) (mac_at r s) (NetIPID s) dest dport sport payload in
  NetSendUDPPacket now r dest dport sport payload s =
  let s1 := set_ids (u32 (NetIPID s + 1)) (PingSeqNo s) s in
  if bool_decide (mac_at r s = NetEtherNullAddr)
  then (ArpRequest (set_arp (mk_arp dest (WaitReplyIP (arp s)) (Some r) frame now 1) s1), 1)
  else (eth_send frame s1, 0).
Proof.
  intros H0 Hb. unfold NetSendUDPPacket. rewrite (proj2 (Z.eqb_neq _ _) H0).
  by rewrite (proj2 (Z.eqb_neq _ _) Hb).
Qed.

(** C11: a datagram sent to a station whose hardware address is known is one
    frame, and a stack with that IP address (or without one yet) that gets
    the frame, padded by the wire or not, hands exactly the payload to the
    packet handler, with both ports, and changes nothing else. *)
Theorem udp_roundtrip now r dest dport sport payload s peer p n :
  station s -> mac_at r s <> NetEtherNullAddr -> 0 < dest < 0xFFFFFFFF -> len payload <= 65507 ->
  untagged (cfg peer) -> NetOurIP (cfg peer) = dest \/ NetOurIP (cfg peer) = 0 ->
  exists s' frame, NetSendUDPPacket now r dest dport sport payload s = (s', 0) /\ sent s' = sent s ++ [frame] /\
    (load p 0 (length frame) = frame -> len frame <= n < 2 ^ 31 ->
     NetReceive p n peer = (peer, Some (mk_delivery (Some 42) (u16 dport) (u16 sport) (len payload))) /\
     load p 42 (length payload) = payload).
Proof.
  intros (Hu & He & Hm & Hip) Hmac Hd Hl Hpu Hpip.
  rewrite send_udp_eq, bool_decide_false by (done || lia).
  do 2 eexists. split; [reflexivity |]. split; [reflexivity |]. intros Hp Hn.
  refine (udp_delivered (cfg s) (mac_at r s) (NetIPID s) dest dport sport payload p (Hm r) He Hu _ Hl Hp peer n _ _ _).
  - lia.
  - exact Hn.
  - by apply untagged_accepts.
  - destruct Hpip as [-> | ->]; auto.
Qed.

Lemma send_udp_waits now r dest dport sport payload s :
  station s -> mac_at r s = NetEtherNullAddr -> 0 < dest < 0xFFFFFFFF ->
  exists s1, NetSendUDPPacket now r dest dport sport payload s = (s1, 1) /\
    WaitPacketMAC (arp s1) = Some r /\ WaitPacketIP (arp s1) = dest /\ cfg s1 = cfg s /\
    WaitTx (arp s1) = udp_frame (cfg s) (mac_at r s) (NetIPID s) dest dport sport payload /\
    (Z.land dest (NetOurSubnetMask (cfg s)) = Z.land (NetOurIP (cfg s)) (NetOurSubnetMask (cfg s)) ->
     WaitReplyIP (arp s1) = dest /\
     sent s1 = sent s ++ [arp_frame NetBcastAddr (NetOurEther (cfg s)) ARPOP_REQUEST (NetOurEther (cfg s))
                            (NetOurIP (cfg s)) [0; 0; 0; 0; 0; 0] dest]).
Proof.
  intros (Hu & He & Hm & Hip) Hmac Hd. rewrite send_udp_eq, bool_decide_true by (done || lia).
  eexists. split; [reflexivity |]. rewrite arp_request_sent by done. split_and!; try done.
  intros Hnet. simpl. unfold arp_reply_ip. simpl. by rewrite Hnet, Z.eqb_refl.
Qed.

Lemma udp_frame_readdress c m m' ipid dest dport sport payload : length m = 6%nat ->
  m' ++ drop 6 (udp_frame c m ipid dest dport sport payload) = udp_frame c m' ipid dest dport sport payload.
Proof.
  intros Hm. unfold udp_frame, NetSetEther. rewrite <- !app_assoc.
  rewrite drop_app_length' by done. done.
Qed.


(** ** Addresses as text *)

(** The decimal text of an octet. *)
Definition dec (v : Z) : list Z := match number v 10 (-1) (-1) SIGN with Some o => o | None => [] end.

Lemma directive_d pos rest v args :
  fmt_directive pos (100 :: rest) (VWord v :: args) =
  match number (s32 v) 10 (-1) (-1) SIGN with Some o => Some (o, [], rest, args) | None => None end.
Proof. reflexivity. Qed.

Lemma dec_reads_back v rest : 0 <= v < 256 -> stops rest ->
  number (s32 v) 10 (-1) (-1) SIGN = Some (dec v) /\ simple_strtoul (dec v ++ rest) 10 = (v, rest).
Proof.
  intros Hv Hs.
  destruct (number_reads_back v 10 (-1) (-1) 0 rest) as (k & ds & Hn & Hr & Hk); [lia | lia | done | done | done | done |].
  rewrite Hk in Hn by (right; lia). simpl in Hn.
  assert (E : s32 v = v) by wrap_lia. unfold dec. rewrite E in *.
  assert (E2 : number v 10 (-1) (-1) SIGN = number v 10 (-1) (-1) 0).
  { unfold number. change (has SIGN SIGN) with true. cbv iota. rewrite (proj2 (Z.ltb_ge v 0)) by lia. reflexivity. }
  by rewrite E2, Hn.
Qed.

Lemma octet x k : 0 <= k -> 0 <= Z.land (Z.shiftr x k) 0xff < 256.
Proof. intros. change 0xff with (Z.ones 8). rewrite Z.land_ones by lia. by apply Z.mod_pos_bound. Qed.

Lemma ip_to_string_eq x : ip_to_string x =
  Some (dec (Z.land (Z.shiftr x 24) 0xff) ++ [46] ++ dec (Z.land (Z.shiftr x 16) 0xff) ++ [46] ++
        dec (Z.land (Z.shiftr x 8) 0xff) ++ [46] ++ dec (Z.land (Z.shiftr x 0) 0xff) ++ [0]).
Proof.
  unfold ip_to_string, sprintf, vsprintf. change (str "%d.%d.%d.%d") with [37; 100; 46; 37; 100; 46; 37; 100; 46; 37; 100].
  set (a := Z.land (Z.shiftr x 24) 0xff). set (b := Z.land (Z.shiftr x 16) 0xff).
  set (c := Z.land (Z.shiftr x 8) 0xff). set (d := Z.land (Z.shiftr x 0) 0xff).
  assert (Hn : forall v, 0 <= v < 256 -> number (s32 v) 10 (-1) (-1) SIGN = Some (dec v)).
  { intros v Hv. by apply (dec_reads_back v []). }
  assert (Ha := Hn a (octet x 24 ltac:(lia))). assert (Hb := Hn b (octet x 16 ltac:(lia))).
  assert (Hc := Hn c (octet x 8 ltac:(lia))). assert (Hd := Hn d (octet x 0 ltac:(lia))).
  clearbody a b c d. cbn [length vsprintf_loop negb Z.eqb Pos.eqb]. rewrite directive_d, Ha.
  cbn [length vsprintf_loop negb Z.eqb Pos.eqb]. rewrite directive_d, Hb.
  cbn [length vsprintf_loop negb Z.eqb Pos.eqb]. rewrite directive_d, Hc.
  cbn [length vsprintf_loop negb Z.eqb Pos.eqb]. rewrite directive_d, Hd.
  cbn [vsprintf_loop fmap option_fmap option_map fst app]. by rewrite <- !app_assoc.
Qed.

Lemma shift_or a v : 0 <= a < 2 ^ 24 -> 0 <= v < 256 -> Z.lor (u32 (Z.shiftl a 8)) v = a * 256 + v.
Proof.
  intros Ha Hv. rewrite Z.shiftl_mul_pow2 by lia. rewrite (wrap_small 32) by lia.
  rewrite lor_add_disjoint; [done |]. rewrite <- Z.shiftl_mul_pow2 by lia.
  apply Z.bits_inj'. intros i Hi. rewrite Z.land_spec, Z.shiftl_spec, Z.bits_0 by lia.
  destruct (decide (i < 8)); [by rewrite Z.testbit_neg_r by lia |].
  rewrite (testbit_small 8 v i) by lia. by rewrite andb_false_r.
Qed.

(** Reading dotted octets. *)
Lemma string_to_ip_octet n v rest addr : 0 <= v < 256 -> stops rest -> 0 <= addr < 2 ^ 24 ->
  string_to_ip_loop (S n) (dec v ++ rest) addr =
  string_to_ip_loop n (if chr rest =? 0 then rest else tail rest) (addr * 256 + v).
Proof.
  intros Hv Hs Ha. simpl. destruct (dec_reads_back v rest Hv Hs) as [_ ->].
  change 255 with (Z.ones 8). rewrite Z.land_ones, Z.mod_small by lia. by rewrite shift_or.
Qed.

Lemma string_to_ip_dot n v rest addr : 0 <= v < 256 -> 0 <= addr < 2 ^ 24 ->
  string_to_ip_loop (S n) (dec v ++ 46 :: rest) addr = string_to_ip_loop n rest (addr * 256 + v).
Proof. intros Hv Ha. by rewrite string_to_ip_octet by done. Qed.

Lemma octet_u8 x k : Z.land (Z.shiftr x k) 0xff = u8 (Z.shiftr x k).
Proof. change 0xff with (Z.ones 8). by rewrite Z.land_ones. Qed.

(** [string_to_ip] inverts [ip_to_string] on every address. *)
Theorem ip_string_roundtrip x : 0 <= x < 2 ^ 32 ->
  exists s, ip_to_string x = Some (s ++ [0]) /\ string_to_ip (Some s) = x.
Proof.
  intros Hx. rewrite ip_to_string_eq.
  assert (H : forall k, 0 <= k -> 0 <= Z.land (Z.shiftr x k) 0xff < 256) by (intros; by apply octet).
  pose proof (H 24 ltac:(lia)) as Ha. pose proof (H 16 ltac:(lia)) as Hb.
  pose proof (H 8 ltac:(lia)) as Hc. pose proof (H 0 ltac:(lia)) as Hd. clear H.
  assert (Ex : be_val [Z.land (Z.shiftr x 24) 0xff; Z.land (Z.shiftr x 16) 0xff; Z.land (Z.shiftr x 8) 0xff;
                       Z.land (Z.shiftr x 0) 0xff] = x).
  { rewrite !octet_u8. etransitivity; [exact (be_val_bytes 4 x) | by apply wrap_small]. }
  set (a := Z.land (Z.shiftr x 24) 0xff) in *. set (b := Z.land (Z.shiftr x 16) 0xff) in *.
  set (c := Z.land (Z.shiftr x 8) 0xff) in *. set (d := Z.land (Z.shiftr x 0) 0xff) in *. clearbody a b c d.
  exists (dec a ++ 46 :: dec b ++ 46 :: dec c ++ 46 :: dec d).
  split; [simpl; rewrite <- !app_assoc; simpl; by rewrite <- !app_assoc; simpl; rewrite <- !app_assoc |].
  unfold string_to_ip. rewrite !string_to_ip_dot by lia. rewrite <- (app_nil_r (dec d)).
  rewrite string_to_ip_octet by (done || lia). simpl. rewrite <- Ex. unfold be_val. simpl. lia.
Qed.

(** ** Behaviour at the edges *)

(** The length handed to the packet handler is the UDP length field less 8,
    unchecked: a field below 8 arrives as almost 2^32. *)
Lemma short_udp_length p s : get16 p 12 = PROT_IP -> vlan_accepts (cfg s) VLAN_NONE = true ->
  ip_accepts (cfg s) p 14 28 = true -> p 23 = IPPROTO_UDP -> get16 p 38 = 0 ->
  exists d, NetReceive p 42 s = (s, Some d) /\ d_len d = 0xFFFFFFF8.
Proof.
  intros Hx Hv Hok Hudp Hl. rewrite NetReceive_ip by done. rewrite Hv. change (42 - 14) with 28.
  unfold receive_ip. rewrite Hok. change (14 + 9) with 23. change (14 + 24) with 38. rewrite Hudp, Hl. by eexists.
Qed.

(** ** Witnesses: the board and its server *)

Definition board_cfg : net_cfg :=
  mk_cfg 0xC0A802BE 0xC0A80264 0xC0A80264 0xFFFFFF00 0xffff 0xffff 0 [0x08; 0; 0x3e; 0x26; 0x0a; 0x5b] None.
Definition server_cfg : net_cfg :=
  mk_cfg 0xC0A80264 0 0 0xFFFFFF00 0xffff 0xffff 0 [0; 0x11; 0x22; 0x33; 0x44; 0x55] None.
Definition idle_net (c : net_cfg) (mac : list Z) : net :=
  mk_net c (mk_arp 0 0 None [] 0 0) mac NetEtherNullAddr 0 0 startAgainHandler_f (mk_timer None 0 0) NETLOOP_CONTINUE 0 [] true.
Definition board_net : net := idle_net board_cfg NetEtherNullAddr.
Definition server_net : net := idle_net server_cfg NetEtherNullAddr.

Lemma station_demo c mac : untagged c -> length (NetOurEther c) = 6%nat -> length mac = 6%nat -> 0 < NetOurIP c < 2 ^ 32 ->
  station (idle_net c mac).
Proof. intros. split_and!; try done; [intros []; done | simpl; lia | simpl; lia]. Qed.

Lemma udp_roundtrip_witness :
  exists s' frame, NetSendUDPPacket 0 ServerEther 0xC0A80264 69 1024 [1; 2; 3]
    (idle_net board_cfg (NetOurEther server_cfg)) = (s', 0) /\ sent s' = [frame].
Proof.
  destruct (udp_roundtrip 0 ServerEther 0xC0A80264 69 1024 [1; 2; 3] (idle_net board_cfg (NetOurEther server_cfg))
              server_net (fun _ => 0) 60) as (s' & frame & H1 & H2 & _);
    [apply station_demo; (done || simpl; lia) | done | lia | simpl; lia | done | by left |].
  exists s', frame. split; [exact H1 | exact H2].
Defined.


Definition demo_datagram : list Z :=
  Eval vm_compute in udp_frame board_cfg (NetOurEther server_cfg) 7 0xC0A80264 69 1024 [1; 2; 3].
Definition demo_rx : mem := store_list (fun _ => 0) 0 demo_datagram.

Lemma demo_rx_bytes : byte_mem demo_rx.
Proof. apply store_list_byte_mem; [by intros a |]. bytes_eval. Qed.

Lemma ip_header_damage_dropped_witness : NetReceive (store demo_rx 26 0xC1) 45 server_net = (server_net, None).
Proof.
  apply (ip_header_damage_dropped demo_rx 45 server_net 26 0xC1 demo_rx_bytes);
    [done | vm_compute; reflexivity | done | vm_compute; reflexivity | lia | vm_compute; discriminate].
Defined.

Lemma ip_string_roundtrip_witness :
  exists s, ip_to_string 0xC0A802BE = Some (s ++ [0]) /\ string_to_ip (Some s) = 0xC0A802BE.
Proof. apply (ip_string_roundtrip 0xC0A802BE). lia. Defined.
