(* ===== verification/Tftp.v ===== *)
(** * File transfer and the network loop: net/tftp.c, [NetLoop] of net/net.c

    The TFTP client: the state it keeps between packets, the packets it
    sends, its packet and timeout handlers, and the loop that feeds it with
    frames and time.  The client's state, the network stack and the memory
    that receives the file are one record; [now] is [get_timer(0)], read once
    per call and once per turn of the loop.  The receive buffers are apart
    from the load area.

    The theorems: whatever a server's datagrams, duplicates, retransmission
    timeouts and foreign datagrams, the blocks of a file that arrive in order
    end up at the load address and the transfer succeeds with exactly the
    last block, across the wrap-around of the 16-bit block number; every new
    block is acknowledged by one packet; a silent server is given up after
    the retry count. *)

From S2P Require Import Prelude Memory Ctype Strings Vsprintf Net.

Local Open Scope Z_scope.

Definition WELL_KNOWN_PORT : Z := 69.
Definition TIMEOUT : Z := 5000.
Definition TIMEOUT_COUNT : Z := 10.
Definition TFTP_RRQ : Z := 1.
Definition TFTP_DATA : Z := 3.
Definition TFTP_ACK : Z := 4.
Definition TFTP_ERROR : Z := 5.
Definition TFTP_OACK : Z := 6.
Definition STATE_RRQ : Z := 1.
Definition STATE_DATA : Z := 2.
Definition STATE_TOO_LARGE : Z := 3.
Definition STATE_BAD_MAGIC : Z := 4.
Definition STATE_OACK : Z := 5.
Definition TFTP_BLOCK_SIZE : Z := 512.
Definition TFTP_SEQUENCE_SIZE : Z := 65536.
Definition MAX_LEN : Z := 128.
Definition TFTP_MTU_BLOCKSIZE : Z := 1460.
Definition PKTSIZE : Z := 1518.

Record tftp := mk_tftp {
  TftpTimeoutMSecs : Z; TftpTimeoutCountMax : Z; TftpServerIP : Z; TftpServerPort : Z; TftpOurPort : Z;
  TftpTimeoutCount : Z; TftpBlock : Z; TftpLastBlock : Z; TftpBlockWrap : Z; TftpBlockWrapOffset : Z;
  TftpState : Z; TftpBlkSize : Z; tftp_filename : list Z;
}.

(** The client, the stack below it and the memory. *)
Record sys := mk_sys { nt : net; tf : tftp; ram : mem }.

Definition on_net (f : net -> net) (s : sys) : sys := mk_sys (f (nt s)) (tf s) (ram s).
Definition on_tftp (f : tftp -> tftp) (s : sys) : sys := mk_sys (nt s) (f (tf s)) (ram s).

(** Writes of single registers. *)
Definition set_session (state port : Z) (t : tftp) : tftp :=
  mk_tftp (TftpTimeoutMSecs t) (TftpTimeoutCountMax t) (TftpServerIP t) port (TftpOurPort t) (TftpTimeoutCount t)
    (TftpBlock t) (TftpLastBlock t) (TftpBlockWrap t) (TftpBlockWrapOffset t) state (TftpBlkSize t) (tftp_filename t).
Definition set_blksize (v : Z) (t : tftp) : tftp :=
  mk_tftp (TftpTimeoutMSecs t) (TftpTimeoutCountMax t) (TftpServerIP t) (TftpServerPort t) (TftpOurPort t)
    (TftpTimeoutCount t) (TftpBlock t) (TftpLastBlock t) (TftpBlockWrap t) (TftpBlockWrapOffset t) (TftpState t) v
    (tftp_filename t).
Definition set_blocks (block last wrap offset : Z) (t : tftp) : tftp :=
  mk_tftp (TftpTimeoutMSecs t) (TftpTimeoutCountMax t) (TftpServerIP t) (TftpServerPort t) (TftpOurPort t)
    (TftpTimeoutCount t) block last wrap offset (TftpState t) (TftpBlkSize t) (tftp_filename t).
Definition set_retries (msecs max count : Z) (t : tftp) : tftp :=
  mk_tftp msecs max (TftpServerIP t) (TftpServerPort t) (TftpOurPort t) count (TftpBlock t) (TftpLastBlock t)
    (TftpBlockWrap t) (TftpBlockWrapOffset t) (TftpState t) (TftpBlkSize t) (tftp_filename t).

(** ** Sending *)

(** The text a format makes, without the NUL. *)
Definition text (fmt : list Z) (args : list va) : list Z :=
  match vsprintf fmt args with Some (o, _) => o | None => [] end.

(** The packet for the present state. *)
Definition tftp_packet (t : tftp) : list Z :=
  let st := TftpState t in
  if st =? STATE_RRQ then
    be_bytes 2 TFTP_RRQ ++ tftp_filename t ++ [0] ++ str "octet" ++ [0] ++ str "timeout" ++ [0] ++
    text (str "%lu") [VWord (TIMEOUT / 1000)] ++ [0] ++
    text (str "blksize%c%d%c") [VWord 0; VWord TFTP_MTU_BLOCKSIZE; VWord 0]
  else if (st =? STATE_OACK) || (st =? STATE_DATA) then be_bytes 2 TFTP_ACK ++ be_bytes 2 (TftpBlock t)
  else if st =? STATE_TOO_LARGE then be_bytes 2 TFTP_ERROR ++ be_bytes 2 3 ++ str "File too large" ++ [0]
  else if st =? STATE_BAD_MAGIC then be_bytes 2 TFTP_ERROR ++ be_bytes 2 2 ++ str "File has bad magic" ++ [0]
  else [].

Definition TftpSend (now : Z) (s : sys) : sys :=
  let t := tf s in
  on_net (fun n => fst (NetSendUDPPacket now ServerEther (TftpServerIP t) (TftpServerPort t) (TftpOurPort t)
                          (tftp_packet t) n)) s.

(** ** Receiving *)

Section client.
Context (load_addr : Z).

(** [store_block]: [src] is the offset of the data in the frame [p]. *)
Definition store_block (block : Z) (p : mem) (src len : Z) (s : sys) : sys :=
  let offset := u32 (u32 (block * TftpBlkSize (tf s)) + TftpBlockWrapOffset (tf s)) in
  let newsize := u32 (offset + len) in
  let ram := store_list (ram s) (u32 (load_addr + offset)) (load p src (Z.to_nat len)) in
  let n := if NetBootFileXferSize (nt s) <? newsize then set_xfer newsize (nt s) else nt s in
  mk_sys n (tf s) ram.

(** The search for the option name; the answer is the index of its value.
    [strcmp] with the literal compares its eight bytes. *)
Fixpoint oack_scan (n : nat) (p : mem) (pkt i : Z) : option Z :=
  match n with
  | O => None
  | S n' =>
      if bool_decide (load p (pkt + i) 8 = str "blksize" ++ [0]) then Some (i + 8)
      else oack_scan n' p pkt (i + 1)
  end.

(** [TFTP_OACK]: [pkt] is past the opcode.  The value is parsed from at most
    PKTSIZE bytes. *)
Definition handle_oack (now : Z) (p : mem) (pkt src len : Z) (s : sys) : sys :=
  let s := on_tftp (set_session STATE_OACK src) s in
  let s :=
    match oack_scan (Z.to_nat (len - 8)) p pkt 0 with
    | Some v => on_tftp (set_blksize (u16 (simple_strtoul (load p (pkt + v) (Z.to_nat PKTSIZE)) 10).1)) s
    | None => s
    end in
  TftpSend now s.

(** The first block of a transfer; [None] when it is not block 1. *)
Definition first_block (src : Z) (t : tftp) : tftp * bool :=
  if (TftpState t =? STATE_RRQ) || (TftpState t =? STATE_OACK)
  then (set_session STATE_DATA src (set_blocks (TftpBlock t) 0 0 0 t), negb (TftpBlock t =? 1))
  else (t, false).

(** [TFTP_DATA]. *)
Definition handle_data (now : Z) (p : mem) (pkt src len : Z) (s : sys) : sys :=
  if len <? 2 then s
  else
    let len := len - 2 in
    let block := get16 p pkt in
    let t := tf s in
    let t :=
      if block =? 0
      then set_blocks block (TftpLastBlock t) (u32 (TftpBlockWrap t + 1))
             (u32 (TftpBlockWrapOffset t + u32 (TftpBlkSize t * TFTP_SEQUENCE_SIZE))) t
      else set_blocks block (TftpLastBlock t) (TftpBlockWrap t) (TftpBlockWrapOffset t) t in
    let '(t, bad_start) := first_block src t in
    let s := on_tftp (fun _ => t) s in
    if bad_start then on_net (NetStartAgain now) s
    else if TftpBlock t =? TftpLastBlock t then s
    else
      let t := set_blocks block block (TftpBlockWrap t) (TftpBlockWrapOffset t) t in
      let t := set_retries TIMEOUT TIMEOUT_COUNT (TftpTimeoutCount t) t in
      let s := on_net (NetSetTimeout now TIMEOUT TftpTimeout_f) (on_tftp (fun _ => t) s) in
      let s := store_block (u32 (block - 1)) p (pkt + 2) len s in
      let s := TftpSend now s in
      if len <? TftpBlkSize (tf s) then on_net (set_NetState NETLOOP_SUCCESS) s else s.

Definition TftpHandler (now : Z) (p : mem) (pkt dest src len : Z) (s : sys) : sys :=
  let t := tf s in
  if negb (dest =? TftpOurPort t) then s
  else if negb (TftpState t =? STATE_RRQ) && negb (src =? TftpServerPort t) then s
  else if len <? 2 then s
  else
    let len := len - 2 in
    let proto := get16 p pkt in
    let pkt := pkt + 2 in
    if proto =? TFTP_OACK then handle_oack now p pkt src len s
    else if proto =? TFTP_DATA then handle_data now p pkt src len s
    else if proto =? TFTP_ERROR then on_net (NetStartAgain now) s
    else s.

Definition TftpTimeout (now : Z) (s : sys) : sys :=
  let t := tf s in
  let count := TftpTimeoutCount t + 1 in
  let s := on_tftp (fun t => set_retries (TftpTimeoutMSecs t) (TftpTimeoutCountMax t) count t) s in
  if TftpTimeoutCountMax t <? count then on_net (NetStartAgain now) s
  else TftpSend now (on_net (NetSetTimeout now (TftpTimeoutMSecs t) TftpTimeout_f) s).

(** ** Starting *)

(** [strncpy] into the name buffer and the final NUL. *)
Definition clip_name (name : list Z) : list Z := take (Z.to_nat (MAX_LEN - 1)) name.

(** The name from the boot file variable: the part after a colon, which is
    preceded by the server's address. *)
Definition file_and_server (BootFile : list Z) (c : net_cfg) : list Z * Z :=
  match BootFile with
  | [] =>
      let ip k := VWord (Z.land (Z.shiftr (NetOurIP c) k) 0xff) in
      (clip_name (text (str "%02lX%02lX%02lX%02lX.img") [ip 0; ip 8; ip 16; ip 24]), NetServerIP c)
  | _ =>
      match drop_while (fun x => negb (x =? 58)) BootFile with
      | [] => (clip_name BootFile, NetServerIP c)
      | _ :: name => (clip_name name, string_to_ip (Some BootFile))
      end
  end.

Definition TftpStart (now : Z) (BootFile : list Z) (s : sys) : sys :=
  let '(name, server) := file_and_server BootFile (cfg (nt s)) in
  let t := mk_tftp TIMEOUT TIMEOUT_COUNT server WELL_KNOWN_PORT (1024 + now mod 3072) 0 0 (TftpLastBlock (tf s))
             (TftpBlockWrap (tf s)) (TftpBlockWrapOffset (tf s)) STATE_RRQ TFTP_BLOCK_SIZE name in
  let n := NetSetHandler TftpHandler_f (NetSetTimeout now TIMEOUT TftpTimeout_f (nt s)) in
  let n := set_mac ServerEther NetEtherNullAddr n in
  TftpSend now (mk_sys n t (ram s)).

(** ** The loop *)

(** The loop as TFTP and ping see it; [NetLoop] adds the handlers of the other
    clients.  A null packet is only sent to the RARP client. *)
Definition deliver (now : Z) (p : mem) (d : delivery) (s : sys) : sys :=
  match packetHandler (nt s), d_pkt d with
  | TftpHandler_f, Some pkt => TftpHandler now p pkt (d_dest d) (d_src d) (d_len d) s
  | PingHandler_f, Some pkt => on_net (PingHandler p pkt) s
  | _, _ => s
  end.

(** One frame from the driver. *)
Definition rx_frame (now : Z) (s : sys) (f : mem * Z) : sys :=
  let '(n, d) := NetReceive f.1 f.2 (nt s) in
  let s := mk_sys n (tf s) (ram s) in
  match d with Some d => deliver now f.1 d s | None => s end.

Definition run_timeout (now : Z) (h : thand) (s : sys) : sys :=
  match h with
  | TftpTimeout_f => TftpTimeout now s
  | PingTimeout_f => on_net PingTimeout s
  | startAgainTimeout_f => on_net startAgainTimeout s
  | _ => s
  end.

(** [if (timeHandler && ((get_timer(0) - timeStart) > timeDelta))] *)
Definition check_timeout (now : Z) (s : sys) : sys :=
  let r := tmr (nt s) in
  match timeHandler r with
  | Some h =>
      if timeDelta r <? u32 (now - timeStart r)
      then run_timeout now h (on_net (NetSetTimeout now 0 h) s)
      else s
  | None => s
  end.

Inductive turn :=
| Running
| Restart
| Returned (code : Z) (env_updates : list (list Z * list Z)).

(** One turn of [for (;;)]: the frames [eth_rx] hands over, whether ctrl-c
    was pressed, the time. *)
Definition netloop_turn (frames : list (mem * Z)) (ctrlc : bool) (now : Z) (s : sys) : sys * turn :=
  let s := fold_left (rx_frame now) frames s in
  if ctrlc then (on_net eth_halt s, Returned (-1) [])
  else
    let s := on_net (ArpTimeoutCheck now) s in
    let s := check_timeout now s in
    let st := NetState (nt s) in
    if st =? NETLOOP_RESTART then (s, Restart)
    else if st =? NETLOOP_SUCCESS then
      let size := NetBootFileXferSize (nt s) in
      (on_net eth_halt s, Returned (s32 size)
        (if 0 <? size then [(str "filesize", text (str "%lX") [VWord size]);
                            (str "fileaddr", text (str "%lX") [VWord load_addr])] else []))
    else if st =? NETLOOP_FAIL then (s, Returned (-1) [])
    else (s, Running).
End client.

Inductive proto_t := BOOTP | RARP | ARP | TFTP | DHCP | PING | DNS | NFS | CDP | NETCONS | SNTP.

Definition net_check_prereq (proto : proto_t) (c : net_cfg) : Z :=
  let ether := if bool_decide (NetOurEther c = NetEtherNullAddr) then 1 else 0 in
  let common := if NetOurIP c =? 0 then 1 else ether in
  match proto with
  | PING => if NetPingIP c =? 0 then 1 else common
  | NFS | NETCONS | TFTP => if NetServerIP c =? 0 then 1 else common
  | DHCP | RARP | BOOTP | CDP => ether
  | _ => 0
  end.

(** [NetLoop] from the label [restart] to the loop, for the protocols that
    are modelled; [c] is the configuration [NetInitLoop] has read. *)
Definition netloop_restart (proto : proto_t) (c : net_cfg) (BootFile : list Z) (now : Z) (s : sys) : option sys :=
  let s := on_net (fun n => set_NetState NETLOOP_CONTINUE (set_cfg c n)) s in
  if truth (net_check_prereq proto c) then None
  else
    match proto with
    | TFTP => Some (on_net (set_xfer 0) (TftpStart now BootFile s))
    | PING => Some (on_net (set_xfer 0) (on_net (PingStart now) s))
    | _ => None
    end.

(** ** What the client leaves alone *)

Lemma station_cfg n n' : cfg n' = cfg n -> (forall r, length (mac_at r n') = 6%nat) -> station n -> station n'.
Proof. intros E Hm (H1 & H2 & _ & H4). unfold station. rewrite E. exact (conj H1 (conj H2 (conj Hm H4))). Qed.

Lemma TftpSend_session now s : same_session (nt s) (nt (TftpSend now s)) /\
  (station (nt s) -> station (nt (TftpSend now s))) /\ tf (TftpSend now s) = tf s /\ ram (TftpSend now s) = ram s.
Proof.
  unfold TftpSend. simpl.
  destruct (send_udp_session now ServerEther (TftpServerIP (tf s)) (TftpServerPort (tf s)) (TftpOurPort (tf s))
              (tftp_packet (tf s)) (nt s)) as [H1 H2].
  split_and!; try done. intros Hs. eapply station_cfg; [apply H1 | | exact Hs].
  intros r. rewrite H2. apply Hs.
Qed.

(** Frames that are not delivered to the handler. *)
Lemma receive_arp_session p a len n : (forall r, length (mac_at r n) = 6%nat) ->
  same_session n (receive_arp p a len n) /\ forall r, length (mac_at r (receive_arp p a len n)) = 6%nat.
Proof.
  intros Hm. unfold receive_arp, arp_answer, arp_resolve.
  repeat case_match; try (split; [by repeat split | exact Hm]).
  all: split; [by repeat split | intros r; destruct r; simpl; repeat case_match; simplify_eq/=; first [done | apply (Hm ServerEther) | apply (Hm PingMac)]].
Qed.

Lemma undelivered_session p len n n' : (forall r, length (mac_at r n) = 6%nat) -> NetReceive p len n = (n', None) ->
  same_session n n' /\ forall r, length (mac_at r n') = 6%nat.
Proof.
  intros Hm. unfold NetReceive. destruct (frame_proto _ _ _) as [[[[x ip] l] v]|]; [| by intros [= <-]].
  destruct (vlan_accepts _ _); simpl; [| by intros [= <-]].
  destruct (x =? PROT_ARP); [intros [= <-]; by apply receive_arp_session |].
  destruct (x =? PROT_RARP); [unfold receive_rarp; repeat case_match; by intros [= <-] |].
  destruct (x =? PROT_IP); [| by intros [= <-]].
  unfold receive_ip, receive_icmp, icmp_answer. repeat case_match; intros [= <-]; try done.
Qed.

(** ** The transfer *)

(** The data of block [k], counted from 1. *)
Definition file_block (file : list Z) (B k : Z) : list Z :=
  take (Z.to_nat B) (drop (Z.to_nat ((k - 1) * B)) file).

(** The place of block [k + 1], as the code computes it from the 16-bit
    number and the wrap-around offset. *)
Lemma block_offset B k : 0 < B < 65504 -> 0 <= k -> (k + 1) * B < 2 ^ 32 ->
  let block := (k + 1) mod 65536 in
  let wrapped := k / 65536 * 65536 * B in
  let wrapped' := if block =? 0 then u32 (wrapped + u32 (B * TFTP_SEQUENCE_SIZE)) else wrapped in
  wrapped' = (k + 1) / 65536 * 65536 * B /\ u32 (u32 (u32 (block - 1) * B) + wrapped') = k * B.
Proof.
  intros HB Hk Hlim block wrapped wrapped'. unfold wrapped', TFTP_SEQUENCE_SIZE.
  set (q := (k + 1) / 65536). assert (E : k + 1 = 65536 * q + block) by (apply Z.div_mod; lia).
  assert (Hb : 0 <= block < 65536) by (by apply Z.mod_pos_bound).
  assert (Hq : 0 <= q) by (apply Z.div_pos; lia). clearbody block q.
  assert (HX : (k + 1) * B = q * 65536 * B + block * B) by (rewrite E; ring).
  destruct (Z.eqb_spec block 0) as [->|Hne].
  - assert (Hk' : k / 65536 = q - 1) by (symmetry; apply (Z.div_unique k 65536 (q - 1) 65535); lia).
    unfold wrapped. rewrite Hk'. assert (1 <= q) by lia.
    assert (HY : (q - 1) * 65536 * B = q * 65536 * B - 65536 * B) by ring.
    assert (0 <= (q - 1) * (65536 * B)) by (apply Z.mul_nonneg_nonneg; lia).
    rewrite (wrap_small 32 (B * 65536)) by lia. rewrite (wrap_small 32 (_ + _)) by lia.
    split; [lia |]. change (u32 (0 - 1)) with (2 ^ 32 - 1).
    replace (u32 ((2 ^ 32 - 1) * B)) with (2 ^ 32 - B).
    + assert (k * B = (k + 1) * B - B) by ring. replace (2 ^ 32 - B + _) with (k * B + 1 * 2 ^ 32) by lia.
      unfold wrap. rewrite Z.mod_add by lia. apply Z.mod_small. split; [apply Z.mul_nonneg_nonneg; lia | lia].
    + unfold wrap. apply (Z.mod_unique _ _ (B - 1)); lia.
  - assert (Hk' : k / 65536 = q) by (symmetry; apply (Z.div_unique k 65536 q (block - 1)); lia).
    unfold wrapped. rewrite Hk'. split; [done |].
    assert (HZ : k * B = (block - 1) * B + q * 65536 * B) by (replace k with (block - 1 + 65536 * q) by lia; ring).
    assert (0 <= q * 65536 * B) by (repeat apply Z.mul_nonneg_nonneg; lia).
    assert (0 <= (block - 1) * B) by (apply Z.mul_nonneg_nonneg; lia).
    assert ((k + 1) * B = k * B + B) by ring.
    rewrite (wrap_small 32 (block - 1)), (wrap_small 32 ((block - 1) * B)), (wrap_small 32) by lia. lia.
Qed.

(** The frame [f] brings to [c] a datagram from some untagged station. *)
Definition carries (c : net_cfg) (f : mem * Z) (dport sport : Z) (payload : list Z) : Prop :=
  exists sc addr ipid, untagged sc /\ length addr = 6%nat /\ length (NetOurEther sc) = 6%nat /\
    let F := udp_frame sc addr ipid (NetOurIP c) dport sport payload in
    load f.1 0 (length F) = F /\ len F <= f.2 < 2 ^ 31.

Lemma datagram_delivered load_addr now s f dport sport payload : station (nt s) -> len payload <= 65507 ->
  carries (cfg (nt s)) f dport sport payload ->
  rx_frame load_addr now s f = deliver load_addr now f.1 (mk_delivery (Some 42) (u16 dport) (u16 sport) (len payload)) s /\
  load f.1 42 (length payload) = payload.
Proof.
  intros (Hu & _ & _ & Hip) Hl (sc & addr & ipid & Hsu & Ha & He & HF & Hn).
  destruct (udp_delivered sc addr ipid (NetOurIP (cfg (nt s))) dport sport payload f.1 Ha He Hsu ltac:(lia) Hl HF (nt s) f.2 Hn)
    as [R D]; [by apply untagged_accepts | auto |].
  split; [| exact D]. unfold rx_frame. rewrite R. by destruct s.
Qed.

Section transfer.
Context (load_addr : Z) (file : list Z) (B sp op : Z).
Hypothesis Hla : 0 <= load_addr.
Hypothesis Hfile : load_addr + len file + B < 2 ^ 32.
Hypothesis HB : 0 < B < 65504.
Hypothesis Hsp : 0 <= sp < 65536.
Hypothesis Hop : 0 <= op < 65536.

(** The file's first [k] blocks are in memory. *)
Definition loaded_blocks (k : Z) (s : sys) : Prop :=
  load (ram s) load_addr (length (take (Z.to_nat (k * B)) file)) = take (Z.to_nat (k * B)) file /\
  NetBootFileXferSize (nt s) = Z.min (k * B) (len file).

(** Before the first block. *)
Definition ready (s : sys) : Prop :=
  station (nt s) /\ packetHandler (nt s) = TftpHandler_f /\ NetState (nt s) = NETLOOP_CONTINUE /\
  NetBootFileXferSize (nt s) = 0 /\ TftpOurPort (tf s) = op /\ TftpBlkSize (tf s) = B /\
  (TftpState (tf s) = STATE_RRQ \/ TftpState (tf s) = STATE_OACK /\ TftpServerPort (tf s) = sp).

(** After [k] blocks. *)
Definition transferring (k : Z) (s : sys) : Prop :=
  station (nt s) /\ packetHandler (nt s) = TftpHandler_f /\
  NetState (nt s) = (if len file <? k * B then NETLOOP_SUCCESS else NETLOOP_CONTINUE) /\
  TftpOurPort (tf s) = op /\ TftpBlkSize (tf s) = B /\ TftpState (tf s) = STATE_DATA /\ TftpServerPort (tf s) = sp /\
  TftpBlock (tf s) = k mod 65536 /\ TftpLastBlock (tf s) = k mod 65536 /\
  TftpBlockWrapOffset (tf s) = k / 65536 * 65536 * B /\ loaded_blocks k s.

Definition invariant (k : Z) (s : sys) : Prop := if k =? 0 then ready s else 0 < k /\ transferring k s.

(** The client state that [handle_data] computes for the next block, the same
    for a first one and a later one. *)
Lemma next_block_state k s : 0 <= k -> invariant k s -> k * B <= len file ->
  let block := (k + 1) mod 65536 in
  exists t,
    first_block sp
      (if block =? 0
       then set_blocks block (TftpLastBlock (tf s)) (u32 (TftpBlockWrap (tf s) + 1))
              (u32 (TftpBlockWrapOffset (tf s) + u32 (TftpBlkSize (tf s) * TFTP_SEQUENCE_SIZE))) (tf s)
       else set_blocks block (TftpLastBlock (tf s)) (TftpBlockWrap (tf s)) (TftpBlockWrapOffset (tf s)) (tf s))
    = (t, false) /\
    TftpBlock t = block /\ TftpLastBlock t <> block /\ TftpBlockWrapOffset t = (k + 1) / 65536 * 65536 * B /\
    TftpBlkSize t = B /\ TftpOurPort t = op /\ TftpServerPort t = sp /\ TftpState t = STATE_DATA /\
    u32 (u32 (u32 (block - 1) * B) + TftpBlockWrapOffset t) = k * B.
Proof.
  intros Hk Hinv Hle block. assert (E1 : (k + 1) * B = k * B + B) by ring.
  destruct (block_offset B k HB Hk ltac:(lia)) as [W1 W2]. fold block in W1, W2.
  unfold invariant in Hinv. destruct (Z.eqb_spec k 0) as [->|Hne].
  - destruct Hinv as (_ & _ & _ & _ & I4 & I5 & I6).
    change block with 1 in *. simpl (1 =? 0) in *. cbv iota in *. unfold first_block.
    replace ((_ =? STATE_RRQ) || _) with true
      by (symmetry; apply orb_true_iff; simpl; destruct I6 as [-> | [-> _]]; [left | right]; done).
    eexists. split; [reflexivity |]. simpl. split_and!; done.
  - destruct Hinv as (Hp & _ & _ & _ & I4 & I5 & I6 & I7 & I8 & I9 & I10 & _).
    unfold first_block. replace ((_ =? STATE_RRQ) || _) with false by (by destruct (block =? 0); simpl; rewrite I6).
    eexists. split; [reflexivity |]. rewrite I5, I10. fold block in W1, W2.
    assert (Hlast : k mod 65536 <> block) by (unfold block; Z.div_mod_to_equations; lia).
    destruct (Z.eqb_spec block 0) as [Eb|Eb]; simpl; rewrite ?I9; split_and!; done.
Qed.

Lemma take_next_block k : 0 <= k -> 
  take (Z.to_nat ((k + 1) * B)) file = take (Z.to_nat (k * B)) file ++ file_block file B (k + 1).
Proof.
  intros Hk. unfold file_block. replace (k + 1 - 1) with k by lia.
  assert (0 <= k * B) by (apply Z.mul_nonneg_nonneg; lia).
  replace (Z.to_nat ((k + 1) * B)) with (Z.to_nat (k * B) + Z.to_nat B)%nat by lia.
  by rewrite take_take_drop.
Qed.

Lemma next_block_length k : 0 <= k -> k * B <= len file -> len (file_block file B (k + 1)) = Z.min B (len file - k * B).
Proof.
  intros Hk Hle. unfold file_block. replace (k + 1 - 1) with k by lia. rewrite length_take, length_drop.
  assert (0 <= k * B) by (apply Z.mul_nonneg_nonneg; lia). lia.
Qed.

(** Storing the next block. *)
Lemma store_next_block k s p src : 0 <= k -> k * B <= len file -> loaded_blocks k s -> TftpBlkSize (tf s) = B ->
  u32 (u32 (u32 ((k + 1) mod 65536 - 1) * B) + TftpBlockWrapOffset (tf s)) = k * B ->
  let blk := file_block file B (k + 1) in
  load p src (length blk) = blk ->
  let s' := store_block load_addr (u32 ((k + 1) mod 65536 - 1)) p src (len blk) s in
  loaded_blocks (k + 1) s' /\ tf s' = tf s /\ cfg (nt s') = cfg (nt s) /\ packetHandler (nt s') = packetHandler (nt s) /\
  NetState (nt s') = NetState (nt s) /\ (forall r, mac_at r (nt s') = mac_at r (nt s)).
Proof.
  intros Hk Hle [HL HX] Hb Ho blk Hsrc s'. pose proof (next_block_length k Hk Hle) as Hbl. fold blk in Hbl.
  assert (0 <= k * B) by (apply Z.mul_nonneg_nonneg; lia). assert (E1 : (k + 1) * B = k * B + B) by ring.
  unfold s', store_block. rewrite Hb, Ho, Nat2Z.id, Hsrc. rewrite !(wrap_small 32) by lia.
  split_and!; try done; try (by destruct (_ <? _)).
  split; simpl.
  - rewrite take_next_block by done. fold blk. rewrite length_app, load_app. f_equal.
    + etransitivity; [| exact HL]. rewrite load_store_list_disjoint; [done |].
      rewrite length_take. lia.
    + replace (Z.of_nat (length (take (Z.to_nat (k * B)) file))) with (k * B) by (rewrite length_take; lia).
      apply load_store_list.
  - rewrite HX. destruct (Z.ltb_spec (Z.min (k * B) (len file)) (k * B + len blk)); simpl; lia.
Qed.

(** The handler on the packet with the next block. *)
Lemma handle_next_block now k s p pkt : 0 <= k -> invariant k s -> k * B <= len file ->
  get16 p pkt = (k + 1) mod 65536 ->
  load p (pkt + 2) (length (file_block file B (k + 1))) = file_block file B (k + 1) ->
  (k = 0 -> loaded_blocks 0 s) ->
  transferring (k + 1) (handle_data load_addr now p pkt sp (2 + len (file_block file B (k + 1))) s).
Proof.
  intros Hk Hinv Hle Hblk Hdata H0.
  destruct (next_block_state k s Hk Hinv Hle) as (t & Et & T1 & T2 & T3 & T4 & T5 & T6 & T7 & T8).
  unfold handle_data. rewrite (proj2 (Z.ltb_ge _ _)) by lia. rewrite Hblk, Et.
  rewrite T1, (proj2 (Z.eqb_neq _ _)) by congruence.
  replace (2 + len (file_block file B (k + 1)) - 2) with (len (file_block file B (k + 1))) by lia.
  set (t2 := set_retries _ _ _ _). set (s1 := on_net _ _).
  assert (Hs : station (nt s) /\ packetHandler (nt s) = TftpHandler_f /\ NetState (nt s) = NETLOOP_CONTINUE /\ loaded_blocks k s).
  { unfold invariant in Hinv. destruct (Z.eqb_spec k 0) as [->|]; [destruct Hinv as (? & ? & ? & _); auto |].
    destruct Hinv as (_ & ? & ? & Hn & _ & _ & _ & _ & _ & _ & _ & ?). rewrite (proj2 (Z.ltb_ge _ _)) in Hn by lia. auto. }
  destruct Hs as (Hst & Hh & Hn & Hlb).
  destruct (store_next_block k s1 p (pkt + 2) Hk Hle Hlb T4 T8 Hdata) as (L & L1 & L2 & L3 & L4 & L5).
  set (s2 := store_block _ _ _ _ _ _) in *.
  destruct (TftpSend_session now s2) as ((S1 & S2 & S3 & S4 & S5) & Sst & S6 & S7).
  assert (Hst2 : station (nt s2)) by (eapply station_cfg; [exact L2 | intros r; rewrite L5; apply Hst | exact Hst]).
  assert (Ht : tf (TftpSend now s2) = t2) by (by rewrite S6, L1).
  rewrite Ht. change (TftpBlkSize t2) with (TftpBlkSize t). rewrite T4, (next_block_length k Hk Hle).
  set (s3 := TftpSend now s2) in *. clearbody s3.
  assert (Hlb' : forall s', ram s' = ram s3 -> NetBootFileXferSize (nt s') = NetBootFileXferSize (nt s3) -> loaded_blocks (k + 1) s').
  { intros s' R X. destruct L as [La Lb]. split; [by rewrite R, S7 | by rewrite X, S5]. }
  assert (E1 : (k + 1) * B = k * B + B) by ring. unfold transferring.
  destruct (Z.ltb_spec (Z.min B (len file - k * B)) B); simpl; rewrite Ht.
  - rewrite (proj2 (Z.ltb_lt (len file) ((k + 1) * B))) by lia. split_and!; try done; [by apply Sst | rewrite S2, L3; exact Hh | by apply Hlb'].
  - rewrite (proj2 (Z.ltb_ge (len file) ((k + 1) * B))) by lia.
    split_and!; try done; [by apply Sst | rewrite S2, L3; exact Hh | rewrite S4, L4; exact Hn | by apply Hlb'].
Qed.

(** ** Frames and runs *)

Definition data_packet (k : Z) : list Z := be_bytes 2 TFTP_DATA ++ be_bytes 2 k ++ file_block file B k.

(** One event of a transfer with [k] blocks received: the next block, the
    last block once more, a datagram that is not of this session, a
    retransmission timeout, or any frame the stack handles by itself. *)
Inductive tstep : Z * sys -> Z * sys -> Prop :=
| step_block k s now f : k * B <= len file -> carries (cfg (nt s)) f op sp (data_packet (k + 1)) ->
    tstep (k, s) (k + 1, rx_frame load_addr now s f)
| step_duplicate k s now f : 0 < k -> k mod 65536 <> 0 -> carries (cfg (nt s)) f op sp (data_packet k) ->
    tstep (k, s) (k, rx_frame load_addr now s f)
| step_foreign k s now f dport sport payload : len payload <= 65507 ->
    u16 dport <> op \/ 0 < k /\ u16 sport <> sp -> carries (cfg (nt s)) f dport sport payload ->
    tstep (k, s) (k, rx_frame load_addr now s f)
| step_timeout k s now : TftpTimeoutCount (tf s) < TftpTimeoutCountMax (tf s) ->
    tstep (k, s) (k, TftpTimeout now s)
| step_other k s now f n : NetReceive f.1 f.2 (nt s) = (n, None) ->
    tstep (k, s) (k, rx_frame load_addr now s f).

(** The invariant depends on the session only. *)
Lemma invariant_session k s s' : invariant k s -> station (nt s') ->
  packetHandler (nt s') = packetHandler (nt s) -> NetState (nt s') = NetState (nt s) ->
  NetBootFileXferSize (nt s') = NetBootFileXferSize (nt s) -> ram s' = ram s ->
  TftpOurPort (tf s') = TftpOurPort (tf s) -> TftpBlkSize (tf s') = TftpBlkSize (tf s) ->
  TftpState (tf s') = TftpState (tf s) -> TftpServerPort (tf s') = TftpServerPort (tf s) ->
  TftpBlock (tf s') = TftpBlock (tf s) -> TftpLastBlock (tf s') = TftpLastBlock (tf s) ->
  TftpBlockWrapOffset (tf s') = TftpBlockWrapOffset (tf s) -> invariant k s'.
Proof.
  unfold invariant, ready, transferring, loaded_blocks.
  intros Hi Hst -> -> -> -> -> -> -> -> -> -> ->. destruct (k =? 0); intuition.
Qed.

Lemma invariant_station k s : invariant k s -> station (nt s) /\ packetHandler (nt s) = TftpHandler_f /\ TftpOurPort (tf s) = op.
Proof. unfold invariant. destruct (k =? 0); [intros (?&?&?&?&?&?) | intros (?&?&?&?&?&?)]; done. Qed.

Lemma invariant_nonneg k s : invariant k s -> 0 <= k.
Proof. unfold invariant. destruct (Z.eqb_spec k 0); [lia | intros [? _]; lia]. Qed.

Lemma ready_loaded s : invariant 0 s -> loaded_blocks 0 s.
Proof. intros (_ & _ & _ & HX & _). split; [done |]. rewrite HX. lia. Qed.

(** The handler accepts a data packet of the session. *)
Lemma session_data k s now p n : invariant k s -> get16 p 42 = TFTP_DATA ->
  TftpHandler load_addr now p 42 op sp (4 + n) s = 
  if 4 + n <? 2 then s else handle_data load_addr now p 44 sp (2 + n) s.
Proof.
  intros Hi Hp. unfold TftpHandler. destruct (invariant_station k s Hi) as (_ & _ & ->). rewrite Z.eqb_refl. simpl negb.
  replace (negb (TftpState (tf s) =? STATE_RRQ) && negb (sp =? TftpServerPort (tf s))) with false.
  - cbv iota. rewrite Hp. replace (4 + n - 2) with (2 + n) by lia. done.
  - symmetry. unfold invariant in Hi. destruct (k =? 0).
    + destruct Hi as (_ & _ & _ & _ & _ & _ & [-> | [_ ->]]); [done |]. by rewrite Z.eqb_refl, andb_false_r.
    + destruct Hi as (_ & _ & _ & _ & _ & _ & _ & -> & _). by rewrite Z.eqb_refl, andb_false_r.
Qed.

Lemma data_packet_reads p k : load p 42 (length (data_packet k)) = data_packet k ->
  get16 p 42 = TFTP_DATA /\ get16 p 44 = k mod 65536 /\
  load p 46 (length (file_block file B k)) = file_block file B k /\
  len (data_packet k) = 4 + len (file_block file B k).
Proof.
  intros H. assert (HL : length (data_packet k) = (4 + length (file_block file B k))%nat) by done.
  pose proof (fun off n => load_sub p 42 _ off n H) as S. rewrite HL in S. split_and!; [| | | lia].
  - unfold get16. change 42 with (42 + Z.of_nat 0). rewrite S by lia. done.
  - unfold get16. change 44 with (42 + Z.of_nat 2). rewrite S by lia. exact (be_val_bytes 2 k).
  - change 46 with (42 + Z.of_nat 4). rewrite S by lia.
    change (drop 4 (data_packet k)) with (file_block file B k). by apply firstn_all.
Qed.

Lemma file_block_length k : len (file_block file B k) <= B.
Proof. unfold file_block. rewrite length_take. lia. Qed.

(** What reaches [handle_data] from a frame with block [k']. *)
Lemma rx_data k k' s now f : invariant k s -> carries (cfg (nt s)) f op sp (data_packet k') ->
  rx_frame load_addr now s f = handle_data load_addr now f.1 44 sp (2 + len (file_block file B k')) s /\
  get16 f.1 44 = k' mod 65536 /\ load f.1 46 (length (file_block file B k')) = file_block file B k'.
Proof.
  intros Hi Hc. destruct (invariant_station k s Hi) as (Hst & Hh & Ho). pose proof (file_block_length k') as Hb.
  assert (HL : len (data_packet k') = 4 + len (file_block file B k')) by (unfold data_packet; rewrite !length_app, !be_bytes_length; lia).
  destruct (datagram_delivered load_addr now s f op sp (data_packet k') Hst ltac:(lia) Hc) as [-> Hp].
  destruct (data_packet_reads f.1 k' Hp) as (P1 & P2 & P3 & _). split_and!; [| done | done].
  unfold deliver. rewrite Hh. cbn [d_pkt d_dest d_src d_len].
  rewrite !(wrap_small 16) by lia. rewrite HL, (session_data k) by done. rewrite (proj2 (Z.ltb_ge _ _)) by lia. done.
Qed.

Lemma step_block_inv k s now f : invariant k s -> k * B <= len file -> carries (cfg (nt s)) f op sp (data_packet (k + 1)) ->
  invariant (k + 1) (rx_frame load_addr now s f).
Proof.
  intros Hi Hle Hc. pose proof (invariant_nonneg k s Hi) as Hk. destruct (rx_data k (k + 1) s now f Hi Hc) as (-> & H1 & H2).
  unfold invariant. rewrite (proj2 (Z.eqb_neq _ _)) by lia. split; [lia |].
  apply handle_next_block; try done. intros ->. by apply ready_loaded.
Qed.

Lemma step_duplicate_inv k s now f : invariant k s -> 0 < k -> k mod 65536 <> 0 ->
  carries (cfg (nt s)) f op sp (data_packet k) -> invariant k (rx_frame load_addr now s f) /\
  nt (rx_frame load_addr now s f) = nt s.
Proof.
  intros Hi Hk Hm Hc. destruct (rx_data k k s now f Hi Hc) as (-> & H1 & _).
  assert (Hi' := Hi). unfold invariant in Hi'. rewrite (proj2 (Z.eqb_neq _ _)) in Hi' by lia.
  destruct Hi' as (_ & Hst & _ & _ & _ & _ & I6 & _ & I8 & I9 & I10 & _).
  unfold handle_data. rewrite (proj2 (Z.ltb_ge _ _)) by lia. rewrite H1, (proj2 (Z.eqb_neq _ _) Hm).
  unfold first_block. simpl. rewrite I6. simpl. rewrite I9, Z.eqb_refl. split; [| done].
  by apply (invariant_session k s).
Qed.

Lemma step_foreign_inv k s now f dport sport payload : invariant k s -> len payload <= 65507 ->
  u16 dport <> op \/ 0 < k /\ u16 sport <> sp -> carries (cfg (nt s)) f dport sport payload ->
  rx_frame load_addr now s f = s.
Proof.
  intros Hi Hl Hf Hc. destruct (invariant_station k s Hi) as (Hst & Hh & Ho).
  destruct (datagram_delivered load_addr now s f dport sport payload Hst Hl Hc) as [-> _].
  unfold deliver. rewrite Hh. cbn [d_pkt d_dest d_src d_len]. unfold TftpHandler. rewrite Ho.
  destruct (Z.eqb_spec (u16 dport) op) as [E|E]; [| done]. simpl negb. cbv iota.
  destruct Hf as [?|[Hk Hne]]; [done |]. unfold invariant in Hi. rewrite (proj2 (Z.eqb_neq _ _)) in Hi by lia.
  destruct Hi as (_ & _ & _ & _ & _ & _ & I6 & I7 & _). rewrite I6, I7, (proj2 (Z.eqb_neq _ _) Hne). done.
Qed.

Lemma step_timeout_inv k s now : invariant k s -> TftpTimeoutCount (tf s) < TftpTimeoutCountMax (tf s) ->
  invariant k (TftpTimeout now s).
Proof.
  intros Hi Ht. destruct (invariant_station k s Hi) as (Hst & _). unfold TftpTimeout.
  rewrite (proj2 (Z.ltb_ge _ _)) by lia. set (s1 := on_net _ _).
  destruct (TftpSend_session now s1) as ((S1 & S2 & S3 & S4 & S5) & Sst & S6 & S7).
  apply (invariant_session k s); rewrite ?S2, ?S4, ?S5, ?S6, ?S7; try done.
  apply Sst. apply (station_cfg (nt s)); [done | | done].
  destruct Hst as (_ & _ & Hm & _). intros []; [exact (Hm ServerEther) | exact (Hm PingMac)].
Qed.

Lemma step_other_inv k s now f n : invariant k s -> NetReceive f.1 f.2 (nt s) = (n, None) ->
  invariant k (rx_frame load_addr now s f).
Proof.
  intros Hi HR. destruct (invariant_station k s Hi) as (Hst & _). unfold rx_frame. rewrite HR.
  destruct (undelivered_session f.1 f.2 (nt s) n) as ((U1 & U2 & U3 & U4 & U5) & Um); [apply Hst | done |].
  apply (invariant_session k s); simpl; try done. by apply (station_cfg (nt s)).
Qed.

Lemma tstep_invariant c c' : tstep c c' -> invariant c.1 c.2 -> invariant c'.1 c'.2.
Proof.
  intros Hstep. destruct Hstep; simpl; intros Hi.
  - by apply step_block_inv.
  - by apply step_duplicate_inv.
  - by erewrite step_foreign_inv.
  - by apply step_timeout_inv.
  - by eapply step_other_inv.
Qed.

Lemma run_invariant c c' : rtc tstep c c' -> invariant c.1 c.2 -> invariant c'.1 c'.2.
Proof. induction 1 as [|x y z Hxy _ IH]; [done |]. intros Hi. by apply IH, (tstep_invariant x). Qed.

(** What the invariant says of the memory. *)
Lemma invariant_file k s : invariant k s ->
  loaded_blocks k s /\ NetState (nt s) = (if len file <? k * B then NETLOOP_SUCCESS else NETLOOP_CONTINUE) /\
  (len file < k * B -> load (ram s) load_addr (length file) = file /\ NetBootFileXferSize (nt s) = len file).
Proof.
  intros Hi. assert (Hlb : loaded_blocks k s).
  { unfold invariant in Hi. destruct (Z.eqb_spec k 0) as [->|]; [by apply ready_loaded | apply Hi]. }
  split; [done |]. split.
  - unfold invariant in Hi. destruct (Z.eqb_spec k 0) as [->|]; [| apply Hi].
    rewrite (proj2 (Z.ltb_ge _ _)) by lia. apply Hi.
  - intros Hlt. destruct Hlb as [HL HX]. rewrite take_ge in HL by lia. split; [done | lia].
Qed.
End transfer.


(** ** Reaching the first block *)

Definition configured (c : net_cfg) : Prop :=
  untagged c /\ length (NetOurEther c) = 6%nat /\ 0 < NetOurIP c < 2 ^ 32.

Lemma TftpStart_ready now BootFile s sp : configured (cfg (nt s)) -> length (ping_mac (nt s)) = 6%nat ->
  NetState (nt s) = NETLOOP_CONTINUE ->
  ready TFTP_BLOCK_SIZE sp (1024 + now mod 3072) (on_net (set_xfer 0) (TftpStart now BootFile s)).
Proof.
  intros (C1 & C2 & C3) Hm Hn. unfold TftpStart. destruct (file_and_server BootFile (cfg (nt s))) as [name server].
  set (s1 := mk_sys _ _ _). destruct (TftpSend_session now s1) as ((S1 & S2 & S3 & S4 & S5) & Sst & S6 & S7).
  assert (Hst : station (nt s1)) by (repeat split; try done; [by intros [] | apply C3 | apply C3]).
  specialize (Sst Hst). set (s2 := TftpSend now s1) in *. clearbody s2.
  unfold ready. simpl. rewrite S2, S4, S6. split_and!; try (done || by left).
Qed.

(** The option acknowledgement of a server that takes the block size. *)
Definition oack_packet (digits : list Z) : list Z := be_bytes 2 TFTP_OACK ++ str "blksize" ++ [0] ++ digits ++ [0].

Lemma handle_oack_blksize now p pkt src n digits v s :
  load p pkt (8 + length digits + 1) = str "blksize" ++ [0] ++ digits ++ [0] -> 0 < len digits < 1500 ->
  n = 8 + len digits + 1 -> 0 <= v < 65536 ->
  (forall rest, stops rest -> simple_strtoul (digits ++ rest) 10 = (v, rest)) ->
  handle_oack now p pkt src n s = TftpSend now (on_tftp (set_blksize v) (on_tftp (set_session STATE_OACK src) s)).
Proof.
  intros HL Hd Hn Hv Hr. unfold handle_oack.
  assert (H8 : load p pkt 8 = str "blksize" ++ [0]).
  { rewrite load_app in HL. change (8 + length digits)%nat with (8 + length digits)%nat in HL.
    rewrite load_app, <- app_assoc in HL. change (str "blksize" ++ [0] ++ digits ++ [0])
      with ((str "blksize" ++ [0]) ++ digits ++ [0]) in HL.
    apply app_inj_1 in HL as [HL _]; [exact HL | by rewrite load_length]. }
  replace (Z.to_nat (n - 8)) with (S (Z.to_nat (n - 9))) by lia. simpl oack_scan.
  rewrite Z.add_0_r, bool_decide_true by exact H8. change (0 + 8) with 8.
  assert (HD : exists rest, load p (pkt + 8) (Z.to_nat PKTSIZE) = digits ++ 0 :: rest).
  { set (L := str "blksize" ++ [0] ++ digits ++ [0]) in *.
    assert (HLn : length L = (8 + length digits + 1)%nat) by (unfold L; rewrite !length_app; simpl; lia).
    rewrite <- HLn in HL. unfold PKTSIZE.
    replace (Z.to_nat 1518) with (length digits + 1 + (1518 - length digits - 1))%nat by lia.
    rewrite load_app. change (pkt + 8) with (pkt + Z.of_nat 8) at 1. rewrite (load_sub _ _ _ _ _ HL) by lia.
    change (drop 8 L) with (digits ++ [0]). rewrite firstn_all2 by (rewrite length_app; simpl; lia).
    eexists. by rewrite <- app_assoc. }
  destruct HD as [rest ->]. rewrite Hr by done. simpl fst. by rewrite (wrap_small 16) by lia.
Qed.

(** A server's option acknowledgement with a block size the client can
    parse switches the client, before any data, to that block size and to the
    server's port; the transfer then runs with them. *)
Theorem tftp_negotiates load_addr now s f B sp op v digits :
  0 <= sp < 65536 -> 0 <= op < 65536 -> 0 < len digits < 1500 -> 0 <= v < 65536 ->
  (forall rest, stops rest -> simple_strtoul (digits ++ rest) 10 = (v, rest)) ->
  ready B sp op s -> carries (cfg (nt s)) f op sp (oack_packet digits) ->
  ready v sp op (rx_frame load_addr now s f).
Proof.
  intros Hsp Hop Hd Hv Hr Hrd Hc. pose proof Hrd as (Hst & Hh & Hn & HX & Ho & HB & Hs).
  assert (HLp : len (oack_packet digits) = 11 + len digits)
    by (unfold oack_packet; rewrite !length_app; simpl length; lia).
  destruct (datagram_delivered load_addr now s f op sp (oack_packet digits) Hst ltac:(lia) Hc) as [-> Hp].
  unfold deliver. rewrite Hh. cbn [d_pkt d_dest d_src d_len]. rewrite !(wrap_small 16) by lia.
  unfold TftpHandler. rewrite Ho, Z.eqb_refl. simpl negb.
  replace (negb (TftpState (tf s) =? STATE_RRQ) && negb (sp =? TftpServerPort (tf s))) with false
    by (symmetry; destruct Hs as [-> | [_ ->]]; [done | by rewrite Z.eqb_refl, andb_false_r]).
  cbv iota. rewrite (proj2 (Z.ltb_ge _ _)) by lia.
  assert (HL : length (oack_packet digits) = (11 + length digits)%nat) by lia.
  pose proof (fun off n => load_sub f.1 42 _ off n Hp) as S. rewrite HL in S.
  assert (Hop' : get16 f.1 42 = TFTP_OACK).
  { unfold get16. change 42 with (42 + Z.of_nat 0). rewrite S by lia. reflexivity. }
  rewrite Hop'. simpl (TFTP_OACK =? TFTP_OACK). cbv iota.
  rewrite (handle_oack_blksize now f.1 (42 + 2) sp _ digits v s); [| | done | lia | done | done].
  - set (s1 := on_tftp _ _). destruct (TftpSend_session now s1) as ((S1 & S2 & S3 & S4 & S5) & Sst & S6 & S7).
    unfold ready. rewrite S2, S4, S5, S6. split_and!; try done; [by apply Sst | by right].
  - change (42 + 2) with (42 + Z.of_nat 2). rewrite S by lia.
    change (drop 2 (oack_packet digits)) with (str "blksize" ++ [0] ++ digits ++ [0]).
    apply firstn_all2. rewrite !length_app. simpl. lia.
Qed.

(** ** Acknowledgements *)

(** Every new block is acknowledged by exactly one datagram, to the
    server's port, that carries the block's number; a repeated block is not
    answered at once. *)
Theorem tftp_acknowledges load_addr file B sp op k s now f :
  0 <= load_addr -> load_addr + len file + B < 2 ^ 32 -> 0 < B < 65504 -> 0 <= sp < 65536 -> 0 <= op < 65536 ->
  invariant load_addr file B sp op k s -> NetServerEther (nt s) <> NetEtherNullAddr ->
  0 < TftpServerIP (tf s) < 0xFFFFFFFF ->
  (k * B <= len file -> carries (cfg (nt s)) f op sp (data_packet file B (k + 1)) ->
   sent (nt (rx_frame load_addr now s f)) = sent (nt s) ++
     [udp_frame (cfg (nt s)) (NetServerEther (nt s)) (NetIPID (nt s)) (TftpServerIP (tf s)) sp op
        (be_bytes 2 TFTP_ACK ++ be_bytes 2 (k + 1))]) /\
  (0 < k -> k mod 65536 <> 0 -> carries (cfg (nt s)) f op sp (data_packet file B k) ->
   sent (nt (rx_frame load_addr now s f)) = sent (nt s)).
Proof.
  intros H1 H2 H3 H4 H5 Hi Hmac Hip. split.
  - intros Hle Hc. pose proof (invariant_nonneg _ _ _ _ _ k s Hi) as Hk.
    destruct (rx_data load_addr file B sp op H3 H4 H5 k (k + 1) s now f Hi Hc) as (-> & HD & _).
    destruct (next_block_state load_addr file B sp op H1 H2 H3 H4 H5 k s Hk Hi Hle) as (t & Et & T1 & T2 & T3 & T4 & T5 & T6 & T7 & T8).
    unfold handle_data. rewrite (proj2 (Z.ltb_ge _ _)) by lia. rewrite HD, Et, T1, (proj2 (Z.eqb_neq _ _)) by congruence.
    assert (Hsip : TftpServerIP t = TftpServerIP (tf s)).
    { revert Et. unfold first_block. case_match; case_match; intros [= <-]; done. }
    set (s2 := store_block _ _ _ _ _ _).
    assert (Hs2 : cfg (nt s2) = cfg (nt s) /\ NetServerEther (nt s2) = NetServerEther (nt s) /\ NetIPID (nt s2) = NetIPID (nt s) /\ sent (nt s2) = sent (nt s)).
    { unfold s2, store_block. simpl. by destruct (_ <? _). }
    assert (Ht2 : TftpServerIP (tf s2) = TftpServerIP (tf s) /\ TftpServerPort (tf s2) = sp /\ TftpOurPort (tf s2) = op /\
                  tftp_packet (tf s2) = be_bytes 2 TFTP_ACK ++ be_bytes 2 (k + 1)).
    { split_and!; [exact Hsip | exact T6 | exact T5 |]. unfold tftp_packet. cbn -[be_bytes text str]. rewrite T7.
      cbn -[be_bytes text str]. f_equal. exact (be_bytes_wrap 2 16 (k + 1) ltac:(lia)). }
    destruct Hs2 as (E1 & E2 & E3 & E4). destruct Ht2 as (F1 & F2 & F3 & F4). clearbody s2.
    assert (Hsend : sent (nt (TftpSend now s2)) = sent (nt s) ++
      [udp_frame (cfg (nt s)) (NetServerEther (nt s)) (NetIPID (nt s)) (TftpServerIP (tf s)) sp op
        (be_bytes 2 TFTP_ACK ++ be_bytes 2 (k + 1))]).
    { unfold TftpSend. simpl. rewrite F1, F2, F3, F4, send_udp_eq by lia.
      rewrite bool_decide_false by (simpl; by rewrite E2). simpl. by rewrite E1, E2, E3, E4. }
    match goal with |- context [if ?b then on_net _ _ else _] => destruct b end; exact Hsend.
  - intros Hk Hm Hc. by destruct (step_duplicate_inv load_addr file B sp op H3 H4 H5 k s now f Hi Hk Hm Hc) as [_ ->].
Qed.

(** ** Silence *)

(** Turns of the loop at the given times in which no frame arrives. *)
Fixpoint silent_turns (load_addr : Z) (times : list Z) (s : sys) : sys * turn :=
  match times with
  | [] => (s, Running)
  | now :: times' =>
      let '(s', r) := netloop_turn load_addr [] false now s in
      match r with Running => silent_turns load_addr times' s' | _ => (s', r) end
  end.

(** Each time comes more than [gap] after the one before. *)
Fixpoint spaced (gap prev : Z) (times : list Z) : Prop :=
  match times with
  | [] => True
  | t :: times' => gap < u32 (t - prev) /\ spaced gap t times'
  end.

Lemma no_arp_wait now n : WaitPacketIP (arp n) = 0 -> ArpTimeoutCheck now n = n.
Proof. intros H. unfold ArpTimeoutCheck. by rewrite H. Qed.

Lemma silent_turn_eq load_addr now s : WaitPacketIP (arp (nt s)) = 0 ->
  netloop_turn load_addr [] false now s =
  let s := check_timeout now s in
  let st := NetState (nt s) in
  if st =? NETLOOP_RESTART then (s, Restart)
  else if st =? NETLOOP_SUCCESS then
    (on_net eth_halt s, Returned (s32 (NetBootFileXferSize (nt s)))
      (if 0 <? NetBootFileXferSize (nt s)
       then [(str "filesize", text (str "%lX") [VWord (NetBootFileXferSize (nt s))]);
             (str "fileaddr", text (str "%lX") [VWord load_addr])] else []))
  else if st =? NETLOOP_FAIL then (s, Returned (-1) [])
  else (s, Running).
Proof.
  intros H. assert (E : on_net (ArpTimeoutCheck now) s = s) by (unfold on_net; rewrite no_arp_wait by done; by destruct s).
  unfold netloop_turn. cbn [fold_left]. by rewrite E.
Qed.

(** A client that waits for the server: the retry timer is armed, the
    server's hardware address known and nothing held back. *)
Definition waiting (t0 : Z) (s : sys) : Prop :=
  tmr (nt s) = mk_timer (Some TftpTimeout_f) t0 (TftpTimeoutMSecs (tf s)) /\ NetState (nt s) = NETLOOP_CONTINUE /\
  WaitPacketIP (arp (nt s)) = 0 /\ NetServerEther (nt s) <> NetEtherNullAddr /\ 0 < TftpServerIP (tf s) < 0xFFFFFFFF /\
  0 < TftpTimeoutMSecs (tf s) <= 10000.

Lemma known_mac_sends now r dest dport sport payload n : 0 < dest < 0xFFFFFFFF -> mac_at r n <> NetEtherNullAddr ->
  exists frame, (NetSendUDPPacket now r dest dport sport payload n).1 =
    eth_send frame (set_ids (u32 (NetIPID n + 1)) (PingSeqNo n) n).
Proof. intros Hd Hm. rewrite send_udp_eq by lia. rewrite bool_decide_false by done. by eexists. Qed.

(** A retry. *)
Lemma waiting_retry t0 t s : waiting t0 s -> TftpTimeoutMSecs (tf s) < u32 (t - t0) ->
  TftpTimeoutCount (tf s) < TftpTimeoutCountMax (tf s) ->
  let s' := check_timeout t s in
  waiting t s' /\ TftpTimeoutCount (tf s') = TftpTimeoutCount (tf s) + 1 /\
  TftpTimeoutCountMax (tf s') = TftpTimeoutCountMax (tf s) /\ cfg (nt s') = cfg (nt s) /\
  exists frame, sent (nt s') = sent (nt s) ++ [frame].
Proof.
  intros (W1 & W2 & W3 & W4 & W5 & W6) Ht Hc. unfold check_timeout. rewrite W1. simpl timeHandler. simpl timeDelta.
  simpl timeStart. cbv iota. rewrite (proj2 (Z.ltb_lt _ _)) by done. unfold run_timeout, TftpTimeout. simpl tf.
  rewrite (proj2 (Z.ltb_ge _ _)) by lia. unfold TftpSend. set (pkt := tftp_packet _).
  unfold waiting, on_net, on_tftp. cbn [nt tf ram].
  set (n := NetSetTimeout t (TftpTimeoutMSecs (tf s)) TftpTimeout_f (NetSetTimeout t 0 TftpTimeout_f (nt s))).
  assert (Hn : tmr n = mk_timer (Some TftpTimeout_f) t (TftpTimeoutMSecs (tf s)))
    by (unfold n, NetSetTimeout; by rewrite (proj2 (Z.eqb_neq (TftpTimeoutMSecs (tf s)) 0)) by lia).
  match goal with |- context [NetSendUDPPacket ?a ?b ?c ?d ?e ?f n] =>
    destruct (known_mac_sends a b c d e f n) as [frame E]; [simpl; lia | done |] end. rewrite E. split_and!; try done; try (simpl; lia). by exists frame.
Qed.

(** The retry after the last one. *)
Lemma waiting_exhausted t0 t s : waiting t0 s -> TftpTimeoutMSecs (tf s) < u32 (t - t0) ->
  TftpTimeoutCountMax (tf s) <= TftpTimeoutCount (tf s) ->
  let s' := check_timeout t s in
  sent (nt s') = sent (nt s) /\ WaitPacketIP (arp (nt s')) = 0 /\
  if bool_decide (netretry (cfg (nt s)) = Some (str "no"))
  then NetState (nt s') = NETLOOP_FAIL
  else NetState (nt s') = NETLOOP_CONTINUE /\ tmr (nt s') = mk_timer (Some startAgainTimeout_f) t 10000.
Proof.
  intros (W1 & W2 & W3 & W4 & W5 & W6) Ht Hc. unfold check_timeout. rewrite W1. simpl timeHandler. simpl timeDelta.
  simpl timeStart. cbv iota. rewrite (proj2 (Z.ltb_lt _ _)) by done. unfold run_timeout, TftpTimeout. simpl tf.
  rewrite (proj2 (Z.ltb_lt _ _)) by lia. unfold on_net, NetStartAgain. simpl. by destruct (bool_decide _).
Qed.

Lemma silent_continue load_addr t s : WaitPacketIP (arp (nt s)) = 0 ->
  NetState (nt (check_timeout t s)) = NETLOOP_CONTINUE ->
  netloop_turn load_addr [] false t s = (check_timeout t s, Running).
Proof. intros Hw Hn. rewrite silent_turn_eq by done. simpl. by rewrite Hn. Qed.


(** ** An unanswered ARP request *)

(** Times that do not go back and advance by at most [gap] from poll to poll. *)
Fixpoint polled (gap prev : Z) (times : list Z) : Prop :=
  match times with
  | [] => True
  | t :: times' => prev <= t <= prev + gap /\ t < 2 ^ 32 /\ polled gap t times'
  end.

(** After ARP was given up: the restart timer runs, the request is still
    pending.  The last poll was at [t]. *)
Definition arp_given_up (gap t : Z) (s : sys) : Prop :=
  let a := arp (nt s) in
  exists T, tmr (nt s) = mk_timer (Some startAgainTimeout_f) T 10000 /\ NetState (nt s) = NETLOOP_CONTINUE /\
    netretry (cfg (nt s)) <> Some (str "no") /\ WaitPacketIP a <> 0 /\ 0 <= WaitTimerStart a /\ 0 <= T <= t /\ t < 2 ^ 32 /\
    (WaitTry a = 0 /\ t = T /\ ARP_TIMEOUT < t - WaitTimerStart a \/
     1 <= WaitTry a <= 4 /\ 0 <= t - WaitTimerStart a <= ARP_TIMEOUT /\
     WaitTimerStart a - T <= gap + (WaitTry a - 1) * (ARP_TIMEOUT + gap)).

(** A poll at which the timer has not expired. *)
Lemma quiet_turn load_addr now s h T d : let s1 := on_net (ArpTimeoutCheck now) s in
  tmr (nt s1) = mk_timer (Some h) T d -> u32 (now - T) <= d -> NetState (nt s1) = NETLOOP_CONTINUE ->
  netloop_turn load_addr [] false now s = (s1, Running).
Proof.
  intros s1 Ht Hd Hn. assert (E : check_timeout now s1 = s1).
  { unfold check_timeout. rewrite Ht. cbn [timeHandler timeDelta timeStart]. by rewrite (proj2 (Z.ltb_ge _ _)) by done. }
  unfold netloop_turn. cbn [fold_left]. fold s1. by rewrite E, Hn.
Qed.

Lemma arp_given_up_turn load_addr gap t t' s : 0 <= gap <= 2400 -> arp_given_up gap t s -> t <= t' <= t + gap -> t' < 2 ^ 32 ->
  exists s', netloop_turn load_addr [] false t' s = (s', Running) /\ arp_given_up gap t' s'.
Proof.
  intros Hg (T & H1 & H2 & H3 & H4 & H5 & H6 & H7 & H8) Ht Ht'. unfold ARP_TIMEOUT in *.
  set (w := WaitTry (arp (nt s))) in *.
  assert (Q : 1 <= w <= 4 -> 0 <= (w - 1) * (100 + gap) <= 3 * (100 + gap)) by nia.
  assert (Q' : 1 <= w <= 3 -> (w - 1) * (100 + gap) <= 2 * (100 + gap)) by nia.
  eexists. unfold arp_given_up, ARP_TIMEOUT.
  destruct (decide (100 < t' - WaitTimerStart (arp (nt s)))) as [Hf|Hf];
    [destruct (decide (5 <= w + 1)) as [Hc|Hc] |].
  - assert (E : ArpTimeoutCheck t' (nt s) = NetSetHandler startAgainHandler_f (NetSetTimeout t' 10000 startAgainTimeout_f
      (set_arp (mk_arp (WaitPacketIP (arp (nt s))) (WaitReplyIP (arp (nt s))) (WaitPacketMAC (arp (nt s)))
                 (WaitTx (arp (nt s))) (WaitTimerStart (arp (nt s))) 0) (nt s)))).
    { unfold ArpTimeoutCheck, ARP_TIMEOUT, ARP_TIMEOUT_COUNT, NetStartAgain. fold w. rewrite (proj2 (Z.eqb_neq _ _) H4).
      rewrite (wrap_small 32) by lia. rewrite (proj2 (Z.ltb_lt _ _) Hf), (proj2 (Z.leb_le _ _) Hc).
      by rewrite bool_decide_false by done. }
    split; [apply (quiet_turn _ _ _ startAgainTimeout_f t' 10000); simpl; rewrite ?E; try done; by rewrite Z.sub_diag |].
    exists t'. simpl. rewrite E. simpl. split_and!; (done || lia).
  - assert (E : ArpTimeoutCheck t' (nt s) = ArpRequest
      (set_arp (mk_arp (WaitPacketIP (arp (nt s))) (WaitReplyIP (arp (nt s))) (WaitPacketMAC (arp (nt s)))
                 (WaitTx (arp (nt s))) t' (w + 1)) (nt s))).
    { unfold ArpTimeoutCheck, ARP_TIMEOUT, ARP_TIMEOUT_COUNT. fold w. rewrite (proj2 (Z.eqb_neq _ _) H4).
      rewrite (wrap_small 32) by lia. rewrite (proj2 (Z.ltb_lt _ _) Hf). by rewrite (proj2 (Z.leb_gt _ _)) by lia. }
    split; [apply (quiet_turn _ _ _ startAgainTimeout_f T 10000); simpl; rewrite ?E; try done; rewrite (wrap_small 32); lia |].
    exists T. simpl. rewrite E. simpl. split_and!; (done || lia).
  - assert (E : ArpTimeoutCheck t' (nt s) = nt s).
    { unfold ArpTimeoutCheck, ARP_TIMEOUT. rewrite (proj2 (Z.eqb_neq _ _) H4).
      rewrite (wrap_small 32) by lia. by rewrite (proj2 (Z.ltb_ge _ _)) by lia. }
    split; [apply (quiet_turn _ _ _ startAgainTimeout_f T 10000); simpl; rewrite ?E; try done; rewrite (wrap_small 32); lia |].
    exists T. simpl. rewrite E. split_and!; (done || lia).
Qed.

(** While an ARP request stays unanswered the announced restart never
    happens: after the retries are exhausted, and as long as the loop comes
    round at least every 2400 ticks, each further exhaustion of the ARP
    retries re-arms the ten-second restart timer before it can expire. *)
Theorem arp_starves_restart load_addr gap t s times : 0 <= gap <= 2400 -> arp_given_up gap t s -> polled gap t times ->
  exists s', silent_turns load_addr times s = (s', Running).
Proof.
  intros Hg. revert t s. induction times as [|t' times IH]; intros t s Hs Hp; [by exists s |].
  destruct Hp as (H1 & H2 & H3). cbn [silent_turns].
  destruct (arp_given_up_turn load_addr gap t t' s Hg Hs H1 H2) as (s' & -> & Hs'). by apply (IH t').
Qed.

(** ** Edges *)

(** A repeated block whose number is a multiple of 65536 is not stored but
    moves the wrap-around offset, so every later block lands 65536 block
    sizes too high. *)
Lemma duplicate_of_wrap_block load_addr now p pkt src len s : 2 <= len -> get16 p pkt = 0 ->
  TftpState (tf s) = STATE_DATA -> TftpLastBlock (tf s) = 0 ->
  let s' := handle_data load_addr now p pkt src len s in
  ram s' = ram s /\ nt s' = nt s /\
  TftpBlockWrapOffset (tf s') = u32 (TftpBlockWrapOffset (tf s) + u32 (TftpBlkSize (tf s) * TFTP_SEQUENCE_SIZE)).
Proof.
  intros Hl Hb Hs Hlast. unfold handle_data. rewrite (proj2 (Z.ltb_ge _ _)) by done. rewrite Hb. simpl.
  unfold first_block. simpl. rewrite Hs. simpl. by rewrite Hlast.
Qed.

(** An acknowledged block size of 0 is taken, and then no block ends the
    transfer. *)
Lemma zero_blksize_never_ends load_addr now p pkt src len s : TftpBlkSize (tf s) = 0 -> 0 <= len ->
  NetState (nt s) = NETLOOP_CONTINUE ->
  NetState (nt (handle_data load_addr now p pkt src len s)) <> NETLOOP_SUCCESS.
Proof.
  intros HB Hl Hn. unfold handle_data. destruct (Z.ltb_spec len 2); [by rewrite Hn |].
  set (t := if get16 p pkt =? 0 then _ else _). assert (Ht : TftpBlkSize t = 0) by (unfold t; by destruct (_ =? _)).
  clearbody t. destruct (first_block src t) as [t1 bad] eqn:Ef.
  assert (Ht1 : TftpBlkSize t1 = 0) by (revert Ef; unfold first_block; destruct (_ || _); by intros [= <- _]).
  destruct bad; [unfold on_net, NetStartAgain; simpl; destruct (bool_decide _); simpl; by rewrite ?Hn |].
  destruct (_ =? _); [simpl; by rewrite Hn |]. set (s2 := store_block _ _ _ _ _ _).
  destruct (TftpSend_session now s2) as ((_ & _ & _ & S4 & _) & _ & S6 & _).
  rewrite S6. change (TftpBlkSize (tf s2)) with (TftpBlkSize t1). rewrite Ht1, (proj2 (Z.ltb_ge _ _)) by lia.
  rewrite S4. unfold s2, store_block. simpl. destruct (_ <? _); simpl; by rewrite Hn.
Qed.

(** ** Witnesses: the board fetches a short file *)

Definition no_tftp : tftp := mk_tftp 0 0 0 0 0 0 0 0 0 0 0 0 [].
Definition demo_sys : sys := on_net (set_xfer 0) (TftpStart 0 (str "vmlinux") (mk_sys board_net no_tftp (fun _ => 0))).
Definition demo_file : list Z := [0x7f; 0x45; 0x4c].

(** A frame of the server. *)
Definition server_frame (payload : list Z) : mem * Z :=
  let F := udp_frame server_cfg (NetOurEther board_cfg) 0 (NetOurIP board_cfg) 1024 2000 payload in
  (store_list (fun _ => 0) 0 F, len F).

Lemma server_frame_carries c payload : NetOurIP c = NetOurIP board_cfg -> len payload <= 65507 ->
  carries c (server_frame payload) 1024 2000 payload.
Proof.
  intros Hc Hl. exists server_cfg, (NetOurEther board_cfg), 0. split_and!; [done | done | done |]. rewrite Hc.
  cbv zeta. unfold server_frame. cbn [fst snd]. split; [apply load_store_list |].
  rewrite udp_frame_length by done. lia.
Qed.

Lemma demo_ready : ready TFTP_BLOCK_SIZE 2000 1024 demo_sys.
Proof. apply (TftpStart_ready 0); [split_and!; try done; simpl; lia | done | done]. Qed.


Lemma tftp_negotiates_witness :
  ready 1460 2000 1024 (rx_frame 0x1000 7 demo_sys (server_frame (oack_packet (str "1460")))).
Proof.
  apply (tftp_negotiates 0x1000 7 demo_sys _ 512 2000 1024 1460 (str "1460")); [lia | lia | simpl; lia | lia | | |].
  - intros rest Hr. change (str "1460") with (map (nthZ lower_digits) [1; 4; 6; 0]).
    rewrite (simple_strtoul_digits 10 _ [1; 4; 6; 0]); [done | done | | | done | done].
    + repeat (apply Forall2_cons; split; [apply digit_chars; lia |]). by apply Forall2_nil.
    + repeat (apply Forall_cons; split; [lia |]). by apply Forall_nil.
  - exact demo_ready.
  - apply server_frame_carries; [reflexivity | simpl; lia].
Defined.

(** The same client once the server's hardware address is known. *)
Definition demo_resolved : sys := on_net (fun n => set_arp (mk_arp 0 0 None [] 0 0) (set_mac ServerEther (NetOurEther server_cfg) n)) demo_sys.

Lemma demo_resolved_ready : invariant 0x1000 demo_file 512 2000 1024 0 demo_resolved.
Proof.
  destruct demo_ready as (H1 & H). split; [| exact H].
  apply (station_cfg (nt demo_sys)); [reflexivity | by intros [] | exact H1].
Qed.

Lemma tftp_acknowledges_witness :
  exists frame, sent (nt (rx_frame 0x1000 7 demo_resolved (server_frame (data_packet demo_file 512 1)))) =
    sent (nt demo_resolved) ++ [frame].
Proof.
  eexists. apply (tftp_acknowledges 0x1000 demo_file 512 2000 1024 0 demo_resolved 7 (server_frame (data_packet demo_file 512 1)));
    [lia | simpl; lia | lia | lia | lia | exact demo_resolved_ready | done | vm_compute; split; reflexivity | simpl; lia |].
  apply server_frame_carries; [reflexivity | simpl; lia].
Defined.


(** The client just after ARP was given up at time 600. *)
Definition demo_unresolved : sys :=
  on_net (fun n => NetStartAgain 600 (set_arp (mk_arp 0xC0A80264 0xC0A80264 (Some ServerEther) [] 450 0) n)) demo_sys.

Lemma arp_starves_restart_witness :
  exists s', silent_turns 0x1000 (map (fun i => 600 + 1000 * i) (seqZ 1 50)) demo_unresolved = (s', Running).
Proof.
  apply (arp_starves_restart 0x1000 1000 600); [lia | | vm_compute; intuition discriminate].
  exists 600. split_and!; try done; unfold ARP_TIMEOUT; simpl; lia.
Defined.
