(* ===== verification/Nfs.v ===== *)
(** * The NFS client: net/nfs.c, net/nfs.h

    The client asks the server's port mapper for two ports, mounts the
    directory, looks the file up, reads it in pieces of [NFS_READ_SIZE] bytes
    to the load address and unmounts; a symbolic link is followed by mounting
    again.  Every step is one RPC call, and the reply to it drives the next.

    [nfs_path_buff] is the memory from address 0 on of [path_mem]; the
    addresses around it belong to other variables.  [None] means that the code
    reads or writes outside that buffer, outside the [struct rpc_t] on the
    stack, or copies a negative number of bytes.

    The theorems: with a server that answers every call, the file is stored
    at the load address and the transfer succeeds with the last reply, for
    any file and whatever the receive buffers and the stack held before; the
    server understands every call the client makes.  The edge lemmas show
    what a lost, repeated or refused answer does. *)

From S2P Require Import Prelude Memory Ctype Strings Vsprintf Net.

Local Open Scope Z_scope.

Definition SUNRPC_PORT : Z := 111.
Definition PROG_PORTMAP : Z := 100000.
Definition PROG_NFS : Z := 100003.
Definition PROG_MOUNT : Z := 100005.
Definition MSG_CALL : Z := 0.
Definition MSG_REPLY : Z := 1.
Definition PORTMAP_GETPORT : Z := 3.
Definition MOUNT_ADDENTRY : Z := 1.
Definition MOUNT_UMOUNTALL : Z := 4.
Definition NFS_LOOKUP : Z := 4.
Definition NFS_READLINK : Z := 5.
Definition NFS_READ : Z := 6.
Definition NFS_FHSIZE : Z := 32.
Definition NFSERR_NOENT : Z := 2.
Definition NFSERR_ISDIR : Z := 21.
Definition NFSERR_INVAL : Z := 22.
Definition NFS_READ_SIZE : Z := 1024.
Definition NFS_RETRY_COUNT : Z := 30.
Definition NFS_TIMEOUT : Z := 2000.

Definition STATE_PRCLOOKUP_PROG_MOUNT_REQ : Z := 1.
Definition STATE_PRCLOOKUP_PROG_NFS_REQ : Z := 2.
Definition STATE_MOUNT_REQ : Z := 3.
Definition STATE_UMOUNT_REQ : Z := 4.
Definition STATE_LOOKUP_REQ : Z := 5.
Definition STATE_READ_REQ : Z := 6.
Definition STATE_READLINK_REQ : Z := 7.

(** [sizeof(nfs_path_buff)], [sizeof(struct rpc_t)] and
    [sizeof(rpc_pkt.u.reply)]. *)
Definition PATH_SIZE : Z := 2048.
Definition RPC_SIZE : Z := 2048.
Definition REPLY_SIZE : Z := 100.

(** ** State *)

(** [nfs_path] always is [nfs_path_buff]; [nfs_filename] is an address in the
    same memory. *)
Record nfs := mk_nfs {
  fs_mounted : bool; rpc_id : Z; nfs_offset : Z; nfs_len : Z;
  dirfh : list Z; filefh : list Z;
  NfsDownloadState : Z; NfsServerIP : Z; NfsSrvMountPort : Z; NfsSrvNfsPort : Z; NfsOurPort : Z;
  NfsTimeoutCount : Z; NfsState : Z;
  path_mem : mem; nfs_filename : Z;
}.

(** The client, the stack below it and the memory. *)
Record nsys := mk_nsys { n_net : net; n_nfs : nfs; n_ram : mem }.

Definition nfs_path : Z := 0.

Definition set_mounted (b : bool) (fh : list Z) (n : nfs) : nfs :=
  mk_nfs b (rpc_id n) (nfs_offset n) (nfs_len n) fh (filefh n) (NfsDownloadState n) (NfsServerIP n) (NfsSrvMountPort n)
    (NfsSrvNfsPort n) (NfsOurPort n) (NfsTimeoutCount n) (NfsState n) (path_mem n) (nfs_filename n).
Definition set_rpc_id (v : Z) (n : nfs) : nfs :=
  mk_nfs (fs_mounted n) v (nfs_offset n) (nfs_len n) (dirfh n) (filefh n) (NfsDownloadState n) (NfsServerIP n) (NfsSrvMountPort n)
    (NfsSrvNfsPort n) (NfsOurPort n) (NfsTimeoutCount n) (NfsState n) (path_mem n) (nfs_filename n).
Definition set_read (offset len : Z) (n : nfs) : nfs :=
  mk_nfs (fs_mounted n) (rpc_id n) offset len (dirfh n) (filefh n) (NfsDownloadState n) (NfsServerIP n) (NfsSrvMountPort n)
    (NfsSrvNfsPort n) (NfsOurPort n) (NfsTimeoutCount n) (NfsState n) (path_mem n) (nfs_filename n).
Definition set_filefh (fh : list Z) (n : nfs) : nfs :=
  mk_nfs (fs_mounted n) (rpc_id n) (nfs_offset n) (nfs_len n) (dirfh n) fh (NfsDownloadState n) (NfsServerIP n) (NfsSrvMountPort n)
    (NfsSrvNfsPort n) (NfsOurPort n) (NfsTimeoutCount n) (NfsState n) (path_mem n) (nfs_filename n).
Definition set_download (v : Z) (n : nfs) : nfs :=
  mk_nfs (fs_mounted n) (rpc_id n) (nfs_offset n) (nfs_len n) (dirfh n) (filefh n) v (NfsServerIP n) (NfsSrvMountPort n)
    (NfsSrvNfsPort n) (NfsOurPort n) (NfsTimeoutCount n) (NfsState n) (path_mem n) (nfs_filename n).
Definition set_ports (mount nfsp : Z) (n : nfs) : nfs :=
  mk_nfs (fs_mounted n) (rpc_id n) (nfs_offset n) (nfs_len n) (dirfh n) (filefh n) (NfsDownloadState n) (NfsServerIP n) mount
    nfsp (NfsOurPort n) (NfsTimeoutCount n) (NfsState n) (path_mem n) (nfs_filename n).
Definition set_count (v : Z) (n : nfs) : nfs :=
  mk_nfs (fs_mounted n) (rpc_id n) (nfs_offset n) (nfs_len n) (dirfh n) (filefh n) (NfsDownloadState n) (NfsServerIP n) (NfsSrvMountPort n)
    (NfsSrvNfsPort n) (NfsOurPort n) v (NfsState n) (path_mem n) (nfs_filename n).
Definition set_state (v : Z) (n : nfs) : nfs :=
  mk_nfs (fs_mounted n) (rpc_id n) (nfs_offset n) (nfs_len n) (dirfh n) (filefh n) (NfsDownloadState n) (NfsServerIP n) (NfsSrvMountPort n)
    (NfsSrvNfsPort n) (NfsOurPort n) (NfsTimeoutCount n) v (path_mem n) (nfs_filename n).
Definition set_path (m : mem) (fname : Z) (n : nfs) : nfs :=
  mk_nfs (fs_mounted n) (rpc_id n) (nfs_offset n) (nfs_len n) (dirfh n) (filefh n) (NfsDownloadState n) (NfsServerIP n) (NfsSrvMountPort n)
    (NfsSrvNfsPort n) (NfsOurPort n) (NfsTimeoutCount n) (NfsState n) m fname.

Definition on_nfs (f : nfs -> nfs) (s : nsys) : nsys := mk_nsys (n_net s) (f (n_nfs s)) (n_ram s).
Definition on_net (f : net -> net) (s : nsys) : nsys := mk_nsys (f (n_net s)) (n_nfs s) (n_ram s).

(** ** Paths *)

(** [strlen] of a string that must end inside the buffer. *)
Definition path_len (m : mem) (a : Z) : option Z :=
  if (a <? 0) || (PATH_SIZE <=? a) then None else strlen (Z.to_nat (PATH_SIZE - a)) m a.

(** [while (fname >= path)], [fname] being [path + k - 1]. *)
Fixpoint basename_loop (k : nat) (m : mem) (path : Z) : Z :=
  match k with
  | O => path - 1
  | S k => if m (path + Z.of_nat k) =? 47 (* '/' *) then path + Z.of_nat k + 1 else basename_loop k m path
  end.

Definition basename (m : mem) (path : Z) : option Z :=
  n ← path_len m path; Some (basename_loop (Z.to_nat n) m path).

(** The write is outside the buffer when the path has no slash. *)
Definition dirname (m : mem) (path : Z) : option mem :=
  fname ← basename m path;
  if fname - 1 <? 0 then None else Some (store m (fname - 1) 0).

(** ** Calls *)

(** The words written by [rpc_add_credentials] for the empty host name. *)
Definition rpc_add_credentials : list Z :=
  let hostname : list Z := [] in
  let hl := Z.land (len hostname + 3) (Z.lnot 3) in
  be_bytes 4 1 ++ be_bytes 4 (hl + 20) ++ be_bytes 4 0 ++ be_bytes 4 (len hostname) ++
  hostname ++ replicate (Z.to_nat (hl - len hostname)) 0 ++
  be_bytes 4 0 ++ be_bytes 4 0 ++ be_bytes 4 0 ++ be_bytes 4 0 ++ be_bytes 4 0.

(** A string with its length before it and zeros up to a whole word. *)
Definition xdr_string (s : list Z) : list Z :=
  be_bytes 4 (len s) ++ s ++ replicate (Z.to_nat ((len s + 3) / 4 * 4 - len s)) 0.

(** The bytes of the call [rpc_req] puts into the packet. *)
Definition rpc_call (id prog proc : Z) (data : list Z) : list Z :=
  be_bytes 4 id ++ be_bytes 4 MSG_CALL ++ be_bytes 4 2 ++ be_bytes 4 prog ++ be_bytes 4 2 ++ be_bytes 4 proc ++ data.

Definition rpc_req (now prog proc : Z) (data : list Z) (s : nsys) : option nsys :=
  let n := n_nfs s in
  let id := u32 (rpc_id n + 1) in
  let pkt := rpc_call id prog proc data in
  let sport := if prog =? PROG_PORTMAP then SUNRPC_PORT
               else if prog =? PROG_MOUNT then NfsSrvMountPort n else NfsSrvNfsPort n in
  if RPC_SIZE <? len pkt then None
  else Some (on_net (fun t => fst (NetSendUDPPacket now ServerEther (NfsServerIP n) sport (NfsOurPort n) pkt t))
               (on_nfs (set_rpc_id id) s)).

Definition rpc_lookup_req (now prog ver : Z) (s : nsys) : option nsys :=
  rpc_req now PROG_PORTMAP PORTMAP_GETPORT
    (replicate 16 0 ++ be_bytes 4 prog ++ be_bytes 4 ver ++ be_bytes 4 17 ++ be_bytes 4 0) s.

Definition nfs_mount_req (now path : Z) (s : nsys) : option nsys :=
  n ← path_len (path_mem (n_nfs s)) path;
  rpc_req now PROG_MOUNT MOUNT_ADDENTRY
    (rpc_add_credentials ++ xdr_string (load (path_mem (n_nfs s)) path (Z.to_nat n))) s.

Definition nfs_umountall_req (now : Z) (s : nsys) : option nsys :=
  if (NfsSrvMountPort (n_nfs s) =? -1) || negb (fs_mounted (n_nfs s)) then Some s
  else rpc_req now PROG_MOUNT MOUNT_UMOUNTALL rpc_add_credentials s.

Definition nfs_readlink_req (now : Z) (s : nsys) : option nsys :=
  rpc_req now PROG_NFS NFS_READLINK (rpc_add_credentials ++ filefh (n_nfs s)) s.

Definition nfs_lookup_req (now fname : Z) (s : nsys) : option nsys :=
  n ← path_len (path_mem (n_nfs s)) fname;
  rpc_req now PROG_NFS NFS_LOOKUP
    (rpc_add_credentials ++ dirfh (n_nfs s) ++ xdr_string (load (path_mem (n_nfs s)) fname (Z.to_nat n))) s.

Definition nfs_read_req (now offset readlen : Z) (s : nsys) : option nsys :=
  rpc_req now PROG_NFS NFS_READ
    (rpc_add_credentials ++ filefh (n_nfs s) ++ be_bytes 4 offset ++ be_bytes 4 readlen ++ be_bytes 4 0) s.

Definition NfsSend (now : Z) (s : nsys) : option nsys :=
  let n := n_nfs s in
  let st := NfsState n in
  if st =? STATE_PRCLOOKUP_PROG_MOUNT_REQ then rpc_lookup_req now PROG_MOUNT 1 s
  else if st =? STATE_PRCLOOKUP_PROG_NFS_REQ then rpc_lookup_req now PROG_NFS 2 s
  else if st =? STATE_MOUNT_REQ then nfs_mount_req now nfs_path s
  else if st =? STATE_UMOUNT_REQ then nfs_umountall_req now s
  else if st =? STATE_LOOKUP_REQ then nfs_lookup_req now (nfs_filename n) s
  else if st =? STATE_READ_REQ then nfs_read_req now (nfs_offset n) (nfs_len n) s
  else if st =? STATE_READLINK_REQ then nfs_readlink_req now s
  else Some s.

(** ** Replies *)

Section replies.
Context (stack : mem).  (** what [struct rpc_t rpc_pkt] held before *)

(** [memcpy (&rpc_pkt, pkt, len)]: the datagram at [pkt] in the frame [p]. *)
Definition rpc_copy (p : mem) (pkt len : Z) : option mem :=
  if RPC_SIZE <? len then None else Some (store_list stack 0 (load p pkt (Z.to_nat len))).

Definition r_id (r : mem) : Z := get32 r 0.
Definition r_rstatus (r : mem) : Z := get32 r 8.
Definition r_verifier (r : mem) : Z := get32 r 12.
Definition r_astatus (r : mem) : Z := get32 r 20.
Definition r_data (r : mem) (i : Z) : Z := get32 r (24 + 4 * i).

(** [rstatus || verifier || astatus] *)
Definition rpc_failed (r : mem) : bool := truth (r_rstatus r) || truth (r_verifier r) || truth (r_astatus r).

Definition rpc_lookup_reply (prog : Z) (p : mem) (pkt len : Z) (n : nfs) : option (Z * nfs) :=
  r ← rpc_copy p pkt len;
  Some (if negb (r_id r =? rpc_id n) then (-1, n)
        else if rpc_failed r then (-1, n)
        else (0, if prog =? PROG_MOUNT then set_ports (s32 (r_data r 0)) (NfsSrvNfsPort n) n
                 else if prog =? PROG_NFS then set_ports (NfsSrvMountPort n) (s32 (r_data r 0)) n else n)).

Definition nfs_mount_reply (p : mem) (pkt len : Z) (n : nfs) : option (Z * nfs) :=
  r ← rpc_copy p pkt len;
  Some (if negb (r_id r =? rpc_id n) then (-1, n)
        else if rpc_failed r || truth (r_data r 0) then (-1, n)
        else (0, set_mounted true (load r 28 (Z.to_nat NFS_FHSIZE)) n)).

Definition nfs_umountall_reply (p : mem) (pkt len : Z) (n : nfs) : option (Z * nfs) :=
  r ← rpc_copy p pkt len;
  Some (if negb (r_id r =? rpc_id n) then (-1, n)
        else if rpc_failed r then (-1, n)
        else (0, set_mounted false (replicate (Z.to_nat NFS_FHSIZE) 0) n)).

Definition nfs_lookup_reply (p : mem) (pkt len : Z) (n : nfs) : option (Z * nfs) :=
  r ← rpc_copy p pkt len;
  Some (if negb (r_id r =? rpc_id n) then (-1, n)
        else if rpc_failed r || truth (r_data r 0) then (-1, n)
        else (0, set_filefh (load r 28 (Z.to_nat NFS_FHSIZE)) n)).

(** The new path, in place: after the old one when it is relative. *)
Definition nfs_readlink_reply (p : mem) (pkt len : Z) (n : nfs) : option (Z * nfs) :=
  r ← rpc_copy p pkt len;
  if negb (r_id r =? rpc_id n) then Some (-1, n)
  else if rpc_failed r || truth (r_data r 0) then Some (-1, n)
  else
    let rlen := s32 (r_data r 1) in
    if (rlen <? 0) || (RPC_SIZE - 32 <? rlen) then None
    else if negb (r 32 =? 47) then
      old ← path_len (path_mem n) nfs_path;
      if PATH_SIZE <=? old + 1 + rlen + 1 then None
      else
        let m := store_list (path_mem n) (nfs_path + old) [47; 0] in
        let pathlen := old + 1 in
        let m := store_list m (nfs_path + pathlen) (load r 32 (Z.to_nat rlen)) in
        Some (0, set_path (store m (nfs_path + pathlen + rlen + 1) 0) (nfs_filename n) n)
    else
      let m := store_list (path_mem n) nfs_path (load r 32 (Z.to_nat rlen)) in
      Some (0, set_path (store m (nfs_path + rlen) 0) (nfs_filename n) n).

Context (load_addr : Z).

(** [src] is an offset in the frame [p]; [offset] and [len] are unsigned. *)
Definition store_block (p : mem) (src offset len : Z) (s : nsys) : nsys :=
  let newsize := u32 (offset + len) in
  let n := if NetBootFileXferSize (n_net s) <? newsize then set_xfer newsize (n_net s) else n_net s in
  mk_nsys n (n_nfs s) (store_list (n_ram s) (u32 (load_addr + offset)) (load p src (Z.to_nat len))).

Definition nfs_read_reply (p : mem) (pkt : Z) (s : nsys) : option (Z * nsys) :=
  r ← rpc_copy p pkt REPLY_SIZE;
  if negb (r_id r =? rpc_id (n_nfs s)) then Some (-1, s)
  else if rpc_failed r || truth (r_data r 0) then
    Some (if truth (r_rstatus r) then -9999 else if truth (r_astatus r) then -9999 else s32 (- r_data r 0), s)
  else
    let rlen := s32 (r_data r 18) in
    if rlen <? 0 then None
    else Some (rlen, store_block p (pkt + REPLY_SIZE) (u32 (nfs_offset (n_nfs s))) rlen s).

(** ** The handlers *)

Definition NfsTimeout (now : Z) (s : nsys) : option nsys :=
  let count := NfsTimeoutCount (n_nfs s) in
  let s := on_nfs (set_count (count + 1)) s in
  if count <? NFS_RETRY_COUNT then NfsSend now s else Some (on_net (set_NetState NETLOOP_FAIL) s).

(** [NfsState = st; NfsSend ();] *)
Definition goto (now st : Z) (s : nsys) : option nsys := NfsSend now (on_nfs (set_state st) s).

Definition on_result (f : nfs -> option (Z * nfs)) (s : nsys) : option (Z * nsys) :=
  '(rc, n) ← f (n_nfs s); Some (rc, mk_nsys (n_net s) n (n_ram s)).

Definition read_answer (now : Z) (p : mem) (pkt : Z) (s : nsys) : option nsys :=
  '(rlen, s) ← nfs_read_reply p pkt s;
  let s := on_net (NetSetTimeout now NFS_TIMEOUT NfsTimeout_f) s in
  if 0 <? rlen then NfsSend now (on_nfs (fun n => set_read (s32 (nfs_offset n + rlen)) (nfs_len n) n) s)
  else if (rlen =? - NFSERR_ISDIR) || (rlen =? - NFSERR_INVAL) then goto now STATE_READLINK_REQ s
  else goto now STATE_UMOUNT_REQ (if rlen =? 0 then on_nfs (set_download NETLOOP_SUCCESS) s else s).

Definition readlink_answer (now : Z) (p : mem) (pkt len : Z) (s : nsys) : option nsys :=
  '(rc, s) ← on_result (nfs_readlink_reply p pkt len) s;
  if truth rc then goto now STATE_UMOUNT_REQ s
  else
    let m := path_mem (n_nfs s) in
    fname ← basename m nfs_path;
    m ← dirname m nfs_path;
    goto now STATE_MOUNT_REQ (on_nfs (set_path m fname) s).

Definition NfsHandler (now : Z) (p : mem) (pkt dest src len : Z) (s : nsys) : option nsys :=
  let st := NfsState (n_nfs s) in
  if negb (dest =? NfsOurPort (n_nfs s)) then Some s
  else if st =? STATE_PRCLOOKUP_PROG_MOUNT_REQ then
    '(_, s) ← on_result (rpc_lookup_reply PROG_MOUNT p pkt len) s; goto now STATE_PRCLOOKUP_PROG_NFS_REQ s
  else if st =? STATE_PRCLOOKUP_PROG_NFS_REQ then
    '(_, s) ← on_result (rpc_lookup_reply PROG_NFS p pkt len) s; goto now STATE_MOUNT_REQ s
  else if st =? STATE_MOUNT_REQ then
    '(rc, s) ← on_result (nfs_mount_reply p pkt len) s;
    goto now (if truth rc then STATE_UMOUNT_REQ else STATE_LOOKUP_REQ) s
  else if st =? STATE_UMOUNT_REQ then
    '(rc, s) ← on_result (nfs_umountall_reply p pkt len) s;
    Some (on_net (set_NetState (if truth rc then NETLOOP_FAIL else NfsDownloadState (n_nfs s))) s)
  else if st =? STATE_LOOKUP_REQ then
    '(rc, s) ← on_result (nfs_lookup_reply p pkt len) s;
    if truth rc then goto now STATE_UMOUNT_REQ s
    else goto now STATE_READ_REQ (on_nfs (set_read 0 NFS_READ_SIZE) s)
  else if st =? STATE_READLINK_REQ then readlink_answer now p pkt len s
  else if st =? STATE_READ_REQ then read_answer now p pkt s
  else Some s.
End replies.

(** ** Starting *)

(** The path from the boot file: after a colon, which the server's address
    precedes; [None] is a null pointer of [strchr]. *)
Definition nfs_file (BootFile : list Z) (c : net_cfg) : list Z * Z :=
  match BootFile with
  | [] =>
      let ip k := VWord (Z.land (Z.shiftr (NetOurIP c) k) 0xff) in
      (match vsprintf (str "/nfsroot/%02lX%02lX%02lX%02lX.img") [ip 0; ip 8; ip 16; ip 24] with
       | Some (o, _) => o | None => [] end, NetServerIP c)
  | _ =>
      match drop_while (fun x => negb (x =? 58)) BootFile with
      | [] => (BootFile, NetServerIP c)
      | _ :: name => (name, string_to_ip (Some BootFile))
      end
  end.

Definition NfsStart (now : Z) (BootFile : list Z) (s : nsys) : option nsys :=
  let '(file, server) := nfs_file BootFile (cfg (n_net s)) in
  let n := n_nfs s in
  let m := store_list (path_mem n) nfs_path (file ++ [0]) in
  fname ← basename m nfs_path;
  m ← dirname m nfs_path;
  let n := mk_nfs (fs_mounted n) (rpc_id n) (nfs_offset n) (nfs_len n) (dirfh n) (filefh n) NETLOOP_FAIL server
             (NfsSrvMountPort n) (NfsSrvNfsPort n) 1000 0 STATE_PRCLOOKUP_PROG_MOUNT_REQ m fname in
  let t := NetSetHandler NfsHandler_f (NetSetTimeout now NFS_TIMEOUT NfsTimeout_f (n_net s)) in
  NfsSend now (mk_nsys (set_mac ServerEther NetEtherNullAddr t) n (n_ram s)).

(** ** A server *)

(** What a server exports: the ports of its two programs, a directory with
    its handle, and a file in it with its handle, attributes and contents. *)
Record server := mk_server {
  mount_port : Z; nfs_port : Z; export_dir : list Z; export_fh : list Z;
  file_name : list Z; file_fh : list Z; attributes : list Z; contents : list Z;
}.

Definition word (o : nat) (l : list Z) : Z := be_val (take 4 (drop o l)).
Definition xdr_get (l : list Z) : list Z := take (Z.to_nat (word 0 l)) (drop 4 l).

(** An accepted reply with its results (RFC 1057). *)
Definition accepted (id : Z) (results : list Z) : list Z :=
  be_bytes 4 id ++ be_bytes 4 MSG_REPLY ++ replicate 16 0 ++ results.

(** The answer to the bytes of a call: the port mapper, MOUNT and NFS
    procedures of RFC 1094, the arguments after 36 bytes of credentials. *)
Definition serve (sv : server) (call : list Z) : option (list Z) :=
  let prog := word 12 call in
  let proc := word 20 call in
  let answer result := Some (accepted (word 0 call) result) in
  let args := drop 60 call in
  if negb ((word 4 call =? MSG_CALL) && (word 8 call =? 2)) then None
  else if (prog =? PROG_PORTMAP) && (proc =? PORTMAP_GETPORT) then
    answer (be_bytes 4 (if word 40 call =? PROG_MOUNT then mount_port sv else nfs_port sv))
  else if (prog =? PROG_MOUNT) && (proc =? MOUNT_ADDENTRY) then
    answer (if bool_decide (xdr_get args = export_dir sv) then be_bytes 4 0 ++ export_fh sv else be_bytes 4 NFSERR_NOENT)
  else if (prog =? PROG_MOUNT) && (proc =? MOUNT_UMOUNTALL) then answer []
  else if (prog =? PROG_NFS) && (proc =? NFS_LOOKUP) then
    answer (if bool_decide (take 32 args = export_fh sv /\ xdr_get (drop 32 args) = file_name sv)
            then be_bytes 4 0 ++ file_fh sv ++ attributes sv else be_bytes 4 NFSERR_NOENT)
  else if (prog =? PROG_NFS) && (proc =? NFS_READ) then
    answer (if bool_decide (take 32 args = file_fh sv)
            then be_bytes 4 0 ++ attributes sv ++
                 xdr_string (take (Z.to_nat (word 36 args)) (drop (Z.to_nat (word 32 args)) (contents sv)))
            else be_bytes 4 NFSERR_NOENT)
  else None.

(** The call that waits for its answer in the present state. *)
Definition call_of (n : nfs) : option (Z * Z * list Z) :=
  let st := NfsState n in
  if st =? STATE_PRCLOOKUP_PROG_MOUNT_REQ then
    Some (PROG_PORTMAP, PORTMAP_GETPORT, replicate 16 0 ++ be_bytes 4 PROG_MOUNT ++ be_bytes 4 1 ++ be_bytes 4 17 ++ be_bytes 4 0)
  else if st =? STATE_PRCLOOKUP_PROG_NFS_REQ then
    Some (PROG_PORTMAP, PORTMAP_GETPORT, replicate 16 0 ++ be_bytes 4 PROG_NFS ++ be_bytes 4 2 ++ be_bytes 4 17 ++ be_bytes 4 0)
  else if st =? STATE_MOUNT_REQ then
    k ← path_len (path_mem n) nfs_path;
    Some (PROG_MOUNT, MOUNT_ADDENTRY, rpc_add_credentials ++ xdr_string (load (path_mem n) nfs_path (Z.to_nat k)))
  else if st =? STATE_UMOUNT_REQ then
    if (NfsSrvMountPort n =? -1) || negb (fs_mounted n) then None
    else Some (PROG_MOUNT, MOUNT_UMOUNTALL, rpc_add_credentials)
  else if st =? STATE_LOOKUP_REQ then
    k ← path_len (path_mem n) (nfs_filename n);
    Some (PROG_NFS, NFS_LOOKUP, rpc_add_credentials ++ dirfh n ++ xdr_string (load (path_mem n) (nfs_filename n) (Z.to_nat k)))
  else if st =? STATE_READ_REQ then
    Some (PROG_NFS, NFS_READ, rpc_add_credentials ++ filefh n ++ be_bytes 4 (nfs_offset n) ++ be_bytes 4 (nfs_len n) ++ be_bytes 4 0)
  else if st =? STATE_READLINK_REQ then Some (PROG_NFS, NFS_READLINK, rpc_add_credentials ++ filefh n)
  else None.

Definition pending (n : nfs) : option (list Z) :=
  '(prog, proc, data) ← call_of n; Some (rpc_call (rpc_id n) prog proc data).

(** What surrounds one answer: the time, the receive buffer and the offset of
    the datagram in it, the sender's port, and the stack. *)
Record arrival := mk_arrival { i_now : Z; i_frame : mem; i_pkt : Z; i_src : Z; i_stack : mem }.

(** The server's answer to the pending call, delivered. *)
Definition answer (sv : server) (load_addr : Z) (i : arrival) (s : nsys) : option nsys :=
  call ← pending (n_nfs s);
  r ← serve sv call;
  NfsHandler (i_stack i) load_addr (i_now i) (store_list (i_frame i) (i_pkt i) r) (i_pkt i) (NfsOurPort (n_nfs s)) (i_src i) (len r) s.

Fixpoint session (sv : server) (load_addr : Z) (ins : list arrival) (s : nsys) : option nsys :=
  match ins with
  | [] => Some s
  | i :: ins => s ← answer sv load_addr i s; session sv load_addr ins s
  end.

Lemma session_cons sv load_addr i ins s s' : answer sv load_addr i s = Some s' ->
  session sv load_addr (i :: ins) s = session sv load_addr ins s'.
Proof. intros H. cbn [session]. by rewrite H. Qed.

(** ** What a reply holds *)

Ltac blen := rewrite ?length_app, ?be_bytes_length, ?length_replicate; first [done | lia | simpl; lia].

(** Decides the tests of the state. *)
Ltac in_state := cbn [negb];
  repeat match goal with |- context [if ?a =? ?b then _ else _] => first [change (a =? b) with true | change (a =? b) with false]; cbv iota end.

Lemma word_be v l : word 0 (be_bytes 4 v ++ l) = u32 v.
Proof. unfold word. rewrite drop_0, take_app_length' by blen. apply (be_val_bytes 4). Qed.

Lemma word_skip k o a l : length a = k -> word (k + o) (a ++ l) = word o l.
Proof. intros H. unfold word. by rewrite drop_app_add' by done. Qed.

Lemma xdr_get_string s l : len s < 2 ^ 32 -> xdr_get (xdr_string s ++ l) = s.
Proof.
  intros H. unfold xdr_get, xdr_string. rewrite <- !app_assoc, word_be, wrap_small by lia.
  rewrite drop_app_length' by blen. rewrite Nat2Z.id. apply take_app_length.
Qed.

Lemma rpc_call_fields id prog proc data : let c := rpc_call id prog proc data in
  word 0 c = u32 id /\ word 4 c = MSG_CALL /\ word 8 c = 2 /\ word 12 c = u32 prog /\ word 20 c = u32 proc /\
  drop 24 c = data.
Proof.
  cbv zeta. unfold rpc_call. split_and!.
  - apply word_be.
  - apply (word_skip 4 0); blen.
  - rewrite app_assoc. rewrite (word_skip 8 0) by blen. apply word_be.
  - rewrite !app_assoc. rewrite <- !(app_assoc _ _ data), <- !(app_assoc _ (be_bytes 4 2) (be_bytes 4 proc ++ data)), <- (app_assoc _ (be_bytes 4 prog)).
    rewrite (word_skip 12 0) by blen. apply word_be.
  - rewrite !app_assoc. rewrite <- !(app_assoc _ _ data).
    rewrite (word_skip 20 0) by blen. apply word_be.
  - rewrite !app_assoc. apply drop_app_length'. blen.
Qed.

(** [m] holds an accepted reply from address 0 on. *)
Definition holds (m : mem) (id : Z) (results : list Z) : Prop :=
  load m 0 (24 + length results) = accepted id results.

Lemma accepted_length id results : length (accepted id results) = (24 + length results)%nat.
Proof. unfold accepted. blen. Qed.

Lemma rpc_copy_holds stack f pkt id results : (24 + length results <= 2048)%nat ->
  exists r, rpc_copy stack (store_list f pkt (accepted id results)) pkt (len (accepted id results)) = Some r /\ holds r id results.
Proof.
  intros H. unfold rpc_copy, RPC_SIZE. rewrite (proj2 (Z.ltb_ge _ _)) by (rewrite accepted_length; lia).
  rewrite Nat2Z.id, load_store_list. eexists. split; [done |]. unfold holds. rewrite <- (accepted_length id). apply load_store_list.
Qed.

Lemma rpc_copy_read stack f pkt id results : (76 <= length results)%nat ->
  exists r, rpc_copy stack (store_list f pkt (accepted id results)) pkt REPLY_SIZE = Some r /\ holds r id (take 76 results).
Proof.
  intros H. unfold rpc_copy, RPC_SIZE, REPLY_SIZE. cbn [Z.ltb Z.compare Pos.compare Pos.compare_cont].
  assert (E : load (store_list f pkt (accepted id results)) pkt 100 = accepted id (take 76 results)).
  { rewrite <- (Z.add_0_r pkt) at 2. rewrite (load_sub _ pkt (accepted id results) 0 100) by (apply load_store_list || (rewrite accepted_length; lia)).
    rewrite drop_0. unfold accepted. rewrite !(app_assoc _ _ results), !(app_assoc _ _ (take 76 results)). rewrite take_app_ge by blen.
    blen. }
  change (Z.to_nat 100) with 100%nat. rewrite E. eexists. split; [done |]. unfold holds.
  rewrite <- (accepted_length id). apply load_store_list.
Qed.

Lemma holds_at m id results off n : holds m id results -> (off + n <= length results)%nat ->
  load m (24 + Z.of_nat off) n = take n (drop off results).
Proof.
  intros H Hn. unfold holds in H. rewrite <- (accepted_length id) in H.
  replace (24 + Z.of_nat off) with (0 + Z.of_nat (24 + off)) by lia.
  rewrite (load_sub m 0 (accepted id results)) by (done || (rewrite accepted_length; lia)). done.
Qed.

Lemma holds_header m id results : holds m id results -> r_id m = u32 id /\ rpc_failed m = false.
Proof.
  intros H. unfold holds in H. rewrite <- (accepted_length id) in H.
  assert (Hf : forall o, (o + 4 <= 24)%nat -> get32 m (Z.of_nat o) = word o (accepted id results)).
  { intros o Ho. unfold get32, word. rewrite <- (Z.add_0_l (Z.of_nat o)), (load_sub m 0 (accepted id results)) by (done || (rewrite accepted_length; lia)). done. }
  unfold rpc_failed, r_id, r_rstatus, r_verifier, r_astatus.
  change 0 with (Z.of_nat 0) at 1. change 8 with (Z.of_nat 8) at 1. change 12 with (Z.of_nat 12) at 1. change 20 with (Z.of_nat 20) at 1.
  rewrite !Hf by lia. split; [apply word_be | done].
Qed.

Lemma holds_data m id results i : holds m id results -> 0 <= i -> 4 * i + 4 <= len results ->
  r_data m i = word (Z.to_nat (4 * i)) results.
Proof.
  intros H Hi Hl. unfold r_data, get32, word. rewrite <- (holds_at m id results (Z.to_nat (4 * i)) 4) by (done || lia). do 2 f_equal. lia.
Qed.

(** ** What the server makes of the client's calls *)

Lemma call_word id prog proc data o : word (24 + o) (rpc_call id prog proc data) = word o data.
Proof. unfold word. by rewrite <- drop_drop, (proj2 (proj2 (proj2 (proj2 (proj2 (rpc_call_fields id prog proc data)))))). Qed.

Lemma call_args id prog proc args : drop 60 (rpc_call id prog proc (rpc_add_credentials ++ args)) = args.
Proof.
  change 60%nat with (24 + 36)%nat. rewrite <- drop_drop, (proj2 (proj2 (proj2 (proj2 (proj2 (rpc_call_fields id prog proc _)))))).
  by apply drop_app_length'.
Qed.

Ltac served := unfold serve;
  match goal with |- context [rpc_call ?id ?prog ?proc ?data] =>
    let H := fresh in pose proof (rpc_call_fields id prog proc data) as H; cbv zeta in H;
    rewrite (proj1 H), (proj1 (proj2 H)), (proj1 (proj2 (proj2 H))), (proj1 (proj2 (proj2 (proj2 H)))),
      (proj1 (proj2 (proj2 (proj2 (proj2 H))))); clear H
  end;
  match goal with |- context [u32 ?prog =? PROG_PORTMAP] => change (u32 prog) with prog end;
  match goal with |- context [u32 ?proc =? PORTMAP_GETPORT] => change (u32 proc) with proc end;
  unfold MSG_CALL, PROG_PORTMAP, PROG_MOUNT, PROG_NFS, PORTMAP_GETPORT, MOUNT_ADDENTRY, MOUNT_UMOUNTALL, NFS_LOOKUP, NFS_READ;
  cbn [Z.eqb Pos.eqb andb negb].

Lemma serve_getport sv id prog ver : serve sv (rpc_call id PROG_PORTMAP PORTMAP_GETPORT
    (replicate 16 0 ++ be_bytes 4 prog ++ be_bytes 4 ver ++ be_bytes 4 17 ++ be_bytes 4 0)) =
  Some (accepted (u32 id) (be_bytes 4 (if u32 prog =? PROG_MOUNT then mount_port sv else nfs_port sv))).
Proof.
  served. change 40%nat with (24 + 16)%nat. rewrite call_word. rewrite (word_skip 16 0) by done. by rewrite word_be.
Qed.

Lemma serve_mount sv id dir : len dir < 2 ^ 32 -> dir = export_dir sv ->
  serve sv (rpc_call id PROG_MOUNT MOUNT_ADDENTRY (rpc_add_credentials ++ xdr_string dir)) =
  Some (accepted (u32 id) (be_bytes 4 0 ++ export_fh sv)).
Proof.
  intros Hl Hd. served. rewrite call_args. rewrite <- (app_nil_r (xdr_string dir)), xdr_get_string by done. by rewrite bool_decide_eq_true_2.
Qed.

Lemma serve_umount sv id : serve sv (rpc_call id PROG_MOUNT MOUNT_UMOUNTALL rpc_add_credentials) = Some (accepted (u32 id) []).
Proof. by served. Qed.

Lemma serve_lookup sv id fh name : len name < 2 ^ 32 -> length fh = 32%nat -> fh = export_fh sv -> name = file_name sv ->
  serve sv (rpc_call id PROG_NFS NFS_LOOKUP (rpc_add_credentials ++ fh ++ xdr_string name)) =
  Some (accepted (u32 id) (be_bytes 4 0 ++ file_fh sv ++ attributes sv)).
Proof.
  intros Hl Hh Hf Hn. served. rewrite call_args. rewrite drop_app_length' by done.
  rewrite <- (app_nil_r (xdr_string name)), xdr_get_string by done. rewrite take_app_length' by done. by rewrite bool_decide_eq_true_2.
Qed.

Lemma serve_read sv id fh offset : 0 <= offset < 2 ^ 31 -> length fh = 32%nat -> fh = file_fh sv ->
  serve sv (rpc_call id PROG_NFS NFS_READ (rpc_add_credentials ++ fh ++ be_bytes 4 offset ++ be_bytes 4 NFS_READ_SIZE ++ be_bytes 4 0)) =
  Some (accepted (u32 id) (be_bytes 4 0 ++ attributes sv ++ xdr_string (take 1024 (drop (Z.to_nat offset) (contents sv))))).
Proof.
  intros Ho Hh Hf. served. rewrite call_args. rewrite take_app_length' by done. rewrite bool_decide_eq_true_2 by done.
  rewrite (word_skip 32 0), (word_skip 32 4), word_be by done. rewrite (word_skip 4 0) by blen. rewrite word_be, (wrap_small 32 offset) by lia. done.
Qed.

(** ** One answered call *)

(** The two strings the client works with. *)
Definition paths (n : nfs) (dir file : list Z) : Prop :=
  path_len (path_mem n) nfs_path = Some (len dir) /\ load (path_mem n) nfs_path (length dir) = dir /\
  path_len (path_mem n) (nfs_filename n) = Some (len file) /\ load (path_mem n) (nfs_filename n) (length file) = file.

Lemma paths_same n n' dir file : path_mem n' = path_mem n -> nfs_filename n' = nfs_filename n -> paths n dir file -> paths n' dir file.
Proof. unfold paths. by intros -> ->. Qed.

(** The state [NfsSend] leaves. *)
Definition called (n : nfs) : nfs := set_rpc_id (u32 (rpc_id n + 1)) n.

Lemma NfsSend_call now s prog proc data : call_of (n_nfs s) = Some (prog, proc, data) ->
  NfsSend now s = rpc_req now prog proc data s.
Proof.
  unfold call_of, NfsSend, rpc_lookup_req, nfs_mount_req, nfs_umountall_req, nfs_lookup_req, nfs_read_req, nfs_readlink_req.
  repeat (case_match; try (by intros [= <- <- <-])); try done.
  - destruct (path_len _ _); [by intros [= <- <- <-] | done].
  - destruct (path_len _ _); [by intros [= <- <- <-] | done].
Qed.

Lemma NfsSend_called now t0 n0 m0 prog proc data : call_of n0 = Some (prog, proc, data) -> (length data <= 2024)%nat ->
  exists t, NfsSend now (mk_nsys t0 n0 m0) = Some (mk_nsys t (called n0) m0) /\ same_session t0 t.
Proof.
  intros Hc Hl. rewrite (NfsSend_call _ _ prog proc data) by exact Hc. unfold rpc_req, RPC_SIZE.
  rewrite (proj2 (Z.ltb_ge _ _)) by (unfold rpc_call; blen). eexists. split; [reflexivity |]. apply send_udp_session.
Qed.

Lemma goto_called now st t0 n0 m0 prog proc data : call_of (set_state st n0) = Some (prog, proc, data) -> (length data <= 2024)%nat ->
  exists t, goto now st (mk_nsys t0 n0 m0) = Some (mk_nsys t (called (set_state st n0)) m0) /\ same_session t0 t.
Proof. apply NfsSend_called. Qed.

Lemma call_mount n dir file : NfsState n = STATE_MOUNT_REQ -> paths n dir file ->
  call_of n = Some (PROG_MOUNT, MOUNT_ADDENTRY, rpc_add_credentials ++ xdr_string dir).
Proof.
  intros Hst (Hd & Hdl & _). unfold call_of. rewrite Hst. cbn [Z.eqb Pos.eqb STATE_MOUNT_REQ STATE_PRCLOOKUP_PROG_MOUNT_REQ STATE_PRCLOOKUP_PROG_NFS_REQ].
  rewrite Hd. cbn [mbind option_bind]. by rewrite Nat2Z.id, Hdl.
Qed.

Lemma call_lookup n dir file : NfsState n = STATE_LOOKUP_REQ -> paths n dir file ->
  call_of n = Some (PROG_NFS, NFS_LOOKUP, rpc_add_credentials ++ dirfh n ++ xdr_string file).
Proof.
  intros Hst (_ & _ & Hd & Hdl). unfold call_of. rewrite Hst. cbn [Z.eqb Pos.eqb STATE_LOOKUP_REQ STATE_MOUNT_REQ STATE_UMOUNT_REQ STATE_PRCLOOKUP_PROG_MOUNT_REQ STATE_PRCLOOKUP_PROG_NFS_REQ].
  rewrite Hd. cbn [mbind option_bind]. by rewrite Nat2Z.id, Hdl.
Qed.

Lemma pending_eq n prog proc data : call_of n = Some (prog, proc, data) -> pending n = Some (rpc_call (rpc_id n) prog proc data).
Proof. unfold pending. by intros ->. Qed.

Lemma xdr_string_length l : (length (xdr_string l) <= 8 + length l)%nat.
Proof. unfold xdr_string. rewrite !length_app, be_bytes_length, length_replicate. Z.div_mod_to_equations. lia. Qed.

Section answers.
Context (sv : server) (load_addr : Z) (i : arrival) (s : nsys).
Let n := n_nfs s.
Context (Hid : 0 <= rpc_id n < 2 ^ 32).

Lemma answer_eq call results : pending n = Some call -> serve sv call = Some (accepted (u32 (rpc_id n)) results) ->
  answer sv load_addr i s = NfsHandler (i_stack i) load_addr (i_now i)
    (store_list (i_frame i) (i_pkt i) (accepted (rpc_id n) results)) (i_pkt i) (NfsOurPort n) (i_src i)
    (len (accepted (rpc_id n) results)) s.
Proof. intros Hp Hs. unfold answer. fold n. rewrite Hp. cbn [mbind option_bind]. rewrite Hs. cbn [mbind option_bind]. by rewrite (wrap_small 32 (rpc_id n)) by exact Hid. Qed.

(** The fields the reply functions test. *)
Lemma reply_header r results : holds r (rpc_id n) results -> (r_id r =? rpc_id n) = true /\ rpc_failed r = false.
Proof. intros H. destruct (holds_header _ _ _ H) as [-> ->]. rewrite (wrap_small 32) by exact Hid. split; [apply Z.eqb_refl | reflexivity]. Qed.

(** Delivers the answer that the lemma [H] gives to the call of state [Hst]. *)
Ltac answered Hst H :=
  rewrite (answer_eq _ _ ltac:(unfold pending, call_of; rewrite Hst; reflexivity) H);
  unfold NfsHandler; fold n; rewrite Hst, Z.eqb_refl; in_state; unfold on_result; fold n.

(** Names the reply read from the packet and evaluates the header tests. *)
Ltac received r Hr :=
  match goal with |- context [rpc_copy ?k (store_list ?f ?p (accepted ?id ?res)) ?p (Z.of_nat _)] =>
    let E1 := fresh in let E2 := fresh in
    destruct (rpc_copy_holds k f p id res) as (r & -> & Hr); [blen |];
    destruct (reply_header r _ Hr) as [E1 E2]; cbn [mbind option_bind]; rewrite E1, E2; cbn [negb orb]; clear E1 E2
  end.

Lemma answer_mount_port : NfsState n = STATE_PRCLOOKUP_PROG_MOUNT_REQ -> 0 <= mount_port sv < 2 ^ 16 ->
  exists t, answer sv load_addr i s = Some (mk_nsys t
    (called (set_state STATE_PRCLOOKUP_PROG_NFS_REQ (set_ports (mount_port sv) (NfsSrvNfsPort n) n))) (n_ram s)) /\ same_session (n_net s) t.
Proof.
  intros Hst Hp. answered Hst (serve_getport sv (rpc_id n) PROG_MOUNT 1).
  change (u32 PROG_MOUNT =? PROG_MOUNT) with true. cbv iota. unfold rpc_lookup_reply. received r Hr.
  rewrite (holds_data r _ _ 0 Hr) by blen. rewrite <- (app_nil_r (be_bytes 4 (mount_port sv))), word_be, (wrap_small 32) by lia.
  cbn [Z.eqb Pos.eqb PROG_MOUNT]. replace (s32 (mount_port sv)) with (mount_port sv) by wrap_lia.
  eapply goto_called; [reflexivity | blen].
Qed.

Lemma answer_nfs_port dir file : NfsState n = STATE_PRCLOOKUP_PROG_NFS_REQ -> 0 <= nfs_port sv < 2 ^ 16 ->
  paths n dir file -> len dir < 1024 ->
  exists t, answer sv load_addr i s = Some (mk_nsys t
    (called (set_state STATE_MOUNT_REQ (set_ports (NfsSrvMountPort n) (nfs_port sv) n))) (n_ram s)) /\ same_session (n_net s) t.
Proof.
  intros Hst Hp Hpa Hl. answered Hst (serve_getport sv (rpc_id n) PROG_NFS 2).
  change (u32 PROG_NFS =? PROG_MOUNT) with false. cbv iota. unfold rpc_lookup_reply. received r Hr.
  rewrite (holds_data r _ _ 0 Hr) by blen. rewrite <- (app_nil_r (be_bytes 4 (nfs_port sv))), word_be, (wrap_small 32) by lia.
  cbn [Z.eqb Pos.eqb PROG_MOUNT PROG_NFS]. replace (s32 (nfs_port sv)) with (nfs_port sv) by wrap_lia.
  eapply goto_called; [by eapply call_mount |]. pose proof (xdr_string_length dir). rewrite length_app. change (length rpc_add_credentials) with 36%nat. lia.
Qed.

Lemma answer_mount dir file : NfsState n = STATE_MOUNT_REQ -> paths n dir file -> dir = export_dir sv -> length (export_fh sv) = 32%nat ->
  len dir < 1024 -> len file < 1024 ->
  exists t, answer sv load_addr i s = Some (mk_nsys t
    (called (set_state STATE_LOOKUP_REQ (set_mounted true (export_fh sv) n))) (n_ram s)) /\ same_session (n_net s) t.
Proof.
  intros Hst Hpa He Hh Hl Hl'.
  rewrite (answer_eq _ _ (pending_eq _ _ _ _ (call_mount n dir file Hst Hpa)) (serve_mount sv (rpc_id n) dir ltac:(lia) He)).
  unfold NfsHandler; fold n; rewrite Hst, Z.eqb_refl; in_state; unfold on_result; fold n. unfold nfs_mount_reply.
  received r Hr. rewrite (holds_data r _ _ 0 Hr) by blen. change (Z.to_nat (4 * 0)) with 0%nat. rewrite word_be. cbn [truth negb].
  change 28 with (24 + Z.of_nat 4). rewrite (holds_at r _ _ 4 _ Hr) by (rewrite length_app, Hh; done).
  rewrite drop_app_length' by done. rewrite firstn_all2 by (rewrite Hh; done).
  eapply goto_called; [by eapply call_lookup |]. pose proof (xdr_string_length file). cbn [dirfh set_state set_mounted]. rewrite !length_app, Hh. change (length rpc_add_credentials) with 36%nat. lia.
Qed.

Lemma answer_lookup dir file : NfsState n = STATE_LOOKUP_REQ -> paths n dir file -> dirfh n = export_fh sv ->
  length (export_fh sv) = 32%nat -> length (file_fh sv) = 32%nat -> length (attributes sv) = 68%nat -> file = file_name sv -> len file < 1024 ->
  exists t, answer sv load_addr i s = Some (mk_nsys t
    (called (set_state STATE_READ_REQ (set_read 0 NFS_READ_SIZE (set_filefh (file_fh sv) n)))) (n_ram s)) /\ same_session (n_net s) t.
Proof.
  intros Hst Hpa Hdh Hh Hh' Ha He Hl.
  rewrite (answer_eq _ _ (pending_eq _ _ _ _ (call_lookup n dir file Hst Hpa)) (serve_lookup sv (rpc_id n) (dirfh n) file ltac:(lia) ltac:(congruence) Hdh He)).
  unfold NfsHandler; fold n; rewrite Hst, Z.eqb_refl; in_state; unfold on_result; fold n. unfold nfs_lookup_reply.
  received r Hr. rewrite (holds_data r _ _ 0 Hr) by blen. change (Z.to_nat (4 * 0)) with 0%nat. rewrite word_be. cbn [truth negb].
  change 28 with (24 + Z.of_nat 4). rewrite (holds_at r _ _ 4 _ Hr) by (rewrite !length_app, Hh', Ha, be_bytes_length; change (Z.to_nat NFS_FHSIZE) with 32%nat; lia).
  rewrite drop_app_length' by done. rewrite take_app_length' by (rewrite Hh'; done).
  eapply goto_called; [reflexivity |]. cbn [filefh set_state set_read set_filefh]. rewrite !length_app, Hh', !be_bytes_length. change (length rpc_add_credentials) with 36%nat. lia.
Qed.

(** The reply to a read, past the file or not. *)
Lemma answer_read data : NfsState n = STATE_READ_REQ -> filefh n = file_fh sv -> nfs_len n = NFS_READ_SIZE ->
  length (file_fh sv) = 32%nat -> length (attributes sv) = 68%nat -> 0 <= nfs_offset n < 2 ^ 31 - 1024 ->
  data = take 1024 (drop (Z.to_nat (nfs_offset n)) (contents sv)) ->
  exists p, load p (i_pkt i + REPLY_SIZE) (length data) = data /\
  nfs_read_reply (i_stack i) load_addr p (i_pkt i) s = Some (len data, store_block load_addr p (i_pkt i + REPLY_SIZE) (nfs_offset n) (len data) s) /\
  answer sv load_addr i s = read_answer (i_stack i) load_addr (i_now i) p (i_pkt i) s.
Proof.
  intros Hst Hf Hn Hh Ha Ho Hd.
  assert (Hp : pending n = Some (rpc_call (rpc_id n) PROG_NFS NFS_READ
    (rpc_add_credentials ++ filefh n ++ be_bytes 4 (nfs_offset n) ++ be_bytes 4 NFS_READ_SIZE ++ be_bytes 4 0))).
  { unfold pending, call_of. rewrite Hst. cbn. by rewrite Hn. }
  rewrite (answer_eq _ _ Hp (serve_read sv (rpc_id n) (filefh n) (nfs_offset n) ltac:(lia) ltac:(congruence) Hf)). rewrite <- Hd.
  assert (Hld : (length data <= 1024)%nat) by (rewrite Hd, length_take; lia). clear Hd.
  set (res := be_bytes 4 0 ++ attributes sv ++ xdr_string data).
  set (p := store_list (i_frame i) (i_pkt i) (accepted (rpc_id n) res)). exists p.
  assert (Hres : take 76 res = be_bytes 4 0 ++ attributes sv ++ be_bytes 4 (len data)).
  { unfold res, xdr_string. rewrite !app_assoc, <- !(app_assoc (_ ++ be_bytes 4 (len data))). apply take_app_length'. rewrite !length_app, Ha. done. }
  split; [| split].
  - replace (i_pkt i + REPLY_SIZE) with (i_pkt i + Z.of_nat 100) by done. unfold p.
    rewrite (load_sub _ _ (accepted (rpc_id n) res)) by (apply load_store_list || (rewrite accepted_length; unfold res, xdr_string; rewrite !length_app, Ha, !be_bytes_length; lia)).
    unfold accepted. change 100%nat with (24 + 76)%nat. rewrite <- drop_drop.
    change (drop 24 (be_bytes 4 (rpc_id n) ++ be_bytes 4 MSG_REPLY ++ replicate 16 0 ++ res)) with res.
    unfold res, xdr_string. rewrite !app_assoc, <- !(app_assoc (_ ++ be_bytes 4 (len data))). rewrite drop_app_length' by (rewrite !length_app, Ha; done).
    apply take_app_length.
  - unfold nfs_read_reply, p. destruct (rpc_copy_read (i_stack i) (i_frame i) (i_pkt i) (rpc_id n) res) as (r & -> & Hr).
    { unfold res, xdr_string. rewrite !length_app, Ha, !be_bytes_length. lia. }
    rewrite Hres in Hr. destruct (reply_header r _ Hr) as [E1 E2]. cbn [mbind option_bind]. fold n. rewrite E1, E2. cbn [negb orb].
    rewrite !(holds_data r _ _ _ Hr) by (done || (rewrite !length_app, Ha; done)). change (Z.to_nat (4 * 0)) with 0%nat. rewrite word_be. cbn [truth negb Z.eqb].
    change (u32 0 =? 0) with true. cbn [negb].
    change (Z.to_nat (4 * 18)) with (4 + (68 + 0))%nat. rewrite word_skip by done. rewrite word_skip by done.
    rewrite <- (app_nil_r (be_bytes 4 (len data))), word_be, (wrap_small 32 (len data)) by lia.
    replace (s32 (len data)) with (len data) by wrap_lia. rewrite (proj2 (Z.ltb_ge (len data) 0)) by lia.
    rewrite (wrap_small 32 (nfs_offset n)) by lia. reflexivity.
  - unfold NfsHandler. fold n. rewrite Hst, Z.eqb_refl. reflexivity.
Qed.

Lemma answer_umount : NfsState n = STATE_UMOUNT_REQ -> fs_mounted n = true -> NfsSrvMountPort n <> -1 ->
  answer sv load_addr i s = Some (mk_nsys (set_NetState (NfsDownloadState n) (n_net s)) (set_mounted false (replicate 32 0) n) (n_ram s)).
Proof.
  intros Hst Hm Hp. assert (Hpe : pending n = Some (rpc_call (rpc_id n) PROG_MOUNT MOUNT_UMOUNTALL rpc_add_credentials)).
  { unfold pending, call_of. rewrite Hst, Hm. cbn. by rewrite (proj2 (Z.eqb_neq _ _) Hp). }
  rewrite (answer_eq _ _ Hpe (serve_umount sv (rpc_id n))).
  unfold NfsHandler; fold n; rewrite Hst, Z.eqb_refl; in_state; unfold on_result; fold n. unfold nfs_umountall_reply.
  received r Hr. reflexivity.
Qed.
End answers.

(** ** Paths *)

Lemma path_len_cstr m a l : cstr m a l -> 0 <= a -> a + len l < PATH_SIZE -> path_len m a = Some (len l).
Proof.
  intros H Ha Hl. unfold path_len. rewrite (proj2 (Z.ltb_ge a 0)), (proj2 (Z.leb_gt PATH_SIZE a)) by lia. cbn [orb].
  apply strlen_spec; [done | unfold PATH_SIZE in *; lia].
Qed.

Lemma basename_loop_last m a dir file k : load m a (length (dir ++ 47 :: file)) = dir ++ 47 :: file -> 47 ∉ file -> (k <= length file)%nat ->
  basename_loop (length dir + S k) m a = a + len dir + 1.
Proof.
  intros Hm Hn. assert (Hat : forall j c, (dir ++ 47 :: file) !! j = Some c -> m (a + Z.of_nat j) = c).
  { intros j c Hj. pose proof (lookup_lt_Some _ _ _ Hj). rewrite <- Hm, load_lookup in Hj by done. by injection Hj. }
  induction k as [|k IH]; intros Hk; rewrite Nat.add_succ_r; cbn [basename_loop].
  - rewrite Nat.add_0_r, (Hat (length dir) 47) by (by rewrite list_lookup_middle). done.
  - destruct (lookup_lt_is_Some_2 file k ltac:(lia)) as [c Hc].
    rewrite (Hat (length dir + S k)%nat c) by (rewrite lookup_app_r by lia; by replace (length dir + S k - length dir)%nat with (S k) by lia).
    rewrite (proj2 (Z.eqb_neq c 47)) by (intros ->; apply Hn; by eapply list_elem_of_lookup_2). apply IH. lia.
Qed.

(** A path with a slash is split at its last one. *)
Lemma path_split m dir file : cstr m nfs_path (dir ++ 47 :: file) -> 47 ∉ file -> len dir + len file + 1 < PATH_SIZE ->
  basename m nfs_path = Some (len dir + 1) /\
  exists m', dirname m nfs_path = Some m' /\ cstr m' nfs_path dir /\ cstr m' (len dir + 1) file.
Proof.
  intros Hc Hn Hl. assert (Hlen : len (dir ++ 47 :: file) = len dir + 1 + len file) by (rewrite length_app; cbn [length]; lia).
  assert (Hb : basename m nfs_path = Some (len dir + 1)).
  { unfold basename. rewrite (path_len_cstr _ _ _ Hc) by (unfold nfs_path; lia). cbn [mbind option_bind].
    rewrite Nat2Z.id, length_app. cbn [length]. rewrite (basename_loop_last m nfs_path dir file) by (done || apply Hc). f_equal. }
  split; [exact Hb |]. unfold dirname. rewrite Hb. cbn [mbind option_bind]. rewrite (proj2 (Z.ltb_ge _ _)) by lia.
  eexists. split; [reflexivity |]. replace (len dir + 1 - 1) with (len dir) by lia. destruct Hc as (Hm & Hz & Hf).
  apply Forall_app in Hf as [Hf1 Hf2]. apply Forall_cons in Hf2 as [_ Hf2]. unfold nfs_path in *. split.
  - split_and!; [| by rewrite store_eq | done]. rewrite load_store_out by lia.
    pose proof (load_sub m 0 _ 0 (length dir) Hm ltac:(rewrite length_app; lia)) as E. cbn [Z.of_nat] in E. by rewrite drop_0, take_app_length in E.
  - split_and!; [| | done].
    + rewrite load_store_out by lia. replace (len dir + 1) with (0 + Z.of_nat (length dir + 1)) by lia.
      rewrite (load_sub m 0 _ _ _ Hm) by (rewrite length_app; cbn [length]; lia). rewrite drop_app_add. cbn. by rewrite firstn_all.
    + rewrite store_ne by lia. rewrite <- Hz. f_equal. lia.
Qed.

(** ** Whole sessions *)

Definition good_server (sv : server) : Prop :=
  0 <= mount_port sv < 2 ^ 16 /\ 0 <= nfs_port sv < 2 ^ 16 /\ length (export_fh sv) = 32%nat /\
  length (file_fh sv) = 32%nat /\ length (attributes sv) = 68%nat /\ len (contents sv) < 2 ^ 31 - 1024.

(** The reads that carry data. *)
Definition reads (size : Z) : nat := Z.to_nat ((size + 1023) / 1024).

(** The client reads: [o] bytes of the file are in place. *)
Definition reading (sv : server) (o : Z) (s : nsys) : Prop :=
  let n := n_nfs s in
  NfsState n = STATE_READ_REQ /\ filefh n = file_fh sv /\ nfs_len n = NFS_READ_SIZE /\ nfs_offset n = o /\
  fs_mounted n = true /\ NfsSrvMountPort n = mount_port sv /\ 0 <= rpc_id n < 2 ^ 32 /\
  NetBootFileXferSize (n_net s) = o.

Lemma called_id n : 0 <= rpc_id (called n) < 2 ^ 32.
Proof. apply (wrap_range 32). lia. Qed.

(** The state [store_block] leaves, for a block that fits. *)
Lemma store_block_next la p src o data s : 0 <= o -> 0 <= la -> la + o + len data <= 2 ^ 32 -> o + len data < 2 ^ 31 -> 0 < len data ->
  load p src (length data) = data -> NetBootFileXferSize (n_net s) = o ->
  store_block la p src o (len data) s = mk_nsys (set_xfer (o + len data) (n_net s)) (n_nfs s) (store_list (n_ram s) (la + o) data).
Proof.
  intros Ho Hla Hb Hb' Hd Hp Hx. unfold store_block. rewrite Nat2Z.id, Hp, Hx. rewrite !(wrap_small 32) by lia.
  by rewrite (proj2 (Z.ltb_lt _ _)) by lia.
Qed.

Section transfer.
Context (sv : server) (la : Z) (Hsv : good_server sv) (Hla : 0 <= la) (Hend : la + len (contents sv) <= 2 ^ 32).

(** A reply with data moves on by its length. *)
Lemma read_step i o s : reading sv o s -> 0 <= o < len (contents sv) ->
  let data := take 1024 (drop (Z.to_nat o) (contents sv)) in
  exists s', answer sv la i s = Some s' /\ reading sv (o + len data) s' /\ n_ram s' = store_list (n_ram s) (la + o) data.
Proof.
  destruct Hsv as (Hmp & Hnp & Hh & Hh' & Ha & Hc). intros (Hst & Hf & Hn & Hof & Hm & Hp & Hid & Hx) Ho data.
  destruct (answer_read sv la i s Hid data Hst Hf Hn Hh' Ha ltac:(lia) ltac:(by rewrite Hof)) as (p & Hl & Hr & ->).
  unfold read_answer. rewrite Hr. cbn [mbind option_bind]. rewrite Hof. clear Hr.
  assert (Hld : len data = Z.min 1024 (len (contents sv) - o)) by (unfold data; rewrite length_take, length_drop; lia). clearbody data.
  rewrite (proj2 (Z.ltb_lt 0 (len data))), store_block_next by (done || lia).
  set (n1 := set_read (s32 (nfs_offset (n_nfs s) + len data)) (nfs_len (n_nfs s)) (n_nfs s)).
  destruct (NfsSend_called (i_now i) (NetSetTimeout (i_now i) NFS_TIMEOUT NfsTimeout_f (set_xfer (o + len data) (n_net s))) n1
    (store_list (n_ram s) (la + o) data) PROG_NFS NFS_READ
    (rpc_add_credentials ++ filefh n1 ++ be_bytes 4 (nfs_offset n1) ++ be_bytes 4 (nfs_len n1) ++ be_bytes 4 0)) as (t & E & Ht).
  { unfold call_of. cbn [n1 NfsState set_read]. by rewrite Hst. }
  { cbn [n1 filefh set_read]. rewrite !length_app, !be_bytes_length, Hf, Hh'. change (length rpc_add_credentials) with 36%nat. lia. }
  eexists. split; [exact E |]. split; [| done]. assert (Hoff : s32 (o + len data) = o + len data) by wrap_lia.
  unfold reading. cbn [n_nfs n_net called n1 set_rpc_id set_read NfsState filefh nfs_len nfs_offset fs_mounted NfsSrvMountPort].
  rewrite Hof, Hoff. split_and!; try done; [apply (wrap_range 32); lia | apply (wrap_range 32); lia |].
  destruct Ht as (_ & _ & _ & _ & ->). done.
Qed.

(** The reply at the end of the file, and the reply to the last call. *)
Lemma read_end i i2 s : reading sv (len (contents sv)) s ->
  exists s', session sv la [i; i2] s = Some s' /\ NetState (n_net s') = NETLOOP_SUCCESS /\
    NetBootFileXferSize (n_net s') = len (contents sv) /\ n_ram s' = n_ram s.
Proof.
  destruct Hsv as (Hmp & Hnp & Hh & Hh' & Ha & Hc). set (o := len (contents sv)). intros (Hst & Hf & Hn & Hof & Hm & Hp & Hid & Hx).
  destruct (answer_read sv la i s Hid [] Hst Hf Hn Hh' Ha ltac:(lia)) as (p & Hl & Hr & E).
  { rewrite Hof. unfold o. by rewrite Nat2Z.id, drop_all. }
  cbn [session]. rewrite E. clear E. unfold read_answer. rewrite Hr. cbn [mbind option_bind]. rewrite Hof. change (len (@nil Z)) with 0.
  change (0 <? 0) with false. change ((0 =? - NFSERR_ISDIR) || (0 =? - NFSERR_INVAL)) with false. in_state.
  destruct (goto_called (i_now i) STATE_UMOUNT_REQ (NetSetTimeout (i_now i) NFS_TIMEOUT NfsTimeout_f (n_net s)) (set_download NETLOOP_SUCCESS (n_nfs s)) (n_ram s)
    PROG_MOUNT MOUNT_UMOUNTALL rpc_add_credentials) as (t & E & Ht).
  { unfold call_of. cbn [NfsState set_state set_download fs_mounted NfsSrvMountPort]. rewrite Hm, Hp. in_state.
    by rewrite (proj2 (Z.eqb_neq (mount_port sv) (-1))) by lia. }
  { change (length rpc_add_credentials) with 36%nat. lia. }
  assert (Hsb : store_block la p (i_pkt i + REPLY_SIZE) o 0 s = s).
  { unfold store_block. rewrite Hx, Z.add_0_r, (wrap_small 32 o), Z.ltb_irrefl by lia. by destruct s. }
  rewrite Hsb. unfold on_nfs, on_net. cbn [n_net n_nfs n_ram]. rewrite E. cbn [mbind option_bind session].
  rewrite answer_umount; [| apply called_id | done | done |].
  - eexists. split; [reflexivity |]. cbn. split_and!; [done | | done]. destruct Ht as (_ & _ & _ & _ & ->). cbn. by rewrite Hx.
  - cbn [n_nfs called set_rpc_id set_state set_download NfsSrvMountPort]. rewrite Hp. lia.
Qed.

Lemma session_reading ins : forall o s, 0 <= o <= len (contents sv) -> reading sv o s -> length ins = (reads (len (contents sv) - o) + 2)%nat ->
  exists s', session sv la ins s = Some s' /\ NetState (n_net s') = NETLOOP_SUCCESS /\
    NetBootFileXferSize (n_net s') = len (contents sv) /\
    n_ram s' = store_list (n_ram s) (la + o) (drop (Z.to_nat o) (contents sv)).
Proof.
  induction ins as [|i ins IH]; intros o s Ho Hr Hins; [cbn in Hins; lia |]. destruct (decide (o = len (contents sv))) as [->|Hne].
  - rewrite Z.sub_diag in Hins. change (reads 0) with 0%nat in Hins. destruct ins as [|i2 [|]]; try (cbn in Hins; lia).
    destruct (read_end i i2 s Hr) as (s' & E & H1 & H2 & H3). exists s'. by rewrite Nat2Z.id, drop_all.
  - destruct (read_step i o s Hr ltac:(lia)) as (s1 & E & Hr1 & Hm1). rewrite (session_cons _ _ _ _ _ _ E). revert Hr1 Hm1.
    set (rest := drop (Z.to_nat o) (contents sv)). set (data := take 1024 rest). intros Hr1 Hm1.
    assert (Hld : len data = Z.min 1024 (len (contents sv) - o)) by (unfold data, rest; rewrite length_take, length_drop; lia).
    destruct (IH (o + len data) s1) as (s' & Es & H1 & H2 & H3); [lia | done | |].
    { cbn [length] in Hins. assert (Hrd : reads (len (contents sv) - o) = S (reads (len (contents sv) - (o + len data)))); [| lia].
      unfold reads. rewrite Hld. Z.div_mod_to_equations. lia. }
    exists s'. split_and!; [exact Es | exact H1 | exact H2 |]. rewrite H3, Hm1. replace (la + (o + len data)) with (la + o + len data) by lia.
    rewrite <- store_list_app. f_equal. rewrite Z2Nat.inj_add, <- drop_drop, Nat2Z.id by lia. fold rest. unfold data.
    rewrite length_take. destruct (decide (1024 <= length rest)%nat); [rewrite Nat.min_l by done; apply take_drop |].
    rewrite Nat.min_r, drop_all, app_nil_r by lia. apply take_ge. lia.
Qed.

(** From the first call on. *)
Lemma session_whole ins s dir file : NfsState (n_nfs s) = STATE_PRCLOOKUP_PROG_MOUNT_REQ -> 0 <= rpc_id (n_nfs s) < 2 ^ 32 ->
  paths (n_nfs s) dir file -> dir = export_dir sv -> file = file_name sv -> len dir < 1000 -> len file < 1000 ->
  NetBootFileXferSize (n_net s) = 0 -> length ins = (6 + reads (len (contents sv)))%nat ->
  exists s', session sv la ins s = Some s' /\ NetState (n_net s') = NETLOOP_SUCCESS /\
    NetBootFileXferSize (n_net s') = len (contents sv) /\ n_ram s' = store_list (n_ram s) la (contents sv).
Proof.
  destruct Hsv as (Hmp & Hnp & Hh & Hh' & Ha & Hc). intros Hst Hid Hp Hd Hf Hld Hlf Hx Hins.
  destruct ins as [|i [|i0 [|i1 [|i2 ins]]]]; try (cbn in Hins; lia).
  destruct (answer_mount_port sv la i s Hid Hst Hmp) as (t1 & E1 & S1). rewrite (session_cons _ _ _ _ _ _ E1).
  match goal with |- context [session sv la (i0 :: _) ?x] => edestruct (answer_nfs_port sv la i0 x) as (t2 & E2 & S2); [apply called_id | done | done | by eapply paths_same; [| | exact Hp] | lia |] end. rewrite (session_cons _ _ _ _ _ _ E2).
  match goal with |- context [session sv la (i1 :: _) ?x] => edestruct (answer_mount sv la i1 x) as (t3 & E3 & S3); [apply called_id | done | by eapply paths_same; [| | exact Hp] | done | done | lia | lia |] end. rewrite (session_cons _ _ _ _ _ _ E3).
  match goal with |- context [session sv la (i2 :: _) ?x] => edestruct (answer_lookup sv la i2 x) as (t4 & E4 & S4); [apply called_id | done | by eapply paths_same; [| | exact Hp] | done | done | done | done | done | lia |] end. rewrite (session_cons _ _ _ _ _ _ E4).
  match goal with |- context [session sv la ins ?x] => destruct (session_reading ins 0 x) as (s' & Es & H1 & H2 & H3) end.
  - lia.
  - assert (S : same_session (n_net s) t4) by exact (transitivity S1 (transitivity S2 (transitivity S3 S4))). destruct S as (_ & _ & _ & _ & S). rewrite Hx in S.
    split_and!; try done; apply called_id.
  - rewrite Z.sub_0_r. cbn [length] in Hins. lia.
  - exists s'. by rewrite Z.add_0_r in H3.
Qed.
End transfer.


(** ** What the hypotheses exclude *)

(** Sending leaves the handlers, the timer and the state of the loop alone. *)
Lemma NfsSend_session now s s' : NfsSend now s = Some s' -> same_session (n_net s) (n_net s').
Proof.
  assert (Hreq : forall prog proc data s2, rpc_req now prog proc data s = Some s2 -> same_session (n_net s) (n_net s2)).
  { intros prog proc data s2. unfold rpc_req. destruct (RPC_SIZE <? _); [done |]. intros [= <-]. apply send_udp_session. }
  unfold NfsSend, rpc_lookup_req, nfs_mount_req, nfs_umountall_req, nfs_lookup_req, nfs_read_req, nfs_readlink_req.
  repeat case_match; intros E; try (by apply Hreq in E); try (by injection E as <-).
  all: destruct (path_len _ _); [by apply Hreq in E | done].
Qed.

Lemma NfsStart_session now BootFile s s' : NfsStart now BootFile s = Some s' ->
  packetHandler (n_net s') = NfsHandler_f /\ timeHandler (tmr (n_net s')) = Some NfsTimeout_f /\ NetState (n_net s') = NetState (n_net s).
Proof.
  unfold NfsStart. destruct (nfs_file BootFile (cfg (n_net s))) as [f ip]. destruct (basename _ _) as [a|]; [| done]. cbn [mbind option_bind].
  destruct (dirname _ _) as [m|]; [| done]. cbn [mbind option_bind]. intros (_ & H1 & H2 & H3 & _)%NfsSend_session. by rewrite H1, H2, H3.
Qed.

(** [NfsTimeout] sends the call again but does not set the timer, which the
    network loop has just cleared: there is no second timeout. *)
Lemma timeout_not_set_again now s s' : NfsTimeout now s = Some s' -> tmr (n_net s') = tmr (n_net s).
Proof.
  unfold NfsTimeout. destruct (_ <? _); [| by intros [= <-]]. intros (_ & _ & H & _)%NfsSend_session. exact H.
Qed.

(** A reply that is not the one to the last call, such as the second answer
    to a call that was sent twice, ends the transfer while it reads. *)
Lemma stale_reply_aborts stack la now p pkt src size s : NfsState (n_nfs s) = STATE_READ_REQ -> get32 p pkt <> rpc_id (n_nfs s) ->
  NfsHandler stack la now p pkt (NfsOurPort (n_nfs s)) src size s =
  goto now STATE_UMOUNT_REQ (on_net (NetSetTimeout now NFS_TIMEOUT NfsTimeout_f) s).
Proof.
  intros Hst Hid. unfold NfsHandler. rewrite Hst, Z.eqb_refl. in_state. unfold read_answer, nfs_read_reply, rpc_copy.
  change (RPC_SIZE <? REPLY_SIZE) with false. cbn [mbind option_bind].
  assert (Hr : r_id (store_list stack 0 (load p pkt (Z.to_nat REPLY_SIZE))) = get32 p pkt).
  { reflexivity. }
  rewrite Hr, (proj2 (Z.eqb_neq _ _) Hid). reflexivity.
Qed.

(** When the directory cannot be mounted there is nothing to unmount: no call
    is sent, so no reply ends the loop. *)
Lemma refused_mount_waits stack la now p pkt src size s : NfsState (n_nfs s) = STATE_MOUNT_REQ -> fs_mounted (n_nfs s) = false ->
  0 <= size <= RPC_SIZE -> (forall r, rpc_copy stack p pkt size = Some r -> r_id r = rpc_id (n_nfs s) -> r_data r 0 <> 0) ->
  NfsHandler stack la now p pkt (NfsOurPort (n_nfs s)) src size s = Some (on_nfs (set_state STATE_UMOUNT_REQ) s).
Proof.
  intros Hst Hm Hs Hr. unfold NfsHandler. rewrite Hst, Z.eqb_refl. in_state. unfold on_result, nfs_mount_reply.
  destruct (rpc_copy stack p pkt size) as [r|] eqn:E; [| unfold rpc_copy in E; destruct (Z.ltb_spec RPC_SIZE size); [lia | done]].
  specialize (Hr r eq_refl). cbn [mbind option_bind].
  assert (Hgo : goto now STATE_UMOUNT_REQ (mk_nsys (n_net s) (n_nfs s) (n_ram s)) = Some (on_nfs (set_state STATE_UMOUNT_REQ) s)).
  { unfold goto, NfsSend. cbn. unfold nfs_umountall_req. cbn. rewrite Hm, orb_true_r. done. }
  destruct (Z.eqb_spec (r_id r) (rpc_id (n_nfs s))) as [Hi|]; cbn [negb]; [| exact Hgo].
  specialize (Hr Hi). replace (truth (r_data r 0)) with true by (unfold truth; by rewrite (proj2 (Z.eqb_neq _ _) Hr)). rewrite orb_true_r. exact Hgo.
Qed.

(** ** A concrete download *)

Definition idle_nfs : nfs := mk_nfs false 7 0 0 [] [] 0 0 0 0 0 0 0 (fun _ => 65) 0.
Definition demo_client : nsys := mk_nsys server_net idle_nfs (fun _ => 0).
Definition demo_server : server :=
  mk_server 635 2049 (str "/srv") (replicate 32 1) (str "uImage") (replicate 32 2) (replicate 68 9) (map (fun k => Z.of_nat k mod 251) (List.seq 0 1500)).


(** A path without a slash makes [basename] and [dirname] leave the buffer. *)
Lemma path_without_slash : NfsStart 1 (str "uImage") demo_client = None.
Proof. vm_compute. reflexivity. Qed.

(** The path of a relative link is ended one byte too late: the byte before
    the terminator is whatever the buffer held, here an [A]. *)
Lemma relative_link_unterminated :
  let m := store_list (fun _ => 65) 0 (str "/srv" ++ [0]) in
  let n := set_rpc_id 8 (set_path m 5 idle_nfs) in
  let reply := accepted 8 (be_bytes 4 0 ++ xdr_string (str "link")) in
  match nfs_readlink_reply (fun _ => 0) (store_list (fun _ => 0) 42 reply) 42 (len reply) n with
  | Some (0, n') => load (path_mem n') 0 11 = str "/srv/linkA" ++ [0]
  | _ => False
  end.
Proof. vm_compute. reflexivity. Qed.
