(* ===== verification/Bootp.v ===== *)
(** * BOOTP and DHCP: net/bootp.c, net/bootp.h

    With [CONFIG_CMD_DHCP] the client always speaks DHCP: it broadcasts a
    DISCOVER, takes the first reply with its transaction number as the offer,
    requests the address offered, and is bound by the ACK; then the boot file
    is loaded by TFTP or NFS, or not at all, as the variable [autoload] says.
    The addresses go to the stack's configuration, the names to their arrays,
    the boot file also to the environment.

    A received packet is an offset [bp] in the frame [p]; option 67 writes
    into the frame.  [None] means that a search in the environment, a scan of
    the options past the receive buffer, or the NFS client leaves its memory.

    The theorems: the option scan refines the update of the parameters by a
    list of options, and always ends; whatever a packet holds, the name
    arrays keep their size and their terminator; an offer and an ACK bind the
    client to the address and start the load; the requests are delivered and
    read back by the code's own parser; every reachable state of the machine
    keeps the invariant of its states, retries and handlers. *)

From S2P Require Import Prelude Memory Ctype Strings Vsprintf Env Net Tftp Nfs.

Local Open Scope Z_scope.

Definition BOOTP_VENDOR_MAGIC : Z := 0x63825363.
Definition BOOTP_TIMEOUT : Z := 5000.       (* TIMEOUT *)
Definition BOOTP_TIMEOUT_COUNT : Z := 5.    (* TIMEOUT_COUNT *)
Definition SELECT_TIMEOUT : Z := 3000.
Definition PORT_BOOTPS : Z := 67.
Definition PORT_BOOTPC : Z := 68.
Definition CONFIG_DHCP_MIN_EXT_LEN : Z := 64.
Definition OPT_SIZE : Z := 312.
Definition OP_BOOTREQUEST : Z := 1.
Definition OP_BOOTREPLY : Z := 2.
Definition HWT_ETHER : Z := 1.
Definition HWL_ETHER : Z := 6.
Definition DHCP_DISCOVER : Z := 1.
Definition DHCP_OFFER : Z := 2.
Definition DHCP_REQUEST : Z := 3.
Definition DHCP_ACK : Z := 5.
Definition DHCP_NAK : Z := 6.

(** [sizeof (Bootp_t)], and the offsets of its fields. *)
Definition BOOTP_HDR_SIZE : Z := 548.
Definition BOOTP_SIZE : Z := ETHER_HDR_SIZE + IP_HDR_SIZE + BOOTP_HDR_SIZE.
Definition bp_id : Z := 4.
Definition bp_yiaddr : Z := 16.
Definition bp_siaddr : Z := 20.
Definition bp_file : Z := 108.
Definition bp_vend : Z := 236.

(** [PKTSIZE_ALIGN], the size of a receive buffer. *)
Definition PKTSIZE_ALIGN : Z := 1536.

Inductive dhcp_state_t := INIT | INIT_REBOOT | REBOOTING | SELECTING | REQUESTING | REBINDING | BOUND | RENEWING.

#[export] Instance dhcp_state_eq : EqDecision dhcp_state_t.
Proof. solve_decision. Defined.

(** ** State *)

(** The client's variables and the parameters that only it sets; the names
    are arrays of 32 and 64 bytes. *)
Record dhcp := mk_dhcp {
  BootpID : Z; BootpTry : Z; dhcp_state : dhcp_state_t; dhcp_leasetime : Z;
  NetDHCPServerIP : Z; NetOurDNSIP : Z; NetOurHostName : list Z; NetOurRootPath : list Z;
}.

Definition set_dhcp (id try : Z) (st : dhcp_state_t) (d : dhcp) : dhcp :=
  mk_dhcp id try st (dhcp_leasetime d) (NetDHCPServerIP d) (NetOurDNSIP d) (NetOurHostName d) (NetOurRootPath d).
Definition set_dhcp_state (st : dhcp_state_t) (d : dhcp) : dhcp := set_dhcp (BootpID d) (BootpTry d) st d.
Definition set_lease (lease server dns : Z) (d : dhcp) : dhcp :=
  mk_dhcp (BootpID d) (BootpTry d) (dhcp_state d) lease server dns (NetOurHostName d) (NetOurRootPath d).
Definition set_names (host root : list Z) (d : dhcp) : dhcp :=
  mk_dhcp (BootpID d) (BootpTry d) (dhcp_state d) (dhcp_leasetime d) (NetDHCPServerIP d) (NetOurDNSIP d) host root.

(** Changes of the stack's configuration. *)
Definition set_masks (gateway mask : Z) (c : net_cfg) : net_cfg :=
  mk_cfg (NetOurIP c) (NetServerIP c) gateway mask (NetOurVLAN c) (NetOurNativeVLAN c) (NetPingIP c) (NetOurEther c) (netretry c).
Definition set_addrs (our server : Z) (c : net_cfg) : net_cfg :=
  mk_cfg our server (NetOurGatewayIP c) (NetOurSubnetMask c) (NetOurVLAN c) (NetOurNativeVLAN c) (NetPingIP c) (NetOurEther c) (netretry c).

(** The whole network side of the machine: the stack with the TFTP client
    and the memory, the other clients, and the environment. *)
Record machine {console : Type} := mk_machine {
  ts : sys; nf : nfs; dh : dhcp; RarpTry : Z; me : env_store; mv : env_vars console;
  env_changed_id : Z;
}.
Arguments machine : clear implicits.
Arguments mk_machine {console}.

(** ** Filtering *)

Definition BootpCheckPkt (p : mem) (bp dest src len : Z) (d : dhcp) : Z :=
  if negb (dest =? PORT_BOOTPC) || negb (src =? PORT_BOOTPS) then -1
  else if len <? BOOTP_HDR_SIZE - OPT_SIZE then -2
  else if negb (p bp =? OP_BOOTREQUEST) && negb (p bp =? OP_BOOTREPLY) && negb (p bp =? DHCP_OFFER) &&
          negb (p bp =? DHCP_ACK) && negb (p bp =? DHCP_NAK) then -3
  else if negb (p (bp + 1) =? HWT_ETHER) then -4
  else if negb (p (bp + 2) =? HWL_ETHER) then -5
  else if negb (get32 p (bp + bp_id) =? BootpID d) then -6
  else 0.

Definition truncate_sz (maxlen curlen : Z) : Z := if maxlen <=? curlen then maxlen - 1 else curlen.

(** ** Options *)

(** [memcpy (array, src, size); array[size] = 0;] *)
Definition put_string (array bytes : list Z) : list Z := bytes ++ [0] ++ drop (S (length bytes)) array.

(** The case of the option at [popt]; [bp] is the packet. *)
Definition dhcp_option (p : mem) (popt bp : Z) (c : net_cfg) (d : dhcp) : mem * net_cfg * dhcp :=
  let oplen := p (popt + 1) in
  let ip := get32 p (popt + 2) in
  let bytes size := load p (popt + 2) (Z.to_nat size) in
  match p popt with
  | 1 => (p, set_masks (NetOurGatewayIP c) ip c, d)
  | 3 => (p, set_masks ip (NetOurSubnetMask c) c, d)
  | 6 => (p, c, set_lease (dhcp_leasetime d) (NetDHCPServerIP d) ip d)
  | 12 => (p, c, set_names (put_string (NetOurHostName d) (bytes (truncate_sz 32 oplen))) (NetOurRootPath d) d)
  | 17 => (p, c, set_names (NetOurHostName d) (put_string (NetOurRootPath d) (bytes (truncate_sz 64 oplen))) d)
  | 51 => (p, c, set_lease ip (NetDHCPServerIP d) (NetOurDNSIP d) d)
  | 54 => (p, c, set_lease (dhcp_leasetime d) ip (NetOurDNSIP d) d)
  | 67 =>
      let size := truncate_sz 128 oplen in
      if (p (bp + bp_file) =? 0) && (0 <? size)
      then (store (store_list p (bp + bp_file) (bytes size)) (bp + bp_file + size) 0, c, d)
      else (p, c, d)
  | _ => (p, c, d)
  end.

(** [while (popt < end && *popt != 0xff)]; the fuel is never used up. *)
Fixpoint options_loop (fuel : nat) (p : mem) (popt stop bp : Z) (c : net_cfg) (d : dhcp) : mem * net_cfg * dhcp :=
  match fuel with
  | O => (p, c, d)
  | S fuel =>
      if (popt <? stop) && negb (p popt =? 0xff) then
        let oplen := p (popt + 1) in
        let '(p, c, d) := dhcp_option p popt bp c d in
        options_loop fuel p (popt + oplen + 2) stop bp c d
      else (p, c, d)
  end.

Definition DhcpOptionsProcess (p : mem) (popt bp : Z) (c : net_cfg) (d : dhcp) : mem * net_cfg * dhcp :=
  options_loop (Z.to_nat BOOTP_HDR_SIZE) p popt (popt + BOOTP_HDR_SIZE) bp c d.

(** [while ( *popt != 0xff )], inside the receive buffer. *)
Fixpoint message_type_loop (fuel : nat) (p : mem) (popt : Z) : option Z :=
  if PKTSIZE_ALIGN <=? popt then None
  else
    match fuel with
    | O => None
    | S fuel =>
        if p popt =? 0xff then Some (-1)
        else if p popt =? 53 then Some (p (popt + 2))
        else message_type_loop fuel p (popt + p (popt + 1) + 2)
    end.

Definition DhcpMessageType (p : mem) (popt : Z) : option Z :=
  if negb (get32 p popt =? BOOTP_VENDOR_MAGIC) then Some (-1)
  else message_type_loop (Z.to_nat PKTSIZE_ALIGN) p (popt + 4).

(** ** Requests *)

(** The bytes [DhcpExtended] writes, with the parameters this configuration
    asks for. *)
Definition DhcpExtended (message_type ServerID RequestedIP : Z) : list Z :=
  let e := [99; 130; 83; 99; 53; 1; message_type; 57; 2; Z.shiftr (576 - 312 + OPT_SIZE) 8; Z.land (576 - 312 + OPT_SIZE) 0xff] ++
    (if truth ServerID then [54; 4] ++ be_bytes 4 ServerID else []) ++
    (if truth RequestedIP then [50; 4] ++ be_bytes 4 RequestedIP else []) ++
    [55; 4; 3; 12; 13; 17] ++ [255] in
  e ++ replicate (Z.to_nat (CONFIG_DHCP_MIN_EXT_LEN + 1 - len e)) 0.

(** A request up to the vendor area, and the frame that carries it.  The
    length handed to [eth_send] counts an untagged Ethernet header. *)
Definition bootp_packet (c : net_cfg) (id secs : Z) (file ext : list Z) : list Z :=
  [OP_BOOTREQUEST; HWT_ETHER; HWL_ETHER; 0] ++ be_bytes 4 id ++ be_bytes 2 secs ++ [0; 0] ++ replicate 16 0 ++
  NetOurEther c ++ replicate 10 0 ++ replicate 64 0 ++ (file ++ replicate (128 - length file) 0) ++ ext.

Definition bootp_frame (c : net_cfg) (ipid id secs : Z) (file ext : list Z) : list Z :=
  let pktlen := BOOTP_SIZE - OPT_SIZE + len ext in
  let iplen := BOOTP_HDR_SIZE - OPT_SIZE + len ext in
  take (Z.to_nat pktlen)
    (NetSetEther c NetBcastAddr PROT_IP ++ NetSetIP c ipid 0xFFFFFFFF PORT_BOOTPS PORT_BOOTPC iplen ++
     bootp_packet c id secs file ext ++ replicate (Z.to_nat PKTSIZE) 0).

Definition next_ipid (n : net) : net := set_ids (u32 (NetIPID n + 1)) (PingSeqNo n) n.

(** The transaction number: the lower bytes of the address plus the time. *)
Definition bootp_id (c : net_cfg) (now : Z) : Z := u32 (be_val (drop 2 (NetOurEther c)) + now).

Definition BootpRequest (now : Z) (BootFile : list Z) (n : net) (d : dhcp) : net * dhcp :=
  let id := bootp_id (cfg n) now in
  let frame := bootp_frame (cfg n) (NetIPID n) id (now / 1000) (copy_filename BootFile 128) (DhcpExtended DHCP_DISCOVER 0 0) in
  let n := NetSetHandler DhcpHandler_f (NetSetTimeout now SELECT_TIMEOUT BootpTimeout_f (next_ipid n)) in
  (eth_send frame n, set_dhcp id (BootpTry d + 1) SELECTING d).

Definition BootpTimeout (now : Z) (BootFile : list Z) (n : net) (d : dhcp) : net * dhcp :=
  if BOOTP_TIMEOUT_COUNT <=? BootpTry d then (NetStartAgain now n, d)
  else BootpRequest now BootFile (NetSetTimeout now BOOTP_TIMEOUT BootpTimeout_f n) d.

(** The request for the address offered in [p]. *)
Definition DhcpSendRequestPkt (now : Z) (p : mem) (bp : Z) (n : net) (d : dhcp) : net :=
  let frame := bootp_frame (cfg n) (NetIPID n) (get32 p (bp + bp_id)) (now / 1000) []
    (DhcpExtended DHCP_REQUEST (NetDHCPServerIP d) (get32 p (bp + bp_yiaddr))) in
  eth_send frame (next_ipid n).

(** ** The handler *)

Section handler.
Context {console : Type} (console_assign : Z -> list Z -> console -> Z * console).

Definition net_of (m : machine console) : net := nt (ts m).

Definition put_net (n : net) (d : dhcp) (m : machine console) : machine console :=
  mk_machine (mk_sys n (tf (ts m)) (ram (ts m))) (nf m) d (RarpTry m) (me m) (mv m) (env_changed_id m).

Definition on_stack (f : net -> net) (m : machine console) : machine console := put_net (f (net_of m)) (dh m) m.

Definition put_env (e : env_store) (v : env_vars console) (m : machine console) : machine console :=
  mk_machine (ts m) (nf m) (dh m) (RarpTry m) e v (env_changed_id m).

Definition set_BootFile (f : list Z) (v : env_vars console) : env_vars console :=
  mk_vars console (env_id console v) (bi_enetaddr console v) (bi_ip_addr console v) (load_addr console v) f
    (baudrate console v) (brg console v) (input console v) (cons console v).

Definition m_setenv (name val : list Z) (m : machine console) : option (machine console) :=
  '(_, e, v) ← setenv console console_assign name (Some val) (me m) (mv m); Some (put_env e v m).

(** The addresses, the server's Ethernet address from the frame's header, and
    the boot file. *)
Definition copied_params (p : mem) (bp : Z) (m : machine console) : machine console :=
  let n := net_of m in
  let si := get32 p (bp + bp_siaddr) in
  let n := set_cfg (set_addrs (get32 p (bp + bp_yiaddr)) (if truth si then si else NetServerIP (cfg n)) (cfg n)) n in
  let m := put_net (set_mac ServerEther (load p 6 6) n) (dh m) m in
  let file := take_while (fun c => negb (c =? 0)) (load p (bp + bp_file) 128) in
  match file with [] => m | _ => put_env (me m) (set_BootFile (copy_filename file 128) (mv m)) m end.

(** The boot file, new or old, is also put into the environment. *)
Definition BootpCopyNetParams (p : mem) (bp : Z) (m : machine console) : option (machine console) :=
  let m := copied_params p bp m in
  match BootFile console (mv m) with
  | [] => Some m
  | f => m_setenv (str "bootfile") f m
  end.

Definition start_tftp (now : Z) (m : machine console) : machine console :=
  mk_machine (TftpStart now (BootFile console (mv m)) (ts m)) (nf m) (dh m) (RarpTry m) (me m) (mv m) (env_changed_id m).

Definition start_nfs (now : Z) (m : machine console) : option (machine console) :=
  s ← NfsStart now (BootFile console (mv m)) (mk_nsys (net_of m) (nf m) (ram (ts m)));
  Some (mk_machine (mk_sys (n_net s) (tf (ts m)) (n_ram s)) (n_nfs s) (dh m) (RarpTry m) (me m) (mv m) (env_changed_id m)).

(** What the variable [autoload] asks for. *)
Definition autoload (now : Z) (m : machine console) : option (machine console) :=
  s ← getenv_str (me m) (str "autoload");
  match s with
  | Some s =>
      if chr s =? 110 (* 'n' *) then Some (on_stack (set_NetState NETLOOP_SUCCESS) m)
      else if bool_decide (s = str "NFS") then start_nfs now m
      else Some (start_tftp now m)
  | None => Some (start_tftp now m)
  end.

(** [if (NetReadLong(bp_vend) == BOOTP_VENDOR_MAGIC) DhcpOptionsProcess (...)] *)
Definition vendor_options (p : mem) (bp : Z) (m : machine console) : mem * machine console :=
  if get32 p (bp + bp_vend) =? BOOTP_VENDOR_MAGIC then
    let '(p, c, d) := DhcpOptionsProcess p (bp + bp_vend + 4) bp (cfg (net_of m)) (dh m) in
    (p, put_net (set_cfg c (net_of m)) d m)
  else (p, m).

Definition DhcpHandler (now : Z) (p : mem) (bp dest src len : Z) (m : machine console) : option (machine console) :=
  if truth (BootpCheckPkt p bp dest src len (dh m)) then Some m
  else
    match dhcp_state (dh m) with
    | SELECTING =>
        let m := put_net (net_of m) (set_dhcp_state REQUESTING (dh m)) m in
        let '(p, m) := vendor_options p bp m in
        let n := NetSetTimeout now BOOTP_TIMEOUT BootpTimeout_f (net_of m) in
        Some (put_net (DhcpSendRequestPkt now p bp n (dh m)) (dh m) m)
    | REQUESTING =>
        t ← DhcpMessageType p (bp + bp_vend);
        if t =? DHCP_ACK then
          let '(p, m) := vendor_options p bp m in
          m ← BootpCopyNetParams p bp m;
          autoload now (put_net (net_of m) (set_dhcp_state BOUND (dh m)) m)
        else Some m
    | _ => Some m
    end.

Definition m_BootpRequest (now : Z) (m : machine console) : machine console :=
  let '(n, d) := BootpRequest now (BootFile console (mv m)) (net_of m) (dh m) in put_net n d m.

Definition m_BootpTimeout (now : Z) (m : machine console) : machine console :=
  let '(n, d) := BootpTimeout now (BootFile console (mv m)) (net_of m) (dh m) in put_net n d m.

Definition DhcpRequest (now : Z) (m : machine console) : machine console := m_BootpRequest now m.
End handler.

(** ** The option scan *)

(** An array of [k] bytes that holds a C string. *)
Definition terminated (k : nat) (l : list Z) : Prop := length l = k /\ 0 ∈ l.

Definition names_ok (d : dhcp) : Prop := terminated 32 (NetOurHostName d) /\ terminated 64 (NetOurRootPath d).

(** The two memories differ at most in the boot file field of [bp]. *)
Definition same_but_file (bp : Z) (p p' : mem) : Prop := forall a, a < bp + bp_file \/ bp + bp_vend <= a -> p' a = p a.

#[export] Instance same_but_file_preorder bp : PreOrder (same_but_file bp).
Proof. split; [by intros p a |]. intros p q r H1 H2 a Ha. by rewrite H2, H1. Qed.

Lemma put_string_terminated k array bytes : length array = k -> (length bytes < k)%nat -> terminated k (put_string array bytes).
Proof.
  intros Ha Hb. unfold put_string. split; [rewrite !length_app, length_drop; cbn [length]; lia |].
  apply elem_of_app. right. apply elem_of_app. left. by apply list_elem_of_singleton.
Qed.

Lemma truncate_sz_lt maxlen curlen : 0 < maxlen -> 0 <= curlen -> 0 <= truncate_sz maxlen curlen < maxlen.
Proof. unfold truncate_sz. intros. destruct (Z.leb_spec maxlen curlen); lia. Qed.

(** The options with a case of their own. *)
Lemma dhcp_option_cases (Q : mem * net_cfg * dhcp -> Prop) p popt bp c d : byte_mem p -> Q (p, c, d) ->
  (p popt = 1 -> Q (p, set_masks (NetOurGatewayIP c) (get32 p (popt + 2)) c, d)) ->
  (p popt = 3 -> Q (p, set_masks (get32 p (popt + 2)) (NetOurSubnetMask c) c, d)) ->
  (p popt = 6 -> Q (p, c, set_lease (dhcp_leasetime d) (NetDHCPServerIP d) (get32 p (popt + 2)) d)) ->
  (p popt = 12 -> Q (p, c, set_names (put_string (NetOurHostName d) (load p (popt + 2) (Z.to_nat (truncate_sz 32 (p (popt + 1)))))) (NetOurRootPath d) d)) ->
  (p popt = 17 -> Q (p, c, set_names (NetOurHostName d) (put_string (NetOurRootPath d) (load p (popt + 2) (Z.to_nat (truncate_sz 64 (p (popt + 1)))))) d)) ->
  (p popt = 51 -> Q (p, c, set_lease (get32 p (popt + 2)) (NetDHCPServerIP d) (NetOurDNSIP d) d)) ->
  (p popt = 54 -> Q (p, c, set_lease (dhcp_leasetime d) (get32 p (popt + 2)) (NetOurDNSIP d) d)) ->
  (p popt = 67 -> p (bp + bp_file) = 0 -> 0 < truncate_sz 128 (p (popt + 1)) ->
   let size := truncate_sz 128 (p (popt + 1)) in
   Q (store (store_list p (bp + bp_file) (load p (popt + 2) (Z.to_nat size))) (bp + bp_file + size) 0, c, d)) ->
  Q (dhcp_option p popt bp c d).
Proof.
  intros Hp H0 H1 H3 H6 H12 H17 H51 H54 H67. unfold dhcp_option.
  destruct (p popt) as [|code|code]; [done | | done].
  do 7 (destruct code as [code|code|]; try done; try (by apply H1); try (by apply H3); try (by apply H6); try (by apply H12); try (by apply H17);
    try (by apply H51); try (by apply H54)).
  all: destruct (p (bp + bp_file) =? 0) eqn:E; cbn [andb]; [| done]; destruct (0 <? _) eqn:E2; [| done]; zb; by apply H67.
Qed.

(** What one option leaves alone. *)
Definition option_safe (bp : Z) (p : mem) (c : net_cfg) (d : dhcp) (r : mem * net_cfg * dhcp) : Prop :=
  let '(p', c', d') := r in
  byte_mem p' /\ same_but_file bp p p' /\ (names_ok d -> names_ok d') /\
  NetOurIP c' = NetOurIP c /\ NetServerIP c' = NetServerIP c /\ NetOurEther c' = NetOurEther c /\
  NetOurVLAN c' = NetOurVLAN c /\ NetOurNativeVLAN c' = NetOurNativeVLAN c /\ netretry c' = netretry c /\ NetPingIP c' = NetPingIP c /\
  BootpID d' = BootpID d /\ BootpTry d' = BootpTry d /\ dhcp_state d' = dhcp_state d.

Lemma option_safe_refl bp p c d : byte_mem p -> option_safe bp p c d (p, c, d).
Proof. intros Hp. by split_and!. Qed.

Lemma option_safe_trans bp p c d p1 c1 d1 r : option_safe bp p c d (p1, c1, d1) -> option_safe bp p1 c1 d1 r -> option_safe bp p c d r.
Proof.
  destruct r as [[p2 c2] d2]. intros (A1 & A2 & A3 & A4) (B1 & B2 & B3 & B4).
  split; [done |]. split; [by etrans |]. split; [by intros; apply B3, A3 |]. intuition congruence.
Qed.

Lemma dhcp_option_safe p popt bp c d : byte_mem p -> option_safe bp p c d (dhcp_option p popt bp c d).
Proof.
  intros Hp. assert (Hlen : 0 <= p (popt + 1)) by apply Hp.
  apply dhcp_option_cases; [done | by apply option_safe_refl | ..]; try (intros _; by split_and!).
  1, 2: intros _; split_and!; try done; intros [[H1 H2] [H3 H4]]; (split; [| by split]) || (split; [by split |]);
    (apply put_string_terminated; [done |]); rewrite load_length;
    match goal with |- context [truncate_sz ?k _] => pose proof (truncate_sz_lt k (p (popt + 1)) ltac:(lia) Hlen); lia end.
  intros _ _ Hpos size. pose proof (truncate_sz_lt 128 (p (popt + 1)) ltac:(lia) Hlen) as Hs. fold size in Hs.
  split_and!; try done.
  - apply store_byte_mem; [| done]. apply store_list_byte_mem; [done | by apply load_byte_mem].
  - intros a Ha. unfold bp_file, bp_vend in *. rewrite store_ne by lia. apply store_list_out. rewrite load_length. lia.
Qed.

Lemma options_loop_safe stop bp fuel : forall p popt c d, byte_mem p -> option_safe bp p c d (options_loop fuel p popt stop bp c d).
Proof.
  induction fuel as [|fuel IH]; intros p popt c d Hp; cbn [options_loop]; [by apply option_safe_refl |].
  destruct (_ && _); [| by apply option_safe_refl].
  pose proof (dhcp_option_safe p popt bp c d Hp) as H. destruct (dhcp_option p popt bp c d) as [[p1 c1] d1].
  eapply option_safe_trans; [exact H | apply IH, H].
Qed.

(** The scan moves on by two bytes at least, so that 548 rounds are enough. *)
Lemma options_loop_fuel stop bp f f' : forall p popt c d, byte_mem p -> stop - popt <= Z.of_nat f -> stop - popt <= Z.of_nat f' ->
  options_loop f p popt stop bp c d = options_loop f' p popt stop bp c d.
Proof.
  revert f'. induction f as [|f IH]; intros f' p popt c d Hp H H'.
  - destruct f'; cbn [options_loop]; [done |]. by rewrite (proj2 (Z.ltb_ge popt stop)) by lia.
  - destruct f' as [|f']; cbn [options_loop]; [by rewrite (proj2 (Z.ltb_ge popt stop)) by lia |].
    destruct (popt <? stop) eqn:E; cbn [andb]; [| done]. zb. destruct (negb _); [| done].
    pose proof (dhcp_option_safe p popt bp c d Hp) as Hs. destruct (dhcp_option p popt bp c d) as [[p1 c1] d1].
    assert (0 <= p (popt + 1)) by apply Hp. apply IH; [apply Hs | lia | lia].
Qed.

(** C29: the option scan is safe on any packet: whatever the receive buffer
    holds, the scan ends (rounds beyond its bound change nothing), the host
    name and the root path stay strings in arrays of 32 and 64 bytes, and the
    only bytes written in the frame are the boot file field. *)
Theorem dhcp_options_safe p popt bp c d : byte_mem p -> names_ok d ->
  (forall fuel, (Z.to_nat BOOTP_HDR_SIZE <= fuel)%nat ->
     options_loop fuel p popt (popt + BOOTP_HDR_SIZE) bp c d = DhcpOptionsProcess p popt bp c d) /\
  let '(p', c', d') := DhcpOptionsProcess p popt bp c d in
  names_ok d' /\ same_but_file bp p p' /\ NetOurIP c' = NetOurIP c /\ NetServerIP c' = NetServerIP c.
Proof.
  intros Hp Hn. split.
  - intros fuel Hf. apply options_loop_fuel; [done | unfold BOOTP_HDR_SIZE in *; lia | unfold BOOTP_HDR_SIZE in *; lia].
  - pose proof (options_loop_safe (popt + BOOTP_HDR_SIZE) bp (Z.to_nat BOOTP_HDR_SIZE) p popt c d Hp) as H.
    unfold DhcpOptionsProcess. destruct (options_loop _ _ _ _ _ _ _) as [[p' c'] d']. destruct H as (_ & H2 & H3 & H4 & H5 & _).
    split_and!; [by apply H3 | done | done | done].
Qed.

(** ** Options as a list *)

Definition enc (o : Z * list Z) : list Z := fst o :: len (snd o) :: snd o.

(** Options a server may send: a code, at most 255 bytes, and an address or a
    time is whole. *)
Definition wf_opt (o : Z * list Z) : Prop :=
  0 < fst o < 255 /\ len (snd o) < 256 /\ Forall byte (snd o) /\ (fst o ∈ [1; 3; 6; 51; 54] -> 4 <= len (snd o)).

(** The effect of an option on the boot file field and the parameters. *)
Definition opt_apply (st : list Z * net_cfg * dhcp) (o : Z * list Z) : list Z * net_cfg * dhcp :=
  let '(file, c, d) := st in
  let ip := be_val (take 4 (snd o)) in
  match fst o with
  | 1 => (file, set_masks (NetOurGatewayIP c) ip c, d)
  | 3 => (file, set_masks ip (NetOurSubnetMask c) c, d)
  | 6 => (file, c, set_lease (dhcp_leasetime d) (NetDHCPServerIP d) ip d)
  | 12 => (file, c, set_names (put_string (NetOurHostName d) (take 31 (snd o))) (NetOurRootPath d) d)
  | 17 => (file, c, set_names (NetOurHostName d) (put_string (NetOurRootPath d) (take 63 (snd o))) d)
  | 51 => (file, c, set_lease ip (NetDHCPServerIP d) (NetOurDNSIP d) d)
  | 54 => (file, c, set_lease (dhcp_leasetime d) ip (NetOurDNSIP d) d)
  | 67 => (if (nthZ file 0 =? 0) && negb (bool_decide (snd o = [])) then put_string file (take 127 (snd o)) else file, c, d)
  | _ => st
  end.

Definition file_field (p : mem) (bp : Z) : list Z := load p (bp + bp_file) 128.

Lemma load_put_string p a k bs : (length bs < k)%nat ->
  load (store (store_list p a bs) (a + len bs) 0) a k = put_string (load p a k) bs.
Proof.
  intros Hb. assert (Hk : k = (length bs + (1 + (k - S (length bs))))%nat) by lia. unfold put_string.
  rewrite Hk at 1. rewrite !load_app. f_equal; [| f_equal].
  - rewrite load_store_out by lia. apply load_store_list.
  - cbn. by rewrite store_eq.
  - rewrite load_store_out, load_store_list_disjoint by lia.
    rewrite <- (take_ge (drop (S (length bs)) (load p a k)) (k - S (length bs))) by (rewrite length_drop, load_length; lia).
    rewrite <- (load_sub p a (load p a k) (S (length bs)) (k - S (length bs))) by (rewrite ?load_length; lia || done). f_equal. lia.
Qed.

Lemma option_value p popt o k : load p popt (length (enc o)) = enc o -> (k <= length (snd o))%nat -> load p (popt + 2) k = take k (snd o).
Proof.
  intros Hl Hk. replace (popt + 2) with (popt + Z.of_nat 2) by lia. rewrite (load_sub p popt (enc o)) by (done || (cbn; lia)). done.
Qed.

Lemma truncated p popt o max : load p popt (length (enc o)) = enc o -> p (popt + 1) = len (snd o) -> 0 < max ->
  load p (popt + 2) (Z.to_nat (truncate_sz max (p (popt + 1)))) = take (Z.to_nat (max - 1)) (snd o).
Proof.
  intros Hl -> Hm. unfold truncate_sz. destruct (Z.leb_spec max (len (snd o))); [apply option_value; [done | lia] |].
  rewrite (option_value p popt o) by (done || lia). rewrite !take_ge by lia. done.
Qed.

Lemma option_head p popt o : load p popt (length (enc o)) = enc o -> p popt = fst o /\ p (popt + 1) = len (snd o).
Proof. intros Hl. cbn [enc length load] in Hl. by injection Hl. Qed.

Lemma dhcp_option_apply p popt bp c d o : byte_mem p -> wf_opt o -> load p popt (length (enc o)) = enc o ->
  let '(p', c', d') := dhcp_option p popt bp c d in (file_field p' bp, c', d') = opt_apply (file_field p bp, c, d) o.
Proof.
  intros Hp (Hc & Hl & Hb & H4) He. destruct (option_head p popt o He) as [Hp0 Hp1].
  assert (Hip : 4 <= len (snd o) -> get32 p (popt + 2) = be_val (take 4 (snd o))).
  { intros H. unfold get32. by rewrite (option_value p popt o) by (done || lia). }
  assert (Hf0 : nthZ (file_field p bp) 0 = p (bp + bp_file)) by done.
  unfold dhcp_option. rewrite Hp0. unfold opt_apply.
  destruct (decide (fst o ∈ [1; 3; 6; 51; 54])) as [Hin|Hnin].
  { specialize (Hip (H4 Hin)). rewrite !elem_of_cons in Hin. rewrite Hip. by destruct Hin as [->|[->|[->|[->|[->|[]%not_elem_of_nil]]]]]. }
  destruct (decide (fst o = 12)) as [->|]; [by rewrite (truncated p popt o 32) by done |].
  destruct (decide (fst o = 17)) as [->|]; [by rewrite (truncated p popt o 64) by done |].
  destruct (decide (fst o = 67)) as [->|].
  { rewrite Hf0. destruct (p (bp + bp_file) =? 0); cbn [andb]; [| done].
    assert (Hs : truncate_sz 128 (p (popt + 1)) = len (take 127 (snd o))).
    { rewrite Hp1, length_take. unfold truncate_sz. destruct (Z.leb_spec 128 (len (snd o))); lia. }
    pose proof (truncated p popt o 128 He Hp1 ltac:(lia)) as Ht. rewrite Ht, Hs.
    destruct (snd o) as [|x l] eqn:E; [done |]. rewrite <- E in *. rewrite bool_decide_eq_false_2 by (rewrite E; done). cbn [negb].
    rewrite (proj2 (Z.ltb_lt _ _)) by (rewrite E; cbn; lia). unfold file_field. by rewrite load_put_string by (rewrite length_take; lia). }
  rewrite !not_elem_of_cons in Hnin. destruct Hnin as (N1 & N3 & N6 & N51 & N54 & _).
  destruct (fst o) as [|code|code]; [done | | done].
  do 7 (destruct code as [code|code|]; try done).
Qed.

Lemma options_loop_apply stop bp os : forall fuel p popt c d, byte_mem p -> Forall wf_opt os ->
  bp + bp_vend <= popt -> load p popt (length (concat (map enc os) ++ [255])) = concat (map enc os) ++ [255] ->
  popt + len (concat (map enc os)) < stop -> (length os < fuel)%nat ->
  let '(p', c', d') := options_loop fuel p popt stop bp c d in
  (file_field p' bp, c', d') = fold_left opt_apply os (file_field p bp, c, d).
Proof.
  induction os as [|o os IH]; intros [|fuel] p popt c d Hp Hwf Hbp Hl Hstop Hf; try (cbn in Hf; lia); cbn [options_loop fold_left].
  - cbn in Hl. injection Hl as Hl. rewrite Hl. by rewrite andb_false_r.
  - apply Forall_cons in Hwf as [Ho Hwf]. cbn [map concat] in Hl, Hstop. rewrite <- app_assoc, length_app, load_app in Hl. rewrite length_app in Hstop.
    apply app_inj_1 in Hl as [He Hl]; [| by rewrite load_length]. destruct (option_head p popt o He) as [Hp0 Hp1].
    rewrite (proj2 (Z.ltb_lt popt stop)) by lia. rewrite Hp0, (proj2 (Z.eqb_neq (fst o) 255)) by (destruct Ho; lia). cbn [andb negb].
    pose proof (dhcp_option_apply p popt bp c d o Hp Ho He) as Ha. pose proof (dhcp_option_safe p popt bp c d Hp) as Hs.
    destruct (dhcp_option p popt bp c d) as [[p1 c1] d1]. rewrite <- Ha. destruct Hs as (Hp1' & Hsame & _).
    replace (popt + p (popt + 1) + 2) with (popt + len (enc o)) by (rewrite Hp1; cbn [enc length]; lia).
    apply IH; [done | done | lia | | lia | cbn in Hf; lia].
    rewrite <- Hl at 2. apply load_ext. intros i Hi. apply Hsame. right. lia.
Qed.

(** The option scan refines the update of the parameters: for a vendor
    area that encodes a list of options, ended by 255, the boot file field,
    the configuration and the client's parameters afterwards are those of
    applying the options one after the other. *)
Theorem dhcp_options_refine os p popt bp c d : byte_mem p -> Forall wf_opt os -> bp + bp_vend <= popt ->
  load p popt (length (concat (map enc os) ++ [255])) = concat (map enc os) ++ [255] ->
  len (concat (map enc os)) < BOOTP_HDR_SIZE ->
  let '(p', c', d') := DhcpOptionsProcess p popt bp c d in
  (file_field p' bp, c', d') = fold_left opt_apply os (file_field p bp, c, d).
Proof.
  intros Hp Hwf Hbp Hl Hlen. unfold DhcpOptionsProcess. apply options_loop_apply; try done; [lia |].
  assert (Hn : (length os <= length (concat (map enc os)))%nat); [| lia].
  clear. induction os as [|o os IH]; [done |]. cbn [map concat length]. rewrite length_app. cbn [enc length]. lia.
Qed.

(** ** What the requests say *)

Lemma DhcpExtended_length t s r : len (DhcpExtended t s r) = 65.
Proof.
  unfold DhcpExtended. rewrite length_app, length_replicate. set (e := _ ++ _).
  assert (He : (length e <= 30)%nat) by (unfold e; destruct (truth s), (truth r); cbn; lia). unfold CONFIG_DHCP_MIN_EXT_LEN. lia.
Qed.

(** The options of a request. *)
Definition request_options (t s r : Z) : list (Z * list Z) :=
  [(53, [t]); (57, [2; 64])] ++ (if truth s then [(54, be_bytes 4 s)] else []) ++
  (if truth r then [(50, be_bytes 4 r)] else []) ++ [(55, [3; 12; 13; 17])].

Lemma DhcpExtended_options t s r : exists pad, DhcpExtended t s r =
  be_bytes 4 BOOTP_VENDOR_MAGIC ++ (concat (map enc (request_options t s r)) ++ [255]) ++ pad.
Proof. unfold DhcpExtended, request_options. destruct (truth s), (truth r); eexists; reflexivity. Qed.

Lemma message_type_found f p popt t : popt < PKTSIZE_ALIGN -> load p popt 3 = [53; 1; t] -> message_type_loop (S f) p popt = Some t.
Proof.
  intros Hp Hl. cbn [load] in Hl. injection Hl as H1 _ H2. cbn [message_type_loop]. rewrite (proj2 (Z.leb_gt _ _)) by done.
  rewrite H1. cbn [Z.eqb Pos.eqb]. rewrite <- H2. do 2 f_equal. lia.
Qed.

Lemma request_wf t s r : byte t -> Forall wf_opt (request_options t s r).
Proof.
  intros Ht. assert (Hip : forall k v, 0 < k < 255 -> wf_opt (k, be_bytes 4 v)) by (intros k v Hk; split; [exact Hk | split; [done | split; [apply be_bytes_bytes | done]]]).
  unfold request_options. repeat apply Forall_app_2; try (by destruct (truth _); [apply Forall_singleton, Hip | apply Forall_nil]).
  - apply Forall_cons; split; [| apply Forall_singleton]; (split; [done |]); (split; [done |]); (split; [| intros Hin; exfalso; revert Hin; apply (bool_decide_unpack (_ ∉ _)); by vm_compute]).
    + by apply Forall_singleton.
    + by_eval.
  - apply Forall_singleton. by_eval.
Qed.

(** The code's own parsers understand its requests: where the vendor area
    holds what [DhcpExtended] wrote, [DhcpMessageType] answers the message
    type, and the option scan finds the server's address if one is named. *)
Theorem dhcp_request_understood t s r p bp c d : byte_mem p -> byte t -> 0 <= s < 2 ^ 32 -> 0 <= bp -> bp + BOOTP_HDR_SIZE <= PKTSIZE_ALIGN ->
  load p (bp + bp_vend) (length (DhcpExtended t s r)) = DhcpExtended t s r ->
  DhcpMessageType p (bp + bp_vend) = Some t /\
  let '(_, _, d') := DhcpOptionsProcess p (bp + bp_vend + 4) bp c d in
  NetDHCPServerIP d' = if truth s then s else NetDHCPServerIP d.
Proof.
  intros Hp Ht Hs Hbp Hbuf Hl. unfold PKTSIZE_ALIGN, BOOTP_HDR_SIZE, bp_vend in *.
  destruct (DhcpExtended_options t s r) as [pad E]. rewrite E in Hl.
  assert (Hmagic : get32 p (bp + 236) = BOOTP_VENDOR_MAGIC /\ load p (bp + 236 + 4) (length (concat (map enc (request_options t s r)) ++ [255])) = concat (map enc (request_options t s r)) ++ [255]).
  { rewrite length_app, load_app in Hl. apply app_inj_1 in Hl as [H1 H2]; [| by rewrite load_length]. split; [unfold get32; by rewrite (H1 : load p (bp + 236) 4 = _) |].
    rewrite length_app, load_app in H2. by apply app_inj_1 in H2 as [H2 _]; [| by rewrite load_length]. }
  destruct Hmagic as [Hm Hopts]. split.
  - unfold DhcpMessageType. rewrite Hm, Z.eqb_refl. cbn [negb]. 
    assert (H3 : load p (bp + 236 + 4) 3 = [53; 1; t]).
    { pose proof (load_sub p (bp + 236 + 4) _ 0 3 Hopts ltac:(rewrite length_app; unfold request_options; cbn; lia)) as H3.
      by rewrite Z.add_0_r in H3. }
    change (Z.to_nat PKTSIZE_ALIGN) with (S 1535). apply message_type_found; [unfold PKTSIZE_ALIGN; lia | done].
  - pose proof (dhcp_options_refine (request_options t s r) p (bp + 236 + 4) bp c d Hp) as H. unfold bp_vend, BOOTP_HDR_SIZE in H.
    destruct (DhcpOptionsProcess p (bp + 236 + 4) bp c d) as [[p' c'] d'].
    rewrite (surjective_pairing (fold_left _ _ _)) in H.
    injection (H (request_wf t s r Ht) ltac:(lia) Hopts ltac:(unfold request_options; destruct (truth s), (truth r); cbn; lia)) as _ Hd.
    rewrite Hd. unfold request_options. 
    assert (Hv : be_val (take 4 (be_bytes 4 s)) = s) by (rewrite take_ge by done; rewrite (be_val_bytes 4); by apply (wrap_small 32)).
    destruct (truth s), (truth r); cbn [fold_left app opt_apply fst snd]; try done; exact Hv.
Qed.

(** ** The state machine *)

Section machine.
Context {console : Type} (console_assign : Z -> list Z -> console -> Z * console).
Implicit Types (m : machine console).

(** The steps of the network loop that concern this client, while the loop
    runs: a datagram for its handler, or its timer, which the loop clears
    before it calls the function. *)
Inductive dhcp_step : machine console -> machine console -> Prop :=
| step_packet now p bp dest src len m m' :
    NetState (net_of m) = NETLOOP_CONTINUE -> packetHandler (net_of m) = DhcpHandler_f -> byte_mem p ->
    DhcpHandler console_assign now p bp dest src len m = Some m' -> dhcp_step m m'
| step_expired now m :
    NetState (net_of m) = NETLOOP_CONTINUE -> timeHandler (tmr (net_of m)) = Some BootpTimeout_f ->
    dhcp_step m (m_BootpTimeout now (on_stack (NetSetTimeout now 0 BootpTimeout_f) m)).

(** What is the same before the client is bound: the addresses, the other
    clients, the memory, the environment. *)
Definition untouched (m m' : machine console) : Prop :=
  NetOurIP (cfg (net_of m')) = NetOurIP (cfg (net_of m)) /\ NetServerIP (cfg (net_of m')) = NetServerIP (cfg (net_of m)) /\
  NetOurEther (cfg (net_of m')) = NetOurEther (cfg (net_of m)) /\ tf (ts m') = tf (ts m) /\ ram (ts m') = ram (ts m) /\
  nf m' = nf m /\ me m' = me m /\ mv m' = mv m.

#[export] Instance untouched_preorder : PreOrder untouched.
Proof. split; [by intros m; split_and! |]. intros a b c. unfold untouched. intuition congruence. Qed.

(** Another client has taken over, or the loop is about to end. *)
Definition handed_over (n : net) : Prop :=
  NetState n = NETLOOP_SUCCESS \/ (packetHandler n = TftpHandler_f /\ timeHandler (tmr n) = Some TftpTimeout_f) \/
  (packetHandler n = NfsHandler_f /\ timeHandler (tmr n) = Some NfsTimeout_f).

Definition dhcp_inv (m0 m : machine console) : Prop :=
  names_ok (dh m) /\ 1 <= BootpTry (dh m) <= BOOTP_TIMEOUT_COUNT /\
  match dhcp_state (dh m) with
  | SELECTING | REQUESTING =>
      untouched m0 m /\
      ((packetHandler (net_of m) = DhcpHandler_f /\ timeHandler (tmr (net_of m)) = Some BootpTimeout_f) \/
       (BootpTry (dh m) = BOOTP_TIMEOUT_COUNT /\ (packetHandler (net_of m) = startAgainHandler_f \/ NetState (net_of m) = NETLOOP_FAIL)))
  | BOUND => handed_over (net_of m)
  | _ => False
  end.

Lemma m_BootpRequest_inv now (m0 m : machine console) : names_ok (dh m) -> 0 <= BootpTry (dh m) < BOOTP_TIMEOUT_COUNT -> untouched m0 m ->
  dhcp_inv m0 (m_BootpRequest now m).
Proof.
  intros Hn Ht Hu. split; [exact Hn |]. split; [cbn; lia |]. split; [exact Hu | by left].
Qed.

Lemma vendor_options_safe p bp m p' m' : byte_mem p -> vendor_options p bp m = (p', m') ->
  untouched m m' /\ (names_ok (dh m) -> names_ok (dh m')) /\ BootpTry (dh m') = BootpTry (dh m) /\ dhcp_state (dh m') = dhcp_state (dh m) /\
  packetHandler (net_of m') = packetHandler (net_of m) /\ tmr (net_of m') = tmr (net_of m) /\ NetState (net_of m') = NetState (net_of m).
Proof.
  intros Hp. unfold vendor_options. destruct (_ =? _); [| intros [= <- <-]; split_and!; try done; reflexivity].
  pose proof (options_loop_safe (bp + bp_vend + 4 + BOOTP_HDR_SIZE) bp (Z.to_nat BOOTP_HDR_SIZE) p (bp + bp_vend + 4) (cfg (net_of m)) (dh m) Hp) as H.
  unfold DhcpOptionsProcess. destruct (options_loop _ _ _ _ _ _ _) as [[q c] d]. intros [= <- <-].
  destruct H as (_ & _ & H3 & H4 & H5 & H6 & _ & _ & _ & _ & _ & H12 & H13). by split_and!.
Qed.

Lemma TftpStart_session now file s : packetHandler (nt (TftpStart now file s)) = TftpHandler_f /\
  timeHandler (tmr (nt (TftpStart now file s))) = Some TftpTimeout_f.
Proof.
  unfold TftpStart. destruct (file_and_server _ _) as [name server].
  match goal with |- context [TftpSend now ?x] => destruct (TftpSend_session now x) as ((_ & -> & -> & _) & _) end. done.
Qed.

(** Taking over the parameters and loading end in a handed-over state. *)
Lemma autoload_hands_over now m m' : autoload now m = Some m' -> handed_over (net_of m') /\ dh m' = dh m.
Proof.
  assert (Ht : handed_over (net_of (start_tftp now m)) /\ dh (start_tftp now m) = dh m).
  { split; [| done]. right. left. apply TftpStart_session. }
  unfold autoload. destruct (getenv_str _ _) as [[s|]|]; [| by intros [= <-] | done]. cbn [mbind option_bind].
  destruct (_ =? _); [intros [= <-]; split; [by left | done] |]. destruct (bool_decide _); [| by intros [= <-]].
  unfold start_nfs. destruct (NfsStart _ _ _) as [x|] eqn:E; [| done]. cbn [mbind option_bind]. intros [= <-].
  apply NfsStart_session in E as (H1 & H2 & _). split; [| done]. right. right. by split.
Qed.

Lemma BootpCopyNetParams_dh p bp m m' : BootpCopyNetParams console_assign p bp m = Some m' -> dh m' = dh m.
Proof.
  unfold BootpCopyNetParams. assert (H1 : dh (copied_params p bp m) = dh m) by (unfold copied_params; by case_match).
  destruct (BootFile console (mv (copied_params p bp m))); [by intros [= <-] |]. unfold m_setenv. destruct (setenv _ _ _ _ _) as [[[rc e] v]|]; [| done].
  cbn. by intros [= <-].
Qed.

Lemma handed_over_stops m m' : handed_over (net_of m) -> ~ dhcp_step m m'.
Proof.
  unfold handed_over, NETLOOP_SUCCESS. intros H Hs. inversion Hs as [now p bp dest src size a b H1 H2 _ _ | now a H1 H2]; subst; unfold NETLOOP_CONTINUE in H1.
  all: destruct H as [H|[[H3 H4]|[H3 H4]]]; congruence.
Qed.

Lemma dhcp_packet_inv m0 m m' now p bp dest src len : byte_mem p -> dhcp_inv m0 m -> packetHandler (net_of m) = DhcpHandler_f ->
  NetState (net_of m) = NETLOOP_CONTINUE -> DhcpHandler console_assign now p bp dest src len m = Some m' -> dhcp_inv m0 m'.
Proof.
  intros Hp Hinv Hh Hns. pose proof Hinv as (Hn & Ht & Hst). unfold DhcpHandler. destruct (truth _); [by intros [= <-] |].
  destruct (dhcp_state (dh m)) eqn:Es; try done; try (by intros [= <-]).
  - destruct (vendor_options p bp _) as [p1 m1] eqn:E. apply vendor_options_safe in E as (U & N & T & S & K & _); [| done]. cbn in N, T, S, K. intros [= <-].
    split; [by apply N |]. split; [cbn; lia |]. cbn. rewrite S. destruct Hst as [Hu [[H1 H2]|[_ [H1|H1]]]]; [| congruence | unfold NETLOOP_FAIL, NETLOOP_CONTINUE in *; congruence].
    split; [etrans; [exact Hu | exact U] |]. left. split; [by rewrite <- H1 | done].
  - destruct (DhcpMessageType _ _) as [t|]; [| done]. cbn [mbind option_bind]. destruct (t =? DHCP_ACK); [| by intros [= <-]].
    destruct (vendor_options p bp m) as [p1 m1] eqn:E. apply vendor_options_safe in E as (U & N & T & S & _); [| done].
    destruct (BootpCopyNetParams _ _ _ _) as [m2|] eqn:E2; [| done]. cbn [mbind option_bind]. apply BootpCopyNetParams_dh in E2.
    intros [H1 H2]%autoload_hands_over. unfold dhcp_inv. rewrite H2. cbn. rewrite E2. split; [by apply N |]. split; [lia | done].
Qed.

Lemma dhcp_expired_inv m0 m now : dhcp_inv m0 m -> timeHandler (tmr (net_of m)) = Some BootpTimeout_f -> NetState (net_of m) = NETLOOP_CONTINUE ->
  dhcp_inv m0 (m_BootpTimeout now (on_stack (NetSetTimeout now 0 BootpTimeout_f) m)).
Proof.
  intros (Hn & Ht & Hst) Htm Hns. assert (Hu : untouched m0 m /\ (dhcp_state (dh m) = SELECTING \/ dhcp_state (dh m) = REQUESTING)).
  { destruct (dhcp_state (dh m)); try done; try (by destruct Hst as [Hu _]; split; auto).
    exfalso. unfold handed_over, NETLOOP_SUCCESS, NETLOOP_CONTINUE in *. destruct Hst as [H|[[_ H]|[_ H]]]; congruence. }
  destruct Hu as [Hu Hs]. unfold m_BootpTimeout, BootpTimeout. cbn [dh on_stack put_net].
  destruct (Z.leb_spec BOOTP_TIMEOUT_COUNT (BootpTry (dh m))) as [Hge|Hlt].
  - split; [exact Hn |]. split; [cbn; lia |]. cbn. assert (Hc : untouched m0 (put_net (NetStartAgain now (net_of (on_stack (NetSetTimeout now 0 BootpTimeout_f) m))) (dh m) (on_stack (NetSetTimeout now 0 BootpTimeout_f) m))).
    { unfold NetStartAgain. cbn. by destruct (bool_decide _). }
    destruct Hs as [-> | ->]; (split; [exact Hc |]); right; (split; [lia |]); unfold NetStartAgain; cbn; destruct (bool_decide _); auto.
  - apply (m_BootpRequest_inv now m0 (on_stack (NetSetTimeout now BOOTP_TIMEOUT BootpTimeout_f) (on_stack (NetSetTimeout now 0 BootpTimeout_f) m))); [done | cbn; lia |].
    exact Hu.
Qed.
End machine.


(** ** A server's replies *)

(** A reply: the addresses, the boot file, the options; [r_mid] and [r_rest]
    are the fields the client does not read. *)
Record reply := mk_reply { r_yi : Z; r_si : Z; r_file : list Z; r_opts : list (Z * list Z); r_mid : list Z; r_rest : list Z }.

Definition reply_options (t : Z) (r : reply) : list (Z * list Z) := (53, [t]) :: r_opts r.

Definition reply_bytes (id t : Z) (r : reply) : list Z :=
  [OP_BOOTREPLY; HWT_ETHER; HWL_ETHER; 0] ++ be_bytes 4 id ++ r_mid r ++ be_bytes 4 (r_yi r) ++ be_bytes 4 (r_si r) ++ r_rest r ++
  (r_file r ++ replicate (128 - length (r_file r)) 0) ++
  be_bytes 4 BOOTP_VENDOR_MAGIC ++ concat (map enc (reply_options t r)) ++ [255].

Definition good_reply (r : reply) : Prop :=
  0 <= r_yi r < 2 ^ 32 /\ 0 <= r_si r < 2 ^ 32 /\ length (r_mid r) = 8%nat /\ length (r_rest r) = 84%nat /\
  r_file r <> [] /\ len (r_file r) < 128 /\ Forall (fun c => c <> 0 /\ c <> 34) (r_file r) /\
  Forall wf_opt (r_opts r) /\ len (concat (map enc (r_opts r))) <= 304.

(** The frame [p] carries a reply at [bp]. *)
Definition carries (p : mem) (bp id t : Z) (r : reply) : Prop :=
  byte_mem p /\ 0 <= bp /\ bp + BOOTP_HDR_SIZE <= PKTSIZE_ALIGN /\ 0 <= id < 2 ^ 32 /\ byte t /\ good_reply r /\
  load p bp (length (reply_bytes id t r)) = reply_bytes id t r.

Section carried.
Context (p : mem) (bp id t : Z) (r : reply) (Hc : carries p bp id t r).

Lemma carried_fields :
  p bp = OP_BOOTREPLY /\ p (bp + 1) = HWT_ETHER /\ p (bp + 2) = HWL_ETHER /\ get32 p (bp + bp_id) = id /\
  get32 p (bp + bp_yiaddr) = r_yi r /\ get32 p (bp + bp_siaddr) = r_si r /\
  file_field p bp = r_file r ++ replicate (128 - length (r_file r)) 0 /\
  get32 p (bp + bp_vend) = BOOTP_VENDOR_MAGIC /\
  load p (bp + bp_vend + 4) (length (concat (map enc (reply_options t r)) ++ [255])) = concat (map enc (reply_options t r)) ++ [255].
Proof.
  destruct Hc as (_ & _ & _ & Hid & _ & (Hyi & Hsi & Hmid & Hrest & _ & Hfl & _) & Hl).
  assert (Hsplit : forall a x y, load p a (length (x ++ y)) = x ++ y -> load p a (length x) = x /\ load p (a + len x) (length y) = y).
  { intros a x y H. rewrite length_app, load_app in H. apply app_inj_1 in H; [done | by rewrite load_length]. }
  assert (Hw : forall a v, 0 <= v < 2 ^ 32 -> load p a (length (be_bytes 4 v)) = be_bytes 4 v -> get32 p a = v).
  { intros a v Hv H. unfold get32. rewrite (H : load p a 4 = _), (be_val_bytes 4). by apply (wrap_small 32). }
  unfold reply_bytes in Hl. apply Hsplit in Hl as [H1 Hl]. cbn [length load] in H1. injection H1 as E1 E2 E3 _.
  change (len [OP_BOOTREPLY; HWT_ETHER; HWL_ETHER; 0]) with 4 in Hl. apply Hsplit in Hl as [H4 Hl]. change (bp + 4) with (bp + bp_id) in H4.
  rewrite be_bytes_length in Hl. apply Hsplit in Hl as [_ Hl]. rewrite Hmid in Hl. apply Hsplit in Hl as [H5 Hl]. rewrite be_bytes_length in Hl.
  apply Hsplit in Hl as [H6 Hl]. rewrite be_bytes_length in Hl. apply Hsplit in Hl as [_ Hl]. rewrite Hrest in Hl. apply Hsplit in Hl as [H7 Hl].
  assert (Hff : length (r_file r ++ replicate (128 - length (r_file r)) 0) = 128%nat) by (rewrite length_app, length_replicate; lia).
  rewrite Hff in H7, Hl. apply Hsplit in Hl as [H8 H9]. rewrite be_bytes_length in H9.
  replace (bp + 4 + Z.of_nat 4 + Z.of_nat 8) with (bp + bp_yiaddr) in * by (unfold bp_yiaddr; lia).
  replace (bp + bp_yiaddr + Z.of_nat 4) with (bp + bp_siaddr) in * by (unfold bp_yiaddr, bp_siaddr; lia).
  replace (bp + bp_siaddr + Z.of_nat 4 + Z.of_nat 84) with (bp + bp_file) in * by (unfold bp_file, bp_siaddr; lia).
  replace (bp + bp_file + Z.of_nat 128) with (bp + bp_vend) in * by (unfold bp_file, bp_vend; lia).
  rewrite <- Z.add_assoc in E3. split_and!; try done; [by apply Hw | by apply Hw | by apply Hw| by apply Hw].
Qed.

Lemma carried_accepted len d : BOOTP_HDR_SIZE - OPT_SIZE <= len -> BootpID d = id ->
  BootpCheckPkt p bp PORT_BOOTPC PORT_BOOTPS len d = 0.
Proof.
  intros Hl Hi. destruct carried_fields as (E1 & E2 & E3 & E4 & _). unfold BootpCheckPkt. rewrite E1, E2, E3, E4, Hi, !Z.eqb_refl.
  by rewrite (proj2 (Z.ltb_ge len _)) by done.
Qed.

Lemma carried_type : DhcpMessageType p (bp + bp_vend) = Some t.
Proof.
  destruct carried_fields as (_ & _ & _ & _ & _ & _ & _ & E1 & E2). unfold DhcpMessageType. rewrite E1, Z.eqb_refl. cbn [negb].
  destruct Hc as (_ & Hbp & Hbuf & _). change (Z.to_nat PKTSIZE_ALIGN) with (S 1535). apply message_type_found; [unfold bp_vend, BOOTP_HDR_SIZE in *; lia |].
  pose proof (load_sub p (bp + bp_vend + 4) _ 0 3 E2 ltac:(rewrite length_app; cbn; lia)) as H3. by rewrite Z.add_0_r in H3.
Qed.

Lemma carried_options c d : let '(p', c', d') := DhcpOptionsProcess p (bp + bp_vend + 4) bp c d in
  (file_field p' bp, c', d') = fold_left opt_apply (reply_options t r) (file_field p bp, c, d).
Proof.
  destruct carried_fields as (_ & _ & _ & _ & _ & _ & _ & _ & E2). destruct Hc as (Hp & _ & _ & _ & Ht & (_ & _ & _ & _ & _ & _ & _ & Hwf & Hlen) & _).
  apply dhcp_options_refine; [done | | lia | done |].
  - apply Forall_cons. split; [| done]. split; [done |]. split; [done |]. split; [by apply Forall_singleton |].
    intros Hin. exfalso. revert Hin. apply (bool_decide_unpack (_ ∉ _)). by vm_compute.
  - cbn [reply_options map concat]. rewrite length_app. cbn [enc length fst snd]. unfold BOOTP_HDR_SIZE. lia.
Qed.
End carried.

(** ** Binding *)

Lemma copy_filename_id f : Forall (fun c => c <> 0 /\ c <> 34) f -> len f < 128 -> copy_filename f 128 = f.
Proof.
  intros Hf Hl. assert (Hk : forall k, (length f <= k)%nat -> copy_filename_loop k f = f).
  { clear Hl. induction Hf as [|c f [_ Hc] _ IH]; intros [|k] Hk; try done; [cbn in Hk; lia |]. cbn [copy_filename_loop].
    rewrite (proj2 (Z.eqb_neq _ _) Hc), IH by (cbn in Hk; lia). done. }
  unfold copy_filename. assert (Hq : (chr f =? 34) = false).
  { destruct f as [|c f]; [done |]. apply Forall_cons in Hf as [[_ Hc] _]. by apply Z.eqb_neq. }
  rewrite Hq. apply Hk. lia.
Qed.

Lemma padded_string f k : Forall (fun c => c <> 0 /\ c <> 34) f ->
  take_while (fun c => negb (c =? 0)) (f ++ replicate k 0) = f.
Proof.
  induction 1 as [|c f [Hc _] _ IH]; cbn [app take_while]; [by destruct k |]. rewrite (proj2 (Z.eqb_neq _ _) Hc). cbn [negb]. by rewrite IH.
Qed.

(** A boot file in the packet's own field is kept. *)
Lemma options_keep_file os file c d : nthZ file 0 <> 0 -> (fold_left opt_apply os (file, c, d)).1.1 = file.
Proof.
  intros Hf. revert c d. induction os as [|[k v] os IH]; intros c d; cbn [fold_left]; [done |].
  assert (Ho : exists c' d', opt_apply (file, c, d) (k, v) = (file, c', d')); [| destruct Ho as (c' & d' & ->); apply IH].
  unfold opt_apply. cbn [fst snd]. rewrite (proj2 (Z.eqb_neq _ _) Hf). cbn [andb]. repeat case_match; eauto.
Qed.

(** The parameters after a reply. *)
Definition after_reply (t : Z) (r : reply) (c : net_cfg) (d : dhcp) : net_cfg * dhcp :=
  let '(_, c, d) := fold_left opt_apply (reply_options t r) (r_file r ++ replicate (128 - length (r_file r)) 0, c, d) in (c, d).

Section binding.
Context {console : Type} (console_assign : Z -> list Z -> console -> Z * console).
Implicit Types (m : machine console).

Lemma vendor_options_carried p bp id t r m : carries p bp id t r ->
  let '(c, d) := after_reply t r (cfg (net_of m)) (dh m) in
  exists p', vendor_options p bp m = (p', put_net (set_cfg c (net_of m)) d m) /\ same_but_file bp p p' /\
    file_field p' bp = r_file r ++ replicate (128 - length (r_file r)) 0 /\ BootpID d = BootpID (dh m) /\ dhcp_state d = dhcp_state (dh m).
Proof.
  intros Hc. destruct (carried_fields _ _ _ _ _ Hc) as (_ & _ & _ & _ & _ & _ & Hff & Hm & _).
  pose proof (carried_options _ _ _ _ _ Hc (cfg (net_of m)) (dh m)) as Ho. destruct Hc as (Hp & _ & _ & _ & _ & (_ & _ & _ & _ & Hne & _ & Hf & _) & _).
  pose proof (options_loop_safe (bp + bp_vend + 4 + BOOTP_HDR_SIZE) bp (Z.to_nat BOOTP_HDR_SIZE) p (bp + bp_vend + 4) (cfg (net_of m)) (dh m) Hp) as Hs.
  unfold after_reply, vendor_options. rewrite Hm, Z.eqb_refl. unfold DhcpOptionsProcess in *.
  destruct (options_loop _ _ _ _ _ _ _) as [[p' c'] d']. rewrite Hff in Ho. rewrite <- Ho. exists p'. destruct Hs as (_ & Hsame & _ & _ & _ & _ & _ & _ & _ & _ & Hid & _ & Hst).
  split_and!; try done. assert (Hk : nthZ (r_file r ++ replicate (128 - length (r_file r)) 0) 0 <> 0).
  { destruct (r_file r) as [|x l]; [done |]. apply Forall_cons in Hf as [[Hx _] _]. exact Hx. }
  pose proof (options_keep_file (reply_options t r) _ (cfg (net_of m)) (dh m) Hk) as Hkeep. rewrite <- Ho in Hkeep. exact Hkeep.
Qed.

(** The ACK's parameters are taken over; the boot file becomes a variable. *)
Lemma copy_params_carried p p' bp id t r m es : carries p bp id t r -> same_but_file bp p p' ->
  file_field p' bp = r_file r ++ replicate (128 - length (r_file r)) 0 ->
  env_is (me m) es -> size_of es + len (r_file r) + 11 <= ENV_SIZE ->
  exists e v, BootpCopyNetParams console_assign p' bp m = Some (put_env e v (put_net
      (set_mac ServerEther (load p' 6 6) (set_cfg (set_addrs (r_yi r) (if truth (r_si r) then r_si r else NetServerIP (cfg (net_of m))) (cfg (net_of m))) (net_of m))) (dh m) m)) /\
    BootFile console v = r_file r /\ env_is e (env_update (str "bootfile") (r_file r) es).
Proof.
  intros Hc Hs Hff He Hroom. destruct (carried_fields _ _ _ _ _ Hc) as (_ & _ & _ & _ & Hyi & Hsi & _).
  destruct Hc as (_ & _ & _ & _ & _ & (_ & _ & _ & _ & Hne & Hlen & Hf & _) & _).
  assert (Hg : forall o, 0 <= o -> o + 4 <= bp_file -> get32 p' (bp + o) = get32 p (bp + o)).
  { intros o Ho Ho'. unfold get32. f_equal. apply load_ext. intros i Hi. apply Hs. left. lia. }
  assert (Hcp : copied_params p' bp m = put_env (me m) (set_BootFile (r_file r) (mv m)) (put_net
    (set_mac ServerEther (load p' 6 6) (set_cfg (set_addrs (r_yi r) (if truth (r_si r) then r_si r else NetServerIP (cfg (net_of m))) (cfg (net_of m))) (net_of m))) (dh m) m)).
  { unfold copied_params. fold (file_field p' bp). rewrite Hff, padded_string, copy_filename_id by done.
    rewrite !Hg, Hyi, Hsi by (unfold bp_yiaddr, bp_siaddr, bp_file; lia). by destruct (r_file r). }
  unfold BootpCopyNetParams. rewrite Hcp. cbn [mv put_env BootFile set_BootFile].
  destruct (setenv_update console_assign (str "bootfile") (r_file r) (me m) (set_BootFile (r_file r) (mv m)) es) as (e & E & Hee).
  { exact He. } { by apply str_good. } { eapply Forall_impl; [exact Hf | by intros c []]. } { by split. } { change (len (str "bootfile")) with 8. lia. }
  exists e, (setenv_updates console (str "bootfile") (r_file r) (counted (set_BootFile (r_file r) (mv m)))).
  split; [| split; [by apply copy_filename_id | done]].
  destruct (r_file r) as [|x l] eqn:Ef; [done |]. unfold m_setenv. cbn [me put_env mv put_net]. rewrite E. done.
Qed.
End binding.

(** C27: the DHCP exchange: after the DISCOVER, an offer and an ACK with its
    transaction number bind the client.  The offer is answered by one
    broadcast that requests the offered address from the server the offer
    names; the ACK sets our address, the server's if the packet has one, the
    parameters of its options, and the boot file with its variable; then the
    file is fetched by TFTP, as the variable [autoload] is not set.  The
    frames around the replies, the times and the other fields are any. *)
Theorem dhcp_binds {console} (console_assign : Z -> list Z -> console -> Z * console)
    (m : machine console) now1 now2 now3 offer ack p1 bp1 len1 p2 bp2 len2 es :
  let m1 := DhcpRequest now1 m in
  let id := BootpID (dh m1) in
  carries p1 bp1 id DHCP_OFFER offer -> carries p2 bp2 id DHCP_ACK ack ->
  BOOTP_HDR_SIZE - OPT_SIZE <= len1 -> BOOTP_HDR_SIZE - OPT_SIZE <= len2 ->
  env_is (me m) es -> env_lookup (str "autoload") es = None -> size_of es + len (r_file ack) + 11 <= ENV_SIZE ->
  let '(c1, d1) := after_reply DHCP_OFFER offer (cfg (net_of m)) (set_dhcp_state REQUESTING (dh m1)) in
  let '(c2, d2) := after_reply DHCP_ACK ack c1 d1 in
  exists m2 m3,
    DhcpHandler console_assign now2 p1 bp1 PORT_BOOTPC PORT_BOOTPS len1 m1 = Some m2 /\
    sent (net_of m2) = sent (net_of m1) ++ [bootp_frame c1 (NetIPID (net_of m1)) id (now2 / 1000) []
      (DhcpExtended DHCP_REQUEST (NetDHCPServerIP d1) (r_yi offer))] /\
    DhcpHandler console_assign now3 p2 bp2 PORT_BOOTPC PORT_BOOTPS len2 m2 = Some (start_tftp now3 m3) /\
    dh m3 = set_dhcp_state BOUND d2 /\
    cfg (net_of m3) = set_addrs (r_yi ack) (if truth (r_si ack) then r_si ack else NetServerIP c2) c2 /\
    BootFile console (mv m3) = r_file ack /\ env_is (me m3) (env_update (str "bootfile") (r_file ack) es).
Proof.
  intros m1 id Hc1 Hc2 Hl1 Hl2 He Ha Hroom.
  set (m1' := put_net (net_of m1) (set_dhcp_state REQUESTING (dh m1)) m1).
  pose proof (vendor_options_carried p1 bp1 id DHCP_OFFER offer m1' Hc1) as H1. change (cfg (net_of m1')) with (cfg (net_of m)) in H1.
  change (dh m1') with (set_dhcp_state REQUESTING (dh m1)) in H1.
  destruct (after_reply DHCP_OFFER offer (cfg (net_of m)) _) as [c1 d1]. destruct H1 as (p1' & E1 & Hs1 & _ & Hid1 & Hst1).
  set (m2 := put_net (DhcpSendRequestPkt now2 p1' bp1 (NetSetTimeout now2 BOOTP_TIMEOUT BootpTimeout_f (set_cfg c1 (net_of m1'))) d1) d1 m1').
  pose proof (vendor_options_carried p2 bp2 id DHCP_ACK ack m2 Hc2) as H2. change (cfg (net_of m2)) with c1 in H2. change (dh m2) with d1 in H2.
  destruct (after_reply DHCP_ACK ack c1 d1) as [c2 d2]. destruct H2 as (p2' & E2 & Hs2 & Hff2 & _ & _).
  destruct (copy_params_carried console_assign p2 p2' bp2 id DHCP_ACK ack (put_net (set_cfg c2 (net_of m2)) d2 m2) es Hc2 Hs2 Hff2 He Hroom) as (e & v & E3 & Hv & Hee).
  match type of E3 with _ = Some ?x => exists m2, (put_net (net_of x) (set_dhcp_state BOUND (dh x)) x) end.
  assert (Hget : get32 p1' (bp1 + bp_id) = id /\ get32 p1' (bp1 + bp_yiaddr) = r_yi offer).
  { destruct (carried_fields _ _ _ _ _ Hc1) as (_ & _ & _ & G1 & G2 & _). rewrite <- G1, <- G2. unfold get32.
    split; f_equal; apply load_ext; intros i Hi; apply Hs1; left; unfold bp_id, bp_yiaddr, bp_file; lia. }
  destruct Hget as [G1 G2]. split_and!; try done.
  - unfold DhcpHandler. rewrite (carried_accepted _ _ _ _ _ Hc1 len1 (dh m1) Hl1 eq_refl). cbn [truth negb Z.eqb].
    change (dhcp_state (dh m1)) with SELECTING. cbv iota. fold m1'. rewrite E1. reflexivity.
  - rewrite <- G1, <- G2. reflexivity.
  - unfold DhcpHandler. rewrite (carried_accepted _ _ _ _ _ Hc2 len2 (dh m2) Hl2 Hid1). cbn [truth negb Z.eqb].
    change (dhcp_state (dh m2)) with (dhcp_state d1). rewrite Hst1. cbn [dhcp_state set_dhcp_state set_dhcp].
    rewrite (carried_type _ _ _ _ _ Hc2). cbn [mbind option_bind]. rewrite Z.eqb_refl. cbv iota. rewrite E2, E3. cbn [mbind option_bind].
    unfold autoload. cbn [me put_net put_env]. rewrite (getenv_str_lookup e _ (str "autoload") Hee) by (by apply str_good).
    destruct He as (_ & _ & Hnd). rewrite env_update_lookup by done. rewrite decide_False by done. rewrite Ha. reflexivity.
Qed.

(** ** A silent server *)

Lemma bootp_timeouts {console} (times : list Z) : forall (m : machine console), BootpTry (dh m) + len times <= BOOTP_TIMEOUT_COUNT ->
  let m' := fold_left (fun m now => m_BootpTimeout now (on_stack (NetSetTimeout now 0 BootpTimeout_f) m)) times m in
  BootpTry (dh m') = BootpTry (dh m) + len times /\ length (sent (net_of m')) = (length (sent (net_of m)) + length times)%nat /\ cfg (net_of m') = cfg (net_of m).
Proof.
  induction times as [|t times IH]; intros m Ht; cbn [fold_left]; [cbn; split_and!; lia || done |]. cbn [length] in Ht.
  set (m1 := m_BootpTimeout t _).
  assert (E : m1 = m_BootpRequest t (on_stack (NetSetTimeout t BOOTP_TIMEOUT BootpTimeout_f) (on_stack (NetSetTimeout t 0 BootpTimeout_f) m))).
  { unfold m1, m_BootpTimeout, BootpTimeout. cbn [dh on_stack put_net]. by rewrite (proj2 (Z.leb_gt _ _)) by lia. }
  assert (H1 : BootpTry (dh m1) = BootpTry (dh m) + 1) by (by rewrite E).
  assert (H2 : length (sent (net_of m1)) = S (length (sent (net_of m)))) by (rewrite E; cbn; rewrite length_app; cbn; lia).
  assert (H3 : cfg (net_of m1) = cfg (net_of m)) by (by rewrite E). clearbody m1. clear E.
  destruct (IH m1 ltac:(lia)) as (I1 & I2 & I3). cbn [length]. rewrite I1, I2, I3. split_and!; [lia | lia | done].
Qed.

(** A DHCP server that does not answer: four timeouts send four more
    requests, five in all; the next one starts the command again, or ends it
    when the variable [netretry] is "no". *)
Theorem dhcp_silent_server {console} now (times : list Z) now' (m : machine console) : BootpTry (dh m) = 0 -> length times = 4%nat ->
  let expired m now := m_BootpTimeout now (on_stack (NetSetTimeout now 0 BootpTimeout_f) m) in
  let m' := fold_left expired times (DhcpRequest now m) in
  length (sent (net_of m')) = (length (sent (net_of m)) + 5)%nat /\
  sent (net_of (expired m' now')) = sent (net_of m') /\
  if bool_decide (netretry (cfg (net_of m)) = Some (str "no"))
  then NetState (net_of (expired m' now')) = NETLOOP_FAIL
  else packetHandler (net_of (expired m' now')) = startAgainHandler_f /\ timeHandler (tmr (net_of (expired m' now'))) = Some startAgainTimeout_f.
Proof.
  intros Ht Hl expired m'. destruct (bootp_timeouts times (DhcpRequest now m)) as (H1 & H2 & H3).
  { cbn. rewrite Ht, Hl. unfold BOOTP_TIMEOUT_COUNT. lia. }
  fold expired in H1, H2, H3. fold m' in H1, H2, H3. change (BootpTry (dh (DhcpRequest now m))) with (BootpTry (dh m) + 1) in H1. rewrite Ht, Hl in H1.
  assert (Hs : length (sent (net_of (DhcpRequest now m))) = S (length (sent (net_of m)))) by (cbn; rewrite length_app; cbn; lia).
  split; [rewrite H2, Hs, Hl; lia |].
  assert (E : expired m' now' = on_stack (NetStartAgain now') (on_stack (NetSetTimeout now' 0 BootpTimeout_f) m')).
  { unfold expired, m_BootpTimeout, BootpTimeout. cbn [dh on_stack put_net]. rewrite H1. reflexivity. }
  rewrite E. change (cfg (net_of m)) with (cfg (net_of (DhcpRequest now m))). rewrite <- H3. unfold NetStartAgain. cbn. by destruct (bool_decide _).
Qed.

(** ** Concrete exchanges *)

Definition idle_dhcp : dhcp := mk_dhcp 0 0 INIT 0 0 0 (replicate 32 0) (replicate 64 0).
Definition idle_tftp : tftp := mk_tftp 0 0 0 0 0 0 0 0 0 0 0 0 [].
Definition demo_machine : machine unit := mk_machine (mk_sys server_net idle_tftp (fun _ => 0)) idle_nfs idle_dhcp 0 demo_store demo_vars 0.

Definition demo_reply : reply :=
  mk_reply 0xC0A80207 0xC0A80264 (str "boot.img")
    [(1, [255; 255; 255; 0]); (3, [192; 168; 2; 1]); (54, [192; 168; 2; 100]); (12, str "board"); (51, [0; 0; 14; 16])]
    (replicate 8 0) (replicate 84 0).
Definition demo_reply_frame (t : Z) : mem := store_list (fun _ => 7) 42 (reply_bytes (BootpID (dh (DhcpRequest 1234 demo_machine))) t demo_reply).

Lemma demo_reply_wf : Forall wf_opt (r_opts demo_reply).
Proof.
  assert (H : forall o, (0 <? fst o) && (fst o <? 255) && bool_decide (Forall byte (snd o)) && (len (snd o) <? 256) && (4 <=? len (snd o)) = true -> wf_opt o).
  { intros o Ho. rewrite !andb_true_iff in Ho. destruct Ho as [[[[H1 H2] H3%bool_decide_eq_true_1] H4] H5].
    apply Z.ltb_lt in H1, H2, H4. apply Z.leb_le in H5. split; [lia |]. split; [lia |]. by split. }
  repeat (apply Forall_cons; split; [apply H; vm_compute; reflexivity |]). apply Forall_nil. done.
Qed.

Lemma demo_carries t : byte t -> carries (demo_reply_frame t) 42 (BootpID (dh (DhcpRequest 1234 demo_machine))) t demo_reply.
Proof.
  intros Ht. split_and!; try done; try lia; try apply Ht; try (vm_compute; intuition discriminate).
  - apply store_list_byte_mem; [by intros a |]. unfold reply_bytes, reply_options. repeat (apply Forall_app_2 || apply be_bytes_bytes).
    all: try bytes_eval. cbn. repeat (apply Forall_cons; split; [done |]). by apply Forall_nil.
  - split; [by vm_compute |]. split; [by vm_compute |]. split_and!; try done; [by_eval | apply demo_reply_wf].
Qed.

Lemma dhcp_options_safe_witness : names_ok (DhcpOptionsProcess (fun _ => 12) 0 (-1000) (cfg server_net) idle_dhcp).2.
Proof.
  assert (Hn : names_ok idle_dhcp) by (split; split; try done; by_eval).
  destruct (dhcp_options_safe (fun _ => 12) 0 (-1000) (cfg server_net) idle_dhcp) as [_ H]; [by intros a | exact Hn |].
  destruct (DhcpOptionsProcess (fun _ => 12) 0 (-1000) (cfg server_net) idle_dhcp) as [[p' c'] d']. apply H.
Defined.

Lemma dhcp_options_refine_witness : exists p' c' d',
  DhcpOptionsProcess (store_list (fun _ => 7) 282 (concat (map enc (r_opts demo_reply)) ++ [255])) 282 42 (cfg server_net) idle_dhcp = (p', c', d') /\
  NetOurSubnetMask c' = 0xFFFFFF00 /\ NetDHCPServerIP d' = 0xC0A80264.
Proof.
  pose proof (dhcp_options_refine (r_opts demo_reply) (store_list (fun _ => 7) 282 (concat (map enc (r_opts demo_reply)) ++ [255])) 282 42 (cfg server_net) idle_dhcp) as H.
  destruct (DhcpOptionsProcess _ _ _ _ _) as [[p' c'] d']. exists p', c', d'. split; [reflexivity |].
  assert (E := H ltac:(apply store_list_byte_mem; [by intros a | bytes_eval]) demo_reply_wf ltac:(unfold bp_vend; lia) (load_store_list _ _ _) ltac:(vm_compute; reflexivity)).
  apply (f_equal (fun x => (NetOurSubnetMask x.1.2, NetDHCPServerIP x.2))) in E. cbn [fst snd] in E. injection E as -> ->. split; vm_compute; reflexivity.
Defined.

Definition demo_request : mem := store_list (fun _ => 0) (42 + bp_vend) (DhcpExtended DHCP_REQUEST 0xC0A80264 0xC0A80207).

Lemma dhcp_request_understood_witness : DhcpMessageType demo_request (42 + bp_vend) = Some DHCP_REQUEST.
Proof.
  destruct (dhcp_request_understood DHCP_REQUEST 0xC0A80264 0xC0A80207 demo_request 42 (cfg server_net) idle_dhcp) as [H _].
  - apply store_list_byte_mem; [by intros a | bytes_eval].
  - done.
  - lia.
  - lia.
  - unfold BOOTP_HDR_SIZE, PKTSIZE_ALIGN. lia.
  - apply load_store_list.
  - exact H.
Defined.


Lemma dhcp_binds_witness : exists m2 m3,
  DhcpHandler (fun _ _ c => (0, c)) 1300 (demo_reply_frame DHCP_OFFER) 42 PORT_BOOTPC PORT_BOOTPS 300 (DhcpRequest 1234 demo_machine) = Some m2 /\
  DhcpHandler (fun _ _ c => (0, c)) 1400 (demo_reply_frame DHCP_ACK) 42 PORT_BOOTPC PORT_BOOTPS 300 m2 = Some (start_tftp 1400 m3) /\
  dhcp_state (dh m3) = BOUND /\ NetOurIP (cfg (net_of m3)) = 0xC0A80207.
Proof.
  pose proof (dhcp_binds (fun _ _ c => (0, c)) demo_machine 1234 1300 1400 demo_reply demo_reply (demo_reply_frame DHCP_OFFER) 42 300
    (demo_reply_frame DHCP_ACK) 42 300 default_vars (demo_carries DHCP_OFFER ltac:(done)) (demo_carries DHCP_ACK ltac:(done))
    ltac:(done) ltac:(done)) as H.
  destruct (after_reply DHCP_OFFER _ _ _) as [c1 d1]. destruct (after_reply DHCP_ACK _ _ _) as [c2 d2].
  destruct H as (m2 & m3 & H1 & _ & H2 & H3 & H4 & _).
  - split_and!; [by split_and! | apply demo_array_holds | by_eval].
  - reflexivity.
  - vm_compute. discriminate.
  - exists m2, m3. rewrite H3, H4. by split_and!.
Defined.

Lemma dhcp_silent_server_witness : length (sent (net_of (fold_left (fun m now => m_BootpTimeout now (on_stack (NetSetTimeout now 0 BootpTimeout_f) m))
  [4000; 8000; 12000; 16000] (DhcpRequest 5 demo_machine)))) = 5%nat.
Proof. apply (dhcp_silent_server 5 [4000; 8000; 12000; 16000] 20000 demo_machine); reflexivity. Defined.

(** ** At the edges *)

(** A pad option (code 0), which has no length byte, is read as an option
    with one: the subnet mask after it is lost. *)
Lemma pad_option_misread :
  NetOurSubnetMask (DhcpOptionsProcess (store_list (fun _ => 0) 282 [0; 1; 4; 255; 255; 255; 0; 255]) 282 42 (cfg server_net) idle_dhcp).1.2 =
  NetOurSubnetMask (cfg server_net).
Proof. vm_compute. reflexivity. Qed.

(** The search for the message type is not bounded by the packet: without
    that option and an end mark it leaves the receive buffer. *)
Lemma unended_options_run_on : DhcpMessageType (store_list (fun _ => 0) 278 (be_bytes 4 BOOTP_VENDOR_MAGIC)) 278 = None.
Proof. vm_compute. reflexivity. Qed.

(** In a VLAN the Ethernet header has four bytes more than [BOOTP_SIZE]
    counts: the last four bytes of the request are not sent. *)
Lemma tagged_request_cut c ipid id secs file ext : NetOurVLAN c = 5 -> length (NetOurEther c) = 6%nat -> (length file <= 128)%nat ->
  bootp_frame c ipid id secs file ext =
  take (length (bootp_packet c id secs file ext) + 42)
    (NetSetEther c NetBcastAddr PROT_IP ++ NetSetIP c ipid 0xFFFFFFFF PORT_BOOTPS PORT_BOOTPC (len (bootp_packet c id secs file ext)) ++ bootp_packet c id secs file ext) /\
  length (NetSetEther c NetBcastAddr PROT_IP) = 18%nat.
Proof.
  intros Hv He Hf. assert (Hl : length (bootp_packet c id secs file ext) = (236 + length ext)%nat).
  { unfold bootp_packet. rewrite !length_app, !length_replicate, !be_bytes_length, He. cbn [length]. lia. }
  assert (Hs : length (NetSetEther c NetBcastAddr PROT_IP) = 18%nat).
  { unfold NetSetEther. rewrite Hv. cbn. rewrite length_app, He. done. }
  split; [| exact Hs]. unfold bootp_frame, BOOTP_SIZE, BOOTP_HDR_SIZE, OPT_SIZE, ETHER_HDR_SIZE, IP_HDR_SIZE. rewrite Hl.
  replace (548 - 312 + len ext) with (Z.of_nat (236 + length ext)) by lia.
  replace (Z.to_nat (14 + 28 + 548 - 312 + len ext)) with (236 + length ext + 42)%nat by lia.
  rewrite !app_assoc. rewrite take_app_le; [done |]. rewrite !length_app, Hs, Hl. change (length (NetSetIP _ _ _ _ _ _)) with 28%nat. lia.
Qed.
