(* ===== verification/NetLoop.v ===== *)
(** * The network loop and the boot commands: net/net.c, net/rarp.c,
    common/cmd_net.c

    [NetLoop] with every client that is configured: TFTP and ping from
    [Tftp], NFS, DHCP and RARP.  One turn takes the frames the driver hands
    over, whether ctrl-C was pressed, and the time; it ends the command, goes
    back to the label [restart], or goes on.  [NetInitLoop] reads the
    addresses from the environment, [netboot_update_env] writes back what a
    boot protocol has learnt.

    [None] has the meaning it has in the clients.  [stack] is what the NFS
    client's reply buffer holds.  The call of [do_bootm] for the variable
    [autostart] is the result [Boots].

    The theorems: what a boot protocol has learnt is what the next command
    reads from the environment; on TFTP the loop is the loop of [Tftp]; a
    server that stops answering leaves the NFS client waiting for ever, and
    any datagram is taken for the answer of a RARP server. *)

From S2P Require Import Prelude Memory Ctype Strings Vsprintf Env Net Tftp Nfs Bootp.

Local Open Scope Z_scope.

Definition RARPOP_REQUEST : Z := 3.
Definition RARP_TIMEOUT : Z := 5000.       (* TIMEOUT *)
Definition RARP_TIMEOUT_COUNT : Z := 5.    (* TIMEOUT_COUNT *)

Section loop.
Context {console : Type} (console_assign : Z -> list Z -> console -> Z * console).
Implicit Types (m : machine console).

(** ** RARP *)

Definition rarp_frame (c : net_cfg) : list Z :=
  NetSetEther c NetBcastAddr PROT_RARP ++ be_bytes 2 ARP_ETHER ++ be_bytes 2 PROT_IP ++ [6; 4] ++ be_bytes 2 RARPOP_REQUEST ++
  NetOurEther c ++ be_bytes 4 (NetOurIP c) ++ NetOurEther c ++ [255; 255; 255; 255].

Definition set_RarpTry (v : Z) m : machine console := mk_machine (ts m) (nf m) (dh m) v (me m) (mv m) (env_changed_id m).

Definition RarpRequest (now : Z) m : machine console :=
  let m := set_RarpTry (RarpTry m + 1) m in
  on_stack (fun n => NetSetHandler RarpHandler_f (NetSetTimeout now RARP_TIMEOUT RarpTimeout_f (eth_send (rarp_frame (cfg n)) n))) m.

Definition RarpTimeout (now : Z) m : machine console :=
  if RARP_TIMEOUT_COUNT <=? RarpTry m then on_stack (NetStartAgain now) m
  else RarpRequest now (on_stack (NetSetTimeout now RARP_TIMEOUT RarpTimeout_f) m).

(** The arguments are not looked at. *)
Definition RarpHandler (now : Z) m : option (machine console) := autoload now m.

(** ** Handlers *)

Definition on_ts (f : sys -> sys) m : machine console :=
  mk_machine (f (ts m)) (nf m) (dh m) (RarpTry m) (me m) (mv m) (env_changed_id m).

Definition on_client (f : nsys -> option nsys) m : option (machine console) :=
  s ← f (mk_nsys (net_of m) (nf m) (ram (ts m)));
  Some (mk_machine (mk_sys (n_net s) (tf (ts m)) (n_ram s)) (n_nfs s) (dh m) (RarpTry m) (me m) (mv m) (env_changed_id m)).

(** [( *packetHandler)(...)]; a null packet is only meant for RARP. *)
Definition net_deliver (now : Z) (stack p : mem) (d : delivery) m : option (machine console) :=
  match packetHandler (net_of m), d_pkt d with
  | RarpHandler_f, _ => RarpHandler now m
  | NfsHandler_f, Some pkt => on_client (NfsHandler stack (load_addr console (mv m)) now p pkt (d_dest d) (d_src d) (d_len d)) m
  | DhcpHandler_f, Some pkt => DhcpHandler console_assign now p pkt (d_dest d) (d_src d) (d_len d) m
  | _, _ => Some (on_ts (deliver (load_addr console (mv m)) now p d) m)
  end.

Definition net_rx_frame (now : Z) (stack : mem) m (f : mem * Z) : option (machine console) :=
  let '(n, d) := NetReceive f.1 f.2 (net_of m) in
  let m := on_stack (fun _ => n) m in
  match d with Some d => net_deliver now stack f.1 d m | None => Some m end.

Fixpoint eth_rx (now : Z) (stack : mem) (frames : list (mem * Z)) m : option (machine console) :=
  match frames with
  | [] => Some m
  | f :: frames => m ← net_rx_frame now stack m f; eth_rx now stack frames m
  end.

Definition net_run_timeout (now : Z) (h : thand) m : option (machine console) :=
  match h with
  | NfsTimeout_f => on_client (NfsTimeout now) m
  | BootpTimeout_f => Some (m_BootpTimeout now m)
  | RarpTimeout_f => Some (RarpTimeout now m)
  | _ => Some (on_ts (run_timeout now h) m)
  end.

Definition net_check_timeout (now : Z) m : option (machine console) :=
  let r := tmr (net_of m) in
  match timeHandler r with
  | Some h =>
      if timeDelta r <? u32 (now - timeStart r) then net_run_timeout now h (on_stack (NetSetTimeout now 0 h) m) else Some m
  | None => Some m
  end.

Inductive outcome := Goes | Restarts | Returns (code : Z).

(** [sprintf (buf, "%lX", v); setenv (name, buf);] *)
Definition setenv_hex (name : list Z) (v : Z) m : option (machine console) := m_setenv console_assign name (text (str "%lX") [VWord v]) m.

Definition net_turn (frames : list (mem * Z)) (ctrlc : bool) (now : Z) (stack : mem) m : option (machine console * outcome) :=
  m ← eth_rx now stack frames m;
  if ctrlc then Some (on_stack eth_halt m, Returns (-1))
  else
    m ← net_check_timeout now (on_stack (ArpTimeoutCheck now) m);
    let st := NetState (net_of m) in
    if st =? NETLOOP_RESTART then Some (m, Restarts)
    else if st =? NETLOOP_SUCCESS then
      let size := NetBootFileXferSize (net_of m) in
      m ← (if 0 <? size then m ← setenv_hex (str "filesize") size m; setenv_hex (str "fileaddr") (load_addr console (mv m)) m
           else Some m);
      Some (on_stack eth_halt m, Returns (s32 size))
    else if st =? NETLOOP_FAIL then Some (m, Returns (-1))
    else Some (m, Goes).

(** ** Starting *)

Definition getenv_IPaddr (e : env_store) (name : list Z) : option Z := s ← getenv_str e name; Some (string_to_ip s).
Definition getenv_VLAN (e : env_store) (name : list Z) : option Z := s ← getenv_str e name; Some (string_to_VLAN s).

Definition set_vlans (vlan nvlan : Z) (c : net_cfg) : net_cfg :=
  mk_cfg (NetOurIP c) (NetServerIP c) (NetOurGatewayIP c) (NetOurSubnetMask c) vlan nvlan (NetPingIP c) (NetOurEther c) (netretry c).

(** The configuration a protocol starts with. *)
Definition init_cfg (protocol : proto_t) (e : env_store) (v : env_vars console) (c : net_cfg) : option net_cfg :=
  match protocol with
  | NFS | PING | NETCONS | TFTP =>
      gw ← getenv_IPaddr e (str "gatewayip");
      mask ← getenv_IPaddr e (str "netmask");
      vlan ← getenv_VLAN e (str "vlan");
      nvlan ← getenv_VLAN e (str "nvlan");
      server ← (match protocol with PING => Some (NetServerIP c) | _ => getenv_IPaddr e (str "serverip") end);
      Some (set_vlans vlan nvlan (set_masks gw mask (set_addrs (bi_ip_addr console v) server c)))
  | BOOTP | RARP =>
      server ← getenv_IPaddr e (str "serverip");
      vlan ← getenv_VLAN e (str "vlan");
      nvlan ← getenv_VLAN e (str "nvlan");
      Some (set_vlans vlan nvlan (set_addrs 0 server c))
  | CDP =>
      vlan ← getenv_VLAN e (str "vlan");
      nvlan ← getenv_VLAN e (str "nvlan");
      Some (set_vlans vlan nvlan c)
  | _ => Some c
  end.

(** Only when the environment has changed since the last time. *)
Definition NetInitLoop (protocol : proto_t) m : option (machine console) :=
  if env_changed_id m =? env_id console (mv m) then Some m
  else
    c ← init_cfg protocol (me m) (mv m) (cfg (net_of m));
    let m := on_stack (set_cfg c) m in
    Some (mk_machine (ts m) (nf m) (dh m) (RarpTry m) (me m) (mv m) (env_id console (mv m))).

Definition set_ether (a : list Z) (c : net_cfg) : net_cfg :=
  mk_cfg (NetOurIP c) (NetServerIP c) (NetOurGatewayIP c) (NetOurSubnetMask c) (NetOurVLAN c) (NetOurNativeVLAN c) (NetPingIP c) a (netretry c).

(** The start function of the protocol. *)
Definition start_protocol (protocol : proto_t) (now : Z) m : option (machine console) :=
  match protocol with
  | TFTP => Some (start_tftp now m)
  | DHCP =>
      server ← getenv_IPaddr (me m) (str "serverip");
      let m := put_net (set_cfg (set_addrs 0 server (cfg (net_of m))) (net_of m)) (set_dhcp (BootpID (dh m)) 0 (dhcp_state (dh m)) (dh m)) m in
      Some (DhcpRequest now m)
  | BOOTP => Some (m_BootpRequest now (put_net (net_of m) (set_dhcp (BootpID (dh m)) 0 (dhcp_state (dh m)) (dh m)) m))
  | RARP => Some (RarpRequest now (set_RarpTry 0 m))
  | PING => Some (on_stack (PingStart now) m)
  | NFS => start_nfs now m
  | _ => Some m
  end.

(** From the label [restart] to the loop. *)
Definition net_restart (protocol : proto_t) (now : Z) m : option (machine console * outcome) :=
  let m := on_stack (fun n => set_NetState NETLOOP_CONTINUE (set_cfg (set_ether (bi_enetaddr console (mv m)) (cfg n)) n)) m in
  m ← NetInitLoop protocol m;
  if truth (net_check_prereq protocol (cfg (net_of m))) then Some (on_stack eth_halt m, Returns (-1))
  else m ← start_protocol protocol now m; Some (on_stack (set_xfer 0) m, Goes).

(** The entry: no packet waits for ARP, and the device is on. *)
Definition net_enter (n : net) : net :=
  let n := set_arp (mk_arp 0 0 None [] (WaitTimerStart (arp n)) (WaitTry (arp n))) n in
  mk_net (cfg n) (arp n) (NetServerEther n) (ping_mac n) (NetIPID n) (PingSeqNo n) (packetHandler n) (tmr n)
    (NetState n) (NetBootFileXferSize n) (sent n) true.

(** What one turn sees. *)
Record tick := mk_tick { k_frames : list (mem * Z); k_ctrlc : bool; k_now : Z; k_stack : mem }.

(** The loop on the turns given; the result is the code, or none when the
    turns are used up first. *)
Fixpoint net_run (protocol : proto_t) (ticks : list tick) m : option (machine console * option Z) :=
  match ticks with
  | [] => Some (m, None)
  | k :: ticks =>
      r ← net_turn (k_frames k) (k_ctrlc k) (k_now k) (k_stack k) m;
      match r with
      | (m, Goes) => net_run protocol ticks m
      | (m, Returns code) => Some (m, Some code)
      | (m, Restarts) =>
          r ← net_restart protocol (k_now k) m;
          match r with
          | (m, Returns code) => Some (m, Some code)
          | (m, _) => net_run protocol ticks m
          end
      end
  end.

(** [eth_init] fails when [up] is false. *)
Definition NetLoop (protocol : proto_t) (up : bool) (now : Z) (ticks : list tick) m : option (machine console * option Z) :=
  let m := on_stack net_enter m in
  if negb up then Some (on_stack eth_halt m, Some (-1))
  else
    r ← net_restart protocol now m;
    match r with
    | (m, Returns code) => Some (m, Some code)
    | (m, _) => net_run protocol ticks m
    end.

(** ** The commands *)

(** The characters of a C string in an array. *)
Definition c_string (l : list Z) : list Z := take_while (fun c => negb (c =? 0)) l.

Definition ip_text (x : Z) : list Z := match ip_to_string x with Some l => c_string l | None => [] end.

Definition setenv_if (b : bool) (name val : list Z) m : option (machine console) := if b then m_setenv console_assign name val m else Some m.

Definition setenv_ip (name : list Z) (x : Z) m : option (machine console) := setenv_if (truth x) name (ip_text x) m.

(** ([NetOurNISDomain] is never written in this configuration.) *)
Definition netboot_update_env m : option (machine console) :=
  m ← setenv_ip (str "gatewayip") (NetOurGatewayIP (cfg (net_of m))) m;
  m ← setenv_ip (str "netmask") (NetOurSubnetMask (cfg (net_of m))) m;
  m ← setenv_if (truth (nthZ (NetOurHostName (dh m)) 0)) (str "hostname") (c_string (NetOurHostName (dh m))) m;
  m ← setenv_if (truth (nthZ (NetOurRootPath (dh m)) 0)) (str "rootpath") (c_string (NetOurRootPath (dh m))) m;
  m ← setenv_ip (str "ipaddr") (NetOurIP (cfg (net_of m))) m;
  m ← setenv_ip (str "serverip") (NetServerIP (cfg (net_of m))) m;
  setenv_ip (str "dnsip") (NetOurDNSIP (dh m)) m.

Definition set_load_addr (a : Z) (v : env_vars console) : env_vars console :=
  mk_vars console (env_id console v) (bi_enetaddr console v) (bi_ip_addr console v) a (BootFile console v)
    (baudrate console v) (brg console v) (Env.input console v) (cons console v).

(** The arguments after the command's name: the load address, the boot file,
    or both; [None] is the usage message. *)
Definition netboot_args (args : list (list Z)) (v : env_vars console) : option (env_vars console) :=
  match args with
  | [] => Some v
  | [a] =>
      let '(addr, rest) := simple_strtoul a 16 in
      Some (match rest with [] => set_load_addr addr v | _ => set_BootFile (copy_filename a 128) v end)
  | [a; f] => Some (set_BootFile (copy_filename f 128) (set_load_addr (simple_strtoul a 16).1 v))
  | _ => None
  end.

(** The command returns, waits for more turns, or calls [do_bootm]. *)
Inductive result := Done (rcode : Z) | Waiting | Boots.

Definition netboot_common (proto : proto_t) (args : list (list Z)) (up : bool) (now : Z) (ticks : list tick) m : option (machine console * result) :=
  s ← getenv_str (me m) (str "loadaddr");
  let v := match s with Some s => set_load_addr (simple_strtoul s 16).1 (mv m) | None => mv m end in
  match netboot_args args v with
  | None => Some (put_env (me m) v m, Done 1)
  | Some v =>
      '(m, r) ← NetLoop proto up now ticks (put_env (me m) v m);
      match r with
      | None => Some (m, Waiting)
      | Some size =>
          if size <? 0 then Some (m, Done 1)
          else
            m ← netboot_update_env m;
            if size =? 0 then Some (m, Done 0)
            else
              s ← getenv_str (me m) (str "autostart");
              Some (m, if bool_decide (s = Some (str "yes")) then Boots else Done 0)
      end
  end.

Definition do_bootp := netboot_common BOOTP.
Definition do_tftpb := netboot_common TFTP.
Definition do_rarpb := netboot_common RARP.
Definition do_dhcp := netboot_common DHCP.
Definition do_nfs := netboot_common NFS.

Definition set_ping (ip : Z) (c : net_cfg) : net_cfg :=
  mk_cfg (NetOurIP c) (NetServerIP c) (NetOurGatewayIP c) (NetOurSubnetMask c) (NetOurVLAN c) (NetOurNativeVLAN c) ip (NetOurEther c) (netretry c).

Definition do_ping (args : list (list Z)) (up : bool) (now : Z) (ticks : list tick) m : option (machine console * result) :=
  match args with
  | [] => Some (m, Done (-1))
  | a :: _ =>
      let ip := string_to_ip (Some a) in
      let m := on_stack (fun n => set_cfg (set_ping ip (cfg n)) n) m in
      if ip =? 0 then Some (m, Done (-1))
      else
        '(m, r) ← NetLoop PING up now ticks m;
        Some (m, match r with None => Waiting | Some code => Done (if code <? 0 then 1 else 0) end)
  end.
End loop.

(** ** Addresses through the environment *)

Lemma dec_text v : 0 <= v < 256 -> Forall (fun c => c <> 0) (dec v) /\ (length (dec v) <= 3)%nat.
Proof.
  intros Hv. assert (H : forallb (fun c => negb (c =? 0)) (dec v) && (length (dec v) <=? 3)%nat = true).
  { apply (byte_cases (fun v => forallb (fun c => negb (c =? 0)) (dec v) && (length (dec v) <=? 3)%nat)); [vm_compute; reflexivity | done]. }
  apply andb_true_iff in H as [H1 H2%Nat.leb_le]. split; [| done]. rewrite forallb_forall in H1. apply Forall_forall. intros c Hc.
  apply list_elem_of_In, H1, negb_true_iff, Z.eqb_neq in Hc. done.
Qed.

(** The two ways an address is read, in [setenv] and in [string_to_ip]. *)
Lemma read_dotted a b c d : 0 <= a < 256 -> 0 <= b < 256 -> 0 <= c < 256 -> 0 <= d < 256 ->
  addr_of_fields (read_fields 4 (dec a ++ 46 :: dec b ++ 46 :: dec c ++ 46 :: dec d) 10) =
  string_to_ip (Some (dec a ++ 46 :: dec b ++ 46 :: dec c ++ 46 :: dec d)).
Proof.
  intros Ha Hb Hc Hd. assert (H : forall v rest, 0 <= v < 256 -> simple_strtoul (dec v ++ 46 :: rest) 10 = (v, 46 :: rest))
    by (intros; by apply dec_reads_back).
  destruct (dec_reads_back d [] Hd) as [_ E]; [done |]. rewrite app_nil_r in E. unfold string_to_ip.
  assert (T : forall l, (if chr (46 :: l) =? 0 then 46 :: l else l) = l) by done.
  cbn [string_to_ip_loop read_fields]. do 3 (rewrite !H by done; cbn [tail]; rewrite T). rewrite E. reflexivity.
Qed.

Lemma c_string_app l : Forall (fun c => c <> 0) l -> c_string (l ++ [0]) = l.
Proof.
  unfold c_string. induction 1 as [|c l Hc _ IH]; [done |]. cbn [app take_while]. rewrite (proj2 (Z.eqb_neq _ _) Hc). cbn [negb]. by rewrite IH.
Qed.

Lemma c_string_good l : good_val (c_string l) /\ len (c_string l) <= len l.
Proof.
  unfold good_val, c_string. induction l as [|c l [IH1 IH2]]; cbn [take_while length]; [by split |].
  destruct (Z.eqb_spec c 0); cbn [negb length]; [split; [done | lia] |]. split; [by constructor | lia].
Qed.

(** The text of an address reads back. *)
Lemma ip_text_spec x : 0 <= x < 2 ^ 32 ->
  string_to_ip (Some (ip_text x)) = x /\ addr_of_fields (read_fields 4 (ip_text x) 10) = x /\ good_val (ip_text x) /\ len (ip_text x) <= 15.
Proof.
  intros Hx. destruct (ip_string_roundtrip x Hx) as (s & E & Hs). pose proof (ip_to_string_eq x) as E2. rewrite E in E2. apply (inj Some) in E2.
  assert (H : forall k, 0 <= k -> Forall (fun c => c <> 0) (dec (Z.land (Z.shiftr x k) 0xff)) /\ (length (dec (Z.land (Z.shiftr x k) 0xff)) <= 3)%nat)
    by (intros; by apply dec_text, octet).
  destruct (H 24 ltac:(lia)) as [A1 A2]. destruct (H 16 ltac:(lia)) as [B1 B2]. destruct (H 8 ltac:(lia)) as [C1 C2]. destruct (H 0 ltac:(lia)) as [D1 D2].
  rewrite !app_assoc in E2. apply app_inv_tail in E2. rewrite <- !app_assoc in E2.
  assert (Hf : Forall (fun c => c <> 0) s) by (rewrite E2; repeat first [assumption | apply Forall_app_2 | apply Forall_cons_2; [done |]]; constructor).
  assert (Ht : ip_text x = s) by (unfold ip_text; by rewrite E, c_string_app). rewrite Ht.
  split_and!; [done | | done | rewrite E2; rewrite !length_app; cbn [length]; lia].
  transitivity (string_to_ip (Some s)); [| done]. rewrite E2. apply read_dotted; by apply octet.
Qed.

(** ** What a boot protocol has learnt *)

(** Assignments that may be made: whether, the name and the value. *)
Definition assignment : Type := bool * list Z * list Z.

Definition env_learn (items : list assignment) (es : list var) : list var :=
  fold_left (fun es (i : assignment) => let '(b, n, v) := i in if b then env_update n v es else es) items es.

(** The last value a name is given. *)
Fixpoint told (items : list assignment) (n : list Z) : option (list Z) :=
  match items with
  | [] => None
  | (b, k, v) :: items =>
      match told items n with Some u => Some u | None => if b && streq n k then Some v else None end
  end.

Definition item_size (i : assignment) : Z := len i.1.2 + len i.2 + 2.
Definition items_size (items : list assignment) : Z := foldr (fun i t => item_size i + t) 0 items.
Definition item_ok (i : assignment) : Prop := good_name i.1.2 /\ good_val i.2 /\ plain i.1.2.

(** How many are made. *)
Definition made (items : list assignment) : Z := foldr (fun i t => Z.b2z i.1.1 + t) 0 items.

Lemma items_size_nonneg items : 0 <= items_size items.
Proof.
  induction items as [|i items IH]; [done |]. change (items_size (i :: items)) with (item_size i + items_size items). unfold item_size. lia.
Qed.

Lemma env_is_NoDup w es : env_is w es -> NoDup es.*1.
Proof. by intros (_ & _ & H). Qed.

Section learning.
Context {console : Type} (console_assign : Z -> list Z -> console -> Z * console).
Implicit Types (m : machine console) (v : env_vars console).

Definition vars_learn (items : list assignment) v : env_vars console :=
  fold_left (fun v (i : assignment) => let '(b, n, x) := i in if b then setenv_updates console n x (counted v) else v) items v.

Fixpoint setenv_all (items : list assignment) m : option (machine console) :=
  match items with
  | [] => Some m
  | (b, n, x) :: items => m ← setenv_if console_assign b n x m; setenv_all items m
  end.

Lemma setenv_all_spec items : forall m es, env_is (me m) es -> Forall item_ok items -> size_of es + items_size items + 1 <= ENV_SIZE ->
  exists e, setenv_all items m = Some (put_env e (vars_learn items (mv m)) m) /\ env_is e (env_learn items es) /\
    forall n, env_lookup n (env_learn items es) = match told items n with Some v => Some v | None => env_lookup n es end.
Proof.
  induction items as [|[[b k] x] items IH]; intros m es He Hok Hroom.
  { exists (me m). split_and!; [| done | done]. by destruct m. }
  apply Forall_cons in Hok as [(Hn & Hv & Hp) Hok]. cbn [fst snd] in *. 
  change (items_size ((b, k, x) :: items)) with (len k + len x + 2 + items_size items) in Hroom. cbn [setenv_all told]. unfold env_learn, vars_learn. cbn [fold_left].
  fold (env_learn items (if b then env_update k x es else es)). fold (vars_learn items (if b then setenv_updates console k x (counted (mv m)) else mv m)).
  pose proof (items_size_nonneg items). unfold setenv_if. destruct b.
  - destruct (setenv_update console_assign k x (me m) (mv m) es) as (w & E & Hw); [done.. | lia |]. unfold m_setenv. rewrite E. cbn [mbind option_bind].
    pose proof (env_update_size k x es). destruct (IH (put_env w (setenv_updates console k x (counted (mv m))) m) (env_update k x es)) as (e & E2 & He2 & Hl); [done | done | lia |].
    exists e. split_and!; [exact E2 | done |]. intros n. rewrite Hl. destruct (told items n); [done |]. rewrite env_update_lookup by (by eapply env_is_NoDup).
    unfold streq. cbn [andb]. case_decide as Hd; [by rewrite bool_decide_true | by rewrite bool_decide_false].
  - cbn [mbind option_bind]. destruct (IH m es) as (e & E2 & He2 & Hl); [done | done | lia |]. exists e. split_and!; [done | done |]. intros n. rewrite Hl.
    by destruct (told items n).
Qed.

(** Each assignment counts. *)
Lemma vars_learn_id items : forall v, 0 <= env_id console v -> env_id console v + len items < 2 ^ 31 ->
  env_id console (vars_learn items v) = env_id console v + made items.
Proof.
  induction items as [|[[b k] x] items IH]; intros v H0 Hlt; [cbn; lia |]. unfold vars_learn. cbn [fold_left]. fold (vars_learn items (if b then setenv_updates console k x (counted v) else v)).
  cbn [length] in Hlt. change (made ((b, k, x) :: items)) with (Z.b2z b + made items). destruct b.
  - assert (E : env_id console (setenv_updates console k x (counted v)) = env_id console v + 1).
    { transitivity (env_id console (counted v)); [unfold setenv_updates; by repeat case_match |]. cbn [env_id counted]. wrap_lia. }
    rewrite IH by lia. cbn [Z.b2z]. lia.
  - rewrite IH by lia. done.
Qed.

(** The address of the board follows the variable [ipaddr]. *)
Lemma vars_learn_ip items : forall v,
  bi_ip_addr console (vars_learn items v) =
  match told items (str "ipaddr") with Some x => addr_of_fields (read_fields 4 x 10) | None => bi_ip_addr console v end.
Proof.
  induction items as [|[[b k] x] items IH]; intros v; [done |]. unfold vars_learn. cbn [fold_left]. fold (vars_learn items (if b then setenv_updates console k x (counted v) else v)).
  rewrite IH. cbn [told]. destruct (told items (str "ipaddr")); [done |]. destruct b; [| done]. cbn [andb].
  unfold setenv_updates, streq. destruct (decide (k = str "ipaddr")) as [->|Hne]; [reflexivity |].
  rewrite (bool_decide_false (str "ipaddr" = k)), (bool_decide_false (k = str "ipaddr")) by congruence. by repeat case_match.
Qed.

(** What [netboot_update_env] assigns. *)
Definition learnt m : list assignment :=
  let c := cfg (net_of m) in
  let ip name x := (truth x, name, ip_text x) in
  let s name l := (truth (nthZ l 0), name, c_string l) in
  [ip (str "gatewayip") (NetOurGatewayIP c); ip (str "netmask") (NetOurSubnetMask c); s (str "hostname") (NetOurHostName (dh m)); s (str "rootpath") (NetOurRootPath (dh m));
   ip (str "ipaddr") (NetOurIP c); ip (str "serverip") (NetServerIP c); ip (str "dnsip") (NetOurDNSIP (dh m))].

Lemma setenv_if_keeps b n x m m' : setenv_if console_assign b n x m = Some m' -> net_of m' = net_of m /\ dh m' = dh m.
Proof.
  unfold setenv_if, m_setenv. destruct b; [| by intros [= <-]]. destruct (setenv _ _ _ _ _) as [[[rc e] v]|]; [| done]. by intros [= <-].
Qed.

Lemma netboot_assigns m : netboot_update_env console_assign m = setenv_all (learnt m) m.
Proof.
  unfold netboot_update_env, learnt, setenv_ip. cbn [setenv_all].
  repeat lazymatch goal with
  | |- setenv_if ?f ?b ?n ?x ?a ≫= _ = _ =>
      let m1 := fresh "m" in let E := fresh "E" in let E1 := fresh "E" in let E2 := fresh "E" in
      destruct (setenv_if f b n x a) as [m1|] eqn:E; [| reflexivity]; cbn [mbind option_bind];
      destruct (setenv_if_keeps _ _ _ _ _ E) as [E1 E2];
      repeat match goal with H : net_of ?x = _ |- context [net_of ?x] => rewrite H | H : dh ?x = _ |- context [dh ?x] => rewrite H end
  end.
  lazymatch goal with |- ?x = _ => destruct x; reflexivity end.
Qed.

(** The addresses are words, the strings fit their arrays. *)
Definition learnt_ok m : Prop :=
  let c := cfg (net_of m) in
  Forall (fun x => 0 <= x < 2 ^ 32) [NetOurGatewayIP c; NetOurSubnetMask c; NetOurIP c; NetServerIP c; NetOurDNSIP (dh m)] /\
  len (NetOurHostName (dh m)) <= 32 /\ len (NetOurRootPath (dh m)) <= 64.

Lemma learnt_items m : learnt_ok m -> Forall item_ok (learnt m) /\ items_size (learnt m) <= 260.
Proof.
  intros (Hx & Hh & Hr). rewrite !Forall_cons in Hx. destruct Hx as (H1 & H2 & H3 & H4 & H5 & _).
  destruct (ip_text_spec _ H1) as (_ & _ & A1 & B1). destruct (ip_text_spec _ H2) as (_ & _ & A2 & B2). destruct (ip_text_spec _ H3) as (_ & _ & A3 & B3).
  destruct (ip_text_spec _ H4) as (_ & _ & A4 & B4). destruct (ip_text_spec _ H5) as (_ & _ & A5 & B5).
  destruct (c_string_good (NetOurHostName (dh m))) as [A6 B6]. destruct (c_string_good (NetOurRootPath (dh m))) as [A7 B7].
  unfold learnt. split.
  - repeat constructor; cbn [fst snd]; try done.
  - unfold items_size, item_size. cbn [foldr fst snd]. repeat match goal with |- context [len (str ?s)] => let n := eval vm_compute in (len (str s)) in change (len (str s)) with n end. lia.
Qed.

(** The names of [learnt] are distinct. *)
Lemma told_learnt m :
  let c := cfg (net_of m) in
  let ip x := if truth x then Some (ip_text x) else None in
  told (learnt m) (str "gatewayip") = ip (NetOurGatewayIP c) /\ told (learnt m) (str "netmask") = ip (NetOurSubnetMask c) /\
  told (learnt m) (str "ipaddr") = ip (NetOurIP c) /\ told (learnt m) (str "serverip") = ip (NetServerIP c) /\
  told (learnt m) (str "vlan") = None /\ told (learnt m) (str "nvlan") = None.
Proof.
  cbv zeta. unfold learnt. cbn [told].
  repeat match goal with |- context [streq (str ?a) (str ?b)] =>
    let r := eval vm_compute in (streq (str a) (str b)) in change (streq (str a) (str b)) with r end.
  rewrite ?andb_false_r, ?andb_true_r. split_and!; try reflexivity; lazymatch goal with |- _ = if ?b then _ else _ => destruct b; reflexivity end.
Qed.

Lemma getenv_IPaddr_lookup e es name : env_is e es -> good_name name -> getenv_IPaddr e name = Some (string_to_ip (env_lookup name es)).
Proof. intros He Hn. unfold getenv_IPaddr. by rewrite (getenv_str_lookup e es). Qed.

Lemma getenv_VLAN_lookup e es name : env_is e es -> good_name name -> getenv_VLAN e name = Some (string_to_VLAN (env_lookup name es)).
Proof. intros He Hn. unfold getenv_VLAN. by rewrite (getenv_str_lookup e es). Qed.

(** What [init_cfg] reads. *)
Lemma init_cfg_tftp e es v c : env_is e es ->
  init_cfg TFTP e v c = Some (set_vlans (string_to_VLAN (env_lookup (str "vlan") es)) (string_to_VLAN (env_lookup (str "nvlan") es))
    (set_masks (string_to_ip (env_lookup (str "gatewayip") es)) (string_to_ip (env_lookup (str "netmask") es))
      (set_addrs (bi_ip_addr console v) (string_to_ip (env_lookup (str "serverip") es)) c))).
Proof.
  intros He. unfold init_cfg. rewrite !(getenv_IPaddr_lookup e es) by (done || by apply str_good). cbn [mbind option_bind].
  rewrite !(getenv_VLAN_lookup e es) by (done || by apply str_good). reflexivity.
Qed.

(** An address the environment is told, or has. *)
Definition ip_or (x : Z) (name : list Z) (es : list var) : Z := if truth x then x else string_to_ip (env_lookup name es).

Lemma ip_told x name es : 0 <= x < 2 ^ 32 ->
  string_to_ip (match (if truth x then Some (ip_text x) else None) with Some v => Some v | None => env_lookup name es end) = ip_or x name es.
Proof. intros Hx. unfold ip_or. destruct (truth x); [by apply ip_text_spec | done]. Qed.


End learning.

(** ** The loop of [Tftp] *)

(** The handlers that [Tftp] knows. *)
Definition own_handler (h : rxhand) : Prop := h = TftpHandler_f \/ h = PingHandler_f \/ h = startAgainHandler_f.
Definition own_timer (h : option thand) : Prop :=
  h = None \/ h = Some TftpTimeout_f \/ h = Some PingTimeout_f \/ h = Some startAgainTimeout_f.
Definition own (n : net) : Prop := own_handler (packetHandler n) /\ own_timer (timeHandler (tmr n)).

Lemma own_session n n' : same_session n n' -> own n -> own n'.
Proof. intros (_ & E1 & E2 & _) [H1 H2]. split; [by rewrite E1 | by rewrite E2]. Qed.

Lemma own_StartAgain now n : own n -> own (NetStartAgain now n).
Proof. intros [H1 H2]. unfold NetStartAgain. destruct (bool_decide _); [by split | split; unfold own_handler, own_timer; cbn; tauto]. Qed.

Lemma own_SetTimeout now iv h n : own_timer (Some h) -> own n -> own (NetSetTimeout now iv h n).
Proof. intros Hh [H1 H2]. unfold NetSetTimeout. split; [by destruct (iv =? 0) |]. destruct (iv =? 0); [by left | exact Hh]. Qed.

Lemma own_Receive p len n : own n -> own (NetReceive p len n).1.
Proof.
  intros [H1 H2]. assert (E : packetHandler (NetReceive p len n).1 = packetHandler n /\ tmr (NetReceive p len n).1 = tmr n);
    [| destruct E as [E1 E2]; split; [by rewrite E1 | by rewrite E2]]. unfold NetReceive, receive_arp, arp_answer, arp_resolve, receive_rarp, receive_ip, receive_icmp, icmp_answer.
  repeat case_match; simplify_eq/=; by repeat split.
Qed.

Lemma own_ArpTimeoutCheck now n : own n -> own (ArpTimeoutCheck now n).
Proof.
  intros H. unfold ArpTimeoutCheck. destruct (_ =? 0); [done |]. destruct (_ <? _); [| done]. destruct (_ <=? _); [by apply own_StartAgain |].
  eapply own_session; [apply ArpRequest_session |]. exact H.
Qed.

Lemma own_TftpSend now s : own (nt s) -> own (nt (TftpSend now s)).
Proof. intros H. eapply own_session; [apply TftpSend_session | exact H]. Qed.

Lemma own_handle_data load_addr now p pkt src len s : own (nt s) -> own (nt (handle_data load_addr now p pkt src len s)).
Proof.
  intros H. unfold handle_data. destruct (_ <? _); [done |]. destruct (first_block _ _) as [t []]; [by apply own_StartAgain |].
  destruct (_ =? _); [done |]. cbv zeta.
  match goal with |- context [TftpSend now ?x] => assert (Hx : own (nt (TftpSend now x))) end.
  { apply own_TftpSend. assert (Hn : own (NetSetTimeout now TIMEOUT TftpTimeout_f (nt s))) by (apply own_SetTimeout; [right; by left | done]).
    cbn. case_match; exact Hn. }
  by destruct (_ <? _).
Qed.

Lemma own_deliver load_addr now p d s : own (nt s) -> own (nt (deliver load_addr now p d s)).
Proof.
  intros H. unfold deliver. destruct (packetHandler (nt s)); try done; destruct (d_pkt d) as [pkt|]; try done.
  - unfold TftpHandler. do 3 (destruct (_ : bool); [done |]). destruct (_ =? TFTP_OACK).
    { unfold handle_oack. destruct (oack_scan _ _ _ _); by apply own_TftpSend. }
    destruct (_ =? TFTP_DATA); [by apply own_handle_data |]. destruct (_ =? TFTP_ERROR); [by apply own_StartAgain | done].
  - cbn. unfold PingHandler. by destruct (negb _).
Qed.

Section tftp_loop.
Context {console : Type} (console_assign : Z -> list Z -> console -> Z * console).
Implicit Types (m : machine console).

Definition put_ts (s : sys) m : machine console := mk_machine s (nf m) (dh m) (RarpTry m) (me m) (mv m) (env_changed_id m).

Lemma rx_frame_own now stack m f : own (net_of m) ->
  own (nt (rx_frame (load_addr console (mv m)) now (ts m) f)) /\
  net_rx_frame console_assign now stack m f = Some (put_ts (rx_frame (load_addr console (mv m)) now (ts m) f) m).
Proof.
  intros H. pose proof (own_Receive f.1 f.2 (net_of m) H) as Hr. unfold net_rx_frame, rx_frame. unfold net_of in *.
  destruct (NetReceive f.1 f.2 (nt (ts m))) as [n [d|]]; [| by split]. cbn [fst] in Hr.
  set (s := mk_sys n (tf (ts m)) (ram (ts m))). split; [by apply own_deliver |].
  change (on_stack (fun _ => n) m) with (put_ts s m). unfold net_deliver. change (net_of (put_ts s m)) with n.
  destruct Hr as [[E | [E | E]] _]; rewrite E; by destruct (d_pkt d).
Qed.

Lemma eth_rx_own now stack frames : forall m, own (net_of m) ->
  own (nt (fold_left (rx_frame (load_addr console (mv m)) now) frames (ts m))) /\
  eth_rx console_assign now stack frames m = Some (put_ts (fold_left (rx_frame (load_addr console (mv m)) now) frames (ts m)) m).
Proof.
  induction frames as [|f frames IH]; intros m H; [split; [done |]; by destruct m |]. cbn [eth_rx fold_left].
  destruct (rx_frame_own now stack m f H) as [H1 ->]. cbn [mbind option_bind].
  destruct (IH (put_ts (rx_frame (load_addr console (mv m)) now (ts m) f) m) H1) as [H2 ->]. by split.
Qed.

Lemma check_timeout_own now m : own (net_of m) ->
  own (nt (check_timeout now (ts m))) /\ net_check_timeout now m = Some (put_ts (check_timeout now (ts m)) m).
Proof.
  intros H. unfold net_check_timeout, check_timeout, net_of in *. pose proof H as [_ Ht].
  destruct (timeHandler (tmr (nt (ts m)))) as [h|]; [| split; [done | by destruct m]].
  destruct (_ <? _); [| split; [done | by destruct m]]. assert (Ho : own (NetSetTimeout now 0 h (nt (ts m)))) by (by apply own_SetTimeout).
  destruct Ht as [[=] | [[= ->] | [[= ->] | [= ->]]]]; (split; [| reflexivity]).
  - cbn [run_timeout]. unfold TftpTimeout. destruct (_ <? _); [by apply own_StartAgain |]. apply own_TftpSend, own_SetTimeout; [right; by left | done].
  - exact Ho.
  - exact Ho.
Qed.

Lemma m_setenv_stack name val f m : m_setenv console_assign name val (on_stack f m) = on_stack f <$> m_setenv console_assign name val m.
Proof. unfold m_setenv. cbn [me mv on_stack put_net]. by destruct (setenv _ _ _ _ _) as [[[rc e] v]|]. Qed.

(** [setenv] leaves [load_addr] alone, except for the variable of that name. *)
Lemma m_setenv_load_addr name val m m' : plain name -> name <> str "loadaddr" -> m_setenv console_assign name val m = Some m' ->
  load_addr console (mv m') = load_addr console (mv m).
Proof.
  intros [Hc Hb] Hne. unfold m_setenv, setenv, _do_setenv. destruct (existsb _ _); [by intros [= <-] |].
  destruct (setenv_search _ _ _ _) as [[[o e] n]|]; [| done].
  assert (Hk : forall x, setenv_checks console console_assign name [val] x = Some (inr x)).
  { intros x. unfold setenv_checks. rewrite Hc. cbn [Z.eqb Pos.eqb]. unfold streq. by rewrite bool_decide_eq_false_2. }
  assert (Hu : forall x, load_addr console (setenv_updates console name val x) = load_addr console x).
  { intros x. unfold setenv_updates, streq. rewrite (bool_decide_eq_false_2 (name = str "loadaddr")) by done. by repeat case_match. }
  rewrite Hk. destruct (o >=? 0); [destruct (delete_entry _ _ _); [| done] |].
  all: destruct (append_point _); [| done]; destruct (append_entry _ _ _ _); intros [= <-]; cbn [mv put_env]; try done; by rewrite Hu.
Qed.

End tftp_loop.

(** ** A silent NFS server *)

Section silence.
Context {console : Type} (console_assign : Z -> list Z -> console -> Z * console).
Implicit Types (m : machine console).

(** Nothing arrives and no key is pressed. *)
Definition silent_tick (k : tick) : Prop := k_frames k = [] /\ k_ctrlc k = false.

(** The client waits for a packet, with no timer. *)
Definition stalled m : Prop :=
  timeHandler (tmr (net_of m)) = None /\ WaitPacketIP (arp (net_of m)) = 0 /\ NetState (net_of m) = NETLOOP_CONTINUE.

Lemma stalled_run protocol ticks m : stalled m -> Forall silent_tick ticks -> net_run console_assign protocol ticks m = Some (m, None).
Proof.
  intros (H1 & H2 & H3). induction 1 as [|k ticks [Hf Hc] _ IH]; [done |]. cbn [net_run]. rewrite Hf, Hc. unfold net_turn. cbn [eth_rx mbind option_bind].
  unfold ArpTimeoutCheck, on_stack. rewrite H2. cbn [Z.eqb].
  assert (E : put_net (net_of m) (dh m) m = m) by (by destruct m as [[]]). rewrite E. unfold net_check_timeout. rewrite H1. cbn [mbind option_bind]. rewrite H3. exact IH.
Qed.

(** The client reads, knows the server's Ethernet address, and waits. *)
Definition reading_nfs m : Prop :=
  NfsState (nf m) = STATE_READ_REQ /\ length (filefh (nf m)) = 32%nat /\ 0 < NfsServerIP (nf m) < 0xFFFFFFFF /\
  NetServerEther (net_of m) <> NetEtherNullAddr /\ WaitPacketIP (arp (net_of m)) = 0 /\ NetState (net_of m) = NETLOOP_CONTINUE /\
  timeHandler (tmr (net_of m)) = Some NfsTimeout_f.

Lemma nfs_read_sends now s : NfsState (n_nfs s) = STATE_READ_REQ -> length (filefh (n_nfs s)) = 32%nat -> 0 < NfsServerIP (n_nfs s) < 0xFFFFFFFF ->
  NetServerEther (n_net s) <> NetEtherNullAddr ->
  exists s', NfsSend now s = Some s' /\ same_session (n_net s) (n_net s') /\ length (sent (n_net s')) = S (length (sent (n_net s))) /\
    arp (n_net s') = arp (n_net s) /\ NfsTimeoutCount (n_nfs s') = NfsTimeoutCount (n_nfs s).
Proof.
  intros Hst Hfh Hip Hmac. destruct (NfsSend now s) as [s'|] eqn:E.
  - exists s'. split; [done |]. split; [by eapply NfsSend_session |]. revert E. unfold NfsSend. rewrite Hst. change (NfsSend now s) with (NfsSend now s).
    repeat match goal with |- context [STATE_READ_REQ =? ?x] => let r := eval vm_compute in (STATE_READ_REQ =? x) in change (STATE_READ_REQ =? x) with r end.
    cbv iota. unfold nfs_read_req, rpc_req. destruct (RPC_SIZE <? _); [done |]. intros [= <-]. cbn [n_net n_nfs on_nfs Nfs.on_net].
    rewrite send_udp_eq by lia. cbv zeta. rewrite bool_decide_false by exact Hmac. cbn. rewrite length_app. cbn. split_and!; [lia | done | done].
  - exfalso. revert E. unfold NfsSend. rewrite Hst.
    repeat match goal with |- context [STATE_READ_REQ =? ?x] => let r := eval vm_compute in (STATE_READ_REQ =? x) in change (STATE_READ_REQ =? x) with r end.
    cbv iota. unfold nfs_read_req, rpc_req. rewrite (proj2 (Z.ltb_ge _ _)); [done |]. unfold rpc_call. rewrite !length_app, !be_bytes_length, Hfh.
    change (length rpc_add_credentials) with 36%nat. vm_compute. discriminate.
Qed.

(** C32: an NFS server that stops answering while a file is read.  When the
    timer expires the client asks once more and never again, for the timer
    has been cleared and is not set: the retry count is not reached, no
    failure is reported, and every further turn of the loop leaves the
    machine exactly as it is. *)
Theorem nfs_silent_server m now stack ticks : reading_nfs m -> NfsTimeoutCount (nf m) < NFS_RETRY_COUNT ->
  timeDelta (tmr (net_of m)) < u32 (now - timeStart (tmr (net_of m))) -> Forall silent_tick ticks ->
  exists m', net_turn console_assign [] false now stack m = Some (m', Goes) /\ length (sent (net_of m')) = S (length (sent (net_of m))) /\
    NfsTimeoutCount (nf m') = NfsTimeoutCount (nf m) + 1 /\ net_run console_assign NFS ticks m' = Some (m', None).
Proof.
  intros (Hst & Hfh & Hip & Hmac & Hw & Hns & Ht) Hc Hx Hticks. unfold net_turn. cbn [eth_rx mbind option_bind].
  unfold ArpTimeoutCheck, on_stack. rewrite Hw. cbn [Z.eqb]. assert (E : put_net (net_of m) (dh m) m = m) by (by destruct m as [[]]). rewrite E.
  unfold net_check_timeout. rewrite Ht, (proj2 (Z.ltb_lt _ _)) by lia. cbn [net_run_timeout]. unfold on_client, NfsTimeout.
  match goal with |- context [NfsSend now ?x] => destruct (nfs_read_sends now x) as (s' & -> & Hs & Hl & Ha & Hcn); [done.. |] end.
  destruct s' as [n' f' r']. cbn [n_nfs n_net nf on_stack put_net] in *. rewrite (proj2 (Z.ltb_lt _ _)) by done. cbn [mbind option_bind].
  destruct Hs as (_ & _ & S3 & S4 & _). cbn [n_net on_nfs] in S3, S4, Hl, Ha.
  match goal with |- context [net_of ?x] => lazymatch x with mk_machine _ _ _ _ _ _ _ => set (m' := x) end end.
  assert (Hn : NetState (net_of m') = NETLOOP_CONTINUE) by (change (NetState n' = NETLOOP_CONTINUE); rewrite S4; exact Hns). rewrite Hn.
  exists m'. split_and!; [reflexivity | exact Hl | exact Hcn |].
  apply stalled_run; [| done]. split_and!; [| | exact Hn].
  - change (timeHandler (tmr n') = None). by rewrite S3.
  - change (WaitPacketIP (arp n') = 0). rewrite Ha. exact Hw.
Qed.
End silence.

(** ** Edges *)

(** Any datagram for this address, whatever its port, is taken for the answer
    of a RARP server: the client goes on with the address it had. *)
Lemma rarp_any_datagram {console} (console_assign : Z -> list Z -> console -> Z * console) now stack (m : machine console) f n d :
  packetHandler n = RarpHandler_f -> NetReceive f.1 f.2 (net_of m) = (n, Some d) ->
  net_rx_frame console_assign now stack m f = autoload now (on_stack (fun _ => n) m).
Proof. intros Hh E. unfold net_rx_frame. rewrite E. unfold net_deliver. change (net_of (on_stack _ m)) with n. by rewrite Hh. Qed.

(** ** Concrete runs *)

(** The board after a lease, before the environment knows of it. *)
Definition leased : machine unit :=
  on_stack (fun n => set_cfg (set_masks 0xC0A80201 0xFFFFFF00 (set_addrs 0xC0A80207 0xC0A80264 (cfg n))) n) demo_machine.

Lemma leased_env : env_is (me leased) default_vars.
Proof. split_and!; [by split_and! | apply demo_array_holds | by_eval]. Qed.



(** The board while it reads a file over NFS. *)
Definition reading_machine : machine unit :=
  mk_machine (mk_sys (NetSetHandler NfsHandler_f (NetSetTimeout 0 NFS_TIMEOUT NfsTimeout_f (set_mac ServerEther [1; 2; 3; 4; 5; 6] server_net))) idle_tftp (fun _ => 0))
    (mk_nfs true 9 2048 1024 (replicate 32 1) (replicate 32 2) 0 0xC0A80264 635 2049 1000 0 STATE_READ_REQ (fun _ => 65) 0) idle_dhcp 0 demo_store demo_vars 0.

Lemma nfs_silent_server_witness : exists m', net_turn (fun _ _ c => (0, c)) [] false 60001 (fun _ => 0) reading_machine = Some (m', Goes) /\
  net_run (fun _ _ c => (0, c)) NFS [mk_tick [] false 120002 (fun _ => 0); mk_tick [] false 4000000 (fun _ => 0)] m' = Some (m', None).
Proof.
  destruct (nfs_silent_server (fun _ _ c => (0, c)) reading_machine 60001 (fun _ => 0)
    [mk_tick [] false 120002 (fun _ => 0); mk_tick [] false 4000000 (fun _ => 0)]) as (m' & H1 & _ & _ & H2).
  - split_and!; done.
  - lazy. reflexivity.
  - lazy. reflexivity.
  - repeat constructor.
  - exists m'. by split.
Defined.
