(* ===== verification/Ethernet.v ===== *)
(** * The driver below the network loop: drivers/net/dm9000x.c and net/net.c

    [NetLoop] takes the frames of a turn as a list.  Here they come from the
    chip: [eth_rx] of the driver, with the loop's handling of a frame as its
    stack, does what the loop does with the list of the good frames. *)

From S2P Require Import Prelude Memory Vsprintf Env Net Tftp Nfs Bootp NetLoop Dm9000.

Local Open Scope Z_scope.

(** The receive buffer as the stack sees it. *)
Definition buffer (rdptr : Z) (m : mem) : mem := fun a => m (rdptr + a).

(** A buffer holds a frame and comes with its length. *)
Definition holds (f : frame) (b : mem * Z) : Prop :=
  load b.1 0 (length (f_data f)) = f_data f /\ b.2 = len (f_data f).

Lemma load_buffer rdptr m n : forall a, load (buffer rdptr m) a n = load m (rdptr + a) n.
Proof. induction n as [|n IH]; intros a; cbn [load]; [done |]. unfold buffer at 1. rewrite IH. by replace (rdptr + a + 1) with (rdptr + (a + 1)) by lia. Qed.

Lemma buffer_holds rdptr m f : holds f (buffer rdptr (store_list m rdptr (padded f)), len (f_data f)).
Proof.
  split; [| done]. cbn [fst]. rewrite load_buffer, Z.add_0_r. unfold padded. rewrite store_list_app.
  rewrite load_store_list_disjoint by lia. apply load_store_list.
Qed.

Section feeding.
Context {console : Type} (console_assign : Z -> list Z -> console -> Z * console) (now : Z) (nfs_stack : mem).
(** What the stack leaves in the buffer: answers are built in it. *)
Context (left_behind : Z -> mem -> option (machine console) -> mem).

(** The loop's handling of a frame, as the driver calls it. *)
Definition loop_stack (rdptr n : Z) (x : mem * option (machine console)) : mem * option (machine console) :=
  (left_behind n x.1 x.2, s ← x.2; net_rx_frame console_assign now nfs_stack s (buffer rdptr x.1, n)).

Lemma feeds rdptr fs : forall m s, exists bs, Forall2 holds (List.filter good fs) bs /\
  (fold_left (rx_step (loop_stack rdptr) rdptr) fs (m, s)).2 = (s ← s; NetLoop.eth_rx console_assign now nfs_stack bs s).
Proof.
  induction fs as [|f fs IH]; intros m s; cbn [fold_left List.filter].
  - exists []. split; [constructor |]. by destruct s.
  - unfold rx_step at 2. cbn [fst snd]. destruct (good f).
    + unfold loop_stack at 2. cbn [fst snd]. set (m1 := store_list m rdptr (padded f)).
      destruct (IH (left_behind (len (f_data f)) m1 s) (s ← s; net_rx_frame console_assign now nfs_stack s (buffer rdptr m1, len (f_data f)))) as (bs & Hbs & E).
      exists ((buffer rdptr m1, len (f_data f)) :: bs). split; [constructor; [apply buffer_holds | done] |]. rewrite E. by destruct s.
    + apply IH.
Qed.
End feeding.

Section claims.
Context `{Hspec : dm_spec W traffic}.

(** C22: the chip feeds the network loop.  Let the driver's call of the stack
    handle a frame as the loop does, whatever it leaves in the receive buffer
    and whatever it sends.  Then one call of [eth_rx] on the chip ends, and it
    does to the loop's state what the loop does with the list of the frames
    that the chip has received since the last call, in their order, each whole
    and with its length, without those marked as damaged and those of less
    than 64 bytes; every frame that had come at the call is among them, and one
    that comes too late is found by the next call. *)
Theorem turn_receives {console} console_assign now nfs_stack left_behind NetReceive rdptr fuel m (s : machine console) (w : W) :
  (forall n x w, idle w -> exists w', NetReceive n (x, w) = Some (loop_stack console_assign now nfs_stack left_behind rdptr n x, w') /\ idle w' /\ rx_rel 0 w w') ->
  idle w -> quiet w -> (length traffic - took w < fuel)%nat ->
  exists m' w' bs, Dm9000.eth_rx NetReceive fuel IO16 rdptr (m, Some s, w) = Some (m', NetLoop.eth_rx console_assign now nfs_stack bs s, w') /\
    Forall2 holds (List.filter good (between (traffic := traffic) (took w) (took w'))) bs /\
    idle w' /\ quiet w' /\ (took w <= took w')%nat /\ (came w <= took w')%nat.
Proof.
  intros Hstack Hi Hq Hf.
  destruct (rx_core NetReceive _ Hstack rdptr fuel (m, Some s) w Hi Hq Hf) as (w' & E & Hi' & Hq' & Hle & Hc).
  destruct (feeds console_assign now nfs_stack left_behind rdptr (between (traffic := traffic) (took w) (took w')) m (Some s)) as (bs & Hbs & Es).
  destruct (fold_left _ _ _) as [m' s'] eqn:Ef. cbn [snd] in Es. exists m', w', bs. rewrite E, Es. by split_and!.
Qed.
End claims.

(** ** A witness *)

Lemma turn_receives_witness :
  let ops := DmChip.chip_ops demo_traffic in
  let ca := fun (_ : Z) (_ : list Z) (c : unit) => (0, c) in
  exists m' w' bs,
    Dm9000.eth_rx (H := ops) (fun n s => Some (loop_stack ca 0 (fun _ => 0) (fun _ m _ => m) 100 n s.1, s.2)) 4 IO16 100 ((fun _ => 0), Some demo_machine, demo_chip) =
      Some (m', NetLoop.eth_rx ca 0 (fun _ => 0) bs demo_machine, w') /\ length bs = 2%nat.
Proof.
  intros ops ca. set (spec := DmChip.chip_spec demo_traffic demo_traffic_ok).
  destruct (turn_receives (Hspec := spec) ca 0 (fun _ => 0) (fun _ m _ => m) (fun n s => Some (loop_stack ca 0 (fun _ => 0) (fun _ m _ => m) 100 n s.1, s.2))
    100 4 (fun _ => 0) demo_machine demo_chip) as (m' & w' & bs & E & Hbs & _ & _ & _ & Hc).
  - intros n x w Hi. exists w. split; [reflexivity |]. split; [exact Hi | apply keeps_refl].
  - reflexivity.
  - intros E. discriminate E.
  - cbn. lia.
  - exists m', w', bs. split; [exact E |]. apply Forall2_length in Hbs. rewrite <- Hbs. unfold between.
    replace (took w') with 3%nat by (cbn in Hc |- *; lia). reflexivity.
Defined.
