(* ===== verification/Kermit.v ===== *)
(** * Serial download with Kermit: the [loadb] part of common/cmd_load.c

    The receiver [k_recv] reads characters from the line and writes the file
    into memory while it arrives; a checkpoint of the write position lets it
    take back a packet that turns out to be damaged.  Characters are the
    unsigned values 0..255: the code's masks and the 6-bit check sums give the
    same results whether [char] is signed or not.  The line is the list of
    the characters still to come; a reader that runs out of them blocks
    ([None]).  [goto packet_error] is the error outcome of the reader monad.

    The theorems: a file sent with the Kermit protocol ends up at the load
    address, whatever damaged copies, repetitions and noise lie between the
    packets; a damaged packet leaves no trace below the write position. *)

From S2P Require Import Prelude Memory.

Local Open Scope Z_scope.

Definition START_CHAR : Z := 0x01.
Definition ETX_CHAR : Z := 0x03.
Definition END_CHAR : Z := 0x0D.
Definition SPACE : Z := 0x20.
Definition K_ESCAPE : Z := 0x23.
Definition SEND_TYPE : Z := 83.   (* 'S' *)
Definition DATA_TYPE : Z := 68.   (* 'D' *)
Definition ACK_TYPE : Z := 89.    (* 'Y' *)
Definition NACK_TYPE : Z := 78.   (* 'N' *)
Definition BREAK_TYPE : Z := 66.  (* 'B' *)

Definition tochar (x : Z) : Z := Z.land (x + SPACE) 0xff.
Definition untochar (x : Z) : Z := Z.land (x - SPACE) 0xff.

(** ** State *)

(** The protocol parameters the peer asks for. *)
Record parms := mk_parms {
  his_eol : Z;
  his_pad_count : Z;
  his_pad_char : Z;
  his_quote : Z;
}.

(** What [k_data_save] and [os_data_save] save and the restores restore. *)
Record cursor := mk_cursor {
  os_data_state : Z;
  os_data_addr : Z;
  k_data_escape : bool;
}.

(** The file's static variables, the local variables of [k_recv] that live
    across packets, the memory, and the characters sent with [putc]. *)
Record kermit := mk_kermit {
  his : parms;
  cur : cursor;
  cur_saved : cursor;
  bin_start_address : Z;
  send_parms : list Z;
  send_ptr : Z;               (* offset into send_parms *)
  kmem : mem;
  out : list Z;
  k_state : Z;
  k_state_saved : Z;
  seq_n : Z;                  (* n *)
  last_n : Z;
}.

Definition set_his (p : parms) (s : kermit) : kermit :=
  mk_kermit p (cur s) (cur_saved s) (bin_start_address s) (send_parms s) (send_ptr s) (kmem s) (out s)
    (k_state s) (k_state_saved s) (seq_n s) (last_n s).
Definition set_cur (c : cursor) (s : kermit) : kermit :=
  mk_kermit (his s) c (cur_saved s) (bin_start_address s) (send_parms s) (send_ptr s) (kmem s) (out s)
    (k_state s) (k_state_saved s) (seq_n s) (last_n s).
Definition set_send (l : list Z) (p : Z) (s : kermit) : kermit :=
  mk_kermit (his s) (cur s) (cur_saved s) (bin_start_address s) l p (kmem s) (out s)
    (k_state s) (k_state_saved s) (seq_n s) (last_n s).
Definition set_kmem (m : mem) (s : kermit) : kermit :=
  mk_kermit (his s) (cur s) (cur_saved s) (bin_start_address s) (send_parms s) (send_ptr s) m (out s)
    (k_state s) (k_state_saved s) (seq_n s) (last_n s).
Definition set_k_state (v : Z) (s : kermit) : kermit :=
  mk_kermit (his s) (cur s) (cur_saved s) (bin_start_address s) (send_parms s) (send_ptr s) (kmem s) (out s)
    v (k_state_saved s) (seq_n s) (last_n s).
Definition set_seq_n (v : Z) (s : kermit) : kermit :=
  mk_kermit (his s) (cur s) (cur_saved s) (bin_start_address s) (send_parms s) (send_ptr s) (kmem s) (out s)
    (k_state s) (k_state_saved s) v (last_n s).
Definition putcs (l : list Z) (s : kermit) : kermit :=
  mk_kermit (his s) (cur s) (cur_saved s) (bin_start_address s) (send_parms s) (send_ptr s) (kmem s) (out s ++ l)
    (k_state s) (k_state_saved s) (seq_n s) (last_n s).

(** ** Sending *)

(** A C string in an array: the characters up to the NUL. *)
Definition upto_nul (l : list Z) : list Z := take_while (fun c => negb (c =? 0)) l.

Definition send_pad (p : parms) : list Z :=
  replicate (Z.to_nat (his_pad_count p)) (his_pad_char p).

(** Converts an escaped kermit character to a binary one. *)
Definition ktrans (c : Z) : Z :=
  if Z.land c 0x60 =? 0x40 then Z.land c (Z.lnot 0x40)
  else if Z.land c 0x7f =? 0x3f then Z.lor c 0x40
  else c.

(** The expression both [chk1] and [k_recv] fold a sum with. *)
Definition fold6 (total : Z) : Z := Z.land (total + Z.land (Z.shiftr total 6) 0x03) 0x3f.

Definition sum (l : list Z) : Z := fold_left Z.add l 0.

Definition chk1 (buffer : list Z) : Z := fold6 (sum (upto_nul buffer)).

Definition s1_sendpacket (packet : list Z) (s : kermit) : kermit :=
  putcs (send_pad (his s) ++ upto_nul packet) s.

(** The packet [a_b]: [body] is [a_b + 1] up to where the check goes. *)
Definition reply (body : list Z) (s : kermit) : kermit :=
  s1_sendpacket ([START_CHAR] ++ body ++ [tochar (chk1 body); his_eol (his s)]) s.

Definition send_ack (n : Z) (s : kermit) : kermit := reply [tochar 3; tochar n; ACK_TYPE] s.

Definition send_nack (n : Z) (s : kermit) : kermit := reply [tochar 3; tochar n; NACK_TYPE] s.

(** ** Data *)

Definition bin_data_init (s : kermit) : kermit :=
  set_cur (mk_cursor 0 (bin_start_address s) (k_data_escape (cur s))) s.

Definition bin_data_char (c : Z) (s : kermit) : kermit :=
  let k := cur s in
  if os_data_state k =? 0
  then set_cur (mk_cursor (os_data_state k) (os_data_addr k + 1) (k_data_escape k))
         (set_kmem (store (kmem s) (os_data_addr k) c) s)
  else s.

Definition set_escape (b : bool) (s : kermit) : kermit :=
  set_cur (mk_cursor (os_data_state (cur s)) (os_data_addr (cur s)) b) s.

Definition k_data_init (s : kermit) : kermit := bin_data_init (set_escape false s).

(** [k_data_save] with [os_data_save], and the restores. *)
Definition k_data_save (s : kermit) : kermit :=
  mk_kermit (his s) (cur s) (cur s) (bin_start_address s) (send_parms s) (send_ptr s) (kmem s) (out s)
    (k_state s) (k_state_saved s) (seq_n s) (last_n s).
Definition k_data_restore (s : kermit) : kermit := set_cur (cur_saved s) s.

Definition k_data_char (c : Z) (s : kermit) : kermit :=
  if k_data_escape (cur s) then set_escape false (bin_data_char (ktrans c) s)
  else if c =? his_quote (his s) then set_escape true s
  else bin_data_char c s.

(** ** The answer to a send-initiate packet *)

Definition SEND_DATA_SIZE : Z := 20.

Definition default_parms : parms := mk_parms END_CHAR 0 0 K_ESCAPE.

(** The [do ... while (0)] of [handle_send_packet]: the parameters taken from
    the peer's [bytes] fields [sp] and the fields of the answer. *)
Definition negotiate (bytes : Z) (sp : list Z) : parms * list Z :=
  let p := default_parms in
  if bytes <=? 0 then (p, []) else
  let a := [tochar 94] in
  if bytes - 1 <=? 0 then (p, a) else
  let a := a ++ [tochar 1] in
  if bytes - 2 <=? 0 then (p, a) else
  let p := mk_parms (his_eol p) (untochar (nthZ sp 2)) (his_pad_char p) (his_quote p) in
  let a := a ++ [tochar 0] in
  if bytes - 3 <=? 0 then (p, a) else
  let p := mk_parms (his_eol p) (his_pad_count p) (ktrans (nthZ sp 3)) (his_quote p) in
  let a := a ++ [0x40] in
  if bytes - 4 <=? 0 then (p, a) else
  let p := mk_parms (untochar (nthZ sp 4)) (his_pad_count p) (his_pad_char p) (his_quote p) in
  let a := a ++ [tochar END_CHAR] in
  if bytes - 5 <=? 0 then (p, a) else
  let p := mk_parms (his_eol p) (his_pad_count p) (his_pad_char p) (nthZ sp 5) in
  let a := a ++ [35] (* '#' *) in
  if bytes - 6 <=? 0 then (p, a) else
  let a := a ++ [78] (* 'N' *) in
  if bytes - 7 <=? 0 then (p, a) else
  let a := a ++ [49] (* '1' *) in
  if bytes - 8 <=? 0 then (p, a) else
  let a := a ++ [78] in
  if bytes - 9 <=? 0 then (p, a) else
  (p, a ++ [tochar 2; tochar 0; tochar 94; tochar 94]).

Definition handle_send_packet (n : Z) (s : kermit) : kermit :=
  (* ignore last character if it filled the buffer *)
  let ptr := if send_ptr s =? SEND_DATA_SIZE - 1 then send_ptr s - 1 else send_ptr s in
  let '(p, a) := negotiate ptr (send_parms s) in
  let s := set_his p (set_send (send_parms s) ptr s) in
  reply ([tochar (3 + len a); tochar n; ACK_TYPE] ++ a) s.

(** ** The receiver *)

(** A reader: the state and the line in; [None] when the line has no more
    characters; [Err tt] is the jump to [packet_error]. *)
Definition reader (A : Type) : Type := kermit -> list Z -> option (result unit A * kermit * list Z).

Definition ret {A} (a : A) : reader A := fun s i => Some (Ok a, s, i).
Definition packet_error {A} : reader A := fun s i => Some (Err tt, s, i).
Definition bind {A B} (m : reader A) (f : A -> reader B) : reader B := fun s i =>
  match m s i with
  | None => None
  | Some (Ok a, s, i) => f a s i
  | Some (Err e, s, i) => Some (Err e, s, i)
  end.
Definition modify (f : kermit -> kermit) : reader unit := fun s i => Some (Ok tt, f s, i).

Declare Scope kermit_scope.
Delimit Scope kermit_scope with kermit.
Notation "'get' x ':=' m 'in' k" := (bind m (fun x => k))
  (at level 10, x name, m at level 200, k at level 200) : kermit_scope.
Notation "'run' m 'then' k" := (bind m (fun _ => k)) (at level 10, m at level 200, k at level 200) : kermit_scope.
Local Open Scope kermit_scope.

Definition getc : reader Z := fun s i =>
  match i with
  | [] => None
  | c :: i => Some (Ok c, s, i)
  end.

(** [new_char = getc (); if ((new_char & 0xE0) == 0) goto packet_error;] *)
Definition get_printable : reader Z :=
  get c := getc in if Z.land c 0xE0 =? 0 then packet_error else ret c.

(** Restore on a repeated sequence number, checkpoint on a new one. *)
Definition check_sequence (s : kermit) : kermit :=
  if seq_n s =? last_n s
  then k_data_restore (set_k_state (k_state_saved s) s)
  else
    let s := k_data_save s in
    mk_kermit (his s) (cur s) (cur_saved s) (bin_start_address s) (send_parms s) (send_ptr s) (kmem s) (out s)
      (k_state s) (k_state s) (seq_n s) (seq_n s).

(** One character of the packet's data, by the packet's type. *)
Definition take_char (c : Z) (s : kermit) : kermit :=
  if k_state s =? DATA_TYPE then k_data_char c s
  else if k_state s =? SEND_TYPE then
    let p := send_ptr s + 1 in
    set_send (<[Z.to_nat (send_ptr s) := c]> (send_parms s)) (if p >=? SEND_DATA_SIZE then p - 1 else p) s
  else s.

(** [while (length > 1)]: [k] characters; returns the sum. *)
Fixpoint read_body (k : nat) (sum : Z) : reader Z :=
  match k with
  | O => ret sum
  | S k' => get c := get_printable in run modify (take_char c) then read_body k' (sum + c)
  end.

(** The two length characters and the header check of an extended packet:
    the length and the sum. *)
Definition read_extended (sum : Z) : reader (Z * Z) :=
  get c := get_printable in
  let sum := sum + c in
  let len_hi := untochar c in
  get c := get_printable in
  let sum := sum + c in
  let len_lo := untochar c in
  let length := len_hi * 95 + len_lo in
  get c := get_printable in
  if c =? tochar (fold6 sum) then ret (length, sum + c) else packet_error.

(** From the packet type to the [END_CHAR]. *)
Definition read_rest (sum length : Z) : reader unit :=
  get c := get_printable in
  let sum := sum + c in
  run modify (set_k_state c) then
  let length := length - 1 in
  get ls := (if length =? -2 then read_extended sum else ret (length, sum)) in
  get sum := read_body (Z.to_nat (fst ls - 1)) (snd ls) in
  get c := get_printable in
  if negb (c =? tochar (fold6 sum)) then packet_error
  else
    get c := getc in
    if negb (c =? END_CHAR) then packet_error else ret tt.

(** From the label [START]. *)
Definition read_packet : reader unit :=
  get c := get_printable in
  let sum := c in
  let length := untochar c in
  get c := get_printable in
  run modify (set_seq_n (untochar c)) then
  run modify check_sequence then
  read_rest (sum + c) (length - 1).

(** One packet after its [START_CHAR], with the answer; the boolean is [done]. *)
Definition one_packet (s : kermit) (i : list Z) : option (bool * kermit * list Z) :=
  match read_packet s i with
  | None => None
  | Some (Err _, s, i) =>
      let s := k_data_restore (set_k_state (k_state_saved s) s) in
      Some (false, send_nack (seq_n s) s, i)
  | Some (Ok _, s, i) =>
      if k_state s =? SEND_TYPE then Some (false, handle_send_packet (seq_n s) s, i)
      else Some (k_state s =? BREAK_TYPE, send_ack (seq_n s) s, i)
  end.

(** The wait for a packet: [Some true] for [START_CHAR], [Some false] for ^C. *)
Fixpoint wait_start (i : list Z) : option (bool * list Z) :=
  match i with
  | [] => None
  | c :: i =>
      if c =? START_CHAR then Some (true, i)
      else if c =? ETX_CHAR then Some (false, i)
      else wait_start i
  end.

(** The main loop; every turn takes a character from the line. *)
Fixpoint recv_loop (fuel : nat) (s : kermit) (i : list Z) : option (Z * kermit * list Z) :=
  match fuel with
  | O => None
  | S f =>
      let s := set_send (send_parms s) 0 s in
      match wait_start i with
      | None => None
      | Some (false, i) => Some (0, s, i)
      | Some (true, i) =>
          match one_packet s i with
          | None => None
          | Some (true, s, i) => Some (s32 (os_data_addr (cur s) - bin_start_address s), s, i)
          | Some (false, s, i) => recv_loop f s i
          end
      end
  end.

Definition k_recv (s : kermit) (i : list Z) : option (Z * kermit * list Z) :=
  let s := set_k_state 0 (set_his default_parms s) in
  let s := k_data_save (k_data_init s) in
  let s := mk_kermit (his s) (cur s) (cur_saved s) (bin_start_address s) (send_parms s) (send_ptr s) (kmem s)
             (out s) (k_state s) (k_state s) 0 (-1) in
  recv_loop (S (length i)) s i.

Definition set_kerm_bin_mode (addr : Z) (s : kermit) : kermit :=
  mk_kermit (his s) (cur s) (cur_saved s) addr (send_parms s) (send_ptr s) (kmem s) (out s)
    (k_state s) (k_state_saved s) (seq_n s) (last_n s).

(** ** The sender, as the protocol describes it *)

(** A character the protocol sends as it is. *)
Definition printable (c : Z) : Prop := byte c /\ Z.land c 0xE0 <> 0.

#[export] Instance printable_decision c : Decision (printable c).
Proof. unfold printable. apply _. Defined.

(** A prefix character the protocol allows: one [ktrans] does not change. *)
Definition good_quote (q : Z) : Prop := 33 <= q <= 62 \/ 96 <= q <= 126.

(** The text of one byte: control characters and DEL, with or without the
    eighth bit, are sent as the prefix and a printable character. *)
Definition kquote (q c : Z) : list Z :=
  if Z.land c 0x60 =? 0 then [q; Z.lor c 0x40]
  else if Z.land c 0x7f =? 0x7f then [q; Z.land c (Z.lnot 0x40)]
  else if c =? q then [q; q]
  else [c].

Record packet := mk_packet { extended : bool; seq : Z; typ : Z; payload : list Z }.

Definition good_packet (p : packet) : Prop :=
  0 <= seq p < 64 /\ printable (typ p) /\ Forall printable (payload p) /\
  len (payload p) <= (if extended p then 95 * 95 - 2 else 91).

Definition kcheck (l : list Z) : Z := tochar (fold6 (sum l)).

(** The characters from the length to the last one before the check. *)
Definition packet_body (p : packet) : list Z :=
  let n := len (payload p) in
  if extended p then
    let h := [tochar 0; tochar (seq p); typ p; tochar ((n + 1) / 95); tochar ((n + 1) mod 95)] in
    h ++ [kcheck h] ++ payload p
  else [tochar (n + 3); tochar (seq p); typ p] ++ payload p.

Definition packet_text (p : packet) : list Z := packet_body p ++ [kcheck (packet_body p); END_CHAR].

(** The bytes a text stands for, and whether a prefix is left pending. *)
Fixpoint unquote (q : Z) (esc : bool) (l : list Z) : list Z * bool :=
  match l with
  | [] => ([], esc)
  | c :: l =>
      if esc then let '(bs, e) := unquote q false l in (ktrans c :: bs, e)
      else if c =? q then unquote q true l
      else let '(bs, e) := unquote q false l in (c :: bs, e)
  end.

(** The state a damaged packet is tried on; its choice does not matter. *)
Definition blank : kermit :=
  mk_kermit default_parms (mk_cursor 0 0 false) (mk_cursor 0 0 false) 0 (replicate 20 0) 0 (fun _ => 0) [] 0 0 0 0.

(** [damaged n a]: [a] arrives after a [START_CHAR], its length is printable,
    its sequence number is [n], and it is all that is read before the
    receiver notices an error. *)
Definition damaged (n : Z) (a : list Z) : bool :=
  match a with
  | l :: c :: _ =>
      bool_decide (printable l) && (c =? tochar n) &&
      match read_packet blank a with
      | Some (Err _, _, []) => true
      | _ => false
      end
  | _ => false
  end.

(** An attempt to send a packet: noise, then a damaged copy or an intact one. *)
Record attempt := mk_attempt { noise : list Z; broken : option (list Z) }.

Definition attempt_text (p : packet) (t : attempt) : list Z :=
  noise t ++ START_CHAR :: match broken t with Some a => a | None => packet_text p end.

Definition good_noise (l : list Z) : Prop := Forall (fun c => c <> START_CHAR /\ c <> ETX_CHAR) l.

Definition good_attempt (p : packet) (t : attempt) : Prop :=
  good_noise (noise t) /\ match broken t with Some a => damaged (seq p) a = true | None => True end.

(** A packet with the attempts before its last transmission, which succeeds. *)
Record sent := mk_sent { pkt : packet; attempts : list attempt; last_noise : list Z }.

Definition all_attempts (x : sent) : list attempt := attempts x ++ [mk_attempt (last_noise x) None].

Definition line_of (x : sent) : list Z := concat (map (attempt_text (pkt x)) (all_attempts x)).

Definition good_sent (x : sent) : Prop :=
  good_packet (pkt x) /\ Forall (good_attempt (pkt x)) (all_attempts x).

(** The prefix character a send-initiate packet announces. *)
Definition quote_of (fields : list Z) : Z := if 6 <=? len fields then nthZ fields 5 else K_ESCAPE.

(** The data the packets carry. *)
Definition data_of (p : packet) : list Z := if typ p =? DATA_TYPE then payload p else [].

(** ** Characters *)

Lemma tochar_small x : 0 <= x <= 223 -> tochar x = x + 32.
Proof. intros H. unfold tochar, SPACE. rewrite (Z.land_ones _ 8) by lia. apply Z.mod_small. lia. Qed.

Lemma untochar_tochar x : 0 <= x <= 223 -> untochar (tochar x) = x.
Proof.
  intros H. rewrite tochar_small by done. unfold untochar, SPACE. rewrite (Z.land_ones _ 8) by lia.
  rewrite Z.mod_small; lia.
Qed.

Lemma printable_iff c : byte c -> printable c <-> 32 <= c.
Proof.
  intros Hb. unfold printable.
  pose proof (byte_cases (fun c => eqb (negb (Z.land c 0xE0 =? 0)) (32 <=? c)) ltac:(vm_compute; done) c Hb) as H.
  cbv beta in H. apply eqb_prop in H. destruct (Z.leb_spec 32 c); zb; split; intros; try tauto; lia.
Qed.

Lemma tochar_printable x : 0 <= x <= 223 -> printable (tochar x).
Proof. intros H. rewrite tochar_small by done. apply printable_iff; unfold byte; lia. Qed.

Lemma fold6_range t : 0 <= fold6 t < 64.
Proof. unfold fold6. rewrite (Z.land_ones _ 6) by lia. apply Z.mod_pos_bound. lia. Qed.

Lemma kcheck_printable l : printable (kcheck l).
Proof. pose proof (fold6_range (sum l)). apply tochar_printable. lia. Qed.

Lemma sum_app l k : sum (l ++ k) = sum l + sum k.
Proof.
  unfold sum. rewrite fold_left_app. generalize (fold_left Z.add l 0). intros a.
  revert a. induction k as [|x k IH]; intros a; cbn [fold_left]; [lia |]. rewrite (IH (a + x)), (IH (0 + x)). lia.
Qed.

Lemma sum_cons x l : sum (x :: l) = x + sum l.
Proof. change (x :: l) with ([x] ++ l). by rewrite sum_app. Qed.

Lemma unquote_quoted q c l : good_quote q -> byte c ->
  unquote q false (kquote q c ++ l) = (c :: (unquote q false l).1, (unquote q false l).2).
Proof.
  intros Hq Hc. destruct (unquote q false l) as [bs e] eqn:E.
  pose proof (byte_cases (fun c =>
    (if Z.land c 0x60 =? 0 then ktrans (Z.lor c 0x40) =? c
     else if Z.land c 0x7f =? 0x7f then ktrans (Z.land c (Z.lnot 0x40)) =? c else true) &&
    (if (33 <=? c) && (c <=? 62) || (96 <=? c) && (c <=? 126) then ktrans c =? c else true))
    ltac:(vm_compute; done) c Hc) as H.
  cbv beta in H. unfold kquote. apply andb_true_iff in H as [H Hk].
  destruct (Z.land c 0x60 =? 0); [simpl; rewrite Z.eqb_refl, E; zb; by rewrite H |].
  destruct (Z.land c 0x7f =? 0x7f); [simpl; rewrite Z.eqb_refl, E; zb; by rewrite H |].
  destruct (Z.eqb_spec c q) as [->|Hne].
  - simpl. rewrite Z.eqb_refl, E. destruct ((33 <=? q) && (q <=? 62) || (96 <=? q) && (q <=? 126)) eqn:Eq; zb.
    + by rewrite Hk.
    + destruct Hq; destruct H0, H1; zb; lia.
  - simpl. apply Z.eqb_neq in Hne. by rewrite Hne, E.
Qed.

(** Quoting is undone. *)
Lemma unquote_text q file : good_quote q -> Forall byte file ->
  unquote q false (concat (map (kquote q) file)) = (file, false).
Proof.
  intros Hq. induction file as [|c file IH]; intros Hf; [done |]. apply Forall_cons in Hf as [Hc Hf].
  cbn [map concat]. rewrite unquote_quoted, IH by done. done.
Qed.

Lemma unquote_app q l k e :
  unquote q e (l ++ k) = ((unquote q e l).1 ++ (unquote q (unquote q e l).2 k).1, (unquote q (unquote q e l).2 k).2).
Proof.
  revert e. induction l as [|c l IH]; intros e; simpl; [by destruct (unquote q e k) |].
  destruct e; [| destruct (c =? q)]; rewrite ?IH; try done;
    by destruct (unquote q false l) as [bs e] eqn:E.
Qed.

(** ** An intact packet *)

Definition take_all (l : list Z) (s : kermit) : kermit := fold_left (fun s c => take_char c s) l s.

Lemma get_printable_ok c s i : printable c -> get_printable s (c :: i) = Some (Ok c, s, i).
Proof. intros [_ H]. unfold get_printable, bind. simpl. by rewrite (proj2 (Z.eqb_neq _ _) H). Qed.

Lemma bind_ok {A B} (m : reader A) (f : A -> reader B) a s i s' i' :
  m s i = Some (Ok a, s', i') -> bind m f s i = f a s' i'.
Proof. unfold bind. by intros ->. Qed.

(** Run the reader at the head of the goal on a printable character. *)
Ltac next_char := erewrite bind_ok; [| apply get_printable_ok; done]; cbv beta zeta.

Lemma read_body_ok l t s i : Forall printable l ->
  read_body (length l) t s (l ++ i) = Some (Ok (t + sum l), take_all l s, i).
Proof.
  revert t s. induction l as [|c l IH]; intros t s Hl.
  - simpl. unfold ret. do 4 f_equal. unfold sum. simpl. lia.
  - apply Forall_cons in Hl as [Hc Hl]. cbn [length read_body app]. next_char.
    erewrite bind_ok by reflexivity. rewrite IH by done. do 4 f_equal. rewrite sum_cons. lia.
Qed.

Lemma read_tail_ok k t l s i : k = length l -> Forall printable l ->
  (get sum := read_body k t in
   get c := get_printable in
   if negb (c =? tochar (fold6 sum)) then packet_error
   else get c := getc in if negb (c =? END_CHAR) then packet_error else ret tt) s
    (l ++ tochar (fold6 (t + sum l)) :: END_CHAR :: i) = Some (Ok tt, take_all l s, i).
Proof.
  intros -> Hl. erewrite bind_ok by (apply read_body_ok; done). cbn [app].
  pose proof (fold6_range (t + sum l)). erewrite bind_ok by (apply get_printable_ok, tochar_printable; lia).
  by rewrite Z.eqb_refl.
Qed.

(** The whole packet is read, the number checked before the data is used. *)
Lemma read_packet_ok p s i : good_packet p ->
  read_packet s (packet_text p ++ i) =
  Some (Ok tt, take_all (payload p) (set_k_state (typ p) (check_sequence (set_seq_n (seq p) s))), i).
Proof.
  destruct p as [ext n ty l]. intros (Hn & Ht & Hl & Hlen). cbn [extended seq typ payload] in *.
  assert (Hpn : printable (tochar n)) by (apply tochar_printable; lia).
  unfold packet_text, packet_body. cbn [extended seq typ payload].
  unfold read_packet. destruct ext.
  - set (k := len l + 1). assert (Hk : 0 <= k / 95 <= 94 /\ 0 <= k mod 95 < 95 /\ k = 95 * (k / 95) + k mod 95)
      by (subst k; Z.div_mod_to_equations; lia).
    set (h := [tochar 0; tochar n; ty; tochar (k / 95); tochar (k mod 95)]).
    assert (E0 : printable (tochar 0)) by (apply tochar_printable; lia).
    assert (E1 : printable (tochar (k / 95))) by (apply tochar_printable; lia).
    assert (E2 : printable (tochar (k mod 95))) by (apply tochar_printable; lia).
    pose proof (kcheck_printable h) as E3.
    set (chk := kcheck (h ++ [kcheck h] ++ l)). rewrite <- !app_assoc. unfold h at 1. cbn [app].
    next_char. next_char. do 2 (erewrite bind_ok by reflexivity).
    rewrite !untochar_tochar by lia. unfold read_rest. next_char. erewrite bind_ok by reflexivity.
    change (0 - 1 - 1 =? -2) with true. cbv iota.
    erewrite (bind_ok (read_extended _)).
    2: { unfold read_extended. next_char. next_char. next_char.
         replace (tochar 0 + tochar n + ty + tochar (k / 95) + tochar (k mod 95)) with (sum h)
           by (unfold h; rewrite !sum_cons; unfold sum; simpl; lia).
         unfold kcheck. rewrite Z.eqb_refl. reflexivity. }
    rewrite !untochar_tochar by lia. cbn [fst snd].
    replace chk with (tochar (fold6 (sum h + kcheck h + sum l))).
    + apply read_tail_ok; [lia | done].
    + unfold chk. unfold kcheck at 2. rewrite sum_app. cbn [app]. rewrite sum_cons. do 2 f_equal. lia.
  - set (h := [tochar (len l + 3); tochar n; ty]). set (chk := kcheck (h ++ l)).
    assert (E0 : printable (tochar (len l + 3))) by (apply tochar_printable; lia).
    rewrite <- !app_assoc. unfold h at 1. cbn [app]. next_char. next_char.
    do 2 (erewrite bind_ok by reflexivity). rewrite !untochar_tochar by lia.
    unfold read_rest. next_char. erewrite bind_ok by reflexivity.
    rewrite (proj2 (Z.eqb_neq _ _)) by lia. erewrite bind_ok by reflexivity. cbn [fst snd].
    replace chk with (tochar (fold6 (tochar (len l + 3) + tochar n + ty + sum l))).
    + apply read_tail_ok; [lia | done].
    + unfold chk, kcheck, h. rewrite sum_app, !sum_cons. do 2 f_equal. unfold sum at 2. simpl. lia.
Qed.

(** ** What a reader does on any line *)

(** What is read and whether an error is noticed depend on the line alone,
    and not on what follows the characters read. *)
Definition uniform {A} (m : reader A) : Prop := forall s s' i j,
  match m s i with
  | None => True
  | Some (r, _, i') => exists s'', m s' (i ++ j) = Some (r, s'', i' ++ j)
  end.

(** After the checkpoint a reader changes the state only ahead of the write
    position; [kept] is a preorder. *)
Definition kept (s s' : kermit) : Prop :=
  his s' = his s /\ cur_saved s' = cur_saved s /\ bin_start_address s' = bin_start_address s /\
  out s' = out s /\ k_state_saved s' = k_state_saved s /\ seq_n s' = seq_n s /\ last_n s' = last_n s /\
  length (send_parms s') = length (send_parms s) /\
  os_data_addr (cur s) <= os_data_addr (cur s') /\
  forall x, x < os_data_addr (cur s) -> kmem s' x = kmem s x.

Definition keeps {A} (m : reader A) : Prop := forall s i r s' i', m s i = Some (r, s', i') -> kept s s'.

#[export] Instance kept_preorder : PreOrder kept.
Proof.
  split.
  - intros s. split_and!; try done; lia.
  - intros a b c (A1 & A2 & A3 & A4 & A5 & A6 & A7 & A8 & A9 & A10) (B1 & B2 & B3 & B4 & B5 & B6 & B7 & B8 & B9 & B10).
    split_and!; try congruence; [lia |]. intros x Hx. rewrite B10 by lia. auto.
Qed.

Lemma uniform_ret {A} (a : A) : uniform (ret a).
Proof. intros s s' i j. simpl. eauto. Qed.

Lemma uniform_error {A} : uniform (packet_error (A := A)).
Proof. intros s s' i j. simpl. eauto. Qed.

Lemma uniform_modify f : uniform (modify f).
Proof. intros s s' i j. simpl. eauto. Qed.

Lemma uniform_getc : uniform getc.
Proof. intros s s' [|c i] j; simpl; eauto. Qed.

Lemma uniform_bind {A B} (m : reader A) (f : A -> reader B) :
  uniform m -> (forall a, uniform (f a)) -> uniform (bind m f).
Proof.
  intros Hm Hf s s' i j. unfold bind. specialize (Hm s s' i j).
  destruct (m s i) as [[[[a|e] s1] i1]|]; [| | done].
  - destruct Hm as [s2 ->]. apply Hf.
  - destruct Hm as [s2 ->]. eauto.
Qed.

Lemma keeps_ret {A} (a : A) : keeps (ret a).
Proof. intros s i r s' i' [= <- <- <-]. done. Qed.

Lemma keeps_error {A} : keeps (packet_error (A := A)).
Proof. intros s i r s' i' [= <- <- <-]. done. Qed.

Lemma keeps_modify f : (forall s, kept s (f s)) -> keeps (modify f).
Proof. intros H s i r s' i' [= <- <- <-]. apply H. Qed.

Lemma keeps_getc : keeps getc.
Proof. intros s [|c i] r s' i'; [done |]. intros [= <- <- <-]. done. Qed.

Lemma keeps_bind {A B} (m : reader A) (f : A -> reader B) :
  keeps m -> (forall a, keeps (f a)) -> keeps (bind m f).
Proof.
  intros Hm Hf s i r s' i' E. unfold bind in E. destruct (m s i) as [[[[a|e] s1] i1]|] eqn:Em; [| | done].
  - transitivity s1; [by eapply Hm | by eapply Hf].
  - injection E as <- <- <-. by eapply Hm.
Qed.

Create HintDb kermit.
#[export] Hint Resolve uniform_ret uniform_error uniform_modify uniform_getc uniform_bind
  keeps_ret keeps_error keeps_modify keeps_getc keeps_bind : kermit.

(** A reader by its structure: binds, tests and the primitive readers. *)
Ltac reader_cases :=
  repeat (intros; cbv zeta; first
    [ apply uniform_bind | apply keeps_bind
    | match goal with |- context [if ?b then _ else _] => destruct b end
    | solve [eauto with kermit] ]).

Lemma take_char_kept c s : kept s (take_char c s).
Proof.
  unfold take_char. destruct (k_state s =? DATA_TYPE).
  - assert (Hb : forall c, kept s (bin_data_char c s)).
    { intros d. unfold bin_data_char. destruct (_ =? 0); [| done].
      split_and!; try done; cbn; [lia |]. intros x Hx. apply store_ne. lia. }
    unfold k_data_char. destruct (k_data_escape (cur s)); [exact (Hb (ktrans c)) |]. destruct (_ =? _); [| apply Hb].
    split_and!; try done; cbn; lia.
  - destruct (_ =? _); [| done]. split_and!; try done; cbn; by rewrite length_insert.
Qed.

Lemma set_k_state_kept c s : kept s (set_k_state c s).
Proof. split_and!; try done; cbn; lia. Qed.

#[export] Hint Resolve take_char_kept set_k_state_kept : kermit.

Lemma read_body_any k t : uniform (read_body k t) /\ keeps (read_body k t).
Proof.
  revert t. induction k as [|k IH]; intros t; [split; simpl; eauto with kermit |].
  split; cbn [read_body]; unfold get_printable; reader_cases; intros; apply IH.
Qed.

Lemma read_rest_any t n : uniform (read_rest t n) /\ keeps (read_rest t n).
Proof.
  split; unfold read_rest, read_extended, get_printable; reader_cases; intros; apply read_body_any.
Qed.

Lemma read_packet_uniform : uniform read_packet.
Proof.
  assert (Hp : uniform get_printable) by (unfold get_printable; reader_cases).
  unfold read_packet. apply uniform_bind; [done | intros c]. apply uniform_bind; [done | intros d].
  do 2 (apply uniform_bind; [apply uniform_modify | intros _]). apply read_rest_any.
Qed.

(** ** What the data of a packet does *)

Lemma take_all_data l s a esc : k_state s = DATA_TYPE -> cur s = mk_cursor 0 a esc ->
  let '(bs, e) := unquote (his_quote (his s)) esc l in
  take_all l s = set_cur (mk_cursor 0 (a + len bs) e) (set_kmem (store_list (kmem s) a bs) s).
Proof.
  revert s a esc. induction l as [|c l IH]; intros s a esc Hk Hc.
  - simpl. rewrite Z.add_0_r. destruct s; simpl in *. by subst.
  - unfold take_all. cbn [fold_left]. fold (take_all l (take_char c s)).
    unfold take_char. rewrite (proj2 (Z.eqb_eq _ _) Hk). unfold k_data_char, set_escape, bin_data_char. rewrite Hc.
    cbn [unquote k_data_escape os_data_state os_data_addr Z.eqb cur set_cur set_kmem].
    assert (Hgo : forall b v s1, cur s1 = mk_cursor 0 (a + 1) b -> k_state s1 = DATA_TYPE -> his s1 = his s ->
      kmem s1 = store (kmem s) a v -> (forall k m, set_cur k (set_kmem m s1) = set_cur k (set_kmem m s)) ->
      let '(bs, e) := let '(bs, e) := unquote (his_quote (his s)) b l in (v :: bs, e) in
      take_all l s1 = set_cur (mk_cursor 0 (a + len bs) e) (set_kmem (store_list (kmem s) a bs) s)).
    { intros b v s1 H1 H2 H3 H4 H5. specialize (IH s1 (a + 1) b H2 H1). rewrite H3 in IH.
      destruct (unquote (his_quote (his s)) b l) as [bs e]. rewrite IH, H4, H5. cbn [store_list length].
      do 2 f_equal. lia. }
    destruct esc; [apply (Hgo false (ktrans c)); done |].
    destruct (c =? his_quote (his s)); [| apply (Hgo false c); done].
    specialize (IH (set_cur (mk_cursor 0 a true) s) a true Hk eq_refl). simpl his in IH. simpl kmem in IH.
    destruct (unquote _ true l) as [bs e]. rewrite IH. done.
Qed.

Lemma take_all_other l s : k_state s <> DATA_TYPE -> k_state s <> SEND_TYPE -> take_all l s = s.
Proof.
  intros H1 H2. unfold take_all. induction l as [|c l IH]; simpl; [done |].
  unfold take_char at 2. by rewrite (proj2 (Z.eqb_neq _ _) H1), (proj2 (Z.eqb_neq _ _) H2).
Qed.

(** The parameters of a send-initiate packet: the first 19 are kept. *)
Lemma take_all_send l s : k_state s = SEND_TYPE -> send_ptr s = 0 -> length (send_parms s) = 20%nat ->
  exists sp, take_all l s = set_send sp (Z.min (len l) 19) s /\ length sp = 20%nat /\
    forall i, (i < 19)%nat -> (i < length l)%nat -> sp !! i = l !! i.
Proof.
  intros Hk Hp Hl. induction l as [|c l IH] using rev_ind.
  - exists (send_parms s). split_and!; [| done | simpl; lia]. destruct s. simpl in *. by subst.
  - destruct IH as (sp & E & Hsp & Hi). unfold take_all in *. rewrite fold_left_app, E. cbn [fold_left].
    unfold take_char. simpl k_state. rewrite Hk. cbn [Z.eqb DATA_TYPE SEND_TYPE Pos.eqb send_ptr set_send send_parms].
    exists (<[Z.to_nat (Z.min (len l) 19) := c]> sp). rewrite length_insert, length_app. simpl length. split_and!; [| done |].
    + unfold set_send at 1. simpl. unfold set_send. f_equal. unfold SEND_DATA_SIZE. rewrite Z.geb_leb. zcases; lia.
    + intros i Hi1 Hi2. destruct (decide (i = length l)) as [->|].
      * rewrite lookup_app_r, Nat.sub_diag by lia. simpl.
        rewrite Z.min_l by lia. rewrite Nat2Z.id. apply list_lookup_insert_eq. lia.
      * rewrite lookup_app_l by lia. rewrite list_lookup_insert_ne by lia. apply Hi; lia.
Qed.

(** The prefix the receiver then uses. *)
Lemma negotiate_quote l sp : (forall i, (i < 19)%nat -> (i < length l)%nat -> sp !! i = l !! i) ->
  let k := Z.min (len l) 19 in
  his_quote (fst (negotiate (if k =? SEND_DATA_SIZE - 1 then k - 1 else k) sp)) = quote_of l.
Proof.
  intros H k. unfold quote_of.
  assert (E : 6 <= len l -> nthZ sp 5 = nthZ l 5).
  { intros Hl. unfold nthZ. rewrite !nth_lookup. by rewrite H by lia. }
  set (b := if k =? SEND_DATA_SIZE - 1 then k - 1 else k). assert (Hb : b <= 5 /\ len l < 6 \/ 6 <= b /\ 6 <= len l)
    by (unfold b, k, SEND_DATA_SIZE; zcases; lia).
  unfold negotiate. destruct Hb as [[Hb Hl]|[Hb Hl]].
  - rewrite (proj2 (Z.leb_gt 6 (len l))) by done.
    do 5 (destruct (_ <=? 0); [done |]). by rewrite (proj2 (Z.leb_le (b - 5) 0)) by lia.
  - rewrite (proj2 (Z.leb_le 6 (len l))) by done. rewrite <- E by done.
    rewrite !(proj2 (Z.leb_gt _ 0)) by lia. repeat (destruct (_ <=? 0); [done |]). done.
Qed.

(** ** One attempt *)

Section transfer.
Context (base : Z) (m0 : mem).

(** The bytes [bs] of the file are in memory, and [k] is the position after
    them, a prefix pending or not. *)
Definition holds (bs : list Z) (esc : bool) (k : cursor) (s : kermit) : Prop :=
  k = mk_cursor 0 (base + len bs) esc /\ bin_start_address s = base /\
  load (kmem s) base (length bs) = bs /\ (forall x, x < base -> kmem s x = m0 x) /\
  length (send_parms s) = 20%nat.

(** Before an attempt at packet [n], the first one or a later one. *)
Definition before (n : Z) (bs : list Z) (esc : bool) (s : kermit) : Prop :=
  (last_n s <> n /\ holds bs esc (cur s) s) \/ (last_n s = n /\ holds bs esc (cur_saved s) s).

(** After an attempt at it. *)
Definition tried (n : Z) (bs : list Z) (esc : bool) (s : kermit) : Prop :=
  last_n s = n /\ holds bs esc (cur_saved s) s.

Lemma check_sequence_spec n bs esc s : before n bs esc s ->
  let s1 := check_sequence (set_seq_n n s) in
  cur s1 = cur_saved s1 /\ his s1 = his s /\ send_ptr s1 = send_ptr s /\ tried n bs esc s1.
Proof.
  intros H. unfold check_sequence, tried, holds. simpl.
  destruct H as [[Hn H]|[Hn H]]; [rewrite (proj2 (Z.eqb_neq _ _)) by congruence | rewrite (proj2 (Z.eqb_eq _ _)) by done];
    simpl; split_and!; try done; apply H.
Qed.

(** Changes ahead of the write position do not matter. *)
Lemma tried_kept n bs esc s s' : kept s s' -> cur s = cur_saved s -> tried n bs esc s -> tried n bs esc s'.
Proof.
  intros (H1 & H2 & H3 & H4 & H5 & H6 & H7 & H8 & H9 & H10) Hc [Hn (Hk & Hb & Hl & Hm & Hs)].
  split; [congruence |]. rewrite Hc, Hk in H10. cbn [os_data_addr] in H10.
  split_and!; [congruence | congruence | | | congruence].
  - rewrite <- Hl at 2. apply load_ext. intros i Hi. apply H10. lia.
  - intros x Hx. rewrite H10 by lia. auto.
Qed.

Lemma damaged_packet n a bs esc s i : 0 <= n < 64 -> damaged n a = true -> before n bs esc s ->
  exists s', one_packet s (a ++ i) = Some (false, s', i) /\ his s' = his s /\ tried n bs esc s'.
Proof.
  intros Hn Hd Hb. destruct a as [|l [|c a]]; [done | done |]. cbn [damaged] in Hd.
  apply andb_true_iff in Hd as [Hd Hr]. apply andb_true_iff in Hd as [Hl Hc].
  apply bool_decide_eq_true in Hl. apply Z.eqb_eq in Hc. subst c.
  assert (Hpn : printable (tochar n)) by (apply tochar_printable; lia).
  pose proof (read_packet_uniform blank s (l :: tochar n :: a) i) as Hu.
  destruct (read_packet blank _) as [[[[?|?] ?] [|]]|]; try done. destruct Hu as [s2 E]. clear Hr.
  unfold one_packet. rewrite E. cbn [app] in E.
  unfold read_packet in E. erewrite bind_ok in E by (by apply get_printable_ok).
  cbv zeta in E. erewrite bind_ok in E by (by apply get_printable_ok).
  do 2 (erewrite bind_ok in E by reflexivity). rewrite untochar_tochar in E by lia.
  apply (proj2 (read_rest_any _ _)) in E.
  destruct (check_sequence_spec n bs esc s Hb) as (H1 & H2 & _ & H3).
  pose proof (tried_kept _ _ _ _ _ E H1 H3) as H4. destruct E as (E1 & _).
  eexists. split; [reflexivity |]. split; [simpl; congruence |]. exact H4.
Qed.

(** The data part of [copy_packet]. *)
Lemma tried_data n bs esc s l : k_state s = DATA_TYPE -> cur s = cur_saved s -> tried n bs esc s ->
  let '(d, e) := unquote (his_quote (his s)) esc l in
  tried n bs esc (take_all l s) /\ his (take_all l s) = his s /\
  holds (bs ++ d) e (cur (take_all l s)) (take_all l s).
Proof.
  intros Hk Hc [Hn (Hu & Hb & Hl & Hm & Hs)]. rewrite <- Hc in Hu.
  pose proof (take_all_data l s _ _ Hk Hu) as E. destruct (unquote _ _ _) as [d e]. rewrite E.
  unfold tried, holds. simpl. rewrite <- Hc, Hu.
  split_and!; try done.
  - rewrite load_store_list_disjoint by lia. done.
  - intros x Hx. rewrite store_list_out by lia. auto.
  - f_equal. rewrite length_app. lia.
  - rewrite length_app, load_app, load_store_list_disjoint, load_store_list, Hl by lia. done.
  - intros x Hx. rewrite store_list_out by lia. auto.
Qed.

Lemma copy_packet p bs esc s i : good_packet p -> typ p <> SEND_TYPE -> before (seq p) bs esc s ->
  let '(d, e) := unquote (his_quote (his s)) esc (data_of p) in
  exists s', one_packet s (packet_text p ++ i) = Some (typ p =? BREAK_TYPE, s', i) /\ his s' = his s /\
    tried (seq p) bs esc s' /\ holds (bs ++ d) e (cur s') s'.
Proof.
  intros Hp Ht Hb. unfold one_packet. rewrite read_packet_ok by done.
  destruct (check_sequence_spec _ _ _ _ Hb) as (H1 & H2 & _ & H3). set (s1 := check_sequence _) in *.
  assert (Hk : k_state (take_all (payload p) (set_k_state (typ p) s1)) = typ p).
  { generalize (set_k_state (typ p) s1), (eq_refl : k_state (set_k_state (typ p) s1) = typ p).
    induction (payload p) as [|c l IH]; intros s0 H0; [done |]. apply IH. rewrite <- H0.
    unfold take_char, k_data_char, bin_data_char. repeat case_match; done. }
  rewrite Hk, (proj2 (Z.eqb_neq _ _) Ht). rewrite <- H2. unfold data_of. destruct (Z.eqb_spec (typ p) DATA_TYPE) as [Hd|Hd].
  - pose proof (tried_data (seq p) bs esc (set_k_state (typ p) s1) (payload p) Hd H1 H3) as H.
    simpl his in H. destruct (unquote _ _ _) as [d e]. eexists. split; [reflexivity |]. tauto.
  - simpl unquote. cbv iota beta. rewrite app_nil_r. rewrite take_all_other by done.
    eexists. split; [reflexivity |]. split_and!; [done | exact H3 |]. destruct H3 as [_ H3]. rewrite <- H1 in H3. exact H3.
Qed.

Lemma copy_send p bs esc s i : good_packet p -> typ p = SEND_TYPE -> send_ptr s = 0 -> before (seq p) bs esc s ->
  exists s', one_packet s (packet_text p ++ i) = Some (false, s', i) /\
    his_quote (his s') = quote_of (payload p) /\ tried (seq p) bs esc s' /\ holds bs esc (cur s') s'.
Proof.
  intros Hp Ht Hs Hb. unfold one_packet. rewrite read_packet_ok by done.
  destruct (check_sequence_spec _ _ _ _ Hb) as (H1 & _ & H2 & H3). set (s1 := check_sequence _) in *.
  destruct (take_all_send (payload p) (set_k_state (typ p) s1)) as (sp & -> & Hl & Hi); [done | simpl; congruence | apply H3 |].
  simpl k_state. rewrite Ht. cbn [Z.eqb SEND_TYPE Pos.eqb].
  pose proof (negotiate_quote (payload p) sp Hi) as Hq. cbv zeta in Hq.
  unfold handle_send_packet. simpl send_ptr. simpl send_parms. destruct (negotiate _ _) as [h a]. simpl fst in Hq.
  eexists. split; [reflexivity |]. split; [exact Hq |].
  destruct H3 as [Hn (Hk & Hbs & Hld & Hm & _)]. unfold tried, holds. simpl. rewrite H1. split_and!; done.
Qed.

(** ** The session *)

Lemma wait_start_noise l i : good_noise l -> wait_start (l ++ START_CHAR :: i) = Some (true, i).
Proof.
  induction l as [|c l IH]; intros H; [done |]. apply Forall_cons in H as [[H1 H2] H]. cbn [app wait_start].
  rewrite (proj2 (Z.eqb_neq _ _) H1), (proj2 (Z.eqb_neq _ _) H2). auto.
Qed.

(** What an intact copy of [p] adds to the file and makes of the prefix. *)
Definition accepted (p : packet) (q : Z) (bs : list Z) (esc : bool) (s : kermit) : Prop :=
  if decide (typ p = SEND_TYPE) then his_quote (his s) = quote_of (payload p) /\ holds bs esc (cur s) s
  else
    let '(d, e) := unquote q esc (data_of p) in
    his_quote (his s) = q /\ holds (bs ++ d) e (cur s) s.

(** A turn of the loop: any attempt at a packet that is not the last. *)
Lemma attempt_turn p t bs esc s f i : good_packet p -> typ p <> BREAK_TYPE -> good_attempt p t ->
  before (seq p) bs esc s ->
  exists s', recv_loop (S f) s (attempt_text p t ++ i) = recv_loop f s' i /\ tried (seq p) bs esc s' /\
    (typ p <> SEND_TYPE -> his_quote (his s') = his_quote (his s)) /\
    (broken t = None -> accepted p (his_quote (his s)) bs esc s').
Proof.
  intros Hp Ht [Hnoise Hbr] Hb. unfold attempt_text. rewrite <- app_assoc. cbn [app recv_loop].
  rewrite wait_start_noise by done. set (s1 := set_send (send_parms s) 0 s).
  assert (Hb1 : before (seq p) bs esc s1) by exact Hb. pose proof (proj1 Hp) as Hn.
  destruct (broken t) as [a|].
  - destruct (damaged_packet (seq p) a bs esc s1 i Hn Hbr Hb1) as (s' & -> & Hh & H). exists s'.
    split_and!; [done | done | by rewrite Hh | done].
  - unfold accepted. destruct (decide (typ p = SEND_TYPE)) as [He|He].
    + destruct (copy_send p bs esc s1 i Hp He eq_refl Hb1) as (s' & -> & H1 & H2 & H3). exists s'. by split_and!.
    + pose proof (copy_packet p bs esc s1 i Hp He Hb1) as H. simpl his in H. destruct (unquote _ _ _) as [d e].
      destruct H as (s' & -> & H1 & H2 & H3). exists s'. rewrite (proj2 (Z.eqb_neq _ _) Ht), H1. by split_and!.
Qed.

(** All attempts at a packet, the last one intact. *)
Lemma sent_turns p ts lastn bs esc s f i : good_packet p -> typ p <> BREAK_TYPE ->
  Forall (good_attempt p) (ts ++ [mk_attempt lastn None]) -> before (seq p) bs esc s ->
  exists s', recv_loop (length ts + S f) s (concat (map (attempt_text p) (ts ++ [mk_attempt lastn None])) ++ i) =
      recv_loop f s' i /\ last_n s' = seq p /\ accepted p (his_quote (his s)) bs esc s'.
Proof.
  intros Hp Ht. revert s. induction ts as [|t ts IH]; intros s Hts Hb; apply Forall_cons in Hts as [Htry Hts].
  - simpl map. simpl concat. rewrite app_nil_r.
    destruct (attempt_turn p _ bs esc s f i Hp Ht Htry Hb) as (s' & E & [H1 _] & _ & H2).
    exists s'. split; [exact E |]. split; [done |]. by apply H2.
  - cbn [app map concat length Nat.add]. rewrite <- app_assoc.
    destruct (attempt_turn p t bs esc s (length ts + S f) (concat (map (attempt_text p) (ts ++ [mk_attempt lastn None])) ++ i)
      Hp Ht Htry Hb) as (s1 & -> & H1 & H2 & _).
    destruct (IH s1 Hts (or_intror H1)) as (s' & E & H3 & H4).
    exists s'. split; [exact E |]. split; [done |].
    unfold accepted in *. destruct (decide _); [done |]. by rewrite <- H2 by done.
Qed.

(** The packets between the first and the last. *)
Lemma middle_turns xs : forall q bs esc s f i,
  Forall (fun x => good_sent x /\ typ (pkt x) <> SEND_TYPE /\ typ (pkt x) <> BREAK_TYPE) xs ->
  (forall k x, (last_n s :: map (fun x => seq (pkt x)) xs) !! k = Some x ->
     map (fun x => seq (pkt x)) xs !! k <> Some x) ->
  his_quote (his s) = q -> holds bs esc (cur s) s ->
  let '(d, e) := unquote q esc (concat (map (fun x => data_of (pkt x)) xs)) in
  exists s', recv_loop (length (concat (map all_attempts xs)) + f) s (concat (map line_of xs) ++ i) = recv_loop f s' i /\
    last (last_n s :: map (fun x => seq (pkt x)) xs) = Some (last_n s') /\
    holds (bs ++ d) e (cur s') s'.
Proof.
  induction xs as [|x xs IH]; intros q bs esc s f i Hxs Hseq Hq Hh.
  - simpl. rewrite app_nil_r. eauto.
  - apply Forall_cons in Hxs as [([Hp Hts] & Ht1 & Ht2) Hxs]. destruct x as [p ts ln]. cbn [pkt] in *.
    cbn [map concat pkt]. assert (Hb : before (seq p) bs esc s).
    { left. split; [| done]. intros E. apply (Hseq 0%nat (last_n s)); simpl; congruence. }
    destruct (sent_turns p ts ln bs esc s (length (concat (map all_attempts xs)) + f) (concat (map line_of xs) ++ i) Hp Ht2 Hts Hb)
      as (s1 & E1 & Hl1 & Ha).
    unfold accepted in Ha. rewrite decide_False in Ha by done. rewrite unquote_app, Hq in *.
    destruct (unquote q esc (data_of p)) as [d1 e1]. cbn [fst snd]. destruct Ha as [Hq1 Hh1].
    specialize (IH q (bs ++ d1) e1 s1 f i Hxs). destruct (unquote q e1 _) as [d2 e2]. cbn [fst snd].
    destruct IH as (s' & E & H1 & H2); [| done | done |].
    + intros k y Hy. rewrite Hl1 in Hy. apply (Hseq (S k) y). exact Hy.
    + exists s'. rewrite <- app_assoc in H2. split_and!; [| | exact H2].
      * rewrite <- E, <- E1, <- app_assoc. unfold all_attempts at 1. rewrite !length_app. f_equal. simpl. lia.
      * rewrite Hl1 in H1. rewrite last_cons_cons. exact H1.
Qed.
End transfer.

(** The attempts at the last packet before its intact copy. *)
Lemma broken_turns base m0 p ts bs esc : forall s f i, good_packet p -> typ p = BREAK_TYPE ->
  Forall (fun t => good_attempt p t /\ broken t <> None) ts -> before base m0 (seq p) bs esc s ->
  exists s', recv_loop (length ts + f) s (concat (map (attempt_text p) ts) ++ i) = recv_loop f s' i /\
    before base m0 (seq p) bs esc s'.
Proof.
  induction ts as [|t ts IH]; intros s f i Hp Ht Hts Hb; [eauto |].
  apply Forall_cons in Hts as [[[Hnoise Htry] Hbr] Hts]. cbn [map concat length Nat.add]. rewrite <- !app_assoc.
  unfold attempt_text at 1. destruct (broken t) as [a|]; [| done]. rewrite <- app_assoc. cbn [app recv_loop].
  rewrite wait_start_noise by done.
  destruct (damaged_packet base m0 (seq p) a bs esc (set_send (send_parms s) 0 s)
    (concat (map (attempt_text p) ts) ++ i) (proj1 Hp) Htry Hb) as (s1 & -> & _ & H1).
  apply IH; [done | done | done | by right].
Qed.

(** Fuel beyond what is needed changes nothing. *)
Lemma recv_loop_mono f f' s i r : recv_loop f s i = Some r -> (f <= f')%nat -> recv_loop f' s i = Some r.
Proof.
  revert f' s i. induction f as [|f IH]; intros [|f'] s i E Hle; try done; [lia |]. cbn [recv_loop] in *.
  destruct (wait_start i) as [[[|] i1]|]; [| done | done].
  destruct (one_packet _ i1) as [[[[|] s1] i2]|]; [done | | done]. apply IH; [done | lia].
Qed.

(** The last packet: the loop ends with the size of the file. *)
Lemma final_turns base m0 p ts ln file s rest : good_sent (mk_sent p ts ln) -> typ p = BREAK_TYPE ->
  Forall (fun t => broken t <> None) ts -> last_n s <> seq p -> holds base m0 file false (cur s) s ->
  len file < 2 ^ 31 ->
  exists s', recv_loop (length ts + 1) s (line_of (mk_sent p ts ln) ++ rest) = Some (len file, s', rest) /\
    load (kmem s') base (length file) = file /\ forall a, a < base -> kmem s' a = m0 a.
Proof.
  intros [Hp Ha] Ht Hbr Hn Hh Hlen. unfold line_of, all_attempts in *. cbn [pkt attempts last_noise] in *.
  apply Forall_app in Ha as [Ha Hlast]. apply Forall_cons in Hlast as [Hlast _].
  destruct (broken_turns base m0 p ts file false s 1 (attempt_text p (mk_attempt ln None) ++ rest) Hp Ht) as (s1 & E1 & H1).
  { apply Forall_and. split; [exact Ha | exact Hbr]. }
  { left. split; [congruence | exact Hh]. }
  pose proof (copy_packet base m0 p file false (set_send (send_parms s1) 0 s1) rest Hp ltac:(by rewrite Ht) H1) as H2.
  unfold data_of in H2. rewrite Ht in H2. cbn [Z.eqb BREAK_TYPE DATA_TYPE Pos.eqb unquote] in H2.
  destruct H2 as (s' & E2 & _ & _ & (Hk & Hb & Hl & Hm & _)). rewrite app_nil_r in *. exists s'. split; [| done].
  rewrite map_app, concat_app. cbn [map concat]. rewrite app_nil_r, <- app_assoc, E1.
  unfold attempt_text. cbn [noise broken recv_loop]. rewrite <- app_assoc. cbn [app]. rewrite wait_start_noise by apply Hlast.
  rewrite E2, Hk, Hb. cbn [os_data_addr]. do 3 f_equal. unfold swrap. rewrite Z.mod_small; lia.
Qed.

(** A whole session, in the order of the protocol. *)
Record session := mk_session { first : sent; middle : list sent; final : sent }.

Definition packets (x : session) : list sent := first x :: middle x ++ [final x].

(** The first packet announces the parameters, the last one ends the
    transmission; packets are numbered modulo 64; a copy of the last packet
    is not sent again after an intact one, which the receiver does not wait
    for. *)
Definition good_session (x : session) : Prop :=
  Forall good_sent (packets x) /\
  typ (pkt (first x)) = SEND_TYPE /\ typ (pkt (final x)) = BREAK_TYPE /\
  Forall (fun y => typ (pkt y) <> SEND_TYPE /\ typ (pkt y) <> BREAK_TYPE) (middle x) /\
  Forall (fun t => broken t <> None) (attempts (final x)) /\
  map (fun y => seq (pkt y)) (packets x) = map (fun k => Z.of_nat k mod 64) (List.seq 0 (length (packets x))).

Definition quote_used (x : session) : Z := quote_of (payload (pkt (first x))).

(** The text of the data packets is the quoted file, split anywhere. *)
Definition carries (x : session) (file : list Z) : Prop :=
  concat (map (fun y => data_of (pkt y)) (middle x)) = concat (map (kquote (quote_used x)) file).

Lemma line_length x : (length (all_attempts x) <= length (line_of x))%nat.
Proof.
  unfold line_of. induction (all_attempts x) as [|t ts IH]; simpl; [lia |].
  rewrite length_app. unfold attempt_text at 1. rewrite length_app. simpl. lia.
Qed.

Lemma lines_length xs : (length (concat (map all_attempts xs)) <= length (concat (map line_of xs)))%nat.
Proof.
  induction xs as [|x xs IH]; simpl; [lia |]. rewrite !length_app. pose proof (line_length x). lia.
Qed.

(** Numbers modulo 64 tell neighbours apart. *)
Lemma neighbours_differ x : good_session x -> let ns := map (fun y => seq (pkt y)) (middle x) in
  (forall k v, (seq (pkt (first x)) :: ns) !! k = Some v -> ns !! k <> Some v) /\
  last (seq (pkt (first x)) :: ns) <> Some (seq (pkt (final x))).
Proof.
  intros (_ & _ & _ & _ & _ & E) ns. unfold packets in E. cbn [map] in E. rewrite map_app in E. fold ns in E. cbn [map] in E.
  set (L := seq (pkt (first x)) :: ns ++ [seq (pkt (final x))]) in *.
  assert (HL : forall k v, L !! k = Some v -> v = Z.of_nat k mod 64).
  { intros k v Hk. rewrite E, list_lookup_fmap in Hk. destruct (List.seq 0 _ !! k) eqn:Es; [| done].
    apply lookup_seq in Es as [-> _]. simpl in Hk. congruence. }
  assert (Hne : forall k v, L !! k = Some v -> L !! S k <> Some v).
  { intros k v H1 H2. apply HL in H1, H2. rewrite H1 in H2. clear -H2. Z.div_mod_to_equations. lia. }
  split.
  - intros k v H1 H2. apply (Hne k v).
    + change L with ((seq (pkt (first x)) :: ns) ++ [seq (pkt (final x))]). by apply lookup_app_l_Some.
    + simpl. by apply lookup_app_l_Some.
  - rewrite last_lookup. intros H. apply (Hne (length ns) (seq (pkt (final x)))).
    + change L with ((seq (pkt (first x)) :: ns) ++ [seq (pkt (final x))]). by apply lookup_app_l_Some.
    + simpl. by rewrite lookup_app_r, Nat.sub_diag by lia.
Qed.

(** What [kermit_transfer] says, for the commands that build on it. *)
Lemma kermit_receives base s x file rest :
  length (send_parms s) = 20%nat -> good_session x -> good_quote (quote_used x) -> Forall byte file ->
  carries x file -> len file < 2 ^ 31 ->
  exists s', k_recv (set_kerm_bin_mode base s) (concat (map line_of (packets x)) ++ rest) = Some (len file, s', rest) /\
    load (kmem s') base (length file) = file /\ forall a, a < base -> kmem s' a = kmem s a.
Proof.
  intros Hsp Hx Hq Hf Hc Hlen. destruct (neighbours_differ x Hx) as [Hd1 Hd2].
  destruct Hx as (Hg & Ht1 & Ht2 & Hmid & Hbr & Hseq). unfold packets in Hg, Hseq.
  apply Forall_cons in Hg as [Hg1 Hg]. apply Forall_app in Hg as [Hg2 Hg3]. apply Forall_cons in Hg3 as [Hg3 _].
  destruct x as [x1 xs x2]. destruct x1 as [p1 ts1 l1], x2 as [p2 ts2 l2]. unfold packets, carries, quote_used in *. cbn [first middle final pkt attempts last_noise] in *.
  unfold k_recv. set (s0 := mk_kermit _ _ _ _ _ _ _ _ _ _ _ _).
  destruct Hg1 as [Hp1 Ha1]. unfold all_attempts in Ha1. cbn [pkt attempts last_noise] in *.
  set (i2 := line_of (mk_sent p2 ts2 l2) ++ rest). set (i1 := concat (map line_of xs) ++ i2).
  set (f2 := (length ts2 + 1)%nat). set (f1 := (length (concat (map all_attempts xs)) + f2)%nat).
  replace (concat (map line_of (mk_sent p1 ts1 l1 :: xs ++ [mk_sent p2 ts2 l2])) ++ rest) with (line_of (mk_sent p1 ts1 l1) ++ i1).
  2: { cbn [map concat]. rewrite map_app, concat_app. cbn [map concat]. rewrite app_nil_r. unfold i1, i2. by rewrite <- !app_assoc. }
  assert (Hh0 : before base (kmem s) (seq p1) [] false s0).
  { left. split; [pose proof (proj1 Hp1); simpl; lia |]. split_and!; try done. simpl. by rewrite Z.add_0_r. }
  (* the announcement *)
  destruct (sent_turns base (kmem s) p1 ts1 l1 [] false s0 f1 i1 Hp1 ltac:(by rewrite Ht1) Ha1 Hh0) as (sa & Ea & Hla & Hacc).
  unfold accepted in Hacc. rewrite decide_True in Hacc by done. destruct Hacc as [Hqa Hha].
  (* the file *)
  pose proof (middle_turns base (kmem s) xs (quote_of (payload p1)) [] false sa f2 i2) as Hm.
  rewrite Hc, unquote_text in Hm by done. destruct Hm as (sb & Eb & Hlb & Hhb); [| by rewrite Hla | done | done |].
  { apply Forall_and. split; [exact Hg2 | exact Hmid]. }
  (* the end *)
  rewrite Hla in Hlb. rewrite app_nil_l in Hhb.
  destruct (final_turns base (kmem s) p2 ts2 l2 file sb rest) as (s' & Ec & H); try done; [congruence |].
  exists s'. split; [| done]. apply (recv_loop_mono (length ts1 + S f1)).
  - unfold line_of, all_attempts. cbn [pkt attempts last_noise]. rewrite Ea. unfold i1, f1. rewrite Eb. exact Ec.
  - unfold f1, f2, i1, i2. rewrite !length_app. pose proof (line_length (mk_sent p1 ts1 l1)). pose proof (line_length (mk_sent p2 ts2 l2)).
    pose proof (lines_length xs). unfold all_attempts in *. cbn [attempts last_noise] in *. rewrite length_app in *. simpl length in *. lia.
Qed.


(** On any line whatever, a packet that ends in an error after its
    sequence number has been read takes back all it did: the write position
    and the pending prefix are those of the checkpoint (of this packet when
    the number is new, of the earlier attempt when it is repeated), memory
    below the write position and the parameters are as before, and exactly
    one negative acknowledgement with that number is sent. *)
Theorem packet_error_restores s l c i s1 i' : printable l -> printable c ->
  read_packet s (l :: c :: i) = Some (Err tt, s1, i') ->
  exists s', one_packet s (l :: c :: i) = Some (false, s', i') /\
    cur s' = (if untochar c =? last_n s then cur_saved s else cur s) /\
    (forall a, a < os_data_addr (cur s') -> kmem s' a = kmem s a) /\
    his s' = his s /\ last_n s' = untochar c /\
    out s' = out s ++ send_pad (his s) ++ upto_nul ([START_CHAR; tochar 3; tochar (untochar c); NACK_TYPE;
      tochar (chk1 [tochar 3; tochar (untochar c); NACK_TYPE]); his_eol (his s)]).
Proof.
  intros Hl Hc E. unfold one_packet. rewrite E. eexists. split; [reflexivity |].
  unfold read_packet in E. erewrite bind_ok in E by (by apply get_printable_ok).
  cbv zeta in E. erewrite bind_ok in E by (by apply get_printable_ok).
  do 2 (erewrite bind_ok in E by reflexivity). apply (proj2 (read_rest_any _ _)) in E.
  revert E. unfold check_sequence. simpl seq_n. simpl last_n.
  destruct (Z.eqb_spec (untochar c) (last_n s)) as [Hn|Hn];
    intros (H1 & H2 & H3 & H4 & H5 & H6 & H7 & H8 & H9 & H10); simpl in *; rewrite H1, H2, H4, H6; split_and!; try done; congruence.
Qed.

(** [S (length i)] turns are enough: with that fuel the loop fails to return
    only because the line has no more characters. *)
Lemma wait_start_shorter i b i' : wait_start i = Some (b, i') -> (length i' < length i)%nat.
Proof.
  induction i as [|c i IH]; simpl; [done |]. destruct (_ =? _); [intros [= <- <-]; lia |].
  destruct (_ =? _); [intros [= <- <-]; lia |]. intros H. apply IH in H. lia.
Qed.

Definition shrinks {A} (m : reader A) : Prop :=
  forall s i r s' i', m s i = Some (r, s', i') -> (length i' <= length i)%nat.

Lemma shrinks_bind {A B} (m : reader A) (f : A -> reader B) :
  shrinks m -> (forall a, shrinks (f a)) -> shrinks (bind m f).
Proof.
  intros Hm Hf s i r s' i' E. unfold bind in E. destruct (m s i) as [[[[a|e] s1] i1]|] eqn:Em; [| | done].
  - apply Hm in Em. apply Hf in E. lia.
  - injection E as <- <- <-. by eapply Hm.
Qed.

Lemma shrinks_basic : (forall A (a : A), shrinks (ret a)) /\ (forall A, shrinks (packet_error (A := A))) /\
  (forall f, shrinks (modify f)) /\ shrinks getc.
Proof.
  split_and!; [intros A a | intros A | intros f |]; intros s i r s' i'; try by intros [= <- <- <-].
  destruct i; simpl; [done |]. intros [= <- <- <-]. lia.
Qed.

Lemma read_packet_shrinks : shrinks read_packet.
Proof.
  destruct shrinks_basic as (H1 & H2 & H3 & H4).
  assert (Hp : shrinks get_printable) by (apply shrinks_bind; [done | intros c]; by destruct (_ =? 0)).
  assert (Hb : forall k t, shrinks (read_body k t)).
  { induction k as [|k IH]; intros t; [apply H1 |]. apply shrinks_bind; [done | intros c]. by apply shrinks_bind. }
  repeat (intros; cbv zeta; first [solve [auto] | match goal with |- context [if ?b then _ else _] => destruct b end | apply shrinks_bind]).
Qed.

Lemma recv_loop_enough f s i f' : (length i < f)%nat -> (length i < f')%nat -> recv_loop f s i = recv_loop f' s i.
Proof.
  revert s i f'. induction f as [|f IH]; intros s i [|f'] H H'; try lia. cbn [recv_loop].
  destruct (wait_start i) as [[[|] i1]|] eqn:Ew; [| done | done]. apply wait_start_shorter in Ew.
  destruct (one_packet _ i1) as [[[[|] s1] i2]|] eqn:Eo; [done | | done].
  assert ((length i2 <= length i1)%nat).
  { unfold one_packet in Eo. destruct (read_packet _ i1) as [[[[?|?] s2] i3]|] eqn:Er; [| | done];
      apply read_packet_shrinks in Er; [destruct (_ =? _) in Eo |]; by simplify_eq. }
  apply IH; lia.
Qed.

(** ** Concrete sessions *)

Definition demo_file : list Z := [1; 2; 35; 127; 255; 128; 65; 163; 10; 0].

(** An announcement, a file name, the data in two packets split inside a
    quoted byte, the second one first damaged and then sent twice, and the
    end; '&' is the prefix. *)
Definition demo_session : session :=
  let text := concat (map (kquote 38) demo_file) in
  let d2 := mk_packet true 3 DATA_TYPE (drop 3 text) in
  mk_session
    (mk_sent (mk_packet false 0 SEND_TYPE (str "~* @-&N1")) [] (str "press a key"))
    [mk_sent (mk_packet false 1 70 (str "vmlinux")) [] [];
     mk_sent (mk_packet false 2 DATA_TYPE (take 3 text)) [] [10];
     mk_sent d2 [mk_attempt [] (Some (take 9 (packet_text d2) ++ [10])); mk_attempt [] None;
                 mk_attempt [0] (Some (take 9 (packet_text d2) ++ [84] ++ drop 10 (removelast (packet_text d2))))] [];
     mk_sent (mk_packet false 4 90 []) [] []]
    (mk_sent (mk_packet false 5 BREAK_TYPE []) [mk_attempt [] (Some [35; 37; 66; 67])] []).

Lemma demo_session_good : good_session demo_session.
Proof.
  assert (Hn : forall x, forallb (fun t => bool_decide (good_noise (noise t)) &&
      match broken t with Some a => damaged (seq (pkt x)) a | None => true end) (all_attempts x) = true ->
    Forall (good_attempt (pkt x)) (all_attempts x)).
  { intros x H. apply Forall_forall. intros t Ht. rewrite forallb_forall in H.
    specialize (H t (proj1 (list_elem_of_In _ _) Ht)). apply andb_true_iff in H as [H1 H2].
    apply bool_decide_eq_true in H1. split; [done |]. by destruct (broken t). }
  split_and!; [| done | done | by_eval | | vm_compute; reflexivity].
  - repeat (apply Forall_cons; split; [split; [split_and!; by_eval | apply Hn; vm_compute; reflexivity] |]). apply Forall_nil; done.
  - apply Forall_cons; split; [discriminate | by apply Forall_nil].
Qed.


Lemma packet_error_restores_witness :
  exists s', one_packet (set_seq_n 7 blank) [36; 33; 68; 65; 10] = Some (false, s', []) /\ cur s' = cur blank.
Proof.
  destruct (packet_error_restores (set_seq_n 7 blank) 36 33 [68; 65; 10]
    (set_cur (mk_cursor 0 1 false) (set_kmem (store (kmem blank) 0 65)
      (set_k_state 68 (check_sequence (set_seq_n 1 blank))))) []) as (s' & E & H & _).
  - vm_compute. intuition discriminate.
  - vm_compute. intuition discriminate.
  - reflexivity.
  - exists s'. split; [exact E | exact H].
Defined.

(** ** What the hypotheses exclude *)

(** An error before the sequence number is read takes back the packet before,
    which had been acknowledged: here "abc" is overwritten, and every data
    packet the sender knows of has been acknowledged. *)
Lemma early_error_drops_packet :
  let pk n t d := START_CHAR :: packet_text (mk_packet false n t d) in
  match k_recv (set_kerm_bin_mode 0x1000 blank)
    (pk 0 SEND_TYPE [] ++ pk 1 DATA_TYPE (str "abc") ++ [START_CHAR; 5] ++ pk 2 DATA_TYPE (str "def") ++ pk 3 BREAK_TYPE []) with
  | Some (size, s', []) => size = 3 /\ load (kmem s') 0x1000 3 = str "def"
  | _ => False
  end.
Proof. vm_compute. done. Qed.
