(* ===== verification/Loads.v ===== *)
(** * S-record download: the [loads] part of common/cmd_load.c

    [load_serial] reads lines from the console, decodes them ([SRecord]) and
    stores the data in RAM or, through the driver ([Flash]), in flash; at the
    end record it leaves the size in the variable "filesize" ([Env], written
    with the format of [Vsprintf]).  The line is the list of the characters
    still to come; a reader that runs out of them blocks ([None]).  The echo,
    the progress dots and the messages are not modelled.

    After every character [read_record] compares [gd->jt[XF_getc]] with
    [getc]; [jt_getc] is the outcome.  The board's start-up never fills that
    table, so the comparison fails and [ctrlc] takes a character that has
    already arrived off the line; [pending] says when one has.

    The theorems: a file of records is placed as its addresses say, the start
    address of the end record is returned and "filesize" is the extent, when
    no character is taken off the line; a bad record aborts the download. *)

From S2P Require Import Prelude Memory Vsprintf Env Flash SRecord.

Local Open Scope Z_scope.

Definition SREC_MAXRECLEN : Z := 512 + 4.

(** Where the records go, and the environment. *)
Record system (W console : Type) := mk_system {
  ram : mem;
  chip : W;
  envs : env_store;
  vars : env_vars console;
}.
Arguments mk_system {W console}.
Arguments ram {W console}.
Arguments chip {W console}.
Arguments envs {W console}.
Arguments vars {W console}.

Section loads.
Context {W : Type} `{nor_ops W} {console : Type} (console_assign : Z -> list Z -> console -> Z * console).
Context (jt_getc : bool) (pending : list Z -> bool).

Definition tstc (line : list Z) : bool := match line with [] => false | _ => pending line end.

(** Whether ^C is pending; a pending character is consumed. *)
Definition ctrlc (line : list Z) : bool * list Z :=
  if tstc line then (chr line =? 3, tail line) else (false, line).

(** [read_record] with room for [k] more characters after [buf]. *)
Fixpoint read_record (k : nat) (buf line : list Z) : option (Z * list Z * list Z) :=
  match k with
  | O => Some (len buf, buf, line)
  | S k' =>
      match line with
      | [] => None
      | c :: line =>
          if (c =? 13) || (c =? 10) then Some (len buf, buf, line)
          else if (c =? 0) || (c =? 3) then Some (-1, buf, line)
          else if negb jt_getc then
            let '(hit, line) := ctrlc line in
            if hit then Some (-1, buf ++ [c], line) else read_record k' (buf ++ [c]) line
          else read_record k' (buf ++ [c]) line
      end
  end.

(** The local variables of [load_serial] that live across records. *)
Record progress := mk_progress {
  binbuf : mem;
  binlen : Z;
  srec_addr : Z;
  start_addr : Z;
  end_addr : Z;
}.

(** A data record: no [progress] after an error of [flash_write]. *)
Definition store_record (fuel : nat) (info : flash_info_t) (offset : Z) (p : progress) (s : system W console)
    : option (option progress * system W console) :=
  let store_addr := u32 (srec_addr p + offset) in
  let p' := mk_progress (binbuf p) (binlen p) (srec_addr p)
              (if store_addr <? start_addr p then store_addr else start_addr p)
              (if end_addr p <? u32 (store_addr + binlen p - 1) then u32 (store_addr + binlen p - 1) else end_addr p) in
  if addr2info info store_addr then
    match flash_write fuel info (binbuf p) 0 store_addr (binlen p) (chip s) with
    | None => None
    | Some (rc, w) =>
        Some (if truth rc then None else Some p', mk_system (ram s) w (envs s) (vars s))
    end
  else
    let m := store_list (ram s) store_addr (load (binbuf p) 0 (Z.to_nat (u32 (binlen p)))) in
    Some (Some p', mk_system m (chip s) (envs s) (vars s)).

(** "filesize", printed with the format [fmt]. *)
Definition set_filesize (fmt : list Z) (size : Z) (s : system W console) : option (system W console) :=
  match sprintf fmt [VWord size] with
  | None => None
  | Some (buf, _) =>
      match setenv console console_assign (str "filesize") (Some (take_while (fun c => negb (c =? 0)) buf)) (envs s) (vars s) with
      | None => None
      | Some (_, e, v) => Some (mk_system (ram s) (chip s) e v)
      end
  end.

Definition is_data (t : Z) : bool := (t =? SREC_DATA2) || (t =? SREC_DATA3) || (t =? SREC_DATA4).
Definition is_end (t : Z) : bool := (t =? SREC_END2) || (t =? SREC_END3) || (t =? SREC_END4).

Definition aborted : Z := u32 (Z.lnot 0).

(** The loop over the records; [turns] bounds their number. *)
Fixpoint load_loop (turns fuel : nat) (info : flash_info_t) (offset : Z) (p : progress) (s : system W console)
    (line : list Z) : option (Z * system W console * list Z) :=
  match turns with
  | O => None
  | S t =>
      match read_record (Z.to_nat SREC_MAXRECLEN) [] line with
      | None => None
      | Some (rc, record, line) =>
          if rc <? 0 then Some (aborted, s, line)
          else
            let r := srec_decode record (binlen p) (srec_addr p) in
            let p := mk_progress (store_list (binbuf p) 0 (SRecord.data r)) (count r) (addr r) (start_addr p) (end_addr p) in
            if SRecord.rc r <? 0 then Some (aborted, s, line)
            else if is_data (SRecord.rc r) then
              match store_record fuel info offset p s with
              | None => None
              | Some (None, s) => Some (aborted, s, line)
              | Some (Some p, s) => load_loop t fuel info offset p s line
              end
            else if is_end (SRecord.rc r) then
              match set_filesize (str "%lX") (u32 (end_addr p - start_addr p + 1)) s with
              | None => None
              | Some s => Some (srec_addr p, s, line)
              end
            else load_loop t fuel info offset p s line
      end
  end.

(** [uninit]: the stack [binbuf], [binlen] and [addr] start with. *)
Definition load_serial (fuel : nat) (info : flash_info_t) (uninit : mem * Z * Z) (offset : Z)
    (s : system W console) (line : list Z) : option (Z * system W console * list Z) :=
  let '(buf, n, a) := uninit in
  load_loop (S (length line)) fuel info offset (mk_progress buf n a (u32 (Z.lnot 0)) 0) s line.

(** The wait for trailing characters: [k] polls. *)
Fixpoint drain (k : nat) (line : list Z) : list Z :=
  match k with
  | O => line
  | S k' => drain k' (if tstc line then tail line else line)
  end.

(** [do_load_serial]: [argv1] is [argv[1]] when [argc] is 2. *)
Definition do_load_serial (fuel : nat) (info : flash_info_t) (uninit : mem * Z * Z) (argv1 : option (list Z))
    (s : system W console) : option (Z * system W console) :=
  let offset := match argv1 with Some a => fst (simple_strtol a 16) | None => 0 end in
  match load_serial fuel info uninit offset s (input console (vars s)) with
  | None => None
  | Some (a, s, line) =>
      let line := drain 100 line in
      let v := vars s in
      let '(rcode, la) := if a =? aborted then (1, load_addr console v) else (0, a) in
      Some (rcode, mk_system (ram s) (chip s) (envs s)
        (mk_vars console (env_id console v) (bi_enetaddr console v) (bi_ip_addr console v) la (BootFile console v)
           (baudrate console v) (brg console v) line (cons console v)))
  end.
End loads.

(** ** A file of records *)

(** A line as a sender writes it: the record, with characters before its 'S'
    and after its checksum, and one or more end-of-line characters. *)
Record srec_line := mk_line {
  lead : list Z;
  ty : Z;
  width : nat;
  place : Z;
  bytes : list Z;
  trail : list Z;
  eols : nat;                 (* end-of-line characters after the first *)
}.

Definition record_text (r : srec_line) : list Z :=
  lead r ++ srec_encode (ty r) (width r) (place r) (bytes r) ++ trail r.

Definition line_text (r : srec_line) : list Z := record_text r ++ 13 :: replicate (eols r) 10.

(** A character [read_record] takes into its buffer. *)
Definition clean (c : Z) : Prop := c <> 13 /\ c <> 10 /\ c <> 0 /\ c <> 3.

Definition good_line (r : srec_line) : Prop :=
  (ty r, width r) ∈ srec_types /\ Forall byte (bytes r) /\ len (bytes r) + Z.of_nat (width r) + 1 <= 255 /\
  0 <= place r < 2 ^ (8 * Z.of_nat (width r)) /\
  Forall (fun c => c <> 83) (lead r) /\ Forall clean (lead r) /\ Forall clean (trail r) /\
  len (record_text r) < SREC_MAXRECLEN.

Definition target (offset : Z) (r : srec_line) : Z := u32 (place r + offset).

(** Data that goes to RAM, without leaving the address space. *)
Definition to_ram (info : flash_info_t) (offset : Z) (r : srec_line) : Prop :=
  is_data (ty r) = true -> bytes r <> [] /\ addr2info info (target offset r) = false /\
    target offset r + len (bytes r) <= 2 ^ 32.

(** The data of the records in their places, in the order of the file. *)
Definition placed (offset : Z) (rs : list srec_line) (m : mem) : mem :=
  fold_left (fun m r => if is_data (ty r) then store_list m (target offset r) (bytes r) else m) rs m.

(** The lowest and the highest address the records touch. *)
Definition extent (offset : Z) (rs : list srec_line) (b : Z * Z) : Z * Z :=
  fold_left (fun b r =>
    if is_data (ty r)
    then (Z.min (fst b) (target offset r), Z.max (snd b) (target offset r + len (bytes r) - 1))
    else b) rs b.

Definition text_of (rs : list srec_line) : list Z := concat (map line_text rs).

(** ** Reading a line *)

Lemma encode_clean t n a bs : 0 <= t <= 9 -> Forall byte bs -> len bs + Z.of_nat n + 1 <= 255 ->
  Forall clean (srec_encode t n a bs).
Proof.
  intros Ht Hb Hl. unfold srec_encode. set (body := (len bs + Z.of_nat n + 1) :: be_bytes n a ++ bs).
  assert (Hall : Forall byte (body ++ [255 - sum8 body])).
  { apply Forall_app. split.
    - constructor; [unfold byte; lia |]. apply Forall_app. split; [apply be_bytes_bytes | done].
    - constructor; [| done]. pose proof (wrap_range 8 (fold_left Z.add body 0)). unfold byte, sum8. lia. }
  apply Forall_app. split; [repeat constructor; unfold clean; lia |].
  clear -Hall. induction Hall as [|b l Hb _ IH]; simpl; [done |]. unfold byte in Hb.
  assert (Hd : forall d, 0 <= d < 16 -> clean (hex_digit d)).
  { intros d Hd. unfold clean, hex_digit. destruct (Z.ltb_spec d 10); lia. }
  apply Forall_cons; split; [| apply Forall_cons; split]; [apply Hd; Z.div_mod_to_equations; lia | apply Hd; Z.div_mod_to_equations; lia | done].
Qed.

Lemma type_range t n : (t, n) ∈ srec_types -> 0 <= t <= 9.
Proof.
  unfold srec_types. rewrite !elem_of_cons, elem_of_nil. intros H.
  repeat destruct H as [[= -> ->] | H]; [..| done]; vm_compute; intuition discriminate.
Qed.

Lemma record_clean r : good_line r -> Forall clean (record_text r).
Proof.
  intros (Ht & Hb & Hl & _ & _ & Hc1 & Hc2 & _). unfold record_text.
  apply Forall_app. split; [done |]. apply Forall_app. split; [| done]. apply encode_clean; [by eapply type_range | done | done].
Qed.

Section loads_proofs.
Context {W : Type} `{nor_ops W} {console : Type} (console_assign : Z -> list Z -> console -> Z * console).
Context (jt_getc : bool) (pending : list Z -> bool).

(** No character is taken off the line behind the reader's back. *)
Hypothesis undisturbed : jt_getc = true \/ forall l, pending l = false.

Lemma read_record_line k buf l c rest : Forall clean l -> (length l < k)%nat -> c = 13 \/ c = 10 ->
  read_record jt_getc pending k buf (l ++ c :: rest) = Some (len (buf ++ l), buf ++ l, rest).
Proof.
  intros Hl. revert k buf. induction Hl as [|x l (H1 & H2 & H3 & H4) _ IH]; intros k buf Hk Hc; destruct k as [|k]; simpl in Hk; try lia.
  - rewrite app_nil_r. simpl. destruct Hc as [-> | ->]; done.
  - cbn [app read_record]. rewrite !(proj2 (Z.eqb_neq _ _)) by done. cbn [orb].
    specialize (IH k (buf ++ [x]) ltac:(lia) Hc). rewrite <- app_assoc in IH.
    destruct undisturbed as [-> | Hp]; [exact IH |]. destruct jt_getc; [exact IH |]. cbn [negb].
    unfold ctrlc, tstc. destruct (l ++ c :: rest) eqn:E; [by destruct l | by rewrite Hp].
Qed.

Lemma record_turn r p a : good_line r ->
  srec_decode (record_text r) p a = mk_srec (ty r) (len (bytes r)) (place r) (bytes r).
Proof.
  intros (Ht & Hb & Hl & Hp & Hs & _). unfold record_text. rewrite srec_decode_encode by done.
  by rewrite wrap_small.
Qed.

Context (fuel : nat) (info : flash_info_t) (offset : Z).
Abbreviation ld := (load_loop console_assign jt_getc pending).

Lemma blank_turns n t p s rest : ld (n + t) fuel info offset p s (replicate n 10 ++ rest) = ld t fuel info offset p s rest.
Proof.
  induction n as [|n IH]; [done |]. cbn [Nat.add replicate app load_loop].
  pose proof (read_record_line (Z.to_nat SREC_MAXRECLEN) [] [] 10 (replicate n 10 ++ rest) (Forall_nil_2 _)) as E.
  cbn [app length] in E. rewrite E by (auto; vm_compute; lia). destruct p. exact IH.
Qed.

(** What a turn with a record that is not the end makes of the state. *)
Definition after (rs : list srec_line) (p p' : progress) (s s' : system W console) : Prop :=
  (start_addr p', end_addr p') = extent offset rs (start_addr p, end_addr p) /\
  s' = mk_system (placed offset rs (ram s)) (chip s) (envs s) (vars s).

Lemma line_turns r t p s rest : good_line r -> is_end (ty r) = false -> to_ram info offset r ->
  exists p' s', ld (S (eols r) + t) fuel info offset p s (line_text r ++ rest) = ld t fuel info offset p' s' rest /\
    after [r] p p' s s'.
Proof.
  intros Hr He Hd. pose proof (record_clean r Hr) as Hc. pose proof Hr as (Ht & _ & Hlen & _ & _ & _ & _ & Hmax).
  apply type_range in Ht. unfold line_text. rewrite <- app_assoc. cbn [app Nat.add load_loop].
  rewrite read_record_line by (done || auto || (clear -Hmax; unfold SREC_MAXRECLEN in *; lia)). cbn [app].
  rewrite (proj2 (Z.ltb_ge (len (record_text r)) 0)) by lia.
  rewrite (record_turn r) by done. cbn [SRecord.rc count addr SRecord.data].
  rewrite (proj2 (Z.ltb_ge (ty r) 0)) by lia. rewrite He. unfold after, extent, placed. cbn [fold_left].
  destruct (is_data (ty r)) eqn:E.
  - destruct (Hd E) as (Hne & Hf & Hw). unfold store_record. cbn [srec_addr binbuf binlen].
    fold (target offset r). rewrite Hf. rewrite (wrap_small 32 (len (bytes r))) by lia. rewrite Nat2Z.id, load_store_list.
    rewrite blank_turns. eexists _, _. split; [reflexivity |]. cbn [fst snd start_addr end_addr]. split; [| done].
    assert (0 <= target offset r) by (apply wrap_range; lia).
    assert (0 < len (bytes r)) by (destruct (bytes r); simpl; [done | lia]).
    rewrite (wrap_small 32) by lia. f_equal; zcases; lia.
  - rewrite blank_turns. eexists _, _. split; [reflexivity |]. cbn. split; [done |]. by destruct s.
Qed.

Definition turns_of (rs : list srec_line) : nat := sum_list_with (fun r => S (eols r)) rs.

Lemma lines_turns rs t rest : forall p s, Forall good_line rs -> Forall (fun r => is_end (ty r) = false) rs ->
  Forall (to_ram info offset) rs ->
  exists p' s', ld (turns_of rs + t) fuel info offset p s (text_of rs ++ rest) = ld t fuel info offset p' s' rest /\
    after rs p p' s s'.
Proof.
  induction rs as [|r rs IH]; intros p s Hg He Hd.
  - eexists _, _. split; [reflexivity |]. split; [done | by destruct s].
  - apply Forall_cons in Hg as [Hg1 Hg], He as [He1 He], Hd as [Hd1 Hd].
    unfold turns_of, text_of. cbn [sum_list_with map concat]. rewrite <- Nat.add_assoc, <- app_assoc.
    destruct (line_turns r (turns_of rs + t) p s (text_of rs ++ rest) Hg1 He1 Hd1) as (p1 & s1 & E1 & [Hx1 Hs1]).
    destruct (IH p1 s1 Hg He Hd) as (p2 & s2 & E2 & [Hx2 Hs2]).
    exists p2, s2. split; [exact (eq_trans E1 E2) |]. rewrite Hs1 in Hs2. rewrite Hx1 in Hx2. by split.
Qed.

(** ** The size in the environment *)

(** The state after the download: the data placed, the flash as it was, and
    "filesize" the text of [size]. *)
Definition has_filesize (e : env_store) (size : Z) : Prop :=
  exists idx text, getenv e (str "filesize") = Some idx /\ 0 <= idx /\ cstr (env_get_char e) idx text /\
    simple_strtoul text 16 = (size, []).

Lemma set_filesize_spec fmt size (s : system W console) es : fmt = str "%lX" \/ fmt = str "%X" -> relocated (envs s) -> env_holds (env_mem (envs s)) es ->
  NoDup es.*1 -> size_of es + 19 <= ENV_SIZE -> 0 <= size < 2 ^ 32 ->
  exists e v, set_filesize console_assign fmt size s = Some (mk_system (ram s) (chip s) e v) /\
    relocated e /\ has_filesize e size.
Proof.
  intros Hfmt Hr Hh Hnd Hroom Hsz. unfold set_filesize.
  destruct (sprintf_hex_text fmt size Hfmt Hsz) as (text & -> & Hread & Hnz & Hlen).
  replace (take_while _ (text ++ [0])) with text.
  2: { clear -Hnz. induction Hnz as [|c l Hc _ IH]; [done |]. cbn [app take_while].
       rewrite (proj2 (Z.eqb_neq _ _) Hc). cbn [negb]. congruence. }
  assert (Hg : good_name (str "filesize")) by (split; [done | repeat (constructor; [done |]); constructor]).
  assert (Hp : plain (str "filesize")) by (split; done).
  pose proof (env_remove_size (str "filesize") es) as Hrm.
  destruct (do_setenv_spec console_assign (str "filesize") [text] (envs s) (vars s) es) as (rc & e & v & E & H1); try done; [by constructor | by left |].
  rewrite decide_False in H1 by done. rewrite decide_True in H1.
  2: { rewrite map_app, flen_app. cbn [map flen]. rewrite entry_length. cbn [fst snd].
       replace (join [text]) with text by (unfold join; simpl; by rewrite app_nil_r).
       change (len (str "filesize")) with 8. lia. }
  destruct H1 as (-> & (Hre & _) & _).
  destruct (setenv_then_getenv console_assign (str "filesize") text (envs s) (vars s) es e v) as (es' & _ & _ & (idx & Hi & Hi0 & Hcs) & _); try done; [by left |].
  unfold setenv. rewrite E. exists e, v. split; [done |]. split; [done |]. by exists idx, text.
Qed.

Lemma load_loop_mono t t' p s line r : ld t fuel info offset p s line = Some r -> (t <= t')%nat ->
  ld t' fuel info offset p s line = Some r.
Proof.
  revert t' p s line. induction t as [|t IH]; intros [|t'] p s line E Hle; try done; [lia |]. cbn [load_loop] in *.
  destruct (read_record _ _ _ _ _) as [[[k rec] l]|]; [| done]. destruct (k <? 0); [done |].
  destruct (_ <? 0); [done |]. destruct (is_data _).
  - destruct (store_record _ _ _ _ _) as [[[p1|] s1]|]; [| done | done]. apply IH; [done | lia].
  - destruct (is_end _); [done |]. apply IH; [done | lia].
Qed.

Lemma turns_length rs : (turns_of rs <= length (text_of rs))%nat.
Proof.
  unfold turns_of, text_of. induction rs as [|r rs IH]; simpl; [lia |]. rewrite length_app.
  unfold line_text at 1. rewrite length_app. simpl. rewrite length_replicate. lia.
Qed.

(** The records before the one that decides. *)
Lemma load_serial_prefix uninit rs s line r : Forall good_line rs -> Forall (fun r => is_end (ty r) = false) rs ->
  Forall (to_ram info offset) rs -> (1 <= length line)%nat ->
  (forall p s', (start_addr p, end_addr p) = extent offset rs (2 ^ 32 - 1, 0) ->
     s' = mk_system (placed offset rs (ram s)) (chip s) (envs s) (vars s) -> ld 1 fuel info offset p s' line = Some r) ->
  load_serial console_assign jt_getc pending fuel info uninit offset s (text_of rs ++ line) = Some r.
Proof.
  intros Hg He Hd Hl H1. unfold load_serial. destruct uninit as [[b n] a].
  destruct (lines_turns rs 1 line (mk_progress b n a (u32 (Z.lnot 0)) 0) s Hg He Hd) as (p & s' & E & Hx & Hs).
  apply (load_loop_mono (turns_of rs + 1)).
  - rewrite E. by apply H1.
  - rewrite length_app. pose proof (turns_length rs). lia.
Qed.
End loads_proofs.


(** A line that the decoder rejects, after any number of good records,
    aborts the download: [load_serial] returns ~0, the records before it stay
    in memory, nothing of the bad one is stored, and the environment is not
    touched. *)
Theorem loads_aborts {W} `{nor_ops W} {console} (console_assign : Z -> list Z -> console -> Z * console)
    jt_getc pending fuel info uninit offset (s : system W console) rs bad rest :
  jt_getc = true \/ (forall l, pending l = false) ->
  Forall good_line rs -> Forall (fun r => is_end (ty r) = false) rs -> Forall (to_ram info offset) rs ->
  Forall clean bad -> len bad < SREC_MAXRECLEN -> (forall c0 a0, SRecord.rc (srec_decode bad c0 a0) < 0) ->
  load_serial console_assign jt_getc pending fuel info uninit offset s (text_of rs ++ bad ++ 13 :: rest) =
    Some (2 ^ 32 - 1, mk_system (placed offset rs (ram s)) (chip s) (envs s) (vars s), rest).
Proof.
  intros Hu Hg He Hd Hc Hl Hbad.
  apply load_serial_prefix; try done; [rewrite length_app; simpl; lia |]. intros p s' _ ->.
  cbn [load_loop]. rewrite read_record_line by (done || auto || (clear -Hl; unfold SREC_MAXRECLEN in *; lia)). cbn [app].
  rewrite (proj2 (Z.ltb_ge (len bad) 0)) by lia. by rewrite (proj2 (Z.ltb_lt _ _) (Hbad _ _)).
Qed.

(** ** Concrete downloads *)

Definition demo_info : flash_info_t := bank (replicate 135 0).

Definition demo_system : system NorChip.chip unit :=
  mk_system (fun _ => 0) blank_chip demo_store demo_vars.

Definition demo_lines : list srec_line :=
  [mk_line [] SREC_START 2 0 (str "demo") [] 1;
   mk_line (str ">") SREC_DATA4 4 0x1000 [0xde; 0xad; 0xbe; 0xef] (str " ") 0;
   mk_line [] SREC_DATA2 2 0x1010 [1; 2] [] 3].

Definition demo_end : srec_line := mk_line [] SREC_END4 4 0x1000 [] [] 0.

Lemma demo_good : Forall good_line (demo_lines ++ [demo_end]).
Proof.
  assert (Hc : forall l, forallb (fun c => negb (c =? 13) && negb (c =? 10) && negb (c =? 0) && negb (c =? 3)) l = true -> Forall clean l).
  { intros l Hl. apply Forall_forall. intros c Hc%list_elem_of_In. rewrite forallb_forall in Hl. specialize (Hl c Hc).
    unfold clean. zb. done. }
  assert (Hg : forall r, (ty r, width r) ∈ srec_types -> Forall byte (bytes r) ->
    (len (bytes r) + Z.of_nat (width r) + 1 <=? 255) && (0 <=? place r) && (place r <? 2 ^ (8 * Z.of_nat (width r))) &&
    (len (record_text r) <? SREC_MAXRECLEN) = true -> Forall (fun c => c <> 83) (lead r) ->
    Forall clean (lead r) -> Forall clean (trail r) -> good_line r).
  { intros r H1 H2 H3 H4 H5 H6. zb. by split_and!. }
  repeat (apply Forall_cons; split; [apply Hg; [by_eval | bytes_eval | vm_compute; reflexivity | by_eval | by apply Hc | by apply Hc] |]).
  by apply Forall_nil.
Qed.

Lemma demo_to_ram : Forall (to_ram demo_info 0x100) demo_lines.
Proof. repeat (apply Forall_cons; split; [intros ?; split_and!; [done | vm_compute; reflexivity | done] |]). by apply Forall_nil. Qed.


Lemma loads_aborts_witness :
  load_serial (fun _ _ c => (0, c)) true (fun _ => false) 3 demo_info (fun _ => 0, 0, 0) 0x100 demo_system
    (text_of demo_lines ++ str "S10500001234B5" ++ 13 :: []) =
    Some (2 ^ 32 - 1, mk_system (placed 0x100 demo_lines (fun _ => 0)) blank_chip demo_store demo_vars, []).
Proof.
  apply (loads_aborts (fun _ _ c => (0, c)) true (fun _ => false) 3 demo_info (fun _ => 0, 0, 0) 0x100 demo_system
    demo_lines (str "S10500001234B5") []).
  - by left.
  - apply (proj1 (proj1 (Forall_app _ _ _) demo_good)).
  - repeat constructor.
  - exact demo_to_ram.
  - repeat (apply Forall_cons; split; [unfold clean; vm_compute; intuition discriminate |]). by apply Forall_nil.
  - reflexivity.
  - intros c0 a0. vm_compute. reflexivity.
Defined.

(** ** What the hypotheses exclude *)

(** With the jump table not filled in and the sender ahead of the reader,
    every other character of the line is lost. *)
Lemma pending_characters_lost :
  read_record false (fun _ => true) 516 [] (str "S9030000FC" ++ [13; 13]) = Some (5, str "S000F", [13]).
Proof. vm_compute. done. Qed.

(** A record whose length byte does not even cover its address and checksum
    is accepted with a negative count, which the copy takes as unsigned. *)
Lemma short_record_accepted :
  srec_decode (str "S1021000ED") 0 0 = mk_srec SREC_DATA2 (-1) 0x1000 [] /\ u32 (-1) = 2 ^ 32 - 1.
Proof. vm_compute. done. Qed.
