(* ===== verification/Ymodem.v ===== *)
(** * Serial download with X/Y-modem: common/xyzModem.c and [load_serial_ymodem]

    The line is a list of events: a character that arrives in time, or a
    silence as long as the character timeout; after the last event the line
    stays silent.  Every wait of the code is bounded by that timeout, so the
    functions are total.  [bool] flags are booleans, [unsigned char] fields
    values 0..255, [int] and [unsigned long] have 32 bits.

    The board's configuration defines DEBUG, so the code also writes a trace
    to memory at 0x00380000 and to [zm_buf]; the trace is not modelled, and
    the memory the file goes to is taken to lie apart from it.

    The theorems: a file sent with the Y-modem protocol, with damaged blocks,
    silences and repeated blocks between the good ones, is read byte for byte;
    the block reader always returns and gives up on a silent line after its
    retries. *)

From S2P Require Import Prelude Memory Crc.

Local Open Scope Z_scope.

Definition SOH : Z := 0x01.
Definition STX : Z := 0x02.
Definition EOT : Z := 0x04.
Definition ACK : Z := 0x06.
Definition BSP : Z := 0x08.
Definition NAK : Z := 0x15.
Definition CAN : Z := 0x18.
Definition EOF : Z := 0x1A.
Definition CHAR_C : Z := 67. (* 'C' *)

Definition xyzModem_xmodem : Z := 1.
Definition xyzModem_ymodem : Z := 2.
Definition xyzModem_timeout : Z := -3.
Definition xyzModem_eof : Z := -4.
Definition xyzModem_cancel : Z := -5.
Definition xyzModem_frame : Z := -6.
Definition xyzModem_cksum : Z := -7.
Definition xyzModem_sequence : Z := -8.

Definition xyzModem_MAX_RETRIES : nat := 20.
Definition xyzModem_MAX_RETRIES_WITH_CRC : Z := 10.
Definition xyzModem_CAN_COUNT : Z := 3.

(** ** The line *)

Inductive event :=
| Ch (c : Z)
| Quiet.

Abbreviation line := (list event).

Definition GETC_TIMEOUT (l : line) : option Z * line :=
  match l with
  | Ch c :: l => (Some c, l)
  | Quiet :: l => (None, l)
  | [] => (None, [])
  end.

(** Wait for the line to go idle. *)
Fixpoint xyzModem_flush (l : line) : line :=
  match l with
  | Ch _ :: l => xyzModem_flush l
  | Quiet :: l => l
  | [] => []
  end.

(** ** Numbers in the file header *)

Definition _is_hex (c : Z) : bool :=
  ((48 <=? c) && (c <=? 57)) || ((65 <=? c) && (c <=? 70)) || ((97 <=? c) && (c <=? 102)).

Definition _from_hex (c : Z) : Z :=
  if (48 <=? c) && (c <=? 57) then c - 48
  else if (97 <=? c) && (c <=? 102) then c - 97 + 0x0a
  else if (65 <=? c) && (c <=? 70) then c - 65 + 0x0A
  else 0.

Definition _tolower (c : Z) : Z := if (65 <=? c) && (c <=? 90) then (c - 65) + 97 else c.

(** A string is the list of its characters up to the NUL; [chr] of the empty
    list is the NUL. *)
Definition chr (s : list Z) : Z := hd 0 s.

(** The loop of [parse_num] after its first turn, with the delimiters
    [delim]. *)
Fixpoint parse_digits (s : list Z) (radix result : Z) (delim : list Z) : option Z :=
  match s with
  | [] => Some result
  | c :: s =>
      if _is_hex c && (_from_hex c <? radix)
      then parse_digits s radix (u32 (u32 (result * radix) + _from_hex c)) delim
      else if existsb (Z.eqb c) delim then Some result else None
  end.

(** [parse_num]: the value stored through [val], or [None] when it returns
    false; the end pointer is not used by the caller. *)
Definition parse_num (s delim : list Z) : option Z :=
  let s := drop_while (Z.eqb 32) s in
  match s with
  | [] => Some 0
  | _ =>
      if (chr s =? 48) && (_tolower (chr (tail s)) =? 120)
      then
        (* a digit is read even when the string ends after "0x" *)
        match drop 2 s with
        | [] => None
        | s => parse_digits s 16 0 delim
        end
      else parse_digits s 10 0 delim
  end.

(** ** State *)

Record xyz := mk_xyz {
  pkt : list Z;               (* unsigned char pkt[1024] *)
  bufp : Z;                   (* offset into pkt *)
  blk : Z;
  cblk : Z;
  crc1 : Z;
  crc2 : Z;
  next_blk : Z;
  xlen : Z;                   (* len *)
  mode : Z;
  total_retries : Z;
  total_SOH : Z;
  total_STX : Z;
  total_CAN : Z;
  crc_mode : bool;
  at_eof : bool;
  tx_ack : bool;
  file_length : Z;
  read_length : Z;
  sent : list Z;              (* what PUTC sent *)
}.

Definition putc (c : Z) (s : xyz) : xyz :=
  mk_xyz (pkt s) (bufp s) (blk s) (cblk s) (crc1 s) (crc2 s) (next_blk s) (xlen s) (mode s) (total_retries s)
    (total_SOH s) (total_STX s) (total_CAN s) (crc_mode s) (at_eof s) (tx_ack s) (file_length s) (read_length s)
    (sent s ++ [c]).
Definition set_tx_ack (b : bool) (s : xyz) : xyz :=
  mk_xyz (pkt s) (bufp s) (blk s) (cblk s) (crc1 s) (crc2 s) (next_blk s) (xlen s) (mode s) (total_retries s)
    (total_SOH s) (total_STX s) (total_CAN s) (crc_mode s) (at_eof s) b (file_length s) (read_length s) (sent s).
Definition set_eof (b : bool) (s : xyz) : xyz :=
  mk_xyz (pkt s) (bufp s) (blk s) (cblk s) (crc1 s) (crc2 s) (next_blk s) (xlen s) (mode s) (total_retries s)
    (total_SOH s) (total_STX s) (total_CAN s) (crc_mode s) b (tx_ack s) (file_length s) (read_length s) (sent s).
Definition count_hdr (soh stx can : Z) (s : xyz) : xyz :=
  mk_xyz (pkt s) (bufp s) (blk s) (cblk s) (crc1 s) (crc2 s) (next_blk s) (xlen s) (mode s) (total_retries s)
    (total_SOH s + soh) (total_STX s + stx) (total_CAN s + can) (crc_mode s) (at_eof s) (tx_ack s)
    (file_length s) (read_length s) (sent s).
Definition set_hdr (b c : Z) (s : xyz) : xyz :=
  mk_xyz (pkt s) (bufp s) b c (crc1 s) (crc2 s) (next_blk s) (xlen s) (mode s) (total_retries s)
    (total_SOH s) (total_STX s) (total_CAN s) (crc_mode s) (at_eof s) (tx_ack s) (file_length s) (read_length s) (sent s).
Definition set_check (a b : Z) (s : xyz) : xyz :=
  mk_xyz (pkt s) (bufp s) (blk s) (cblk s) a b (next_blk s) (xlen s) (mode s) (total_retries s)
    (total_SOH s) (total_STX s) (total_CAN s) (crc_mode s) (at_eof s) (tx_ack s) (file_length s) (read_length s) (sent s).
(** The first bytes of [pkt], [bufp] at offset [p] and [len]. *)
Definition set_pkt (bs : list Z) (p n : Z) (s : xyz) : xyz :=
  mk_xyz (bs ++ drop (length bs) (pkt s)) p (blk s) (cblk s) (crc1 s) (crc2 s) (next_blk s) n (mode s) (total_retries s)
    (total_SOH s) (total_STX s) (total_CAN s) (crc_mode s) (at_eof s) (tx_ack s) (file_length s) (read_length s) (sent s).
Definition set_next (n : Z) (s : xyz) : xyz :=
  mk_xyz (pkt s) (bufp s) (blk s) (cblk s) (crc1 s) (crc2 s) n (xlen s) (mode s) (total_retries s)
    (total_SOH s) (total_STX s) (total_CAN s) (crc_mode s) (at_eof s) (tx_ack s) (file_length s) (read_length s) (sent s).
Definition set_lengths (file read : Z) (s : xyz) : xyz :=
  mk_xyz (pkt s) (bufp s) (blk s) (cblk s) (crc1 s) (crc2 s) (next_blk s) (xlen s) (mode s) (total_retries s)
    (total_SOH s) (total_STX s) (total_CAN s) (crc_mode s) (at_eof s) (tx_ack s) file read (sent s).
Definition retry (crc : bool) (s : xyz) : xyz :=
  mk_xyz (pkt s) (bufp s) (blk s) (cblk s) (crc1 s) (crc2 s) (next_blk s) (xlen s) (mode s) (total_retries s + 1)
    (total_SOH s) (total_STX s) (total_CAN s) crc (at_eof s) (tx_ack s) (file_length s) (read_length s) (sent s).

(** The request for a block: 'C' for the CRC, NAK for the checksum. *)
Definition ask (s : xyz) : xyz := putc (if crc_mode s then CHAR_C else NAK) s.

(** ** One block *)

(** The search for the start of a header: its first character, or the status
    [xyzModem_get_hdr] returns at once. *)
Fixpoint find_hdr (l : line) (can_total hdr_chars : Z) (s : xyz) : (Z + Z) * xyz * line :=
  match l with
  | Ch c :: l =>
      let hdr_chars := hdr_chars + 1 in
      if c =? SOH then (inr c, count_hdr 1 0 0 s, l)
      else if c =? STX then (inr c, count_hdr 0 1 0 s, l)
      else if c =? CAN then
        let s := count_hdr 0 0 1 s in
        if can_total + 1 =? xyzModem_CAN_COUNT then (inl xyzModem_cancel, s, l)
        else find_hdr l (can_total + 1) hdr_chars s
      else if (c =? EOT) && (hdr_chars =? 1) then (inl xyzModem_eof, putc ACK s, l)
      else find_hdr l can_total hdr_chars s
  | Quiet :: l => (inl xyzModem_timeout, s, xyzModem_flush l)
  | [] => (inl xyzModem_timeout, s, [])
  end.

(** [k] characters in time; otherwise those that came. *)
Fixpoint read_chars (k : nat) (l : line) : list Z * bool * line :=
  match k with
  | O => ([], true, l)
  | S k' =>
      match GETC_TIMEOUT l with
      | (None, l) => ([], false, l)
      | (Some c, l) => let '(bs, ok, l) := read_chars k' l in (c :: bs, ok, l)
      end
  end.

(** The validation of a complete message. *)
Definition validate (s : xyz) (l : line) : Z * xyz * line :=
  if negb (Z.lxor (blk s) (cblk s) =? 0xFF) then (xyzModem_frame, s, xyzModem_flush l)
  else
    let msg := take (Z.to_nat (xlen s)) (pkt s) in
    if crc_mode s then
      if negb (cyg_crc16 (pkt s) (xlen s) =? Z.lor (Z.shiftl (crc1 s) 8) (crc2 s)) then (xyzModem_cksum, s, l) else (0, s, l)
    else
      let cksum := u16 (fold_left Z.add msg 0) in
      if negb (crc1 s =? Z.land cksum 0xFF) then (xyzModem_cksum, s, l) else (0, s, l).

(** The check characters after the data. *)
Definition read_check (s : xyz) (l : line) : Z * xyz * line :=
  match GETC_TIMEOUT l with
  | (None, l) => (xyzModem_timeout, s, l)
  | (Some a, l) =>
      if crc_mode s then
        match GETC_TIMEOUT l with
        | (None, l) => (xyzModem_timeout, set_check a (crc2 s) s, l)
        | (Some b, l) => validate (set_check a b s) l
        end
      else validate (set_check a (crc2 s) s) l
  end.

(** From the block number on; [c] is the first character of the header. *)
Definition read_block (c : Z) (s : xyz) (l : line) : Z * xyz * line :=
  match GETC_TIMEOUT l with
  | (None, l) => (xyzModem_timeout, s, l)
  | (Some b, l) =>
      let s := set_hdr b (cblk s) s in
      match GETC_TIMEOUT l with
      | (None, l) => (xyzModem_timeout, s, l)
      | (Some cb, l) =>
          let s := set_hdr b cb s in
          let n := if c =? SOH then 128 else 1024 in
          let '(bs, ok, l) := read_chars (Z.to_nat n) l in
          let s := set_pkt bs 0 n s in
          if ok then read_check s l else (xyzModem_timeout, s, l)
      end
  end.

Definition xyzModem_get_hdr (s : xyz) (l : line) : Z * xyz * line :=
  let s := if tx_ack s then set_tx_ack false (putc ACK s) else s in
  match find_hdr l 0 0 s with
  | (inl stat, s, l) => (stat, s, l)
  | (inr c, s, l) => read_block c s l
  end.

(** ** The stream *)

(** [while] over the retries of [xyzModem_stream_open]: the return code, the
    error and the state.  [None]: the file name or the length in the header
    has no NUL, and the search for it leaves the packet buffer. *)
Fixpoint open_loop (retries : nat) (stat crc_retries : Z) (s : xyz) (l : line) : option (Z * Z * xyz * line) :=
  match retries with
  | O => Some (-1, stat, s, l)
  | S r =>
      let '(stat, s, l) := xyzModem_get_hdr s l in
      if stat =? 0 then
        if blk s =? 0 then
          let name := take_while (fun c => negb (c =? 0)) (drop (Z.to_nat (bufp s)) (pkt s)) in
          let p := bufp s + len name + 1 in
          let num := take_while (fun c => negb (c =? 0)) (drop (Z.to_nat p) (pkt s)) in
          if len (pkt s) <=? p + len num then None
          else
            let s := match parse_num num [32] with
                     | Some v => set_lengths v (read_length s) s
                     | None => s
                     end in
            Some (0, stat, set_next 1 (set_pkt [] p 0 (set_tx_ack true s)), l)
        else Some (0, stat, set_next 1 (set_pkt [] (bufp s) 0 s), l)
      else if stat =? xyzModem_timeout then
        let crc_retries := crc_retries - 1 in
        open_loop r stat crc_retries (ask (retry (if crc_retries <=? 0 then false else crc_mode s) s)) l
      else if stat =? xyzModem_cancel then Some (-1, stat, s, l)
      else open_loop r stat crc_retries s l
  end.

Definition xyzModem_stream_open (info_mode : Z) (s : xyz) (l : line) : option (Z * Z * xyz * line) :=
  let s := mk_xyz (pkt s) (bufp s) (blk s) (cblk s) (crc1 s) (crc2 s) (next_blk s) 0 info_mode 0 0 0 0 true false false
             0 0 (sent s) in
  let s := ask s in
  if mode s =? xyzModem_xmodem then Some (0, 0, set_next 1 s, l)
  else open_loop xyzModem_MAX_RETRIES 0 xyzModem_MAX_RETRIES_WITH_CRC s l.

(** The padding at the end of a block whose file length is not known. *)
Definition trim_eof (s : xyz) : xyz :=
  let at_ i := nthZ (pkt s) (bufp s + i) in
  let n := xlen s in
  if (at_ (n - 1) =? EOF) && (at_ (n - 2) =? EOF) && (at_ (n - 3) =? EOF)
  then set_pkt [] (bufp s) (len (drop_while (Z.eqb EOF) (rev (take (Z.to_nat n) (drop (Z.to_nat (bufp s)) (pkt s)))))) s
  else s.

(** The padding of a block when the length is known. *)
Definition cut_length (s : xyz) : xyz :=
  let r := u32 (read_length s + xlen s) in
  let s := set_lengths (file_length s) r s in
  if file_length s <? r then set_pkt [] (bufp s) (s32 (xlen s - (r - file_length s))) s else s.

(** A block with the expected number. *)
Definition accept_block (s : xyz) : xyz :=
  let s := set_next (Z.land (next_blk s + 1) 0xFF) (set_tx_ack true s) in
  let s := if (mode s =? xyzModem_xmodem) || (file_length s =? 0) then trim_eof s else s in
  if negb (mode s =? xyzModem_xmodem) && negb (file_length s =? 0) then cut_length s else s.

(** The end of the file. *)
Definition finish (s : xyz) (l : line) : Z * xyz * line :=
  let s := putc ACK s in
  if mode s =? xyzModem_ymodem then
    let s := retry (crc_mode s) (ask s) in
    let '(stat, s, l) := xyzModem_get_hdr s l in
    (stat, set_eof true (putc ACK s), l)
  else (xyzModem_eof, set_eof true s, l).

(** [while (retries-- > 0)] of [xyzModem_stream_read]: the last status. *)
Fixpoint next_block (retries : nat) (stat : Z) (s : xyz) (l : line) : Z * xyz * line :=
  match retries with
  | O => (stat, s, l)
  | S r =>
      let '(stat, s, l) := xyzModem_get_hdr s l in
      if (stat =? 0) && (blk s =? next_blk s) then (stat, accept_block s, l)
      else if (stat =? 0) && (blk s =? Z.land (next_blk s - 1) 0xFF) then next_block r stat (putc ACK s) l
      else
        let stat := if stat =? 0 then xyzModem_sequence else stat in
        if stat =? xyzModem_cancel then (stat, s, l)
        else if stat =? xyzModem_eof then finish s l
        else next_block r stat (retry (crc_mode s) (ask s)) l
  end.

(** [xyzModem_stream_read]: the bytes put into the caller's buffer and the
    error; [total] is their number.  [None]: [memcpy] is called with a
    negative length.  Every turn takes an event from the line, stores a byte
    or ends the loop. *)
Fixpoint read_loop (fuel : nat) (size : Z) (buf : list Z) (err : Z) (s : xyz) (l : line)
    : option (list Z * Z * xyz * line) :=
  match fuel with
  | O => None
  | S f =>
      if at_eof s || (size <=? 0) then Some (buf, err, s, l)
      else
        let '(stat, s, l) := if xlen s =? 0 then next_block xyzModem_MAX_RETRIES xyzModem_cancel s l else (0, s, l) in
        if stat <? 0 then Some (buf, stat, set_pkt [] (bufp s) (-1) s, l)
        else if at_eof s then read_loop f size buf err s l
        else
          let n := if size <? xlen s then size else xlen s in
          if n <? 0 then None
          else
            let bs := take (Z.to_nat n) (drop (Z.to_nat (bufp s)) (pkt s)) in
            read_loop f (size - n) (buf ++ bs) err (set_pkt [] (bufp s + n) (xlen s - n) s) l
  end.

Definition xyzModem_stream_read (size err : Z) (s : xyz) (l : line) : option (list Z * Z * xyz * line) :=
  read_loop (S (S (length l) + Z.to_nat size)) size [] err s l.

(** [xyzModem_stream_terminate] without abort: what is left on the line up to
    the first pause is taken. *)
Fixpoint drain_line (l : line) : line :=
  match l with
  | Ch _ :: l => drain_line l
  | _ => l
  end.

Definition xyzModem_stream_terminate (abort : bool) (s : xyz) (l : line) : xyz * line :=
  if abort then
    if (mode s =? xyzModem_xmodem) || (mode s =? xyzModem_ymodem)
    then (set_eof true (fold_left (fun s c => putc c s) [CAN; CAN; CAN; CAN; BSP; BSP; BSP; BSP] s), xyzModem_flush l)
    else (s, l)
  else (s, drain_line l).

(** ** The sender, as the protocol describes it *)

Record block := mk_block { big : bool; num : Z; body : list Z }.

Definition bsize (b : block) : Z := if big b then 1024 else 128.

Definition good_block (b : block) : Prop :=
  byte (num b) /\ Forall byte (body b) /\ len (body b) = bsize b.

Definition block_head (b : block) : list Z := [if big b then STX else SOH; num b; 255 - num b] ++ body b.

Definition block_crc (b : block) : Z := cyg_crc16 (body b) (bsize b).

Definition block_text (b : block) : line := map Ch (block_head b ++ be_bytes 2 (block_crc b)).

(** A character the search for a header passes over. *)
Definition noise (c : Z) : Prop := c <> SOH /\ c <> STX /\ c <> CAN /\ c <> EOT.

(** What may come before a block: a silence with noise around it, a block
    whose CRC is wrong, the previous block once more. *)
Inductive fault :=
| Silence (before after : list Z)
| BadCrc (b : block) (hi lo : Z)
| Again.

Definition fault_text (prev : block) (f : fault) : line :=
  match f with
  | Silence j1 j2 => map Ch j1 ++ Quiet :: map Ch j2 ++ [Quiet]
  | BadCrc b hi lo => map Ch (block_head b ++ [hi; lo])
  | Again => block_text prev
  end.

Definition good_fault (f : fault) : Prop :=
  match f with
  | Silence j1 _ => Forall noise j1
  | BadCrc b hi lo => good_block b /\ byte hi /\ byte lo /\ hi * 256 + lo <> block_crc b
  | Again => True
  end.

(** ** Reading one block *)

(** The parts of the state a header does not change. *)
Definition kept (s s' : xyz) : Prop :=
  mode s' = mode s /\ crc_mode s' = crc_mode s /\ at_eof s' = at_eof s /\ next_blk s' = next_blk s /\
  file_length s' = file_length s /\ read_length s' = read_length s /\ length (pkt s') = length (pkt s).

#[export] Instance kept_preorder : PreOrder kept.
Proof.
  split; [intros s; by split_and! |]. intros a b c (A1 & A2 & A3 & A4 & A5 & A6 & A7) (B1 & B2 & B3 & B4 & B5 & B6 & B7).
  split_and!; congruence.
Qed.

(** The block [b] is in the buffer. *)
Definition got (b : block) (s : xyz) : Prop :=
  blk s = num b /\ bufp s = 0 /\ xlen s = bsize b /\ take (Z.to_nat (bsize b)) (pkt s) = body b.

Lemma find_hdr_noise j l can n s : Forall noise j ->
  find_hdr (map Ch j ++ l) can n s = find_hdr l can (n + len j) s.
Proof.
  intros Hj. revert n. induction Hj as [|c j (H1 & H2 & H3 & H4) _ IH]; intros n; simpl; [by rewrite Z.add_0_r |].
  rewrite !(proj2 (Z.eqb_neq _ _)) by done. cbn [andb]. rewrite IH. f_equal. lia.
Qed.

Lemma flush_quiet j l : xyzModem_flush (map Ch j ++ Quiet :: l) = l.
Proof. by induction j. Qed.

Lemma read_chars_ok bs l : read_chars (length bs) (map Ch bs ++ l) = (bs, true, l).
Proof. induction bs as [|b bs IH]; simpl; [done |]. by rewrite IH. Qed.

Lemma lor_shift8 a b : byte b -> Z.lor (Z.shiftl a 8) b = a * 256 + b.
Proof.
  intros Hb. rewrite lor_add_disjoint; [rewrite Z.shiftl_mul_pow2 by lia; lia |].
  apply Z.bits_inj'. intros i Hi. rewrite Z.land_spec, Z.bits_0. destruct (Z.ltb_spec i 8).
  - by rewrite Z.shiftl_spec_low by lia.
  - rewrite (testbit_small 8 b) by (unfold byte in Hb; lia). apply andb_false_r.
Qed.

Lemma complement_xor n : byte n -> Z.lxor n (255 - n) = 255.
Proof.
  intros Hn. pose proof (byte_cases (fun n => Z.lxor n (255 - n) =? 255) ltac:(vm_compute; done) n Hn) as H.
  by apply Z.eqb_eq in H.
Qed.

Lemma block_crc_range b : 0 < bsize b -> body b <> [] -> 0 <= block_crc b < 2 ^ 16.
Proof.
  intros Hp Hne. unfold block_crc, cyg_crc16. destruct (take (Z.to_nat (bsize b)) (body b)) as [|x l] eqn:E using rev_ind.
  - done.
  - rewrite fold_left_app. apply crc16_step_range.
Qed.

(** The state after the header character, the numbers and the data. *)
Lemma get_hdr_head b l s : good_block b -> length (pkt s) = 1024%nat ->
  exists s', xyzModem_get_hdr s (map Ch (block_head b) ++ l) = read_check s' l /\ kept s s' /\ got b s' /\
    cblk s' = 255 - num b /\ tx_ack s' = false.
Proof.
  intros (Hn & Hb & Hl) Hp. unfold xyzModem_get_hdr, block_head. set (s0 := if tx_ack s then _ else _).
  assert (H0 : kept s s0 /\ tx_ack s0 = false) by (unfold s0; destruct (tx_ack s) eqn:E; by split_and!).
  clearbody s0. destruct H0 as [H0 Ht].
  set (s1 := count_hdr (if big b then 0 else 1) (if big b then 1 else 0) 0 s0).
  set (s2 := set_pkt (body b) 0 (bsize b) (set_hdr (num b) (255 - num b) (set_hdr (num b) (cblk s1) s1))).
  assert (bsize b <= 1024) by (unfold bsize; destruct (big b); lia).
  destruct H0 as (E1 & E2 & E3 & E4 & E5 & E6 & E7). exists s2. split_and!; [| unfold kept; split_and!; try done | unfold got; split_and!; try done | done | done].
  - cbn [app map]. assert (Hh : find_hdr (Ch (if big b then STX else SOH) :: Ch (num b) :: Ch (255 - num b) :: map Ch (body b) ++ l) 0 0 s0
      = (inr (if big b then STX else SOH), s1, Ch (num b) :: Ch (255 - num b) :: map Ch (body b) ++ l)).
    { unfold s1. by destruct (big b). }
    rewrite Hh. unfold read_block. cbn [GETC_TIMEOUT].
    replace (if (if big b then STX else SOH) =? SOH then 128 else 1024) with (bsize b) by (unfold bsize; by destruct (big b)).
    replace (Z.to_nat (bsize b)) with (length (body b)) by lia. rewrite read_chars_ok. done.
  - unfold s2. cbn [pkt set_pkt]. rewrite length_app, length_drop. cbn. lia.
  - unfold s2. cbn [pkt set_pkt]. rewrite take_app_length'; [done | lia].
Qed.

Lemma read_check_spec b s hi lo l : good_block b -> got b s -> cblk s = 255 - num b -> crc_mode s = true ->
  byte hi -> byte lo ->
  read_check s (Ch hi :: Ch lo :: l) =
  (if hi * 256 + lo =? block_crc b then 0 else xyzModem_cksum, set_check hi lo s, l).
Proof.
  intros (Hn & Hb & Hl) (G1 & G2 & G3 & G4) Hc Hm Hhi Hlo. unfold read_check, validate. cbn [GETC_TIMEOUT]. rewrite Hm.
  cbn [blk cblk set_check crc_mode crc1 crc2 pkt xlen]. rewrite G1, Hc, complement_xor, Hm by done. cbn [negb Z.eqb Pos.eqb].
  rewrite G3, lor_shift8 by done. unfold block_crc.
  assert (E : cyg_crc16 (pkt s) (bsize b) = cyg_crc16 (body b) (bsize b)).
  { unfold cyg_crc16. rewrite G4. f_equal. symmetry. apply take_ge. lia. }
  rewrite E, (Z.eqb_sym (cyg_crc16 _ _)). by destruct (hi * 256 + lo =? _).
Qed.

(** The receiver in the middle of a transfer with CRC. *)
Definition receiving (s : xyz) : Prop := crc_mode s = true /\ length (pkt s) = 1024%nat.

Lemma kept_receiving s s' : kept s s' -> receiving s -> receiving s'.
Proof. intros (H1 & H2 & H3 & H4 & H5 & H6 & H7) [R1 R2]. split; congruence. Qed.

Lemma get_hdr_checked b hi lo l s : good_block b -> receiving s -> byte hi -> byte lo ->
  exists s', xyzModem_get_hdr s (map Ch (block_head b ++ [hi; lo]) ++ l) =
      (if hi * 256 + lo =? block_crc b then 0 else xyzModem_cksum, s', l) /\ kept s s' /\ got b s'.
Proof.
  intros Hb [Hm Hp] Hhi Hlo. rewrite map_app, <- app_assoc. cbn [map app].
  destruct (get_hdr_head b (Ch hi :: Ch lo :: l) s Hb Hp) as (s1 & -> & Hk & Hg & Hc & _).
  rewrite (read_check_spec b) by (done || (destruct Hk as (_ & -> & _); done)).
  eexists. split; [reflexivity |]. split; [exact Hk | exact Hg].
Qed.

Lemma crc_bytes v : 0 <= v < 2 ^ 16 -> exists hi lo, be_bytes 2 v = [hi; lo] /\ byte hi /\ byte lo /\ hi * 256 + lo = v.
Proof.
  intros Hv. exists (u8 (Z.shiftr v 8)), (u8 (Z.shiftr v 0)). split; [done |]. split; [apply byte_u8 |]. split; [apply byte_u8 |].
  rewrite Z.shiftr_0_r, Z.shiftr_div_pow2 by lia. change (2 ^ 8) with 256. wrap_lia.
Qed.

Lemma get_hdr_block b l s : good_block b -> receiving s ->
  exists s', xyzModem_get_hdr s (block_text b ++ l) = (0, s', l) /\ kept s s' /\ got b s'.
Proof.
  intros Hb Hr. assert (0 < bsize b) by (unfold bsize; destruct (big b); lia). pose proof Hb as (_ & _ & Hl).
  destruct (crc_bytes (block_crc b)) as (hi & lo & E & Hhi & Hlo & Hv).
  { apply block_crc_range; [done |]. intros E. rewrite E in Hl. simpl in Hl. lia. }
  unfold block_text. rewrite E. destruct (get_hdr_checked b hi lo l s Hb Hr Hhi Hlo) as (s' & Es & Hs).
  rewrite Hv, Z.eqb_refl in Es. by exists s'.
Qed.

(** What a fault makes of the receiver: a retry with an error status, or the
    previous block again. *)
Lemma get_hdr_fault prev f l s : good_block prev -> good_fault f -> receiving s ->
  exists stat s', xyzModem_get_hdr s (fault_text prev f ++ l) = (stat, s', l) /\ kept s s' /\
    (stat = xyzModem_timeout \/ stat = xyzModem_cksum \/ stat = 0 /\ blk s' = num prev).
Proof.
  intros Hp Hf Hr. destruct f as [j1 j2 | b hi lo |]; cbn [fault_text good_fault] in *.
  - unfold xyzModem_get_hdr. rewrite <- app_assoc. rewrite find_hdr_noise by done. cbn [app find_hdr].
    rewrite <- app_assoc. cbn [app]. rewrite flush_quiet. eexists _, _. split; [reflexivity |].
    split; [by destruct (tx_ack s) | by left].
  - destruct Hf as (Hb & Hhi & Hlo & Hne). destruct (get_hdr_checked b hi lo l s Hb Hr Hhi Hlo) as (s' & -> & Hk & _).
    rewrite (proj2 (Z.eqb_neq _ _) Hne). eexists _, _. split; [reflexivity |]. split; [done |]. by right; left.
  - destruct (get_hdr_block prev l s Hp Hr) as (s' & -> & Hk & Hg). eexists _, _. split; [reflexivity |].
    split; [done |]. right; right. split; [done | apply Hg].
Qed.

(** ** The next block, behind its faults *)

(** Faults use up retries and nothing else. *)
Lemma next_block_faults fs prev : good_block prev -> forall r stat s l, Forall good_fault fs -> receiving s ->
  byte (next_blk s) -> num prev = Z.land (next_blk s - 1) 0xFF ->
  exists stat' s', next_block (length fs + r) stat s (concat (map (fault_text prev) fs) ++ l) = next_block r stat' s' l /\ kept s s'.
Proof.
  intros Hp. induction fs as [|f fs IH]; intros r stat s l Hf Hr Hb Hnum.
  { exists stat, s. by split. }
  assert (Hne : num prev <> next_blk s).
  { rewrite Hnum, (Z.land_ones _ 8) by lia. unfold byte in Hb. Z.div_mod_to_equations. lia. }
  apply Forall_cons in Hf as [Hf1 Hf]. cbn [length Nat.add map concat next_block]. rewrite <- app_assoc.
  destruct (get_hdr_fault prev f (concat (map (fault_text prev) fs) ++ l) s Hp Hf1 Hr) as (st & s1 & -> & Hk & Hst).
  pose proof (kept_receiving _ _ Hk Hr) as Hr1. pose proof Hk as (_ & _ & _ & K4 & _).
  assert (Hgo : forall st' s2, kept s1 s2 -> exists stat' s',
    next_block (length fs + r) st' s2 (concat (map (fault_text prev) fs) ++ l) = next_block r stat' s' l /\ kept s s').
  { intros st' s2 Hk2. pose proof Hk2 as (_ & _ & _ & J4 & _).
    destruct (IH r st' s2 l Hf) as (st3 & s3 & E & Hk3); [by eapply kept_receiving | congruence | congruence |].
    exists st3, s3. split; [done |]. by transitivity s1; [| transitivity s2]. }
  destruct Hst as [-> | [-> | [-> Hblk]]]; cbn [Z.eqb andb xyzModem_timeout xyzModem_cksum xyzModem_cancel xyzModem_eof Pos.eqb].
  - apply Hgo. by split_and!.
  - apply Hgo. by split_and!.
  - rewrite Hblk, K4, (proj2 (Z.eqb_neq _ _) Hne), Hnum, Z.eqb_refl. apply Hgo. by split_and!.
Qed.

Lemma retries_split (fs : list fault) : (length fs < xyzModem_MAX_RETRIES)%nat ->
  exists r, xyzModem_MAX_RETRIES = (length fs + S r)%nat.
Proof. intros H. exists (xyzModem_MAX_RETRIES - S (length fs))%nat. lia. Qed.

Lemma next_block_ok fs prev b stat s l : good_block prev -> good_block b -> num prev = Z.land (num b - 1) 0xFF ->
  Forall good_fault fs -> receiving s -> next_blk s = num b -> (length fs < xyzModem_MAX_RETRIES)%nat ->
  exists s', next_block xyzModem_MAX_RETRIES stat s (concat (map (fault_text prev) fs) ++ block_text b ++ l) =
    (0, accept_block s', l) /\ kept s s' /\ got b s'.
Proof.
  intros Hp Hb Hnum Hf Hr Hnx Hlen. destruct (retries_split fs Hlen) as [r ->].
  destruct (next_block_faults fs prev Hp (S r) stat s (block_text b ++ l) Hf Hr) as (st & s1 & -> & Hk1); [rewrite Hnx; apply Hb | congruence |].
  cbn [next_block]. destruct (get_hdr_block b l s1 Hb) as (s2 & -> & Hk2 & Hg); [by eapply kept_receiving |].
  pose proof Hk1 as (_ & _ & _ & K4 & _). pose proof Hk2 as (_ & _ & _ & J4 & _). pose proof Hg as (G1 & _).
  rewrite G1, J4, K4, Hnx, !Z.eqb_refl. exists s2. split; [done |]. split; [by transitivity s1 | done].
Qed.

(** The end of the file: EOT, then an empty header block. *)
Lemma next_block_eot fs prev fin stat s l : good_block prev -> good_block fin ->
  Forall good_fault fs -> receiving s -> mode s = xyzModem_ymodem -> byte (next_blk s) ->
  num prev = Z.land (next_blk s - 1) 0xFF -> (length fs < xyzModem_MAX_RETRIES)%nat ->
  exists s', next_block xyzModem_MAX_RETRIES stat s (concat (map (fault_text prev) fs) ++ Ch EOT :: block_text fin ++ l) = (0, s', l) /\
    at_eof s' = true.
Proof.
  intros Hp Hfin Hf Hr Hm Hb Hnum Hlen. destruct (retries_split fs Hlen) as [r ->].
  destruct (next_block_faults fs prev Hp (S r) stat s (Ch EOT :: block_text fin ++ l) Hf Hr Hb Hnum) as (st & s1 & -> & Hk).
  cbn [next_block]. set (s2 := putc ACK (if tx_ack s1 then set_tx_ack false (putc ACK s1) else s1)).
  assert (E : xyzModem_get_hdr s1 (Ch EOT :: block_text fin ++ l) = (xyzModem_eof, s2, block_text fin ++ l)) by done.
  assert (Hk2 : kept s1 s2) by (unfold s2; by destruct (tx_ack s1)).
  rewrite E. cbn [Z.eqb andb xyzModem_cancel xyzModem_eof Pos.eqb]. clearbody s2. unfold finish. cbn [mode putc].
  destruct Hk2 as (J1 & J2 & _ & _ & _ & _ & J7). pose proof Hk as (K1 & K2 & _ & _ & _ & _ & K7).
  rewrite J1, K1, Hm. cbn [Z.eqb Pos.eqb].
  destruct (get_hdr_block fin l (retry (crc_mode (putc ACK s2)) (ask (putc ACK s2))) Hfin) as (s3 & -> & _).
  { destruct Hr as [R1 R2]. split; cbn; congruence. }
  eexists. split; [reflexivity | done].
Qed.

(** ** The stream of the file's bytes *)

(** A data block with the faults before it, and the end of the transfer. *)
Record sblock := mk_sblock { faults : list fault; content : block }.
Record ending := mk_ending { end_faults : list fault; final : block }.

Definition few (fs : list fault) : Prop := Forall good_fault fs /\ (length fs < xyzModem_MAX_RETRIES)%nat.

Fixpoint rest_text (prev : block) (xs : list sblock) (e : ending) : line :=
  match xs with
  | [] => concat (map (fault_text prev) (end_faults e)) ++ Ch EOT :: block_text (final e)
  | x :: xs => concat (map (fault_text prev) (faults x)) ++ block_text (content x) ++ rest_text (content x) xs e
  end.

(** The blocks are numbered modulo 256, [n] is the number of the first. *)
Fixpoint good_blocks (n : Z) (xs : list sblock) : Prop :=
  match xs with
  | [] => True
  | x :: xs => num (content x) = n /\ good_block (content x) /\ few (faults x) /\ good_blocks (Z.land (n + 1) 0xFF) xs
  end.

(** [left] bytes of the file are still to come: no block starts after them. *)
Fixpoint fits (left : Z) (xs : list sblock) : Prop :=
  match xs with
  | [] => left <= 0
  | x :: xs => 0 < left /\ fits (left - bsize (content x)) xs
  end.

Definition bodies (xs : list sblock) : list Z := concat (map (fun x => body (content x)) xs).

(** The receiver between two reads: [F] the announced length, [prev] the last
    block, [bs] the bytes it can still deliver from the blocks [xs]. *)
Definition streaming (F : Z) (prev : block) (xs : list sblock) (bs : list Z) (s : xyz) : Prop :=
  receiving s /\ mode s = xyzModem_ymodem /\ at_eof s = false /\ file_length s = F /\ 0 < F < 2 ^ 31 /\
  good_block prev /\ byte (next_blk s) /\ num prev = Z.land (next_blk s - 1) 0xFF /\
  good_blocks (next_blk s) xs /\ 0 <= read_length s < F + 1024 /\ fits (F - read_length s) xs /\
  0 <= bufp s /\ 0 <= xlen s /\ bufp s + xlen s <= 1024 /\
  bs = take (Z.to_nat (xlen s)) (drop (Z.to_nat (bufp s)) (pkt s)) ++ take (Z.to_nat (F - read_length s)) (bodies xs).

Lemma land_ff x : Z.land x 0xFF = x mod 256.
Proof. by rewrite (Z.land_ones _ 8). Qed.

(** A block taken in: its part of the file becomes available. *)
Lemma accept_streaming F prev x xs bs s s' : streaming F prev (x :: xs) bs s -> xlen s = 0 ->
  kept s s' -> got (content x) s' ->
  streaming F (content x) xs bs (accept_block s') /\ 0 < xlen (accept_block s').
Proof.
  intros (Hr & Hm & He & Hf & HF & Hp & Hb & Hn & (Hx1 & Hx2 & Hx3 & Hx4) & Hrl & [Hleft Hfit] & Hbp & Hxl & Hsum & ->) Hz
    (K1 & K2 & K3 & K4 & K5 & K6 & K7) (G1 & G2 & G3 & G4).
  assert (Hbs : 0 < bsize (content x) <= 1024) by (unfold bsize; destruct (big (content x)); lia).
  pose proof Hx2 as (_ & _ & Hbl).
  assert (Ea : exists s1, accept_block s' = s1 /\ receiving s1 /\ mode s1 = xyzModem_ymodem /\ at_eof s1 = false /\ file_length s1 = F /\
    next_blk s1 = Z.land (next_blk s + 1) 0xFF /\ read_length s1 = read_length s + bsize (content x) /\ bufp s1 = 0 /\
    xlen s1 = Z.min (bsize (content x)) (F - read_length s) /\ pkt s1 = pkt s').
  { eexists. split; [reflexivity |]. unfold accept_block, receiving. cbn [mode set_next set_tx_ack file_length].
    rewrite K1, Hm, K5, Hf, (proj2 (Z.eqb_neq F 0)) by lia. cbn [Z.eqb xyzModem_ymodem xyzModem_xmodem Pos.eqb orb negb andb mode file_length set_next set_tx_ack].
    rewrite K1, Hm, K5, Hf, (proj2 (Z.eqb_neq F 0)) by lia. cbn [Z.eqb xyzModem_ymodem xyzModem_xmodem Pos.eqb negb andb].
    unfold cut_length. cbn [read_length xlen set_next set_tx_ack file_length set_lengths]. rewrite K6, G3, (wrap_small 32) by lia.
    rewrite K5, Hf. destruct Hr as [R1 R2].
    destruct (Z.ltb_spec F (read_length s + bsize (content x))); cbn; rewrite ?drop_0; split_and!; try congruence; try lia.
    unfold swrap. rewrite Z.mod_small; lia. }
  destruct Ea as (s1 & -> & R1 & R2 & R3 & R4 & R5 & R6 & R7 & R8 & R9).
  split; [| rewrite R8; lia]. split_and!; try done; try lia.
  - rewrite R5, land_ff. unfold byte. Z.div_mod_to_equations. lia.
  - rewrite Hx1, R5, !land_ff. unfold byte in Hb. Z.div_mod_to_equations. lia.
  - by rewrite R5.
  - rewrite R6. replace (F - (read_length s + bsize (content x))) with (F - read_length s - bsize (content x)) by lia. done.
  - rewrite Hz, R7, R8, R6, R9. cbn [Z.to_nat take drop app]. unfold bodies. cbn [map concat]. rewrite drop_0.
    rewrite <- G4 at 1. set (n := Z.to_nat (bsize (content x))). rewrite take_app, length_take, take_take.
    assert (n <= length (pkt s'))%nat by (destruct Hr as [_ R]; rewrite K7, R; lia).
    change (Z.to_nat 0) with 0%nat. rewrite take_0. cbn [app]. f_equal; f_equal; lia.
Qed.

(** A part of the buffer handed out. *)
Lemma copy_streaming F prev xs bs s n : streaming F prev xs bs s -> 0 <= n <= xlen s ->
  streaming F prev xs (drop (Z.to_nat n) bs) (set_pkt [] (bufp s + n) (xlen s - n) s) /\
  take (Z.to_nat n) (drop (Z.to_nat (bufp s)) (pkt s)) = take (Z.to_nat n) bs /\ n <= len bs.
Proof.
  intros (Hr & Hm & He & Hf & HF & Hp & Hb & Hn & Hx & Hrl & Hfit & Hbp & Hxl & Hsum & ->) Hle.
  assert (Hlen : length (take (Z.to_nat (xlen s)) (drop (Z.to_nat (bufp s)) (pkt s))) = Z.to_nat (xlen s)).
  { rewrite length_take, length_drop. destruct Hr as [_ R]. rewrite R. lia. }
  split_and!.
  - unfold streaming. cbn. rewrite drop_0. split_and!; try done; try lia.
    rewrite drop_app_le by lia. f_equal. rewrite skipn_firstn_comm, drop_drop. f_equal; [lia |]. f_equal. lia.
  - rewrite take_app_le by lia. rewrite take_take. f_equal. lia.
  - rewrite length_app. lia.
Qed.

(** One turn of the read loop once a block with data is in the buffer. *)
Lemma read_turn F prev xs bs s f size buf err l : streaming F prev xs bs s -> 0 < xlen s -> 0 < size ->
  exists n, 0 < n <= size /\ n <= len bs /\
  (let n := if size <? xlen s then size else xlen s in
   if n <? 0 then None
   else read_loop f (size - n) (buf ++ take (Z.to_nat n) (drop (Z.to_nat (bufp s)) (pkt s))) err
          (set_pkt [] (bufp s + n) (xlen s - n) s) l) =
  read_loop f (size - n) (buf ++ take (Z.to_nat n) bs) err (set_pkt [] (bufp s + n) (xlen s - n) s) l /\
  streaming F prev xs (drop (Z.to_nat n) bs) (set_pkt [] (bufp s + n) (xlen s - n) s).
Proof.
  intros Hs Hx Hz. exists (if size <? xlen s then size else xlen s).
  set (n := if size <? xlen s then size else xlen s). assert (Hn : 0 < n <= size /\ n <= xlen s) by (unfold n; zcases; lia).
  destruct (copy_streaming F prev xs bs s n Hs ltac:(lia)) as (H1 & H2 & H3). cbv zeta.
  rewrite (proj2 (Z.ltb_ge n 0)), H2 by lia. split_and!; try done; lia.
Qed.

(** The outcome of a read of [size] bytes: as many as there are, and the rest
    of the file still to be read, or the end of the file reached. *)
Definition read_outcome (F size : Z) (e : ending) (tl : line) (buf bs : list Z) (err : Z)
    (r : option (list Z * Z * xyz * line)) : Prop :=
  if size <=? len bs
  then exists s' prev' xs', r = Some (buf ++ take (Z.to_nat size) bs, err, s', rest_text prev' xs' e ++ tl) /\
    streaming F prev' xs' (drop (Z.to_nat size) bs) s'
  else exists s', r = Some (buf ++ bs, err, s', tl) /\ at_eof s' = true.

Lemma read_outcome_step F size n e tl buf bs err r : 0 < n <= size -> n <= len bs ->
  read_outcome F (size - n) e tl (buf ++ take (Z.to_nat n) bs) (drop (Z.to_nat n) bs) err r ->
  read_outcome F size e tl buf bs err r.
Proof.
  intros Hn Hle. unfold read_outcome. rewrite length_drop.
  destruct (Z.leb_spec size (len bs)), (Z.leb_spec (size - n) (Z.of_nat (length bs - Z.to_nat n))); try lia.
  - intros (s' & p & xs & -> & H1). exists s', p, xs. rewrite drop_drop in H1.
    replace (Z.to_nat n + Z.to_nat (size - n))%nat with (Z.to_nat size) in H1 by lia. split; [| done].
    do 3 f_equal. rewrite <- app_assoc, take_take_drop. do 4 f_equal. lia.
  - intros (s' & -> & H1). exists s'. by rewrite <- app_assoc, take_drop.
Qed.

Lemma read_loop_stream F e tl : good_block (final e) -> few (end_faults e) ->
  forall fuel size buf err s prev xs bs, streaming F prev xs bs s -> 0 <= size -> (Z.to_nat size + 1 < fuel)%nat ->
  read_outcome F size e tl buf bs err (read_loop fuel size buf err s (rest_text prev xs e ++ tl)).
Proof.
  intros Hfin [Hef1 Hef2]. induction fuel as [|f IH]; intros size buf err s prev xs bs Hs Hsz Hf; [lia |]. cbn [read_loop].
  pose proof Hs as (Hr & Hm & He & _ & _ & Hp & Hb & Hn & Hx & _ & Hfit & _ & Hxl & _ & Hbs). rewrite He. cbn [orb].
  destruct (Z.leb_spec size 0) as [H0|H0].
  { assert (size = 0) as -> by lia. unfold read_outcome. rewrite (proj2 (Z.leb_le 0 _)) by lia.
    exists s, prev, xs. change (Z.to_nat 0) with 0%nat. by rewrite take_0, drop_0, app_nil_r. }
  destruct (Z.eqb_spec (xlen s) 0) as [Hz|Hz].
  2: { cbn [Z.ltb Z.compare]. rewrite He.
       destruct (read_turn F prev xs bs s f size buf err (rest_text prev xs e ++ tl) Hs ltac:(lia) H0) as (n & Hn1 & Hn2 & E & Hs').
       cbv zeta in E. rewrite E. apply (read_outcome_step _ _ n); [done | done |]. apply IH; [done | lia | lia]. }
  destruct xs as [|x xs]; cbn [rest_text].
  - rewrite <- app_assoc. cbn [app].
    destruct (next_block_eot (end_faults e) prev (final e) xyzModem_cancel s tl) as (s' & -> & Heof); try done.
    cbn [Z.ltb Z.compare]. rewrite Heof. destruct f as [|f]; [lia |]. cbn [read_loop]. rewrite Heof. cbn [orb].
    assert (bs = []) as ->.
    { rewrite Hbs, Hz. cbn [fits] in Hfit. change (Z.to_nat 0) with 0%nat. rewrite take_0. cbn. by rewrite Z2Nat.nonpos, take_0 by lia. }
    unfold read_outcome. rewrite (proj2 (Z.leb_gt _ _)) by (simpl; lia). exists s'. by rewrite app_nil_r.
  - destruct Hx as (Hx1 & Hx2 & [Hx3 Hx4] & Hx5). rewrite <- !app_assoc.
    destruct (next_block_ok (faults x) prev (content x) xyzModem_cancel s (rest_text (content x) xs e ++ tl)) as (s' & -> & Hk & Hg); try done; [congruence.. |].
    destruct (accept_streaming F prev x xs bs s s' Hs Hz Hk Hg) as [Hs' Hpos]. pose proof Hs' as (_ & _ & He' & _).
    cbn [Z.ltb Z.compare]. rewrite He'.
    destruct (read_turn F (content x) xs bs (accept_block s') f size buf err (rest_text (content x) xs e ++ tl) Hs' Hpos H0) as (n & Hn1 & Hn2 & E & Hs2).
    cbv zeta in E. rewrite E. apply (read_outcome_step _ _ n); [done | done |]. apply IH; [done | lia | lia].
Qed.

(** ** Opening the stream *)

(** The header block: the name, the length and what else the sender writes. *)
Definition good_header (h : block) (F : Z) : Prop :=
  good_block h /\ num h = 0 /\ exists name field pad, body h = name ++ 0 :: field ++ 0 :: pad /\
    Forall (fun c => c <> 0) name /\ Forall (fun c => c <> 0) field /\ parse_num field [32] = Some F.

(** Before the header no block can be repeated, and the CRC stays chosen for
    nine faults. *)
Definition open_faults (fs : list fault) : Prop :=
  Forall (fun f => good_fault f /\ f <> Again) fs /\ Z.of_nat (length fs) < xyzModem_MAX_RETRIES_WITH_CRC.

Lemma open_loop_faults prev fs : good_block prev -> Forall (fun f => good_fault f /\ f <> Again) fs ->
  forall r stat cr s l, receiving s -> len fs < cr ->
  exists stat' cr' s', open_loop (length fs + r) stat cr s (concat (map (fault_text prev) fs) ++ l) = open_loop r stat' cr' s' l /\ kept s s'.
Proof.
  intros Hp. induction 1 as [|f fs [Hf Hna] _ IH]; intros r stat cr s l Hr Hcr; [by exists stat, cr, s |].
  cbn [length Nat.add map concat open_loop]. cbn [length] in Hcr. rewrite <- app_assoc.
  destruct (get_hdr_fault prev f (concat (map (fault_text prev) fs) ++ l) s Hp Hf Hr) as (st & s1 & E & Hk & Hst).
  assert (Hst' : st = xyzModem_timeout \/ st = xyzModem_cksum).
  { destruct f as [j1 j2 | b hi lo |]; [| | done].
    - destruct Hst as [|[|[-> _]]]; [by left | by right |]. unfold xyzModem_get_hdr in E. cbn [fault_text] in E.
      rewrite <- app_assoc in E. rewrite find_hdr_noise in E by done. cbn [app find_hdr] in E. discriminate E.
    - destruct Hf as (Hb & Hhi & Hlo & Hne). destruct (get_hdr_checked b hi lo (concat (map (fault_text prev) fs) ++ l) s Hb Hr Hhi Hlo) as (s2 & E2 & _).
      cbn [fault_text] in E. rewrite E in E2. rewrite (proj2 (Z.eqb_neq _ _) Hne) in E2. right. congruence. }
  rewrite E. pose proof (kept_receiving _ _ Hk Hr) as Hr1. destruct Hst' as [-> | ->]; cbn [Z.eqb xyzModem_timeout xyzModem_cksum xyzModem_cancel Pos.eqb].
  - rewrite (proj2 (Z.leb_gt (cr - 1) 0)) by lia. set (s2 := ask _).
    assert (Hk2 : kept s1 s2) by (by split_and!).
    destruct (IH r xyzModem_timeout (cr - 1) s2 l) as (st3 & cr3 & s3 & E3 & Hk3); [by eapply kept_receiving | lia |].
    exists st3, cr3, s3. split; [done |]. by transitivity s1; [| transitivity s2].
  - destruct (IH r xyzModem_cksum cr s1 l Hr1 ltac:(lia)) as (st3 & cr3 & s3 & E3 & Hk3).
    exists st3, cr3, s3. split; [done |]. by transitivity s1.
Qed.

Lemma take_while_nul (a b : list Z) : Forall (fun c => c <> 0) a ->
  take_while (fun c => negb (c =? 0)) (a ++ 0 :: b) = a.
Proof. induction 1 as [|c a Hc _ IH]; simpl; [done |]. by rewrite (proj2 (Z.eqb_neq _ _) Hc), IH. Qed.

(** The header accepted: the whole file is to be read. *)
Lemma stream_open_ok fs h F xs file s e tl : good_header h F -> 0 < F < 2 ^ 31 -> open_faults fs ->
  length (pkt s) = 1024%nat -> good_blocks 1 xs -> fits F xs -> take (Z.to_nat F) (bodies xs) = file ->
  exists s' err, xyzModem_stream_open xyzModem_ymodem s (concat (map (fault_text h) fs) ++ block_text h ++ rest_text h xs e ++ tl) =
    Some (0, err, s', rest_text h xs e ++ tl) /\ streaming F h xs file s'.
Proof.
  intros (Hh & Hnum & name & field & pad & Hbody & Hnm & Hfd & Hparse) HF [Hfs Hlen] Hp Hgb Hfit Hfile.
  unfold xyzModem_stream_open. cbn [mode ask putc]. cbn [Z.eqb xyzModem_ymodem xyzModem_xmodem Pos.eqb].
  set (s0 := ask _). assert (Hr0 : receiving s0) by (by split).
  replace xyzModem_MAX_RETRIES with (length fs + S (19 - length fs))%nat by (unfold xyzModem_MAX_RETRIES, xyzModem_MAX_RETRIES_WITH_CRC in *; lia).
  destruct (open_loop_faults h fs Hh Hfs (S (19 - length fs)) 0 xyzModem_MAX_RETRIES_WITH_CRC s0 (block_text h ++ rest_text h xs e ++ tl) Hr0 Hlen)
    as (st & cr & s1 & -> & Hk1).
  cbn [open_loop]. pose proof (kept_receiving _ _ Hk1 Hr0) as Hr1.
  destruct (get_hdr_block h (rest_text h xs e ++ tl) s1 Hh Hr1) as (s2 & -> & Hk2 & (G1 & G2 & G3 & G4)).
  rewrite G1, Hnum. cbn [Z.eqb]. rewrite G2. change (Z.to_nat 0) with 0%nat. rewrite drop_0.
  assert (Hpk : exists more, pkt s2 = name ++ 0 :: field ++ 0 :: more).
  { exists (pad ++ drop (Z.to_nat (bsize h)) (pkt s2)). rewrite <- (take_drop (Z.to_nat (bsize h)) (pkt s2)) at 1.
    rewrite G4, Hbody, <- app_assoc. cbn [app]. by rewrite <- app_assoc. }
  destruct Hpk as [more Hpk]. rewrite Hpk, take_while_nul by done.
  replace (Z.to_nat (0 + len name + 1)) with (length name + 1)%nat by lia.
  rewrite drop_app_add. cbn [drop]. rewrite drop_0, take_while_nul by done.
  rewrite (proj2 (Z.leb_gt _ _)).
  2: { rewrite length_app. cbn [length]. rewrite length_app. cbn [length]. lia. }
  rewrite Hparse. pose proof (kept_receiving _ _ Hk2 Hr1) as [R1 R2].
  assert (Hk : kept s0 s2) by (by transitivity s1). destruct Hk as (K1 & K2 & K3 & K4 & K5 & K6 & K7).
  eexists _, _. split; [reflexivity |]. unfold streaming, receiving. cbn. rewrite drop_0.
  assert (Hl : len name + 1 <= 1024) by (rewrite Hpk, length_app in R2; cbn [length] in R2; lia).
  rewrite K6. cbn. rewrite Z.sub_0_r, Hnum. split_and!; try done; try lia.
Qed.

(** ** Every wait ends *)

Lemma flush_shrinks l : (length (xyzModem_flush l) <= length l)%nat.
Proof. induction l as [|[c|] l IH]; simpl; lia. Qed.

Lemma find_hdr_shrinks l : forall can n s r s' l', find_hdr l can n s = (r, s', l') ->
  (length l' <= length l)%nat /\ (forall c, r = inr c -> (length l' < length l)%nat).
Proof.
  induction l as [|[c|] l IH]; intros can n s r s' l'; cbn [find_hdr length].
  - intros [= <- <- <-]. by split.
  - assert (Hrec : forall can n s, find_hdr l can n s = (r, s', l') ->
      (length l' <= S (length l))%nat /\ (forall d, r = inr d -> (length l' < S (length l))%nat)).
    { intros can1 n1 s1 E. apply IH in E as [E1 E2]. split; [lia | intros d Hd; specialize (E2 d Hd); lia]. }
    destruct (c =? SOH); [| destruct (c =? STX); [| destruct (c =? CAN); [destruct (_ =? xyzModem_CAN_COUNT) | destruct (_ && _)]]];
      try apply Hrec; (intros [= <- <- <-]; split; [lia | intros; (discriminate || lia)]).
  - intros [= <- <- <-]. pose proof (flush_shrinks l). split; [lia | done].
Qed.

Lemma read_chars_shrinks k : forall l bs ok l', read_chars k l = (bs, ok, l') -> (length l' <= length l)%nat.
Proof.
  induction k as [|k IH]; intros l bs ok l'; cbn [read_chars]; [by intros [= <- <- <-] |].
  destruct l as [|[c|] l]; cbn [GETC_TIMEOUT length].
  - by intros [= <- <- <-].
  - destruct (read_chars k l) as [[bs1 ok1] l1] eqn:E. apply IH in E. intros [= <- <- <-]. lia.
  - intros [= <- <- <-]. lia.
Qed.

Lemma getc_shrinks l r l' : GETC_TIMEOUT l = (r, l') -> (length l' <= length l)%nat.
Proof. destruct l as [|[c|] l]; intros [= <- <-]; simpl; lia. Qed.

Lemma read_check_shrinks s l stat s' l' : read_check s l = (stat, s', l') -> (length l' <= length l)%nat.
Proof.
  assert (Hv : forall s l stat s' l', validate s l = (stat, s', l') -> (length l' <= length l)%nat).
  { intros s0 l0 st0 s0' l0'. unfold validate. pose proof (flush_shrinks l0). repeat case_match; intros [= <- <- <-]; lia. }
  unfold read_check. destruct (GETC_TIMEOUT l) as [[a|] l1] eqn:E1; apply getc_shrinks in E1; [| intros [= <- <- <-]; lia].
  destruct (crc_mode s); [| intros H; apply Hv in H; lia].
  destruct (GETC_TIMEOUT l1) as [[b|] l2] eqn:E2; apply getc_shrinks in E2; [| intros [= <- <- <-]; lia].
  intros H. apply Hv in H. lia.
Qed.

Lemma get_hdr_shrinks s l stat s' l' : xyzModem_get_hdr s l = (stat, s', l') ->
  (length l' <= length l)%nat /\ (0 <= stat -> (length l' < length l)%nat).
Proof.
  unfold xyzModem_get_hdr. set (s0 := if tx_ack s then _ else _). destruct (find_hdr l 0 0 s0) as [[[st|c] s1] l1] eqn:E.
  - assert (Hneg : st < 0).
    { clear -E. revert E. generalize 0 at 1 as can, 0 at 1 as n. clearbody s0. revert s0.
      induction l as [|[c|] l IH]; intros s0 can n; cbn [find_hdr]; [by intros [= <- <- <-] | | by intros [= <- <- <-]].
      repeat case_match; try (by intros [= <- <- <-]); apply IH. }
    apply find_hdr_shrinks in E as [E _]. intros [= <- <- <-]. split; [lia |]. intros. lia.
  - apply find_hdr_shrinks in E as [_ E]. specialize (E c eq_refl). unfold read_block.
    destruct (GETC_TIMEOUT l1) as [[b|] l2] eqn:E1; apply getc_shrinks in E1; [| intros [= <- <- <-]; split; intros; lia].
    destruct (GETC_TIMEOUT l2) as [[cb|] l3] eqn:E2; apply getc_shrinks in E2; [| intros [= <- <- <-]; split; intros; lia].
    destruct (read_chars _ l3) as [[bs ok] l4] eqn:E3. apply read_chars_shrinks in E3.
    destruct ok; [| intros [= <- <- <-]; split; intros; lia]. intros H. apply read_check_shrinks in H. split; intros; lia.
Qed.

Lemma next_block_shrinks r : forall stat s l stat' s' l', next_block r stat s l = (stat', s', l') ->
  (length l' <= length l)%nat /\ (0 <= stat' -> r <> O -> (length l' < length l)%nat).
Proof.
  induction r as [|r IH]; intros stat s l stat' s' l'; cbn [next_block]; [intros [= <- <- <-]; by split |].
  destruct (xyzModem_get_hdr s l) as [[st s1] l1] eqn:E. apply get_hdr_shrinks in E as [E1 E2].
  assert (Hrec : forall st2 s2, 0 <= st2 -> (length l1 < length l)%nat -> next_block r st2 s2 l1 = (stat', s', l') ->
    (length l' <= length l)%nat /\ (0 <= stat' -> S r <> O -> (length l' < length l)%nat)).
  { intros st2 s2 Hst Hl H. apply IH in H as [H1 H2]. split; [lia |]. intros. lia. }
  assert (Hneg : forall st2 s2, st2 < 0 -> next_block r st2 s2 l1 = (stat', s', l') ->
    (length l' <= length l)%nat /\ (0 <= stat' -> S r <> O -> (length l' < length l)%nat)).
  { intros st2 s2 Hst H. destruct r as [|r]; [injection H as <- <- <-; split; [done | intros; lia] |].
    apply IH in H as [H1 H2]. split; [lia |]. intros H3 _. specialize (H2 H3 ltac:(done)). lia. }
  destruct (Z.eqb_spec st 0) as [->|Hst]; cbn [andb].
  - specialize (E2 ltac:(lia)). destruct (_ =? next_blk s1); [intros [= <- <- <-]; split; intros; lia |].
    destruct (_ =? _); [apply Hrec; lia |]. cbn [Z.eqb xyzModem_sequence xyzModem_cancel xyzModem_eof Pos.eqb]. by apply Hneg.
  - destruct (Z.eqb_spec st xyzModem_cancel) as [->|]; [intros [= <- <- <-]; split; [done | by intros] |].
    destruct (Z.eqb_spec st xyzModem_eof) as [->|].
    + unfold finish. destruct (mode _ =? _).
      * destruct (xyzModem_get_hdr _ l1) as [[st2 s2] l2] eqn:E3. apply get_hdr_shrinks in E3 as [E3 E4].
        intros [= <- <- <-]. split; [lia |]. intros H _. specialize (E4 H). lia.
      * intros [= <- <- <-]. split; [done | by intros].
    + destruct (Z.ltb_spec st 0); [by apply Hneg |]. apply Hrec; [lia | apply E2; lia].
Qed.


(** The requests [open_loop] sends on a silent line. *)
Fixpoint silent_asks (r : nat) (cr : Z) (crc : bool) : list Z :=
  match r with
  | O => []
  | S r => let crc := if cr - 1 <=? 0 then false else crc in (if crc then CHAR_C else NAK) :: silent_asks r (cr - 1) crc
  end.

Lemma open_silent r : forall st cr s, tx_ack s = false -> r <> O \/ st = xyzModem_timeout ->
  exists s', open_loop r st cr s [] = Some (-1, xyzModem_timeout, s', []) /\ sent s' = sent s ++ silent_asks r cr (crc_mode s).
Proof.
  induction r as [|r IH]; intros st cr s Ht Hst; [destruct Hst as [| ->]; [done |]; exists s; by rewrite app_nil_r |].
  cbn [open_loop silent_asks]. unfold xyzModem_get_hdr. rewrite Ht. cbn [find_hdr Z.eqb xyzModem_timeout Pos.eqb].
  destruct (IH xyzModem_timeout (cr - 1) (ask (retry (if cr - 1 <=? 0 then false else crc_mode s) s)) Ht) as (s' & E & Hs); [by right |].
  exists s'. split; [exact E |]. rewrite Hs. cbn. by rewrite <- app_assoc.
Qed.

Lemma next_silent r : forall st s, tx_ack s = false -> r <> O \/ st = xyzModem_timeout ->
  exists s', next_block r st s [] = (xyzModem_timeout, s', []) /\
    sent s' = sent s ++ replicate r (if crc_mode s then CHAR_C else NAK).
Proof.
  induction r as [|r IH]; intros st s Ht Hst; [destruct Hst as [| ->]; [done |]; exists s; by rewrite app_nil_r |].
  cbn [next_block]. unfold xyzModem_get_hdr. rewrite Ht. cbn [find_hdr Z.eqb xyzModem_timeout andb xyzModem_cancel xyzModem_eof Pos.eqb].
  destruct (IH xyzModem_timeout (retry (crc_mode s) (ask s)) Ht) as (s' & E & Hs); [by right |].
  exists s'. split; [exact E |]. rewrite Hs. cbn. by rewrite <- app_assoc.
Qed.

Lemma next_acked r st s l : tx_ack s = true ->
  next_block (S r) st s l = next_block (S r) st (set_tx_ack false (putc ACK s)) l.
Proof. intros Ht. cbn [next_block]. unfold xyzModem_get_hdr. by rewrite Ht. Qed.

(** On a silent line both entry points give up.  Opening the stream asks
    for a block with CRC ten times and then eleven times with the checksum
    before it returns the timeout; a read that needs a block asks twenty
    times, returns no bytes and the timeout. *)
Theorem silent_line_given_up s size err :
  (exists s', xyzModem_stream_open xyzModem_ymodem s [] = Some (-1, xyzModem_timeout, s', []) /\
     sent s' = sent s ++ replicate 10 CHAR_C ++ replicate 11 NAK) /\
  (0 < size -> at_eof s = false -> xlen s = 0 ->
   exists s', xyzModem_stream_read size err s [] = Some ([], xyzModem_timeout, s', []) /\
     sent s' = sent s ++ (if tx_ack s then [ACK] else []) ++ replicate 20 (if crc_mode s then CHAR_C else NAK)).
Proof.
  split.
  - unfold xyzModem_stream_open. cbn [mode ask putc Z.eqb xyzModem_ymodem xyzModem_xmodem Pos.eqb]. set (s0 := ask _).
    destruct (open_silent xyzModem_MAX_RETRIES 0 xyzModem_MAX_RETRIES_WITH_CRC s0) as (s' & E & Hs); [done | by left |].
    exists s'. split; [exact E |]. rewrite Hs. cbn [s0 ask sent putc crc_mode]. by rewrite <- app_assoc.
  - intros Hsz He Hx. unfold xyzModem_stream_read. cbn [length Nat.add read_loop].
    rewrite He, Hx, (proj2 (Z.leb_gt size 0)) by done. cbn [orb Z.eqb].
    destruct (tx_ack s) eqn:Et.
    + unfold xyzModem_MAX_RETRIES. rewrite next_acked by done.
      destruct (next_silent 20 xyzModem_cancel (set_tx_ack false (putc ACK s))) as (s' & -> & Hs); [done | by left |].
      eexists. split; [reflexivity |]. cbn [sent set_pkt]. rewrite Hs. cbn [sent set_tx_ack putc crc_mode]. by rewrite <- app_assoc.
    + destruct (next_silent xyzModem_MAX_RETRIES xyzModem_cancel s Et) as (s' & -> & Hs); [by left |].
      eexists. split; [reflexivity |]. cbn [sent set_pkt]. by rewrite Hs.
Qed.

(** ** Concrete lines *)

Definition idle_xyz : xyz := mk_xyz (replicate 1024 0) 0 0 0 0 0 0 0 0 0 0 0 0 false false false 0 0 [].


Lemma silent_line_given_up_witness :
  exists s', xyzModem_stream_read 512 0 idle_xyz [] = Some ([], xyzModem_timeout, s', []) /\ sent s' = replicate 20 NAK.
Proof. apply (proj2 (silent_line_given_up idle_xyz 512 0)); done. Defined.
