(* ===== verification/Loadb.v ===== *)
(** * The binary download commands: [loadb] and [loady] of common/cmd_load.c

    [load_serial_bin] runs the Kermit receiver ([Kermit]) on the RAM,
    [load_serial_ymodem] reads the Y-modem stream ([Ymodem]) in pieces of a
    kilobyte into RAM or flash ([Flash]); both leave the size in "filesize"
    ([Loads.set_filesize]).  [do_load_serial_bin] is the command: load address,
    baud rate, protocol.  The line is a list of events as in [Ymodem]; Kermit
    waits without a timeout, so it sees the characters only.

    The theorems: with either protocol the file ends up at the load address,
    nothing else in memory changes (Y-modem) or nothing below it (Kermit), and
    "filesize" is its length. *)

From S2P Require Import Kermit Ymodem Prelude Memory Vsprintf Env Flash SRecord Loads.

Local Open Scope Z_scope.

Definition CONFIG_SYS_LOAD_ADDR : Z := 0.

Abbreviation line := (list event).

(** The characters of a line, for a reader that waits for ever. *)
Fixpoint chars (l : line) : list Z :=
  match l with
  | [] => []
  | Ch c :: l => c :: chars l
  | Quiet :: l => chars l
  end.

(** The line after [k] characters have been read. *)
Fixpoint skip_chars (k : nat) (l : line) : line :=
  match k, l with
  | O, _ => l
  | _, [] => []
  | S k', Ch _ :: l => skip_chars k' l
  | S _, Quiet :: l => skip_chars k l
  end.

(** [for (;;) if (getc() == c) break;] *)
Fixpoint wait_char (c : Z) (l : line) : option line :=
  match l with
  | [] => None
  | Ch d :: l => if d =? c then Some l else wait_char c l
  | Quiet :: l => wait_char c l
  end.

(** The [k] polls for trailing characters. *)
Fixpoint drain_polls (k : nat) (l : line) : line :=
  match k, l with
  | S k', Ch _ :: l => drain_polls k' l
  | _, _ => l
  end.

Section loadb.
Context {W : Type} `{nor_ops W} {console : Type} (console_assign : Z -> list Z -> console -> Z * console).

(** The receivers' static variables and the rest of the system. *)
Record host := mk_host {
  kermit_state : Kermit.kermit;
  xyz_state : Ymodem.xyz;
  sys : system W console;
}.

Definition load_serial_bin (offset : Z) (h : host) (l : line) : option (Z * host * line) :=
  let k := Kermit.set_kmem (ram (sys h)) (kermit_state h) in
  match Kermit.k_recv (Kermit.set_kerm_bin_mode offset k) (chars l) with
  | None => None
  | Some (size, k, rest) =>
      let l := drain_polls 100 (skip_chars (length (chars l) - length rest) l) in
      match set_filesize console_assign (str "%X") (u32 size)
              (mk_system (Kermit.kmem k) (chip (sys h)) (envs (sys h)) (vars (sys h))) with
      | None => None
      | Some s => Some (offset, mk_host k (xyz_state h) s, l)
      end
  end.

(** What [load_serial_ymodem] keeps between two reads. *)
Record ymodem_vars := mk_ymodem {
  ymodemBuf : mem;
  ysize : Z;                  (* size *)
  yaddr : Z;                  (* addr *)
  yerr : Z;                   (* err *)
}.

(** One piece of [res] bytes: [false] after an error of [flash_write]. *)
Definition store_piece (fuel : nat) (info : flash_info_t) (offset res : Z) (y : ymodem_vars) (s : system W console)
    : option (bool * ymodem_vars * system W console) :=
  let store_addr := u32 (yaddr y + offset) in
  let y' := mk_ymodem (ymodemBuf y) (s32 (ysize y + res)) (u32 (yaddr y + res)) (yerr y) in
  if addr2info info store_addr then
    match flash_write fuel info (ymodemBuf y) 0 store_addr res (chip s) with
    | None => None
    | Some (rc, w) => Some (negb (truth rc), y', mk_system (ram s) w (envs s) (vars s))
    end
  else Some (true, y', mk_system (store_list (ram s) store_addr (load (ymodemBuf y) 0 (Z.to_nat res))) (chip s) (envs s) (vars s)).

(** The loop over the pieces: [None] as in [Ymodem.read_loop]. *)
Fixpoint ymodem_loop (turns fuel : nat) (info : flash_info_t) (offset : Z) (y : ymodem_vars)
    (x : Ymodem.xyz) (s : system W console) (l : line)
    : option (bool * ymodem_vars * Ymodem.xyz * system W console * line) :=
  match turns with
  | O => None
  | S t =>
      match Ymodem.xyzModem_stream_read 1024 (yerr y) x l with
      | None => None
      | Some (buf, err, x, l) =>
          let res := len buf in
          let y := mk_ymodem (store_list (ymodemBuf y) 0 buf) (ysize y) (yaddr y) err in
          if res <=? 0 then Some (true, y, x, s, l)
          else
            match store_piece fuel info offset res y s with
            | None => None
            | Some (true, y, s) => ymodem_loop t fuel info offset y x s l
            | Some (false, y, s) => Some (false, y, x, s, l)
            end
      end
  end.

(** [uninit]: what the stack held in [ymodemBuf] and [err]. *)
Definition load_serial_ymodem (fuel : nat) (info : flash_info_t) (uninit : mem * Z) (offset : Z) (h : host) (l : line)
    : option (Z * host * line) :=
  match Ymodem.xyzModem_stream_open Ymodem.xyzModem_ymodem (xyz_state h) l with
  | None => None
  | Some (res, err, x, l) =>
      let y := mk_ymodem (fst uninit) 0 0 (if res =? 0 then snd uninit else err) in
      match (if res =? 0 then ymodem_loop (S (S (length l))) fuel info offset y x (sys h) l
             else Some (true, y, x, sys h, l)) with
      | None => None
      | Some (false, y, x, s, l) => Some (aborted, mk_host (kermit_state h) x s, l)
      | Some (true, y, x, s, l) =>
          let '(x, l) := Ymodem.xyzModem_stream_terminate false x l in
          match set_filesize console_assign (str "%X") (u32 (ysize y)) s with
          | None => None
          | Some s => Some (offset, mk_host (kermit_state h) x s, l)
          end
      end
  end.

(** ** The command *)

Definition set_baudrate (b : Z) (s : system W console) : system W console :=
  let v := vars s in
  mk_system (ram s) (chip s) (envs s)
    (mk_vars console (env_id console v) (bi_enetaddr console v) (bi_ip_addr console v) (load_addr console v)
       (BootFile console v) b (brg console v ++ [b]) (input console v) (cons console v)).

Definition set_load_addr (a : Z) (s : system W console) : system W console :=
  let v := vars s in
  mk_system (ram s) (chip s) (envs s)
    (mk_vars console (env_id console v) (bi_enetaddr console v) (bi_ip_addr console v) a
       (BootFile console v) (baudrate console v) (brg console v) (input console v) (cons console v)).

Definition on_sys (f : system W console -> system W console) (h : host) : host :=
  mk_host (kermit_state h) (xyz_state h) (f (sys h)).

(** Switch the rate and wait for the key that confirms it. *)
Definition switch_baudrate (b key : Z) (h : host) (l : line) : option (host * line) :=
  match wait_char key l with
  | None => None
  | Some l => Some (on_sys (set_baudrate b) h, l)
  end.

(** [do_load_serial_bin] with [argv]; the return code is always 0 for
    [loady]. *)
Definition do_load_serial_bin (fuel : nat) (info : flash_info_t) (uninit : mem * Z) (argv : list (list Z))
    (h : host) (l : line) : option (Z * host * line) :=
  match getenv_str (envs (sys h)) (str "loadaddr") with
  | None => None
  | Some s =>
      let offset := match s with Some s => fst (simple_strtoul s 16) | None => CONFIG_SYS_LOAD_ADDR end in
      let offset := match argv with _ :: a :: _ => fst (simple_strtoul a 16) | _ => offset end in
      let current_baudrate := baudrate console (vars (sys h)) in
      let load_baudrate :=
        match argv with
        | [_; _; b] => let b := s32 (fst (simple_strtoul b 10)) in if b =? 0 then current_baudrate else b
        | _ => current_baudrate
        end in
      match (if load_baudrate =? current_baudrate then Some (h, l) else switch_baudrate load_baudrate 13 h l) with
      | None => None
      | Some (h, l) =>
          let r :=
            if streq (hd [] argv) (str "loady") then
              match load_serial_ymodem fuel info uninit offset h l with
              | None => None
              | Some (_, h, l) => Some (0, h, l)
              end
            else
              match load_serial_bin offset h l with
              | None => None
              | Some (addr, h, l) =>
                  if addr =? aborted then Some (1, on_sys (set_load_addr 0) h, l)
                  else Some (0, on_sys (set_load_addr addr) h, l)
              end in
          match r with
          | None => None
          | Some (rcode, h, l) =>
              if load_baudrate =? current_baudrate then Some (rcode, h, l)
              else
                match switch_baudrate current_baudrate 0x1B h l with
                | None => None
                | Some (h, l) => Some (rcode, h, l)
                end
          end
      end
  end.
End loadb.

(** ** Y-modem *)

Section ymodem_proofs.
Context {W : Type} `{nor_ops W} {console : Type}.

Lemma stream_read_eof x err l : Ymodem.at_eof x = true ->
  Ymodem.xyzModem_stream_read 1024 err x l = Some ([], err, x, l).
Proof. intros E. unfold Ymodem.xyzModem_stream_read. cbn [Ymodem.read_loop Nat.add]. by rewrite E. Qed.

Lemma bodies_length prev xs e : (length (Ymodem.bodies xs) <= length (Ymodem.rest_text prev xs e))%nat.
Proof.
  revert prev. induction xs as [|x xs IH]; intros prev; [simpl; lia |]. unfold Ymodem.bodies in *.
  cbn [map concat Ymodem.rest_text]. rewrite !length_app. specialize (IH (Ymodem.content x)).
  unfold Ymodem.block_text, Ymodem.block_head. rewrite length_map, !length_app. lia.
Qed.

(** A piece that goes to RAM. *)
Lemma store_piece_ram fuel info offset bs (y : ymodem_vars) (s : system W console) b0 :
  bs <> [] -> 0 <= yaddr y -> ysize y = yaddr y -> 0 <= offset -> yaddr y + offset + len bs <= 2 ^ 32 -> yaddr y + len bs < 2 ^ 31 ->
  addr2info info (yaddr y + offset) = false -> ymodemBuf y = store_list b0 0 bs ->
  store_piece fuel info offset (len bs) y s =
  Some (true, mk_ymodem (ymodemBuf y) (yaddr y + len bs) (yaddr y + len bs) (yerr y),
    mk_system (store_list (ram s) (offset + yaddr y) bs) (chip s) (envs s) (vars s)).
Proof.
  intros Hne H1 Hs H2 H3 H4 H5 H6. unfold store_piece.
  assert (0 < len bs) by (destruct bs; [done | simpl; lia]).
  rewrite (wrap_small 32 (yaddr y + offset)), H5, H6, Nat2Z.id, load_store_list, Hs by lia.
  rewrite (wrap_small 32) by lia. replace (s32 (yaddr y + len bs)) with (yaddr y + len bs).
  - do 4 f_equal. lia.
  - unfold swrap. rewrite Z.mod_small; lia.
Qed.

Lemma ymodem_loop_stream F e tl fuel info offset : Ymodem.good_block (Ymodem.final e) -> Ymodem.few (Ymodem.end_faults e) ->
  0 <= offset -> offset + F <= 2 ^ 32 -> F < 2 ^ 31 -> (forall k, 0 <= k < F -> addr2info info (k + offset) = false) ->
  forall turns prev xs bs y x (s : system W console), Ymodem.streaming F prev xs bs x -> (length bs + 1 < turns)%nat ->
  0 <= yaddr y -> ysize y = yaddr y -> yaddr y + len bs = F ->
  exists y' x', ymodem_loop turns fuel info offset y x s (Ymodem.rest_text prev xs e ++ tl) =
    Some (true, y', x', mk_system (store_list (ram s) (offset + yaddr y) bs) (chip s) (envs s) (vars s), tl) /\ ysize y' = F.
Proof.
  intros Hfin Hef Ho Hof HF Hram. induction turns as [|t IH]; intros prev xs bs y x s Hs Ht Hy Hys Hsum; [lia |]. cbn [ymodem_loop].
  pose proof (Ymodem.read_loop_stream F e tl Hfin Hef (S (S (length (Ymodem.rest_text prev xs e ++ tl)) + Z.to_nat 1024)) 1024 [] (yerr y)
    x prev xs bs Hs ltac:(lia) ltac:(lia)) as Hr.
  fold (Ymodem.xyzModem_stream_read 1024 (yerr y) x (Ymodem.rest_text prev xs e ++ tl)) in Hr. unfold Ymodem.read_outcome in Hr.
  destruct (Z.leb_spec 1024 (len bs)) as [Hle|Hgt].
  - destruct Hr as (x' & p' & xs' & -> & Hs'). cbn [app].
    assert (Hl : len (take (Z.to_nat 1024) bs) = 1024) by (rewrite length_take; lia).
    rewrite Hl. cbn [Z.leb Z.compare]. rewrite <- Hl.
    rewrite (store_piece_ram fuel info offset (take (Z.to_nat 1024) bs) _ s (ymodemBuf y)); cbn [yaddr ysize ymodemBuf yerr];
      first [done | rewrite ?Hl; lia | by rewrite ?Hl | by intros E; rewrite E in Hl | by apply Hram; lia | idtac].
    cbn [yerr ymodemBuf]. rewrite Hl.
    destruct (IH p' xs' (drop (Z.to_nat 1024) bs) (mk_ymodem (store_list (ymodemBuf y) 0 (take (Z.to_nat 1024) bs)) (yaddr y + 1024) (yaddr y + 1024) (yerr y))
      x' (mk_system (store_list (ram s) (offset + yaddr y) (take (Z.to_nat 1024) bs)) (chip s) (envs s) (vars s)) Hs') as (y' & x2 & E & Hsz);
      cbn [yaddr ysize]; rewrite ?length_drop; try lia.
    exists y', x2. split; [| done]. cbn [ram chip envs vars yaddr] in E. rewrite E.
    pose proof (store_list_app (ram s) (offset + yaddr y) (take (Z.to_nat 1024) bs) (drop (Z.to_nat 1024) bs)) as Hsl.
    rewrite take_drop, Hl in Hsl. rewrite Hsl. by replace (offset + (yaddr y + 1024)) with (offset + yaddr y + 1024) by lia.
  - destruct Hr as (x' & -> & Heof). cbn [app]. destruct bs as [|b bs].
    + destruct s. eexists _, _. split; [reflexivity |]. cbn [ysize]. simpl in Hsum. lia.
    + rewrite (proj2 (Z.leb_gt (len (b :: bs)) 0)) by (simpl; lia).
      rewrite (store_piece_ram fuel info offset (b :: bs) _ s (ymodemBuf y)); cbn [yaddr ysize ymodemBuf yerr];
        first [done | lia | by apply Hram; simpl in *; lia | idtac].
      destruct t as [|t]; [simpl in Ht; lia |]. cbn [ymodem_loop yerr]. rewrite stream_read_eof by done. cbn [length Z.of_nat Z.leb Z.compare].
      eexists _, _. split; [reflexivity |]. cbn [ysize]. exact Hsum.
Qed.
End ymodem_proofs.


(** Loading a file with Kermit ([Kermit.kermit_transfer] gives the
    sessions): [load_serial_bin] returns the load address, the file is there,
    memory below it is unchanged, and "filesize" is the length. *)
Theorem loadb_places_file {W} `{nor_ops W} {console} (console_assign : Z -> list Z -> console -> Z * console)
    offset (h : host) es x file rest l :
  length (Kermit.send_parms (kermit_state (W := W) (console := console) h)) = 20%nat ->
  Kermit.good_session x -> Kermit.good_quote (Kermit.quote_used x) -> Forall byte file -> Kermit.carries x file -> len file < 2 ^ 31 ->
  chars l = concat (map Kermit.line_of (Kermit.packets x)) ++ rest ->
  relocated (envs (sys h)) -> env_holds (env_mem (envs (sys h))) es -> NoDup es.*1 -> size_of es + 19 <= ENV_SIZE ->
  exists h' l', load_serial_bin console_assign offset h l = Some (offset, h', l') /\
    load (ram (sys h')) offset (length file) = file /\ (forall a, a < offset -> ram (sys h') a = ram (sys h) a) /\
    chip (sys h') = chip (sys h) /\ has_filesize (envs (sys h')) (len file).
Proof.
  intros Hsp Hx Hq Hf Hc Hlen Hl Hr He Hnd Hroom. unfold load_serial_bin. rewrite Hl.
  destruct (Kermit.kermit_receives offset (Kermit.set_kmem (ram (sys h)) (kermit_state h)) x file rest Hsp Hx Hq Hf Hc Hlen) as (k & -> & Hfile & Hbelow).
  rewrite (wrap_small 32) by lia.
  destruct (set_filesize_spec console_assign (str "%X") (len file) (mk_system (Kermit.kmem k) (chip (sys h)) (envs (sys h)) (vars (sys h)))
    es (or_intror eq_refl) Hr He Hnd Hroom ltac:(lia)) as (e' & v' & -> & _ & Hfs').
  eexists _, _. split; [reflexivity |]. by split_and!.
Qed.

(** ** Concrete downloads *)

Definition demo_host : host (W := NorChip.chip) (console := unit) := mk_host Kermit.blank Ymodem.idle_xyz demo_system.

(** 150 bytes in two short blocks; the header first with a wrong CRC, the
    first block after a silence and the header once more, the second block
    damaged once. *)
Definition demo_bytes : list Z := map (fun i => Z.of_nat i * 7 mod 256) (List.seq 1 150).

Definition demo_header : Ymodem.block :=
  Ymodem.mk_block false 0 (str "demo.bin" ++ [0] ++ str "150 10644" ++ [0] ++ replicate 109 0).
Definition demo_block1 : Ymodem.block := Ymodem.mk_block false 1 (take 128 demo_bytes).
Definition demo_block2 : Ymodem.block := Ymodem.mk_block false 2 (drop 128 demo_bytes ++ replicate 106 26).

Definition demo_sblocks : list Ymodem.sblock :=
  [Ymodem.mk_sblock [Ymodem.Silence (str "x") (str "yz"); Ymodem.Again] demo_block1;
   Ymodem.mk_sblock [Ymodem.BadCrc demo_block2 0 0] demo_block2].
Definition demo_ending : Ymodem.ending := Ymodem.mk_ending [Ymodem.Again] (Ymodem.mk_block false 0 (replicate 128 0)).

Lemma demo_block_good b : forallb (fun c => (0 <=? c) && (c <? 256)) (Ymodem.num b :: Ymodem.body b) && (len (Ymodem.body b) =? Ymodem.bsize b) = true ->
  Ymodem.good_block b.
Proof.
  intros H. apply andb_true_iff in H as [H1 H2]. zb. rewrite forallb_forall in H1.
  assert (Hall : Forall byte (Ymodem.num b :: Ymodem.body b)).
  { apply Forall_forall. intros c Hc%list_elem_of_In. specialize (H1 c Hc). unfold byte. zb. lia. }
  apply Forall_cons in Hall as [Hn Hb]. by split_and!.
Qed.


Lemma loadb_places_file_witness :
  exists h' l', load_serial_bin (fun _ _ c => (0, c)) 0x1000 demo_host
      (map Ch (concat (map Kermit.line_of (Kermit.packets Kermit.demo_session)) ++ [])) = Some (0x1000, h', l') /\
    load (ram (sys h')) 0x1000 10 = Kermit.demo_file /\ has_filesize (envs (sys h')) 10.
Proof.
  destruct (loadb_places_file (fun _ _ c => (0, c)) 0x1000 demo_host default_vars Kermit.demo_session Kermit.demo_file []
    (map Ch (concat (map Kermit.line_of (Kermit.packets Kermit.demo_session)) ++ []))) as (h' & l' & E & H1 & _ & _ & H2).
  - reflexivity.
  - exact Kermit.demo_session_good.
  - left. vm_compute. intuition discriminate.
  - bytes_eval.
  - vm_compute. reflexivity.
  - reflexivity.
  - vm_compute. reflexivity.
  - by split_and!.
  - apply demo_array_holds.
  - by_eval.
  - vm_compute. discriminate.
  - exists h', l'. by split_and!.
Defined.

(** ** What the hypotheses exclude *)

(** A sender that sends one block more than the length it announced makes
    [memcpy] copy a negative number of bytes. *)
Lemma overlong_transfer :
  let hdr := Ymodem.mk_block false 0 (str "f" ++ [0] ++ str "100" ++ replicate 123 0) in
  let b n := Ymodem.mk_block false n (replicate 128 65) in
  let l := Ymodem.block_text hdr ++ Ymodem.block_text (b 1) ++ Ymodem.block_text (b 2) in
  match Ymodem.xyzModem_stream_open Ymodem.xyzModem_ymodem Ymodem.idle_xyz l with
  | Some (0, _, x, l) => Ymodem.xyzModem_stream_read 1024 0 x l = None
  | _ => False
  end.
Proof. vm_compute. done. Qed.

(** A transfer that is cancelled between two short blocks returns what it has
    and leaves the length -1; the loop reads again and copies -1 bytes. *)
Lemma cancelled_transfer :
  let hdr := Ymodem.mk_block false 0 (str "f" ++ [0] ++ str "1000" ++ replicate 122 0) in
  let l := Ymodem.block_text hdr ++ Ymodem.block_text (Ymodem.mk_block false 1 (replicate 128 65)) ++ map Ch [24; 24; 24] in
  match Ymodem.xyzModem_stream_open Ymodem.xyzModem_ymodem Ymodem.idle_xyz l with
  | Some (0, _, x, l) =>
      match Ymodem.xyzModem_stream_read 1024 0 x l with
      | Some (buf, err, x, l) => len buf = 128 /\ err = Ymodem.xyzModem_cancel /\ Ymodem.xyzModem_stream_read 1024 err x l = None
      | None => False
      end
  | _ => False
  end.
Proof. vm_compute. done. Qed.
