(* ===== verification/Fdt.v ===== *)
(** * Flattened device trees: libfdt/fdt.c and libfdt/fdt_ro.c

    The read-only routines that the FIT image format uses.  The blob lies in
    memory at [fdt]; a node is named by the offset of its tag in the structure
    block, and a negative offset is an error code, as in the library.  A
    pointer is an address and 0 is [NULL]; [None] is a loop that has used up
    [fuel].

    The theorems: on a blob that encodes a tree the routines find exactly what
    the tree has: the first property of a name, the first subnode of a name,
    with or without its unit address, and the node of a path. *)

From S2P Require Import Prelude Memory Strings Image.

Local Open Scope Z_scope.

Definition FDT_MAGIC : Z := 0xd00dfeed.
Definition FDT_SW_MAGIC : Z := u32 (Z.lnot FDT_MAGIC).
Definition FDT_FIRST_SUPPORTED_VERSION : Z := 0x10.
Definition FDT_LAST_SUPPORTED_VERSION : Z := 0x11.

Definition FDT_BEGIN_NODE : Z := 1.
Definition FDT_END_NODE : Z := 2.
Definition FDT_PROP : Z := 3.
Definition FDT_NOP : Z := 4.
Definition FDT_END : Z := 9.

Definition FDT_ERR_NOTFOUND : Z := 1.
Definition FDT_ERR_BADOFFSET : Z := 4.
Definition FDT_ERR_BADPATH : Z := 5.
Definition FDT_ERR_BADSTATE : Z := 7.
Definition FDT_ERR_TRUNCATED : Z := 8.
Definition FDT_ERR_BADMAGIC : Z := 9.
Definition FDT_ERR_BADVERSION : Z := 10.
Definition FDT_ERR_BADSTRUCTURE : Z := 11.

Definition FDT_TAGALIGN (x : Z) : Z := s32 (Z.land (u32 (x + 3)) (u32 (Z.lnot 3))).

Section fdt.
Context (fuel : nat) (m : mem) (fdt : Z).

(** ** The header *)

Definition fdt_magic : Z := get32 m fdt.
Definition fdt_off_dt_struct : Z := get32 m (fdt + 8).
Definition fdt_off_dt_strings : Z := get32 m (fdt + 12).
Definition fdt_totalsize : Z := get32 m (fdt + 4).
Definition fdt_version : Z := get32 m (fdt + 20).
Definition fdt_last_comp_version : Z := get32 m (fdt + 24).
Definition fdt_size_dt_struct : Z := get32 m (fdt + 36).

Definition fdt_check_header : Z :=
  if fdt_magic =? FDT_MAGIC then
    if fdt_version <? FDT_FIRST_SUPPORTED_VERSION then - FDT_ERR_BADVERSION
    else if FDT_LAST_SUPPORTED_VERSION <? fdt_last_comp_version then - FDT_ERR_BADVERSION
    else 0
  else if fdt_magic =? FDT_SW_MAGIC then
    if fdt_size_dt_struct =? 0 then - FDT_ERR_BADSTATE else 0
  else - FDT_ERR_BADMAGIC.

(** ** Tags *)

Definition _fdt_offset_ptr (offset : Z) : Z := fdt + fdt_off_dt_struct + offset.

Definition fdt_offset_ptr (offset n : Z) : Z :=
  if (0x11 <=? fdt_version) && ((u32 (offset + n) <? u32 offset) || (fdt_size_dt_struct <? u32 (offset + n))) then 0
  else
    let p := _fdt_offset_ptr offset in
    if u32 (p + n) <? p then 0 else p.

(** [do p = fdt_offset_ptr (fdt, offset++, 1); while (p && *p)]: none for a
    null pointer. *)
Definition skip_name (offset : Z) : Z + option Z :=
  let p := fdt_offset_ptr offset 1 in
  let offset := s32 (offset + 1) in
  if p =? 0 then inr None else if m p =? 0 then inr (Some offset) else inl offset.

(** The tag, and [*nextoffset] when it is written. *)
Definition fdt_next_tag (offset : Z) : option (Z * option Z) :=
  if negb (u32 offset mod 4 =? 0) then Some (u32 (-1), None)
  else
    let tagp := fdt_offset_ptr offset 4 in
    if tagp =? 0 then Some (FDT_END, None)
    else
      let tag := get32 m tagp in
      let offset := s32 (offset + 4) in
      if tag =? FDT_BEGIN_NODE then
        r ← loop skip_name fuel offset;
        Some (match r with None => (FDT_END, None) | Some offset => (tag, Some (FDT_TAGALIGN offset)) end)
      else if tag =? FDT_PROP then
        let lenp := fdt_offset_ptr offset 4 in
        Some (if lenp =? 0 then (FDT_END, None) else (tag, Some (FDT_TAGALIGN (s32 (offset + 8 + get32 m lenp)))))
      else Some (tag, Some (FDT_TAGALIGN offset)).

(** ** Nodes *)

Definition _fdt_check_node_offset (offset : Z) : option Z :=
  if (offset <? 0) || negb (u32 offset mod 4 =? 0) then Some (- FDT_ERR_BADOFFSET)
  else
    '(tag, next) ← fdt_next_tag offset;
    Some (if tag =? FDT_BEGIN_NODE then default offset next else - FDT_ERR_BADOFFSET).

(** The offset of the next node, or an error, and [*depth]. *)
Fixpoint next_node_loop (f : nat) (offset depth : Z) : option (Z * Z) :=
  match f with
  | O => None
  | S f =>
      '(tag, next) ← fdt_next_tag offset;
      let nextoffset := default offset next in
      if (tag =? FDT_PROP) || (tag =? FDT_NOP) then next_node_loop f nextoffset depth
      else if tag =? FDT_BEGIN_NODE then Some (offset, depth + 1)
      else if tag =? FDT_END_NODE then next_node_loop f nextoffset (depth - 1)
      else if tag =? FDT_END then Some (- FDT_ERR_NOTFOUND, depth)
      else Some (- FDT_ERR_BADSTRUCTURE, depth)
  end.

Definition fdt_next_node (offset depth : Z) : option (Z * Z) :=
  if 0 <=? offset then
    nextoffset ← _fdt_check_node_offset offset;
    if nextoffset <? 0 then Some (nextoffset, depth) else next_node_loop fuel nextoffset depth
  else next_node_loop fuel 0 depth.

(** [s] of length [len]. *)
Definition _fdt_nodename_eq (offset : Z) (s : list Z) : bool :=
  let p := fdt_offset_ptr (s32 (offset + 4)) (len s + 1) in
  if p =? 0 then false
  else if negb (bool_decide (load m p (length s) = s)) then false
  else if m (p + len s) =? 0 then true
  else negb (bool_decide (64 ∈ s)) && (m (p + len s) =? 64).

(** The loop over the nodes below a node, [for (depth = 0, offset =
    fdt_next_node (...); (offset >= 0) && (depth > 0); ...)]: the body may
    leave it. *)
Fixpoint for_nodes {R} (f : nat) (body : Z -> Z -> option (option R)) (offset depth : Z) : option (Z + R) :=
  match f with
  | O => None
  | S f =>
      if (0 <=? offset) && (0 <? depth) then
        r ← body offset depth;
        match r with
        | Some r => Some (inr r)
        | None => '(offset, depth) ← fdt_next_node offset depth; for_nodes f body offset depth
        end
      else Some (inl offset)
  end.

Definition fdt_subnode_offset (offset : Z) (name : list Z) : option Z :=
  if negb (fdt_check_header =? 0) then Some fdt_check_header
  else
    '(offset, depth) ← fdt_next_node offset 0;
    r ← for_nodes fuel (fun offset depth => Some (if (depth =? 1) && _fdt_nodename_eq offset name then Some offset else None)) offset depth;
    Some (match r with inr offset => offset | inl offset => if offset <? 0 then offset else - FDT_ERR_NOTFOUND end).

(** The name of a node, or a null pointer. *)
Definition fdt_get_name (nodeoffset : Z) : option Z :=
  if negb (fdt_check_header =? 0) then Some 0
  else
    err ← _fdt_check_node_offset nodeoffset;
    Some (if err <? 0 then 0 else _fdt_offset_ptr nodeoffset + 4).

(** ** Properties *)

Definition fdt_string (stroffset : Z) : Z := fdt + fdt_off_dt_strings + stroffset.

Definition _fdt_string_eq (stroffset : Z) (s : list Z) : option bool :=
  let p := fdt_string stroffset in
  n ← strlen fuel m p;
  Some ((n =? len s) && bool_decide (load m p (length s) = s)).

(** The property and its length, or a null pointer and an error. *)
Fixpoint get_property_loop (f : nat) (offset : Z) (name : list Z) : option (Z * Z) :=
  match f with
  | O => None
  | S f =>
      '(tag, next) ← fdt_next_tag offset;
      let nextoffset := default offset next in
      if tag =? FDT_END then Some (0, - FDT_ERR_TRUNCATED)
      else if (tag =? FDT_BEGIN_NODE) || (tag =? FDT_END_NODE) then Some (0, - FDT_ERR_NOTFOUND)
      else if tag =? FDT_NOP then get_property_loop f nextoffset name
      else if tag =? FDT_PROP then
        let prop := fdt_offset_ptr offset 12 in
        if prop =? 0 then Some (0, - FDT_ERR_BADSTRUCTURE)
        else
          eq ← _fdt_string_eq (s32 (get32 m (prop + 8))) name;
          if (eq : bool) then
            let n := s32 (get32 m (prop + 4)) in
            let prop := fdt_offset_ptr offset (u32 (12 + n)) in
            Some (if prop =? 0 then (0, - FDT_ERR_BADSTRUCTURE) else (prop, n))
          else get_property_loop f nextoffset name
      else Some (0, - FDT_ERR_BADSTRUCTURE)
  end.

Definition fdt_get_property (nodeoffset : Z) (name : list Z) : option (Z * Z) :=
  if negb (fdt_check_header =? 0) then Some (0, fdt_check_header)
  else
    err ← _fdt_check_node_offset nodeoffset;
    if err <? 0 then Some (0, err) else get_property_loop fuel err name.

Definition fdt_getprop (nodeoffset : Z) (name : list Z) : option (Z * Z) :=
  '(prop, n) ← fdt_get_property nodeoffset name;
  Some (if prop =? 0 then (0, n) else (prop + 12, n)).

(** ** Paths *)

(** [while ( *p)]: a turn takes the slashes and one name. *)
Fixpoint path_loop (k : nat) (offset : Z) (p : list Z) : option Z :=
  match k, p with
  | S k, _ :: _ =>
      match drop_while (fun c => c =? 47) p with
      | [] => Some offset
      | p =>
          offset ← fdt_subnode_offset offset (take_while (fun c => negb (c =? 47)) p);
          if offset <? 0 then Some offset else path_loop k offset (drop_while (fun c => negb (c =? 47)) p)
      end
  | _, _ => Some offset
  end.

Definition path_walk (offset : Z) (p : list Z) : option Z := path_loop (length p) offset p.

Definition fdt_get_alias (name : list Z) : option Z :=
  aliasoffset ← (if negb (fdt_check_header =? 0) then Some fdt_check_header else path_walk 0 (str "/aliases"));
  if aliasoffset <? 0 then Some 0 else '(p, _) ← fdt_getprop aliasoffset name; Some p.

(** An alias is a path that may start with an alias. *)
Fixpoint path_offset (f : nat) (path : list Z) : option Z :=
  match f with
  | O => None
  | S f =>
      if negb (fdt_check_header =? 0) then Some fdt_check_header
      else if hd 0 path =? 47 then path_walk 0 path
      else
        p ← fdt_get_alias (take_while (fun c => negb (c =? 47)) path);
        if p =? 0 then Some (- FDT_ERR_BADPATH)
        else
          n ← strlen fuel m p;
          offset ← path_offset f (load m p (Z.to_nat n));
          path_walk offset (drop_while (fun c => negb (c =? 47)) path)
  end.

Definition fdt_path_offset (path : list Z) : option Z := path_offset fuel path.
End fdt.

(** ** The encoding of a tree *)

(** A node: its name, its properties and its subnodes. *)
Inductive node := Node (name : list Z) (props : list (list Z * list Z)) (subs : list node).

Inductive token := TBegin (name : list Z) | TProp (name value : list Z) | TEnd | TFin.

Definition pad4 (l : list Z) : list Z := l ++ replicate (Z.to_nat ((len l + 3) / 4 * 4 - len l)) 0.

Fixpoint node_toks (n : node) : list token :=
  match n with
  | Node name props subs => TBegin name :: map (fun p => TProp p.1 p.2) props ++ concat (map node_toks subs) ++ [TEnd]
  end.

Lemma node_ind' (P : node -> Prop) : (forall name props subs, Forall P subs -> P (Node name props subs)) -> forall n, P n.
Proof.
  intros H. fix IH 1. intros [name props subs]. apply H. induction subs as [|s subs IHs]; constructor; [apply IH | exact IHs].
Qed.

Definition node_name (n : node) : list Z := match n with Node name _ _ => name end.
Definition node_props (n : node) : list (list Z * list Z) := match n with Node _ props _ => props end.
Definition node_subs (n : node) : list node := match n with Node _ _ subs => subs end.

Definition tok_tag (t : token) : Z :=
  match t with TBegin _ => FDT_BEGIN_NODE | TProp _ _ => FDT_PROP | TEnd => FDT_END_NODE | TFin => FDT_END end.

Lemma s32_small x : 0 <= x < 2 ^ 31 -> s32 x = x.
Proof. intros H. unfold swrap. rewrite Z.mod_small; lia. Qed.

Lemma pad4_length l : len (pad4 l) = (len l + 3) / 4 * 4.
Proof. unfold pad4. rewrite length_app, length_replicate. pose proof (Z.div_mod (len l + 3) 4 ltac:(lia)). pose proof (Z.mod_pos_bound (len l + 3) 4 ltac:(lia)). lia. Qed.

Section encoding.
(** Where the name of a property is in the table of strings. *)
Context (stroff : list Z -> Z).

Definition tok_bytes (t : token) : list Z :=
  match t with
  | TBegin n => be_bytes 4 FDT_BEGIN_NODE ++ pad4 (n ++ [0])
  | TProp n v => be_bytes 4 FDT_PROP ++ be_bytes 4 (len v) ++ be_bytes 4 (stroff n) ++ pad4 v
  | TEnd => be_bytes 4 FDT_END_NODE
  | TFin => be_bytes 4 FDT_END
  end.

Definition tok_size (t : token) : Z :=
  match t with
  | TBegin n => 4 + (len n + 1 + 3) / 4 * 4
  | TProp _ v => 12 + (len v + 3) / 4 * 4
  | _ => 4
  end.

Lemma tok_bytes_length t : len (tok_bytes t) = tok_size t.
Proof.
  destruct t; cbn [tok_bytes tok_size]; rewrite ?length_app, ?be_bytes_length, ?Nat2Z.inj_add, ?pad4_length, ?length_app; cbn [length]; lia.
Qed.

Lemma tok_size_pos t : 4 <= tok_size t /\ tok_size t mod 4 = 0.
Proof.
  destruct t; cbn [tok_size]; Z.div_mod_to_equations; lia.
Qed.

Section blob.
Context (fuel : nat) (m : mem) (fdt : Z).
(** The size of the structure block. *)
Context (size : Z).

Definition sbase : Z := fdt + fdt_off_dt_struct m fdt.

(** A blob that the library accepts, with its structure block in memory. *)
Record blob_ok : Prop := {
  blob_header : fdt_check_header m fdt = 0;
  blob_size : 0x11 <= fdt_version m fdt -> fdt_size_dt_struct m fdt = size;
  blob_small : 0 <= size < 2 ^ 31 - 16;
  blob_addr : 0 < sbase /\ sbase + size < 2 ^ 32;
  blob_fuel : size < Z.of_nat fuel
}.

Hypothesis Hok : blob_ok.

Definition good_chars (s : list Z) : Prop := Forall (fun c => c <> 0) s.

Definition tok_ok (t : token) : Prop :=
  match t with
  | TBegin n => good_chars n
  | TProp n v => good_chars n /\ 0 <= stroff n < 2 ^ 31 /\ len n < Z.of_nat fuel /\ cstr m (fdt_string m fdt (stroff n)) n
  | _ => True
  end.

(** The tokens from offset [off] on. *)
Fixpoint stream (off : Z) (ts : list token) : Prop :=
  match ts with
  | [] => off <= size
  | t :: ts => tok_ok t /\ load m (sbase + off) (length (tok_bytes t)) = tok_bytes t /\ stream (off + tok_size t) ts
  end.

Definition toks_size (ts : list token) : Z := fold_right (fun t n => tok_size t + n) 0 ts.

Lemma toks_size_app a b : toks_size (a ++ b) = toks_size a + toks_size b.
Proof. unfold toks_size. induction a as [|t a IH]; cbn [app fold_right]; lia. Qed.

Lemma toks_size_nonneg ts : 0 <= toks_size ts.
Proof. induction ts as [|t ts IH]; cbn; [lia |]. pose proof (tok_size_pos t). unfold toks_size in IH. lia. Qed.

Lemma toks_size_mod ts : toks_size ts mod 4 = 0.
Proof. induction ts as [|t ts IH]; [done |]. cbn [toks_size fold_right]. unfold toks_size in IH. rewrite Z.add_mod, IH by lia. destruct (tok_size_pos t) as [_ ->]. done. Qed.

Lemma stream_bound ts : forall off, stream off ts -> off + toks_size ts <= size.
Proof. induction ts as [|t ts IH]; intros off; cbn [stream toks_size fold_right]; [lia |]. intros (_ & _ & H). apply IH in H. unfold toks_size in H. lia. Qed.

Lemma stream_app a : forall b off, stream off (a ++ b) -> stream (off + toks_size a) b.
Proof.
  induction a as [|t a IH]; intros b off; cbn [app stream toks_size fold_right]; [by rewrite Z.add_0_r |]. intros (_ & _ & H). apply IH in H.
  unfold toks_size in H. by replace (off + (tok_size t + fold_right (fun t n => tok_size t + n) 0 a)) with (off + tok_size t + fold_right (fun t n => tok_size t + n) 0 a) by lia.
Qed.

Lemma offset_ptr off n : 0 <= off -> 0 <= n -> off + n <= size -> fdt_offset_ptr m fdt off n = sbase + off.
Proof.
  intros H1 H2 H3. destruct Hok as [_ Hv Hs Ha _]. unfold fdt_offset_ptr, _fdt_offset_ptr. fold sbase. rewrite !(wrap_small 32) by lia.
  destruct (Z.leb_spec 0x11 (fdt_version m fdt)) as [Hver|]; cbn [andb].
  - rewrite (Hv Hver). by rewrite !(proj2 (Z.ltb_ge _ _)) by lia.
  - by rewrite (proj2 (Z.ltb_ge _ _)) by lia.
Qed.

Lemma tagalign x : 0 <= x -> x < 2 ^ 31 - 8 -> FDT_TAGALIGN x = (x + 3) / 4 * 4.
Proof.
  intros H1 H2. unfold FDT_TAGALIGN. rewrite round4_land by lia. apply s32_small.
  pose proof (Z.div_mod (x + 3) 4 ltac:(lia)). pose proof (Z.mod_pos_bound (x + 3) 4 ltac:(lia)). lia.
Qed.

Lemma align_off off x : off mod 4 = 0 -> (off + x + 3) / 4 * 4 = off + (x + 3) / 4 * 4.
Proof.
  intros H. pose proof (Z.div_mod off 4 ltac:(lia)) as E. rewrite H, Z.add_0_r in E. rewrite E. replace (4 * (off / 4) + x + 3) with (x + 3 + (off / 4) * 4) by lia.
  rewrite Z.div_add by lia. lia.
Qed.
(** The tag of a token, and the offset behind it. *)
Lemma stream_load off t ts k n : stream off (t :: ts) -> (k + n <= length (tok_bytes t))%nat ->
  load m (sbase + off + Z.of_nat k) n = take n (drop k (tok_bytes t)).
Proof. intros (_ & H & _) Hn. by apply load_sub. Qed.

Lemma get32_load a v : 0 <= v < 2 ^ 32 -> load m a 4 = be_bytes 4 v -> get32 m a = v.
Proof. intros Hv E. unfold get32. rewrite E. by apply get32_bytes. Qed.

Lemma stream_tag off t ts : stream off (t :: ts) -> get32 m (sbase + off) = tok_tag t.
Proof.
  intros H. apply get32_load; [destruct t; done |]. pose proof (stream_load off t ts 0 4 H) as E. rewrite Z.add_0_r in E.
  rewrite E; [by destruct t |]. pose proof (tok_bytes_length t). pose proof (tok_size_pos t). lia.
Qed.

Lemma skip_name_spec f off s : 0 <= off -> off + len s + 1 <= size -> cstr m (sbase + off) s -> (length s < f)%nat ->
  loop (skip_name m fdt) f off = Some (Some (off + len s + 1)).
Proof.
  pose proof (blob_small Hok) as Hs. pose proof (blob_addr Hok) as Ha. revert off f. induction s as [|c s IH]; intros off [|f] H0 H1 Hc Hf; cbn [length] in *; try lia.
  - apply cstr_nil in Hc. cbn [loop]. unfold skip_name. rewrite offset_ptr, (proj2 (Z.eqb_neq (sbase + off) 0)), Hc by lia. rewrite s32_small by lia. do 2 f_equal. lia.
  - apply cstr_cons in Hc as (Hn & Hc & Hs'). cbn [loop]. unfold skip_name at 1. rewrite offset_ptr, (proj2 (Z.eqb_neq (sbase + off) 0)), Hc by lia.
    rewrite (proj2 (Z.eqb_neq c 0) Hn), s32_small by lia. rewrite IH; [do 2 f_equal; lia | lia | lia | | lia]. by replace (sbase + (off + 1)) with (sbase + off + 1) by lia.
Qed.

Lemma begin_name off n ts : stream off (TBegin n :: ts) -> cstr m (sbase + (off + 4)) n.
Proof.
  intros H. assert (E : load m (sbase + (off + 4)) (length n + 1) = n ++ [0]).
  { replace (sbase + (off + 4)) with (sbase + off + Z.of_nat 4) by lia. rewrite (stream_load off _ ts 4 (length n + 1) H).
    - cbn [tok_bytes]. rewrite drop_app_length' by (by rewrite be_bytes_length). unfold pad4. by rewrite take_app_length' by (rewrite length_app; cbn; lia).
    - cbn [tok_bytes]. unfold pad4. rewrite !length_app, be_bytes_length. cbn. lia. }
  rewrite load_app in E. apply app_inj_1 in E as [E1 E2]; [| by rewrite load_length]. cbn in E2. injection E2 as E2. destruct H as [Hg _].
  split_and!; [done | by rewrite E2 | done].
Qed.

Lemma prop_fields off n v ts : stream off (TProp n v :: ts) -> 0 <= off ->
  get32 m (sbase + off + 4) = len v /\ get32 m (sbase + off + 8) = stroff n /\ load m (sbase + off + 12) (length v) = v.
Proof.
  intros H H0. pose proof (stream_bound _ _ H) as Hb. cbn [toks_size fold_right tok_size] in Hb. pose proof (toks_size_nonneg ts) as Hn. unfold toks_size in Hn.
  pose proof (blob_small Hok) as Hs. pose proof (proj1 H) as (_ & Ho & _). destruct H as (Ht & Hl & Hst). assert (H : stream off (TProp n v :: ts)) by done.
  assert (Hv : 0 <= len v < 2 ^ 32) by (Z.div_mod_to_equations; lia). pose proof (tok_bytes_length (TProp n v)) as Hlen. cbn [tok_size] in Hlen.
  assert (Hlb : (12 + length v <= length (tok_bytes (TProp n v)))%nat) by (Z.div_mod_to_equations; lia).
  split_and!.
  - apply get32_load; [done |]. change 4 with (Z.of_nat 4). rewrite (stream_load off _ ts 4 4 H) by lia. done.
  - apply get32_load; [lia |]. change 8 with (Z.of_nat 8). rewrite (stream_load off _ ts 8 4 H) by lia. done.
  - change 12 with (Z.of_nat 12). rewrite (stream_load off _ ts 12 (length v) H) by lia.
    change (drop 12 (tok_bytes (TProp n v))) with (pad4 v). unfold pad4. by rewrite take_app_length.
Qed.

Lemma next_tag off t ts : stream off (t :: ts) -> 0 <= off -> off mod 4 = 0 ->
  fdt_next_tag fuel m fdt off = Some (tok_tag t, Some (off + tok_size t)).
Proof.
  intros H H0 H4. pose proof (stream_bound _ _ H) as Hb. cbn [toks_size fold_right] in Hb. pose proof (toks_size_nonneg ts) as Hn. unfold toks_size in Hn.
  pose proof (tok_size_pos t) as [Hp _]. pose proof (blob_small Hok) as Hs. pose proof (blob_addr Hok) as Ha. pose proof (blob_fuel Hok) as Hf.
  unfold fdt_next_tag. rewrite (wrap_small 32 off), H4 by lia. cbn [Z.eqb negb]. rewrite offset_ptr by lia. rewrite (proj2 (Z.eqb_neq (sbase + off) 0)) by lia.
  rewrite (stream_tag _ _ _ H), s32_small by lia. destruct t as [n|n v| |]; cbn [tok_tag tok_size] in *; cbn [FDT_BEGIN_NODE FDT_PROP FDT_END_NODE FDT_END Z.eqb Pos.eqb].
  - rewrite (skip_name_spec fuel (off + 4) n); [| lia | Z.div_mod_to_equations; lia | by eapply begin_name | Z.div_mod_to_equations; lia]. cbn [mbind option_bind].
    rewrite tagalign by (Z.div_mod_to_equations; lia). do 3 f_equal. replace (off + 4 + len n + 1 + 3) with ((off + 4) + (len n + 1) + 3) by lia. rewrite align_off; [lia |].
    rewrite Z.add_mod, H4 by lia. done.
  - destruct (prop_fields _ _ _ _ H H0) as (E1 & _ & _). rewrite offset_ptr by (Z.div_mod_to_equations; lia). rewrite (proj2 (Z.eqb_neq (sbase + (off + 4)) 0)) by lia.
    replace (sbase + (off + 4)) with (sbase + off + 4) by lia. rewrite E1, s32_small, tagalign by (Z.div_mod_to_equations; lia). do 3 f_equal.
    replace (off + 4 + 8 + len v + 3) with ((off + 12) + len v + 3) by lia. rewrite align_off; [lia |]. rewrite Z.add_mod, H4 by lia. done.
  - rewrite tagalign by lia. do 3 f_equal. replace (off + 4 + 3) with ((off + 4) + 0 + 3) by lia. rewrite align_off; [change ((0 + 3) / 4 * 4) with 0; lia |]. rewrite Z.add_mod, H4 by lia. done.
  - rewrite tagalign by lia. do 3 f_equal. replace (off + 4 + 3) with ((off + 4) + 0 + 3) by lia. rewrite align_off; [change ((0 + 3) / 4 * 4) with 0; lia |]. rewrite Z.add_mod, H4 by lia. done.
Qed.
(** ** Nodes *)

Definition at_node (off : Z) (n : node) (rest : list token) : Prop :=
  0 <= off /\ off mod 4 = 0 /\ stream off (node_toks n ++ rest).

Lemma toks_count ts : 4 * len ts <= toks_size ts.
Proof. induction ts as [|t ts IH]; [done |]. cbn [length toks_size fold_right]. pose proof (tok_size_pos t). unfold toks_size in IH. lia. Qed.

Lemma stream_count ts off : stream off ts -> 0 <= off -> 4 * len ts <= size.
Proof. intros H H0. apply stream_bound in H. pose proof (toks_count ts). lia. Qed.

Lemma stream_mod off t : off mod 4 = 0 -> (off + tok_size t) mod 4 = 0.
Proof. intros H. rewrite Z.add_mod, H by lia. destruct (tok_size_pos t) as [_ ->]. done. Qed.

(** What [next_node_loop] does on tokens: the offset or the error, the depth,
    and the tokens from the node on. *)
Fixpoint scan (off depth : Z) (ts : list token) : option (Z * Z * list token) :=
  match ts with
  | [] => None
  | TProp n v :: ts => scan (off + tok_size (TProp n v)) depth ts
  | TBegin n :: ts => Some (off, depth + 1, TBegin n :: ts)
  | TEnd :: ts => scan (off + 4) (depth - 1) ts
  | TFin :: _ => Some (- FDT_ERR_NOTFOUND, depth, [])
  end.

Lemma next_node_scan ts : forall f off depth o d r, stream off ts -> 0 <= off -> off mod 4 = 0 -> (length ts <= f)%nat ->
  scan off depth ts = Some (o, d, r) ->
  next_node_loop fuel m fdt f off depth = Some (o, d) /\ (r <> [] -> stream o r /\ 0 <= o /\ o mod 4 = 0 /\ (length r <= length ts)%nat).
Proof.
  induction ts as [|t ts IH]; intros [|f] off depth o d r Hst H0 H4 Hf Hs; try done; [cbn in Hf; lia |]. pose proof (next_tag off t ts Hst H0 H4) as Ht.
  pose proof (stream_mod off t H4) as H4'. pose proof (tok_size_pos t) as [Hp _]. pose proof Hst as (_ & _ & Hst'). cbn [length] in Hf.
  destruct t as [n|n v| |]; cbn [scan] in Hs; cbn [next_node_loop]; rewrite Ht; cbn [mbind option_bind tok_tag default FDT_BEGIN_NODE FDT_PROP FDT_NOP FDT_END_NODE FDT_END Z.eqb Pos.eqb orb].
  - injection Hs as <- <- <-. split; [done |]. intros _. by split_and!.
  - destruct (IH f (off + tok_size (TProp n v)) depth o d r) as [E Hr]; [done | lia | done | lia | done |]. split; [exact E |]. intros Hn. destruct (Hr Hn) as (? & ? & ? & ?). cbn [length]. split_and!; [done.. | lia].
  - destruct (IH f (off + tok_size TEnd) (depth - 1) o d r) as [E Hr]; [done | lia | done | lia | done |]. split; [exact E |]. intros Hn. destruct (Hr Hn) as (? & ? & ? & ?). cbn [length]. split_and!; [done.. | lia].
  - injection Hs as <- <- <-. by split.
Qed.

Lemma check_node off n ts : stream off (TBegin n :: ts) -> 0 <= off -> off mod 4 = 0 ->
  _fdt_check_node_offset fuel m fdt off = Some (off + tok_size (TBegin n)).
Proof.
  intros Hst H0 H4. pose proof (stream_bound _ _ Hst). pose proof (toks_size_nonneg (TBegin n :: ts)). pose proof (blob_small Hok).
  unfold _fdt_check_node_offset. rewrite (proj2 (Z.ltb_ge off 0)), (wrap_small 32), H4 by lia. cbn [Z.eqb negb orb]. by rewrite (next_tag _ _ _ Hst).
Qed.

Lemma next_node off n ts depth o d r : stream off (TBegin n :: ts) -> 0 <= off -> off mod 4 = 0 -> scan (off + tok_size (TBegin n)) depth ts = Some (o, d, r) ->
  fdt_next_node fuel m fdt off depth = Some (o, d) /\ (r <> [] -> stream o r /\ 0 <= o /\ o mod 4 = 0 /\ (length r <= length ts)%nat).
Proof.
  intros Hst H0 H4 Hs. pose proof (stream_count _ _ Hst H0) as Hc. pose proof (blob_fuel Hok). cbn [length] in Hc. pose proof (tok_size_pos (TBegin n)) as [Hp _].
  unfold fdt_next_node. rewrite (proj2 (Z.leb_le 0 off)) by lia. rewrite (check_node _ _ _ Hst H0 H4). cbn [mbind option_bind]. rewrite (proj2 (Z.ltb_ge _ 0)) by lia.
  apply (next_node_scan ts); [apply Hst | lia | by apply stream_mod | lia | done].
Qed.

(** ** The loop over the nodes, on tokens *)

Section iteration.
Context {R : Type} (body : Z -> Z -> option (option R)).

Fixpoint walk (off depth : Z) (ts : list token) : option (option R) :=
  match ts with
  | [] => None
  | TProp n v :: ts => walk (off + tok_size (TProp n v)) depth ts
  | TEnd :: ts => walk (off + 4) (depth - 1) ts
  | TFin :: _ => Some None
  | TBegin n :: ts =>
      if 0 <? depth + 1 then
        r ← body off (depth + 1);
        match r with Some r => Some (Some r) | None => walk (off + tok_size (TBegin n)) (depth + 1) ts end
      else Some None
  end.

Lemma walk_scan ts : forall off depth, walk off depth ts =
  match scan off depth ts with
  | None => None
  | Some (o, d, TBegin n :: r) =>
      if 0 <? d then x ← body o d; match x with Some x => Some (Some x) | None => walk (o + tok_size (TBegin n)) d r end else Some None
  | Some _ => Some None
  end.
Proof. induction ts as [|[n|n v| |] ts IH]; intros off depth; cbn [walk scan]; try done; apply IH. Qed.

Lemma scan_shape ts : forall off depth o d r, scan off depth ts = Some (o, d, r) -> (r = [] /\ o = - FDT_ERR_NOTFOUND) \/ exists n r', r = TBegin n :: r' /\ (length r' < length ts)%nat.
Proof.
  induction ts as [|[n|n v| |] ts IH]; intros off depth o d r; cbn [scan length]; try done.
  - intros [= <- <- <-]. right. eexists _, _. split; [done | lia].
  - intros H. apply IH in H as [H | (n' & r' & -> & H)]; [by left | right; eexists _, _; split; [done | lia]].
  - intros H. apply IH in H as [H | (n' & r' & -> & H)]; [by left | right; eexists _, _; split; [done | lia]].
  - intros [= <- <- <-]. by left.
Qed.

(** The loop from a node on, when the tokens end. *)
Lemma for_nodes_walk k : forall f off n ts depth x, (length ts <= k)%nat -> (k < f)%nat -> stream off (TBegin n :: ts) -> 0 <= off -> off mod 4 = 0 ->
  walk (off + tok_size (TBegin n)) depth ts = Some x ->
  exists o, ('(o, d) ← fdt_next_node fuel m fdt off depth; for_nodes fuel m fdt f body o d) = Some match x with Some r => inr r | None => inl o end /\ (o < 0 -> o = - FDT_ERR_NOTFOUND).
Proof.
  induction k as [|k IH]; intros f off n ts depth x Hl Hf Hst H0 H4 Hw.
  { destruct ts; [done | cbn in Hl; lia]. }
  rewrite walk_scan in Hw. destruct (scan (off + tok_size (TBegin n)) depth ts) as [[[o d] r]|] eqn:Es; [| done].
  destruct (next_node off n ts depth o d r Hst H0 H4 Es) as [E Hr]. rewrite E. cbn [mbind option_bind]. destruct f as [|f]; [lia |]. cbn [for_nodes].
  destruct (scan_shape _ _ _ _ _ _ Es) as [[-> ->] | (n' & r' & -> & Hlt)].
  - injection Hw as <-. exists (- FDT_ERR_NOTFOUND). by split.
  - destruct Hr as (Hst' & H0' & H4' & _); [done |]. rewrite (proj2 (Z.leb_le 0 o)) by lia. cbn [andb]. destruct (0 <? d); [| injection Hw as <-; exists o; split; [done | lia]].
    destruct (body o d) as [[y|]|]; cbn [mbind option_bind] in Hw |- *; [injection Hw as <-; by exists 0 | | done].
    apply (IH f o n' r' d x); [lia | lia | done | done | done | done].
Qed.
(** On a tree, for a body that looks at the subnodes only. *)
Section trees.
Hypothesis Hbody : forall o d, d <> 1 -> body o d = Some None.

Lemma walk_props props ts : forall off depth, walk off depth (map (fun p => TProp p.1 p.2) props ++ ts) = walk (off + toks_size (map (fun p => TProp p.1 p.2) props)) depth ts.
Proof.
  induction props as [|p props IH]; intros off depth; cbn [map app walk toks_size fold_right]; [by rewrite Z.add_0_r |]. rewrite IH. f_equal. unfold toks_size. lia.
Qed.

Lemma walk_below n : forall off depth ts, 1 <= depth -> walk off depth (node_toks n ++ ts) = walk (off + toks_size (node_toks n)) depth ts.
Proof.
  induction n as [name props subs IH] using node_ind'. intros off depth ts Hd. cbn [node_toks app walk]. rewrite (proj2 (Z.ltb_lt 0 _)) by lia.
  rewrite Hbody by lia. cbn [mbind option_bind]. rewrite <- !app_assoc, walk_props.
  assert (Hs : forall o ts, walk o (depth + 1) (concat (map node_toks subs) ++ ts) = walk (o + toks_size (concat (map node_toks subs))) (depth + 1) ts).
  { clear -IH Hd. induction IH as [|s subs Hs _ IHs]; intros o ts; cbn [map concat]; [by rewrite Z.add_0_r |]. rewrite <- app_assoc, Hs, IHs, toks_size_app by lia. f_equal. lia. }
  rewrite Hs. cbn [app walk]. replace (depth + 1 - 1) with depth by lia. f_equal. cbn [toks_size fold_right]. fold (toks_size (map (fun p => TProp p.1 p.2) props ++ concat (map node_toks subs) ++ [TEnd])).
  rewrite !toks_size_app. cbn [toks_size fold_right tok_size]. lia.
Qed.

Lemma walk_outside ts : forall off depth, TFin ∈ ts -> depth < 0 -> walk off depth ts = Some None.
Proof.
  induction ts as [|t ts IH]; intros off depth Hf Hd; [by apply not_elem_of_nil in Hf |]. apply elem_of_cons in Hf as [<- | Hf]; [done |].
  destruct t; cbn [walk]; [by rewrite (proj2 (Z.ltb_ge 0 _)) by lia | by apply IH | apply IH; [done | lia] | done].
Qed.

(** The body on one subnode after the other. *)
Fixpoint visit (off : Z) (subs : list node) : option (option R) :=
  match subs with
  | [] => Some None
  | s :: subs => r ← body off 1; match r with Some r => Some (Some r) | None => visit (off + toks_size (node_toks s)) subs end
  end.

Lemma walk_subs subs ts : TFin ∈ ts -> forall off, walk off 0 (concat (map node_toks subs) ++ TEnd :: ts) = visit off subs.
Proof.
  intros Hf. induction subs as [|s subs IH]; intros off; cbn [map concat app]; [cbn [walk]; by apply walk_outside |].
  destruct s as [name props sub]. rewrite <- app_assoc. cbn [node_toks app walk visit]. change (0 <? 0 + 1) with true. cbv iota. change (0 + 1) with 1.
  destruct (body off 1) as [[y|]|]; cbn [mbind option_bind]; [done | | done]. rewrite <- !app_assoc, walk_props.
  assert (Hs : forall o ts, walk o 1 (concat (map node_toks sub) ++ ts) = walk (o + toks_size (concat (map node_toks sub))) 1 ts).
  { clear IH. induction sub as [|s sub IHs]; intros o ts'; cbn [map concat]; [by rewrite Z.add_0_r |]. rewrite <- app_assoc, walk_below, IHs, toks_size_app by lia. f_equal. lia. }
  rewrite Hs. cbn [app walk]. change (1 - 1) with 0. rewrite IH. f_equal. cbn [toks_size fold_right]. fold (toks_size (map (fun p => TProp p.1 p.2) props ++ concat (map node_toks sub) ++ [TEnd])).
  rewrite !toks_size_app. cbn [toks_size fold_right tok_size]. lia.
Qed.

Definition first_sub (off : Z) (n : node) : Z := off + tok_size (TBegin (node_name n)) + toks_size (map (fun p => TProp p.1 p.2) (node_props n)).

Lemma for_subnodes off n rest x : at_node off n rest -> TFin ∈ rest -> visit (first_sub off n) (node_subs n) = Some x ->
  exists o, ('(o, d) ← fdt_next_node fuel m fdt off 0; for_nodes fuel m fdt fuel body o d) = Some match x with Some r => inr r | None => inl o end /\ (o < 0 -> o = - FDT_ERR_NOTFOUND).
Proof.
  intros (H0 & H4 & Hst) Hf Hv. destruct n as [name props subs]. cbn [node_toks app node_subs] in *. pose proof (stream_count _ _ Hst H0) as Hc. pose proof (blob_fuel Hok).
  cbn [length] in Hc. eapply (for_nodes_walk (fuel - 1) fuel off name); [| | exact Hst | done | done |]; [lia | lia |].
  rewrite <- !app_assoc, walk_props. cbn [app]. by rewrite walk_subs.
Qed.
End trees.
End iteration.
(** ** What the routines find *)

Definition name_matches (n name : list Z) : bool :=
  bool_decide (take (length name) n = name) &&
  match drop (length name) n with [] => true | c :: _ => negb (bool_decide (64 ∈ name)) && (c =? 64) end.

Definition find_sub (name : list Z) (n : node) : option node := List.find (fun s => name_matches (node_name s) name) (node_subs n).

Definition find_prop (name : list Z) (n : node) : option (list Z) := snd <$> List.find (fun p => bool_decide (p.1 = name)) (node_props n).

(** A node of the tree, with the end of the tokens behind it. *)
Definition node_at (off : Z) (n : node) : Prop := exists rest, at_node off n rest /\ TFin ∈ rest.

Lemma sub_at off n l1 s l2 : node_at off n -> node_subs n = l1 ++ s :: l2 -> node_at (first_sub off n + toks_size (concat (map node_toks l1))) s.
Proof.
  intros (rest & (H0 & H4 & Hst) & Hf) E. destruct n as [name props subs]. cbn [node_subs] in E. subst subs. cbn [node_toks app] in Hst.
  exists (concat (map node_toks l2) ++ TEnd :: rest). split; [| apply elem_of_app; right; by apply elem_of_cons; right].
  unfold first_sub. cbn [node_name node_props]. pose proof (toks_size_nonneg (TBegin name :: map (fun p => TProp p.1 p.2) props ++ concat (map node_toks l1))) as Hn.
  pose proof (toks_size_mod (TBegin name :: map (fun p => TProp p.1 p.2) props ++ concat (map node_toks l1))) as Hm.
  change (toks_size (TBegin name :: ?l)) with (tok_size (TBegin name) + toks_size l) in *. rewrite toks_size_app in *.
  set (k := tok_size (TBegin name) + (toks_size (map (fun p => TProp p.1 p.2) props) + toks_size (concat (map node_toks l1)))) in *.
  replace (off + tok_size (TBegin name) + toks_size (map (fun p => TProp p.1 p.2) props) + toks_size (concat (map node_toks l1))) with (off + k) by (unfold k; lia).
  split_and!; [lia | rewrite Z.add_mod, H4, Hm by lia; done |].
  rewrite map_app, concat_app in Hst. cbn [map concat] in Hst. change (TBegin name :: ?l) with ([TBegin name] ++ l) in Hst. rewrite <- !app_assoc in Hst.
  apply stream_app, stream_app, stream_app in Hst. cbn [app] in Hst. change (toks_size [TBegin name]) with (tok_size (TBegin name) + 0) in Hst.
  replace (off + k) with (off + (tok_size (TBegin name) + 0) + toks_size (map (fun p => TProp p.1 p.2) props) + toks_size (concat (map node_toks l1))) by (unfold k; lia). exact Hst.
Qed.

Lemma node_begin off n : node_at off n -> exists ts, stream off (TBegin (node_name n) :: ts) /\ 0 <= off /\ off mod 4 = 0.
Proof. intros (rest & (H0 & H4 & Hst) & _). destruct n as [name props subs]. cbn [node_toks app] in Hst. eexists. by split_and!. Qed.

Lemma node_name_at off n : node_at off n -> cstr m (sbase + (off + 4)) (node_name n) /\ 0 <= off /\ off + 4 + len (node_name n) + 1 <= size.
Proof.
  intros (ts & Hst & H0 & H4)%node_begin. split_and!; [by eapply begin_name | done |]. apply stream_bound in Hst. cbn [toks_size fold_right tok_size] in Hst.
  pose proof (toks_size_nonneg ts) as Hn. unfold toks_size in Hn. Z.div_mod_to_equations. lia.
Qed.

Lemma offset_ptr_cases off n : 0 <= off < 2 ^ 31 -> 0 <= n < 2 ^ 31 -> fdt_offset_ptr m fdt off n = 0 \/ fdt_offset_ptr m fdt off n = sbase + off.
Proof.
  intros H1 H2. unfold fdt_offset_ptr, _fdt_offset_ptr. destruct (_ && _); [by left |]. destruct (_ <? _); [by left | by right].
Qed.

Lemma cstr_compare a n name : cstr m a n -> good_chars name ->
  (bool_decide (load m a (length name) = name) && ((m (a + len name) =? 0) || negb (bool_decide (64 ∈ name)) && (m (a + len name) =? 64))) = name_matches n name.
Proof.
  intros Hc Hg. unfold name_matches. destruct (decide (length name <= length n)%nat) as [Hle|Hgt].
  - rewrite (cstr_load m a n (length name) Hc Hle). destruct (bool_decide (take (length name) n = name)); [cbn [andb] | done].
    pose proof (cstr_drop m a n (length name) Hc Hle) as Hd. destruct (drop (length name) n) as [|c r] eqn:E.
    + apply cstr_nil in Hd. by rewrite Hd.
    + apply cstr_cons in Hd as (Hc0 & Hca & _). by rewrite Hca, (proj2 (Z.eqb_neq c 0) Hc0).
  - rewrite (bool_decide_eq_false_2 (load m a (length name) = name)), (bool_decide_eq_false_2 (take (length name) n = name)); [done | |].
    + intros E%(f_equal length). rewrite length_take in E. lia.
    + intros E. assert (Hz : name !! length n = Some 0).
      { rewrite <- E. rewrite load_lookup by lia. by rewrite (cstr_end m a n Hc). }
      unfold good_chars in Hg. rewrite Forall_lookup in Hg. by apply (Hg _ _ Hz).
Qed.

Lemma nodename_eq off n name : node_at off n -> good_chars name -> len name < 2 ^ 31 - 1 -> _fdt_nodename_eq m fdt off name = name_matches (node_name n) name.
Proof.
  intros Hn Hg Hl. destruct (node_name_at off n Hn) as (Hc & H0 & Hb). pose proof (blob_small Hok) as Hs. pose proof (blob_addr Hok) as Ha.
  unfold _fdt_nodename_eq. rewrite s32_small by lia. rewrite <- (cstr_compare _ _ name Hc Hg).
  destruct (decide (off + 4 + (len name + 1) <= size)) as [Hle|Hgt].
  - rewrite offset_ptr by lia. rewrite (proj2 (Z.eqb_neq _ 0)) by lia. destruct (bool_decide (load m (sbase + (off + 4)) (length name) = name)); [| done]. cbn [negb andb].
    by destruct (m (sbase + (off + 4) + len name) =? 0).
  - destruct (offset_ptr_cases (off + 4) (len name + 1)) as [-> | ->]; [lia | lia | |].
    + cbn [Z.eqb]. symmetry. rewrite (cstr_compare _ _ name Hc Hg). unfold name_matches. rewrite bool_decide_eq_false_2; [done |].
      intros E%(f_equal length). rewrite length_take in E. lia.
    + rewrite (proj2 (Z.eqb_neq _ 0)) by lia. destruct (bool_decide (load m (sbase + (off + 4)) (length name) = name)); [| done]. cbn [negb andb].
      by destruct (m (sbase + (off + 4) + len name) =? 0).
Qed.

Lemma get_name_spec off n : node_at off n -> exists p, fdt_get_name fuel m fdt off = Some p /\ p <> 0 /\ cstr m p (node_name n).
Proof.
  intros Hn. destruct (node_name_at off n Hn) as (Hc & H0 & Hb). destruct (node_begin off n Hn) as (ts & Hst & _ & H4). pose proof (blob_addr Hok) as Ha.
  pose proof (tok_size_pos (TBegin (node_name n))) as [Hp _].
  exists (sbase + (off + 4)). split_and!; [| lia | done]. unfold fdt_get_name. rewrite (blob_header Hok). cbn [Z.eqb negb]. rewrite (check_node _ _ _ Hst H0 H4). cbn [mbind option_bind].
  rewrite (proj2 (Z.ltb_ge _ 0)) by lia. unfold _fdt_offset_ptr. fold sbase. f_equal. lia.
Qed.
Definition name_ok (name : list Z) : Prop := good_chars name /\ len name < 2 ^ 31 - 1.

Lemma visit_find off n name : node_at off n -> name_ok name -> forall l2 l1, node_subs n = l1 ++ l2 ->
  exists r, visit (fun o d => Some (if (d =? 1) && _fdt_nodename_eq m fdt o name then Some o else None)) (first_sub off n + toks_size (concat (map node_toks l1))) l2 = Some r /\
  match List.find (fun s => name_matches (node_name s) name) l2, r with
  | Some s, Some o => node_at o s
  | None, None => True
  | _, _ => False
  end.
Proof.
  intros Hn [Hg Hl]. induction l2 as [|s l2 IH]; intros l1 E; cbn [visit List.find]; [by exists None |]. pose proof (sub_at off n l1 s l2 Hn E) as Hs.
  cbn [mbind option_bind Z.eqb Pos.eqb andb]. rewrite (nodename_eq _ s name Hs Hg Hl). destruct (name_matches (node_name s) name).
  - eexists. split; [done | exact Hs].
  - destruct (IH (l1 ++ [s])) as (r & Er & Hr); [by rewrite <- app_assoc |]. exists r. split; [| exact Hr]. rewrite <- Er. f_equal.
    rewrite map_app, concat_app, toks_size_app. cbn [map concat]. rewrite app_nil_r. lia.
Qed.

(** The first subnode that matches. *)
Lemma subnode_spec off n name : node_at off n -> name_ok name ->
  match find_sub name n with
  | Some s => exists o, fdt_subnode_offset fuel m fdt off name = Some o /\ node_at o s
  | None => fdt_subnode_offset fuel m fdt off name = Some (- FDT_ERR_NOTFOUND)
  end.
Proof.
  intros Hn Hok'. destruct (visit_find off n name Hn Hok' (node_subs n) [] eq_refl) as (r & Er & Hr). cbn [map concat toks_size fold_right] in Er. rewrite Z.add_0_r in Er.
  destruct Hn as (rest & Hat & Hf). destruct (for_subnodes (fun o d => Some (if (d =? 1) && _fdt_nodename_eq m fdt o name then Some o else None)) ltac:(intros o d Hd; cbn beta; by rewrite (proj2 (Z.eqb_neq d 1) Hd)) off n rest r Hat Hf Er) as (o & E & Ho).
  unfold fdt_subnode_offset, find_sub. rewrite (blob_header Hok). cbn [Z.eqb negb].
  destruct (fdt_next_node fuel m fdt off 0) as [[o1 d1]|]; cbn [mbind option_bind] in E |- *; [| done]. rewrite E. cbn [mbind option_bind].
  destruct (List.find _ (node_subs n)) as [s|], r as [o'|]; try done.
  - by exists o'.
  - destruct (Z.ltb_spec o 0) as [Hlt|]; [by rewrite (Ho Hlt) | done].
Qed.

(** ** Properties *)

Lemma string_eq n name : tok_ok (TProp n []) -> len n < Z.of_nat fuel -> good_chars name -> _fdt_string_eq fuel m fdt (stroff n) name = Some (bool_decide (n = name)).
Proof.
  intros (Hg & _ & _ & Hc) Hf Hgn. unfold _fdt_string_eq. rewrite (strlen_spec m _ n) by (done || lia). cbn [mbind option_bind]. f_equal.
  destruct (Z.eqb_spec (len n) (len name)) as [E|E]; cbn [andb].
  - assert (length n = length name) as El by lia. rewrite <- El. by rewrite (proj1 Hc).
  - symmetry. apply bool_decide_eq_false_2. congruence.
Qed.

Lemma property_loop name props : forall f off ts, name_ok name -> stream off (map (fun p => TProp p.1 p.2) props ++ ts) -> 0 <= off -> off mod 4 = 0 -> (length props < f)%nat ->
  (exists t ts', ts = t :: ts' /\ (tok_tag t = FDT_BEGIN_NODE \/ tok_tag t = FDT_END_NODE)) ->
  match List.find (fun p => bool_decide (p.1 = name)) props with
  | Some (_, v) => exists p, get_property_loop fuel m fdt f off name = Some (p, len v) /\ p <> 0 /\ load m (p + 12) (length v) = v /\ sbase <= p /\ p + 12 + len v <= sbase + size
  | None => get_property_loop fuel m fdt f off name = Some (0, - FDT_ERR_NOTFOUND)
  end.
Proof.
  intros f off ts [Hg Hl]. revert f off. induction props as [|[n v] props IH]; intros [|f] off Hst H0 H4 Hf Hts; cbn [length] in Hf; try lia; cbn [map app List.find fst snd] in *.
  - destruct Hts as (t & ts' & -> & Ht). cbn [get_property_loop]. rewrite (next_tag _ _ _ Hst H0 H4). cbn [mbind option_bind]. by destruct Ht as [-> | ->].
  - cbn [get_property_loop]. rewrite (next_tag _ _ _ Hst H0 H4). cbn [mbind option_bind tok_tag FDT_PROP FDT_END FDT_BEGIN_NODE FDT_END_NODE FDT_NOP Z.eqb Pos.eqb orb default].
    pose proof (stream_bound _ _ Hst) as Hb. cbn [toks_size fold_right tok_size] in Hb. pose proof (toks_size_nonneg (map (fun p => TProp p.1 p.2) props ++ ts)) as Hnn. unfold toks_size in Hnn.
    pose proof (blob_small Hok) as Hs. pose proof (blob_addr Hok) as Ha. destruct (prop_fields _ _ _ _ Hst H0) as (E1 & E2 & E3). pose proof Hst as (Ht & _ & Hst').
    assert (Hlv : len v <= (len v + 3) / 4 * 4) by (Z.div_mod_to_equations; lia).
    rewrite offset_ptr by lia. rewrite (proj2 (Z.eqb_neq (sbase + off) 0)) by lia. rewrite E1, E2. pose proof Ht as (Hgn & Hso & Hfn & Hcn). rewrite (s32_small (stroff n)) by lia.
    rewrite (string_eq n name) by done. cbn [mbind option_bind]. destruct (bool_decide (n = name)).
    + rewrite (s32_small (len v)), (wrap_small 32 (12 + len v)) by lia. rewrite offset_ptr by lia. rewrite (proj2 (Z.eqb_neq (sbase + off) 0)) by lia. exists (sbase + off). split_and!; [done | lia | done | lia | lia].
    + unfold id. pose proof (tok_size_pos (TProp n v)) as [Hp _]. apply IH; [done | lia | by apply stream_mod | lia | done].
Qed.

(** The first property of the name: where its value is. *)
Lemma getprop_spec off n name : node_at off n -> name_ok name ->
  match find_prop name n with
  | Some v => exists p, fdt_getprop fuel m fdt off name = Some (p, len v) /\ p <> 0 /\ load m p (length v) = v /\ sbase <= p /\ p + len v <= sbase + size
  | None => fdt_getprop fuel m fdt off name = Some (0, - FDT_ERR_NOTFOUND)
  end.
Proof.
  intros Hn Hok'. destruct (node_begin off n Hn) as (ts0 & Hst0 & H0 & H4). destruct Hn as (rest & (_ & _ & Hst) & Hf). destruct n as [nm props subs]. cbn [node_toks app node_name] in *.
  pose proof (tok_size_pos (TBegin nm)) as [Hp _]. pose proof (stream_mod off (TBegin nm) H4) as H4'. pose proof (stream_count _ _ Hst H0) as Hc. cbn [length] in Hc. rewrite !length_app, length_map in Hc. pose proof (blob_fuel Hok).
  pose proof (property_loop name props fuel (off + tok_size (TBegin nm)) (concat (map node_toks subs) ++ TEnd :: rest) Hok') as HL.
  unfold fdt_getprop, fdt_get_property, find_prop. rewrite (blob_header Hok). cbn [Z.eqb negb]. rewrite (check_node _ _ _ Hst0 H0 H4). cbn [mbind option_bind].
  rewrite (proj2 (Z.ltb_ge _ 0)) by lia. cbn [node_props]. pose proof (blob_addr Hok) as Ha.
  assert (HL' : match List.find (fun p => bool_decide (p.1 = name)) props with Some (_, v) => exists p, get_property_loop fuel m fdt fuel (off + tok_size (TBegin nm)) name = Some (p, len v) /\ p <> 0 /\ load m (p + 12) (length v) = v /\ sbase <= p /\ p + 12 + len v <= sbase + size | None => get_property_loop fuel m fdt fuel (off + tok_size (TBegin nm)) name = Some (0, - FDT_ERR_NOTFOUND) end).
  { apply HL; [| lia | done | lia |].
    - destruct Hst as (_ & _ & Hst). rewrite <- !app_assoc in Hst. exact Hst.
    - destruct subs as [|[snm sp ss] subs]; cbn [map concat node_toks app]; eexists _, _; (split; [done |]); [by right | by left]. }
  destruct (List.find _ props) as [[n' v]|]; cbn [fmap option_fmap option_map snd].
  - destruct HL' as (p & -> & Hp0 & Hld & Hlo & Hhi). exists (p + 12). cbn [mbind option_bind]. rewrite (proj2 (Z.eqb_neq p 0) Hp0). split_and!; [done | lia | done | lia | lia].
  - by rewrite HL'.
Qed.

(** ** Paths *)

Fixpoint descend (n : node) (names : list (list Z)) : option node :=
  match names with
  | [] => Some n
  | name :: names => s ← find_sub name n; descend s names
  end.

Definition path_of (names : list (list Z)) : list Z := concat (map (fun n => 47 :: n) names).

Definition path_name (name : list Z) : Prop := name_ok name /\ name <> [] /\ 47 ∉ name.

Lemma take_name name rest : path_name name -> (rest = [] \/ hd 0 rest = 47) ->
  drop_while (fun c => c =? 47) (47 :: name ++ rest) = name ++ rest /\
  take_while (fun c => negb (c =? 47)) (name ++ rest) = name /\ drop_while (fun c => negb (c =? 47)) (name ++ rest) = rest.
Proof.
  intros (_ & Hne & Hs) Hr. assert (Hf : Forall (fun c => c <> 47) name) by (apply Forall_forall; intros c Hc ->; done). split.
  - cbn. destruct name as [|c name]; [done |]. apply Forall_cons in Hf as [Hc _]. cbn. by rewrite (proj2 (Z.eqb_neq c 47) Hc).
  - clear -Hf Hr. induction Hf as [|c name Hc _ [IH1 IH2]]; cbn [app take_while drop_while].
    + destruct rest as [|c rest]; [done |]. destruct Hr as [Hr | Hr]; [done |]. cbn in Hr. subst c. done.
    + rewrite (proj2 (Z.eqb_neq c 47) Hc). cbn [negb]. by rewrite IH1, IH2.
Qed.

Lemma path_of_head names : path_of names = [] \/ hd 0 (path_of names) = 47.
Proof. destruct names; [by left | by right]. Qed.

Lemma path_loop_spec names : forall k off n, node_at off n -> Forall path_name names -> (length (path_of names) <= k)%nat ->
  match descend n names with
  | Some s => exists o, path_loop fuel m fdt k off (path_of names) = Some o /\ node_at o s
  | None => path_loop fuel m fdt k off (path_of names) = Some (- FDT_ERR_NOTFOUND)
  end.
Proof.
  induction names as [|name names IH]; intros k off n Hn Hnames Hk; cbn [descend path_of map concat]; [exists off; by destruct k |].
  apply Forall_cons in Hnames as [Hname Hnames]. destruct k as [|k]; [cbn in Hk; lia |].
  change (concat (map (fun n => 47 :: n) names)) with (path_of names). cbn [app path_loop]. destruct (take_name name (path_of names) Hname (path_of_head names)) as (E1 & E2 & E3).
  rewrite E1. destruct (name ++ path_of names) as [|c0 r0] eqn:Ep; [destruct Hname as (_ & Hne & _); by destruct name |]. rewrite <- Ep in *. clear c0 r0 Ep. rewrite E2, E3.
  pose proof (subnode_spec off n name Hn (proj1 Hname)) as Hsub. destruct (find_sub name n) as [s|]; cbn [mbind option_bind].
  - destruct Hsub as (o & -> & Hs). cbn [mbind option_bind]. assert (H0 : 0 <= o) by (destruct Hs as (? & (? & _) & _); done). rewrite (proj2 (Z.ltb_ge o 0)) by lia.
    apply IH; [done | done |]. cbn [path_of map concat app length] in Hk. rewrite length_app in Hk. unfold path_of. lia.
  - rewrite Hsub. done.
Qed.
Lemma stream_intro ts : forall off, Forall tok_ok ts -> load m (sbase + off) (length (concat (map tok_bytes ts))) = concat (map tok_bytes ts) ->
  off + toks_size ts <= size -> stream off ts.
Proof.
  induction ts as [|t ts IH]; intros off Ht Hl Hs; cbn [stream map concat toks_size fold_right] in *; [lia |]. apply Forall_cons in Ht as [Ht Hts].
  rewrite length_app, load_app in Hl. apply app_inj_1 in Hl as [H1 H2]; [| by rewrite load_length]. split_and!; [done | done |].
  apply IH; [done | | unfold toks_size; lia]. rewrite <- tok_bytes_length. rewrite <- H2 at 2. f_equal. lia.
Qed.

Lemma absolute_path path : hd 0 path = 47 -> fdt_path_offset fuel m fdt path = path_walk fuel m fdt 0 path.
Proof.
  intros Hh. pose proof (blob_fuel Hok). pose proof (blob_small Hok). unfold fdt_path_offset.
  cut (forall f, (0 < f)%nat -> path_offset fuel m fdt f path = path_walk fuel m fdt 0 path); [intros Hf; apply Hf; lia |].
  intros [|f] Hf; [lia |]. cbn [path_offset]. rewrite (blob_header Hok), Hh. done.
Qed.

(** C15: Libfdt reads what a tree has: the node of an absolute path is found
    exactly when the tree has it, the first subnode that matches each name of
    the path, and then its name, the value and the length of each property,
    the first of that name, and the error for one it does not have. *)
Theorem fdt_reads_tree root names : node_at 0 root -> names <> [] -> Forall path_name names ->
  match descend root names with
  | None => fdt_path_offset fuel m fdt (path_of names) = Some (- FDT_ERR_NOTFOUND)
  | Some s => exists o, fdt_path_offset fuel m fdt (path_of names) = Some o /\
      (exists p, fdt_get_name fuel m fdt o = Some p /\ cstr m p (node_name s)) /\
      forall name, name_ok name ->
        match find_prop name s with
        | Some v => exists p, fdt_getprop fuel m fdt o name = Some (p, len v) /\ load m p (length v) = v
        | None => fdt_getprop fuel m fdt o name = Some (0, - FDT_ERR_NOTFOUND)
        end
  end.
Proof.
  intros Hr Hne Hn. rewrite absolute_path by (destruct (path_of_head names) as [E|]; [by destruct names | done]).
  pose proof (path_loop_spec names (length (path_of names)) 0 root Hr Hn (Nat.le_refl _)) as HP. unfold path_walk. destruct (descend root names) as [s|]; [| exact HP].
  destruct HP as (o & E & Hs). exists o. split_and!; [done | |].
  - destruct (get_name_spec o s Hs) as (p & Ep & _ & Hc). by exists p.
  - intros name Hok'. pose proof (getprop_spec o s name Hs Hok') as HG. destruct (find_prop name s) as [v|]; [| done]. destruct HG as (p & E' & _ & Hl & _). by exists p.
Qed.
End blob.
End encoding.

(** ** A whole blob *)

(** The table of the property names. *)
Fixpoint str_offset (strings : list (list Z)) (n : list Z) : Z :=
  match strings with
  | [] => 0
  | s :: strings => if decide (s = n) then 0 else len s + 1 + str_offset strings n
  end.

Definition strings_bytes (strings : list (list Z)) : list Z := concat (map (fun s => s ++ [0]) strings).

Definition struct_bytes (strings : list (list Z)) (root : node) : list Z := concat (map (tok_bytes (str_offset strings)) (node_toks root ++ [TFin])).

(** The header of version 17, an empty list of reservations, the structure and
    the strings. *)
Definition fdt_blob (strings : list (list Z)) (root : node) : list Z :=
  let st := struct_bytes strings root in
  let sb := strings_bytes strings in
  concat (map (be_bytes 4) [FDT_MAGIC; 56 + len st + len sb; 56; 56 + len st; 40; 17; 16; 0; len sb; len st]) ++ replicate 16 0 ++ st ++ sb.

(** The names that a tree uses. *)
Fixpoint node_ok (strings : list (list Z)) (n : node) : Prop :=
  match n with
  | Node name props subs => good_chars name /\ Forall (fun p => p.1 ∈ strings) props /\ fold_right (fun s P => node_ok strings s /\ P) True subs
  end.

Section whole.
Context (strings : list (list Z)) (root : node) (m : mem) (fdt : Z).
Hypothesis Hload : load m fdt (length (fdt_blob strings root)) = fdt_blob strings root.
Hypothesis Hstr : Forall good_chars strings.
Hypothesis Hnode : node_ok strings root.
Hypothesis Haddr : 0 <= fdt /\ fdt + len (fdt_blob strings root) < 2 ^ 32.
Hypothesis Hsmall : len (fdt_blob strings root) < 2 ^ 31 - 16.

Let st := struct_bytes strings root.
Let sb := strings_bytes strings.

Lemma blob_length : len (fdt_blob strings root) = 56 + len st + len sb.
Proof. unfold fdt_blob. fold st sb. rewrite !length_app, length_replicate. cbn [map concat]. rewrite !length_app, !be_bytes_length. cbn [length]. lia. Qed.

Lemma blob_word i w : [FDT_MAGIC; 56 + len st + len sb; 56; 56 + len st; 40; 17; 16; 0; len sb; len st] !! i = Some w -> get32 m (fdt + 4 * Z.of_nat i) = w.
Proof.
  intros Hw. pose proof blob_length as Hl. assert (Hi : (i < 10)%nat) by (apply lookup_lt_Some in Hw; exact Hw).
  apply get32_load.
  - repeat (destruct i as [|i]; [cbn in Hw; injection Hw as <-; unfold FDT_MAGIC; lia |]). cbn in Hi. lia.
  - replace (fdt + 4 * Z.of_nat i) with (fdt + Z.of_nat (4 * i)) by lia. rewrite (load_sub m fdt _ (4 * i) 4 Hload) by lia.
    unfold fdt_blob. fold st sb. repeat (destruct i as [|i]; [cbn in Hw; injection Hw as <-; reflexivity |]). cbn in Hi. lia.
Qed.

Lemma struct_at : load m (fdt + 56) (length st) = st /\ load m (fdt + 56 + len st) (length sb) = sb.
Proof.
  pose proof blob_length as Hl. pose proof (load_sub m fdt _ 56 (length st) Hload) as H1. pose proof (load_sub m fdt _ (56 + length st) (length sb) Hload) as H2.
  assert (E : drop 56 (fdt_blob strings root) = st ++ sb) by reflexivity. split.
  - change (fdt + 56) with (fdt + Z.of_nat 56). rewrite H1, E by lia. by rewrite take_app_length.
  - replace (fdt + 56 + len st) with (fdt + Z.of_nat (56 + length st)) by lia. rewrite H2 by lia. rewrite <- drop_drop, E, drop_app_length. by rewrite firstn_all.
Qed.
Lemma blob_base : sbase m fdt = fdt + 56.
Proof. unfold sbase, fdt_off_dt_struct. f_equal. by apply (blob_word 2 56). Qed.

Lemma struct_size : len st = toks_size (node_toks root ++ [TFin]).
Proof.
  unfold st, struct_bytes. generalize (node_toks root ++ [TFin]) as ts. induction ts as [|t ts IH]; [done |]. cbn [map concat toks_size fold_right]. rewrite length_app, Nat2Z.inj_add, tok_bytes_length, IH. done.
Qed.

Lemma str_offset_spec l : forall a n, load m a (length (strings_bytes l)) = strings_bytes l -> Forall good_chars l -> n ∈ l ->
  cstr m (a + str_offset l n) n /\ 0 <= str_offset l n /\ str_offset l n + len n < len (strings_bytes l).
Proof.
  induction l as [|s l IH]; intros a n Hl Hg Hn; [by apply not_elem_of_nil in Hn |]. apply Forall_cons in Hg as [Hs Hg]. unfold strings_bytes in Hl |- *. cbn [map concat str_offset] in *.
  rewrite !length_app in Hl |- *. cbn [length] in *. rewrite load_app in Hl. apply app_inj_1 in Hl as [H1 H2]; [| by rewrite load_length, length_app]. fold (strings_bytes l) in *.
  rewrite load_app in H1. apply app_inj_1 in H1 as [H0 H1]; [| by rewrite load_length]. cbn in H1. injection H1 as H1. destruct (decide (s = n)) as [->|Hne].
  - rewrite Z.add_0_r. split_and!; [split_and!; done | done | lia].
  - apply elem_of_cons in Hn as [-> | Hn]; [done |]. destruct (IH (a + Z.of_nat (length s + 1)) n) as (Hc & H0' & Hlt); [exact H2 | done | done |].
    replace (a + (len s + 1 + str_offset l n)) with (a + Z.of_nat (length s + 1) + str_offset l n) by lia. split_and!; [exact Hc | lia | lia].
Qed.

Lemma node_toks_ok fuel n : len (fdt_blob strings root) < Z.of_nat fuel -> node_ok strings n -> Forall (tok_ok (str_offset strings) fuel m fdt) (node_toks n).
Proof.
  intros Hf. pose proof blob_length as Hl. induction n as [name props subs IH] using node_ind'. intros (Hn & Hp & Hs). cbn [node_toks]. constructor; [done |].
  apply Forall_app_2; [| apply Forall_app_2; [| by repeat constructor]].
  - apply Forall_map. eapply Forall_impl; [exact Hp |]. intros [n v] Hin. cbn [fst snd] in *.
    destruct (str_offset_spec strings (fdt + 56 + len st) n (proj2 struct_at) Hstr Hin) as (Hc & H0 & Hlt). fold sb in Hlt. cbn [tok_ok].
    split_and!; [by eapply Forall_forall in Hstr | done | lia | lia |].
    unfold fdt_string, fdt_off_dt_strings. change 12 with (4 * Z.of_nat 3). rewrite (blob_word 3 (56 + len st) eq_refl). by replace (fdt + (56 + len st) + str_offset strings n) with (fdt + 56 + len st + str_offset strings n) by lia.
  - clear Hp Hn. induction IH as [|s subs Hs1 _ IHs]; [by constructor |]. cbn [fold_right] in Hs. destruct Hs as [Hs2 Hs]. cbn [map concat]. apply Forall_app_2; [by apply Hs1 | by apply IHs].
Qed.

(** A blob in memory is one the library accepts, with its root at 0. *)
Lemma fdt_blob_read fuel : len (fdt_blob strings root) < Z.of_nat fuel ->
  blob_ok fuel m fdt (len st) /\ node_at (str_offset strings) fuel m fdt (len st) 0 root.
Proof.
  intros Hf. pose proof blob_length as Hl. split.
  - split.
    + unfold fdt_check_header, fdt_magic, fdt_version, fdt_last_comp_version. replace (get32 m fdt) with FDT_MAGIC by (symmetry; rewrite <- (Z.add_0_r fdt); by apply (blob_word 0)).
      change 20 with (4 * Z.of_nat 5). change 24 with (4 * Z.of_nat 6). rewrite (blob_word 5 17 eq_refl), (blob_word 6 16 eq_refl). done.
    + intros _. unfold fdt_size_dt_struct. change 36 with (4 * Z.of_nat 9). by apply (blob_word 9).
    + lia.
    + rewrite blob_base. lia.
    + lia.
  - exists [TFin]. split; [| by constructor]. split_and!; [done | done |]. apply stream_intro.
    + apply Forall_app_2; [by apply node_toks_ok | by repeat constructor].
    + rewrite blob_base, Z.add_0_r. apply struct_at.
    + rewrite <- struct_size. lia.
Qed.
End whole.

(** ** A small tree *)

Definition demo_strings : list (list Z) := [str "description"; str "data"; str "type"].

Definition demo_tree : node :=
  Node [] [(str "description", str "demo" ++ [0])]
    [Node (str "images") []
       [Node (str "kernel@1") [(str "data", [1; 2; 3; 4; 5]); (str "type", str "kernel" ++ [0])] [];
        Node (str "ramdisk@1") [(str "type", str "ramdisk" ++ [0])] []]].

Definition demo_blob_mem : mem := store_list (fun _ => 0) 0x1000 (fdt_blob demo_strings demo_tree).

Lemma good_ascii s : forallb (fun c => negb (c =? 0)) s = true -> good_chars s.
Proof. intros H. apply Forall_forall. intros c Hc%list_elem_of_In. rewrite forallb_forall in H. apply H in Hc. by destruct (Z.eqb_spec c 0). Qed.

Lemma demo_tree_ok : node_ok demo_strings demo_tree.
Proof.
  assert (H : forall n, bool_decide (n ∈ demo_strings) = true -> n ∈ demo_strings) by (intros n Hn; by apply bool_decide_eq_true in Hn).
  cbn [node_ok demo_tree fold_right]. split_and!; try done; try (by apply good_ascii); repeat (apply Forall_cons; split; [apply H; by vm_compute |]); by apply Forall_nil.
Qed.

Lemma demo_blob_read : blob_ok 1000 demo_blob_mem 0x1000 (len (struct_bytes demo_strings demo_tree)) /\
  node_at (str_offset demo_strings) 1000 demo_blob_mem 0x1000 (len (struct_bytes demo_strings demo_tree)) 0 demo_tree.
Proof.
  apply fdt_blob_read; [apply load_store_list | | apply demo_tree_ok | by vm_compute | by vm_compute | by vm_compute].
  repeat (apply Forall_cons; split; [by apply good_ascii |]). by apply Forall_nil.
Qed.

Lemma fdt_reads_tree_witness :
  exists o p, fdt_path_offset 1000 demo_blob_mem 0x1000 (str "/images/kernel") = Some o /\
    fdt_getprop 1000 demo_blob_mem 0x1000 o (str "data") = Some (p, 5) /\ load demo_blob_mem p 5 = [1; 2; 3; 4; 5].
Proof.
  destruct demo_blob_read as [Hok Hroot].
  assert (Hn : forall s, forallb (fun c => negb (c =? 0)) s = true -> len s < 2 ^ 31 - 1 -> name_ok s) by (intros s H1 H2; split; [by apply good_ascii | done]).
  pose proof (fdt_reads_tree (str_offset demo_strings) 1000 demo_blob_mem 0x1000 _ Hok demo_tree [str "images"; str "kernel"] Hroot) as H.
  destruct H as (o & Eo & _ & H); [done | | specialize (H (str "data")); destruct H as (p & Ep & Hp); [by apply Hn | exists o, p; by split_and!]].
  repeat (apply Forall_cons; split; [split_and!; [by apply Hn | done | apply (bool_decide_unpack _); by vm_compute] |]). by apply Forall_nil.
Defined.
