(* ===== verification/Hash.v ===== *)
(** * Hashes: lib_generic/sha1.c and lib_generic/md5.c

    The two digests that an image may carry beside a CRC-32.  A context has
    its counters, its words and its buffer of 64 bytes; a message is a list of
    bytes.  [unsigned long] has 32 bits.  The 80 steps of SHA-1 and the 64 of
    MD5, which the source writes out with the variables renamed from one to
    the next, are loops here that turn the tuple of the variables; the table
    [md5_steps] is the source's list of calls.

    The theorems: for a message given at once or in pieces of any size, the
    code computes the digest of the standards (FIPS 180-1 and RFC 1321); the
    keyed digest of sha1.c is translated with them. *)

From S2P Require Import Prelude Memory.

Local Open Scope Z_scope.

(** [memcpy (buffer + i, l, ...)] *)
Definition write_at (i : nat) (l buffer : list Z) : list Z := take i buffer ++ l ++ drop (i + length l) buffer.

Definition word_at (w : list Z) (i : Z) : Z := nth (Z.to_nat i) w 0.

(** [n] blocks of 64 bytes, one after the other. *)
Fixpoint blocks {St} (process : St -> list Z -> St) (n : nat) (s : St) (l : list Z) : St :=
  match n with
  | O => s
  | S n => blocks process n (process s (take 64 l)) (drop 64 l)
  end.

(** ** SHA-1 *)

Definition word5 : Type := Z * Z * Z * Z * Z.

Record sha1_context := mk_sha1 { total : Z * Z; sha1_state : word5; sha1_buffer : list Z }.

(** The buffer is not set: [buffer] is what the stack holds. *)
Definition sha1_starts (buffer : list Z) : sha1_context :=
  mk_sha1 (0, 0) (0x67452301, 0xEFCDAB89, 0x98BADCFE, 0x10325476, 0xC3D2E1F0) buffer.

Definition S_ (x n : Z) : Z := Z.lor (u32 (Z.shiftl x n)) (Z.shiftr x (32 - n)).

(** [GET_UINT32_BE] for each word of a block. *)
Fixpoint be_words (n : nat) (data : list Z) : list Z :=
  match n with
  | O => []
  | S n => be_val (take 4 data) :: be_words n (drop 4 data)
  end.

Definition R (W : list Z) (t : Z) : list Z :=
  let w k := word_at W (Z.land (t - k) 15) in
  <[Z.to_nat (Z.land t 15) := S_ (Z.lxor (Z.lxor (Z.lxor (w 3) (w 8)) (w 14)) (w 0)) 1]> W.

Definition F_sha (t x y z : Z) : Z :=
  if t <? 20 then Z.lxor z (Z.land x (Z.lxor y z))
  else if t <? 40 then Z.lxor (Z.lxor x y) z
  else if t <? 60 then Z.lor (Z.land x y) (Z.land z (Z.lor x y))
  else Z.lxor (Z.lxor x y) z.

Definition K_sha (t : Z) : Z := if t <? 20 then 0x5A827999 else if t <? 40 then 0x6ED9EBA1 else if t <? 60 then 0x8F1BBCDC else 0xCA62C1D6.

(** [P (a, b, c, d, e, x)], and the variables of the next call. *)
Definition P (t x : Z) (v : word5) : word5 :=
  let '(a, b, c, d, e) := v in (u32 (e + S_ a 5 + F_sha t b c d + K_sha t + x), a, S_ b 30, c, d).

Definition sha1_step (s : Z * list Z * word5) : Z * list Z * word5 :=
  let '(t, W, v) := s in
  let W := if t <? 16 then W else R W t in
  (t + 1, W, P t (word_at W (Z.land t 15)) v).

Definition add5 (s v : word5) : word5 :=
  let '(s0, s1, s2, s3, s4) := s in
  let '(a, b, c, d, e) := v in (u32 (s0 + a), u32 (s1 + b), u32 (s2 + c), u32 (s3 + d), u32 (s4 + e)).

Definition sha1_process (s : word5) (data : list Z) : word5 :=
  let '(_, _, v) := for_n sha1_step 80 (0, be_words 16 data, s) in add5 s v.

(** [while (ilen >= 64)]: [n] blocks. *)
Definition sha1_blocks : nat -> word5 -> list Z -> word5 := blocks sha1_process.

Definition sha1_update (ctx : sha1_context) (input : list Z) : sha1_context :=
  if len input <=? 0 then ctx
  else
    let left_ := Z.land (total ctx).1 0x3F in
    let fill := 64 - left_ in
    let total0 := u32 ((total ctx).1 + len input) in
    let total1 := if total0 <? len input then u32 ((total ctx).2 + 1) else (total ctx).2 in
    let '(s, buffer, input, left_) :=
      if negb (left_ =? 0) && (fill <=? len input) then
        let buffer := write_at (Z.to_nat left_) (take (Z.to_nat fill) input) (sha1_buffer ctx) in
        (sha1_process (sha1_state ctx) buffer, buffer, drop (Z.to_nat fill) input, 0)
      else (sha1_state ctx, sha1_buffer ctx, input, left_) in
    let n := Z.to_nat (len input / 64) in
    let s := sha1_blocks n s input in
    let input := drop (64 * n) input in
    mk_sha1 (total0, total1) s (if 0 <? len input then write_at (Z.to_nat left_) input buffer else buffer).

Definition sha1_padding : list Z := 0x80 :: replicate 63 0.

Definition be_out5 (s : word5) : list Z :=
  let '(s0, s1, s2, s3, s4) := s in be_bytes 4 s0 ++ be_bytes 4 s1 ++ be_bytes 4 s2 ++ be_bytes 4 s3 ++ be_bytes 4 s4.

Definition sha1_finish (ctx : sha1_context) : list Z :=
  let high := Z.lor (Z.shiftr (total ctx).1 29) (u32 (Z.shiftl (total ctx).2 3)) in
  let low := u32 (Z.shiftl (total ctx).1 3) in
  let msglen := be_bytes 4 high ++ be_bytes 4 low in
  let last := Z.land (total ctx).1 0x3F in
  let padn := if last <? 56 then 56 - last else 120 - last in
  let ctx := sha1_update ctx (take (Z.to_nat padn) sha1_padding) in
  let ctx := sha1_update ctx msglen in
  be_out5 (sha1_state ctx).

Definition sha1_csum (buffer input : list Z) : list Z := sha1_finish (sha1_update (sha1_starts buffer) input).

(** Without a watchdog the pieces are not made. *)
Definition sha1_csum_wd (buffer input : list Z) (chunk_sz : Z) : list Z := sha1_finish (sha1_update (sha1_starts buffer) input).

(** The bytes of the key change the two pads, up to the 64th; the context and
    the buffers are cleared after.  [buffer] and [buffer'] are what the context
    holds at each start. *)
Definition sha1_hmac (buffer buffer' key input : list Z) : list Z :=
  let pad c := map (fun i => if i <? len key then Z.lxor c (nthZ key i) else c) (seqZ 0 64) in
  let ctx := sha1_starts buffer in
  let ctx := sha1_update ctx (pad 0x36) in
  let ctx := sha1_update ctx input in
  let tmpbuf := sha1_finish ctx in
  let ctx := sha1_starts buffer' in
  let ctx := sha1_update ctx (pad 0x5C) in
  let ctx := sha1_update ctx tmpbuf in
  sha1_finish ctx.

(** ** MD5 *)

Definition word4 : Type := Z * Z * Z * Z.

Record MD5Context := mk_md5 { md5_buf : word4; bits : Z * Z; md5_in : list Z }.

Definition MD5Init (buffer : list Z) : MD5Context := mk_md5 (0x67452301, 0xefcdab89, 0x98badcfe, 0x10325476) (0, 0) buffer.

Inductive md5_fn := F1 | F2 | F3 | F4.

Definition md5_f (f : md5_fn) (x y z : Z) : Z :=
  match f with
  | F1 => Z.lxor z (Z.land x (Z.lxor y z))
  | F2 => Z.lxor y (Z.land z (Z.lxor x y))
  | F3 => Z.lxor (Z.lxor x y) z
  | F4 => Z.lxor y (Z.lor x (u32 (Z.lnot z)))
  end.

(** [MD5STEP (f, w, x, y, z, in[k] + c, s)], and the variables of the next
    call. *)
Definition MD5STEP (words : list Z) (v : word4) (st : md5_fn * nat * Z * Z) : word4 :=
  let '(w, x, y, z) := v in
  let '(f, k, c, s) := st in
  let w := u32 (w + md5_f f x y z + u32 (nth k words 0 + c)) in
  let w := Z.lor (u32 (Z.shiftl w s)) (Z.shiftr w (32 - s)) in
  (z, u32 (w + x), x, y).

Definition md5_steps : list (md5_fn * nat * Z * Z) :=
  [
   (F1, 0%nat, 0xd76aa478, 7); (F1, 1%nat, 0xe8c7b756, 12); (F1, 2%nat, 0x242070db, 17); (F1, 3%nat, 0xc1bdceee, 22);
   (F1, 4%nat, 0xf57c0faf, 7); (F1, 5%nat, 0x4787c62a, 12); (F1, 6%nat, 0xa8304613, 17); (F1, 7%nat, 0xfd469501, 22);
   (F1, 8%nat, 0x698098d8, 7); (F1, 9%nat, 0x8b44f7af, 12); (F1, 10%nat, 0xffff5bb1, 17); (F1, 11%nat, 0x895cd7be, 22);
   (F1, 12%nat, 0x6b901122, 7); (F1, 13%nat, 0xfd987193, 12); (F1, 14%nat, 0xa679438e, 17); (F1, 15%nat, 0x49b40821, 22);
   (F2, 1%nat, 0xf61e2562, 5); (F2, 6%nat, 0xc040b340, 9); (F2, 11%nat, 0x265e5a51, 14); (F2, 0%nat, 0xe9b6c7aa, 20);
   (F2, 5%nat, 0xd62f105d, 5); (F2, 10%nat, 0x02441453, 9); (F2, 15%nat, 0xd8a1e681, 14); (F2, 4%nat, 0xe7d3fbc8, 20);
   (F2, 9%nat, 0x21e1cde6, 5); (F2, 14%nat, 0xc33707d6, 9); (F2, 3%nat, 0xf4d50d87, 14); (F2, 8%nat, 0x455a14ed, 20);
   (F2, 13%nat, 0xa9e3e905, 5); (F2, 2%nat, 0xfcefa3f8, 9); (F2, 7%nat, 0x676f02d9, 14); (F2, 12%nat, 0x8d2a4c8a, 20);
   (F3, 5%nat, 0xfffa3942, 4); (F3, 8%nat, 0x8771f681, 11); (F3, 11%nat, 0x6d9d6122, 16); (F3, 14%nat, 0xfde5380c, 23);
   (F3, 1%nat, 0xa4beea44, 4); (F3, 4%nat, 0x4bdecfa9, 11); (F3, 7%nat, 0xf6bb4b60, 16); (F3, 10%nat, 0xbebfbc70, 23);
   (F3, 13%nat, 0x289b7ec6, 4); (F3, 0%nat, 0xeaa127fa, 11); (F3, 3%nat, 0xd4ef3085, 16); (F3, 6%nat, 0x04881d05, 23);
   (F3, 9%nat, 0xd9d4d039, 4); (F3, 12%nat, 0xe6db99e5, 11); (F3, 15%nat, 0x1fa27cf8, 16); (F3, 2%nat, 0xc4ac5665, 23);
   (F4, 0%nat, 0xf4292244, 6); (F4, 7%nat, 0x432aff97, 10); (F4, 14%nat, 0xab9423a7, 15); (F4, 5%nat, 0xfc93a039, 21);
   (F4, 12%nat, 0x655b59c3, 6); (F4, 3%nat, 0x8f0ccc92, 10); (F4, 10%nat, 0xffeff47d, 15); (F4, 1%nat, 0x85845dd1, 21);
   (F4, 8%nat, 0x6fa87e4f, 6); (F4, 15%nat, 0xfe2ce6e0, 10); (F4, 6%nat, 0xa3014314, 15); (F4, 13%nat, 0x4e0811a1, 21);
   (F4, 4%nat, 0xf7537e82, 6); (F4, 11%nat, 0xbd3af235, 10); (F4, 2%nat, 0x2ad7d2bb, 15); (F4, 9%nat, 0xeb86d391, 21)].

Definition add4 (s v : word4) : word4 :=
  let '(s0, s1, s2, s3) := s in
  let '(a, b, c, d) := v in (u32 (s0 + a), u32 (s1 + b), u32 (s2 + c), u32 (s3 + d)).

Definition MD5Transform (buf : word4) (words : list Z) : word4 := add4 buf (fold_left (MD5STEP words) md5_steps buf).

(** [byteReverse]: the word [t] made of four bytes from the last to the first
    is stored over them, the high byte first. *)
Fixpoint byteReverse (longs : nat) (buf : list Z) : list Z :=
  match longs with
  | O => buf
  | S longs => rev (take 4 buf) ++ byteReverse longs (drop 4 buf)
  end.

(** A block put into [ctx->in], reversed and transformed. *)
Definition md5_block (c : word4 * list Z) (block : list Z) : word4 * list Z :=
  let inb := byteReverse 16 block in (MD5Transform c.1 (be_words 16 inb), inb).

Definition MD5Update (ctx : MD5Context) (l : list Z) : MD5Context :=
  let t := (bits ctx).1 in
  let bits0 := u32 (t + u32 (Z.shiftl (len l) 3)) in
  let bits1 := if bits0 <? t then u32 ((bits ctx).2 + 1) else (bits ctx).2 in
  let bits1 := u32 (bits1 + Z.shiftr (len l) 29) in
  let t := Z.land (Z.shiftr t 3) 0x3f in
  if negb (t =? 0) && (len l <? 64 - t) then mk_md5 (md5_buf ctx) (bits0, bits1) (write_at (Z.to_nat t) l (md5_in ctx))
  else
    let '(c, l) :=
      if negb (t =? 0) then
        let fill := Z.to_nat (64 - t) in
        (md5_block (md5_buf ctx, md5_in ctx) (write_at (Z.to_nat t) (take fill l) (md5_in ctx)), drop fill l)
      else ((md5_buf ctx, md5_in ctx), l) in
    let n := Z.to_nat (len l / 64) in
    let '(buf, inb) := blocks md5_block n c l in
    mk_md5 buf (bits0, bits1) (write_at 0 (drop (64 * n) l) inb).

Definition md5_out (s : word4) : list Z :=
  let '(s0, s1, s2, s3) := s in byteReverse 4 (be_bytes 4 s0 ++ be_bytes 4 s1 ++ be_bytes 4 s2 ++ be_bytes 4 s3).

(** The last two words of the buffer are the number of bits, not reversed. *)
Definition MD5Final (ctx : MD5Context) : list Z :=
  let count := Z.land (Z.shiftr (bits ctx).1 3) 0x3F in
  let inb := write_at (Z.to_nat count) [0x80] (md5_in ctx) in
  let p := Z.to_nat (count + 1) in
  let count := 64 - 1 - count in
  let '(buf, inb) :=
    if count <? 8 then
      let '(buf, inb) := md5_block (md5_buf ctx, inb) (write_at p (replicate (Z.to_nat count) 0) inb) in
      (buf, write_at 0 (replicate 56 0) inb)
    else (md5_buf ctx, write_at p (replicate (Z.to_nat (count - 8)) 0) inb) in
  let inb := byteReverse 14 inb in
  let inb := write_at 56 (be_bytes 4 (bits ctx).1 ++ be_bytes 4 (bits ctx).2) inb in
  md5_out (MD5Transform buf (be_words 16 inb)).

Definition md5 (buffer input : list Z) : list Z := MD5Final (MD5Update (MD5Init buffer) input).

Definition md5_wd (buffer input : list Z) (chunk_sz : Z) : list Z := MD5Final (MD5Update (MD5Init buffer) input).

(** The values of the standards. *)
Example sha1_abc : sha1_csum (replicate 64 0) (str "abc") =
  [0xA9; 0x99; 0x3E; 0x36; 0x47; 0x06; 0x81; 0x6A; 0xBA; 0x3E; 0x25; 0x71; 0x78; 0x50; 0xC2; 0x6C; 0x9C; 0xD0; 0xD8; 0x9D].
Proof. vm_compute. reflexivity. Qed.

Example md5_abc : md5 (replicate 64 0) (str "abc") =
  [0x90; 0x01; 0x50; 0x98; 0x3c; 0xd2; 0x4f; 0xb0; 0xd6; 0x96; 0x3f; 0x7d; 0x28; 0xe1; 0x7f; 0x72].
Proof. vm_compute. reflexivity. Qed.

(** ** Blocks and the buffer *)

Lemma write_at_length i l b : length b = 64%nat -> (i + length l <= 64)%nat -> length (write_at i l b) = 64%nat.
Proof. intros Hb Hi. unfold write_at. rewrite !length_app, length_take, length_drop. lia. Qed.

Lemma write_at_take i l b : length b = 64%nat -> (i + length l <= 64)%nat -> take (i + length l) (write_at i l b) = take i b ++ l.
Proof.
  intros Hb Hi. unfold write_at. rewrite app_assoc. apply take_app_length'. rewrite length_app, length_take. lia.
Qed.

Lemma write_at_full i l b : length b = 64%nat -> (i + length l = 64)%nat -> write_at i l b = take i b ++ l.
Proof. intros Hb Hi. unfold write_at. rewrite drop_ge by lia. by rewrite app_nil_r. Qed.

Section merkle_damgard.
Context {St : Type} (process : St -> list Z -> St).

Lemma blocks_app n : forall s a k b, length a = (64 * n)%nat -> blocks process (n + k) s (a ++ b) = blocks process k (blocks process n s a) b.
Proof.
  induction n as [|n IH]; intros s a k b Ha; cbn [blocks Nat.add]; [destruct a; [done | cbn in Ha; lia] |].
  rewrite take_app_le, drop_app_le by lia. apply IH. rewrite length_drop. lia.
Qed.

Lemma blocks_prefix n s a b : length a = (64 * n)%nat -> blocks process n s (a ++ b) = blocks process n s a.
Proof. intros Ha. pose proof (blocks_app n s a 0 b Ha) as E. by rewrite Nat.add_0_r in E. Qed.

(** [s] is the state after the whole blocks of [msg], and the buffer begins
    with the rest. *)
Definition absorbed (s0 : St) (msg : list Z) (s : St) (buffer : list Z) : Prop :=
  s = blocks process (length msg / 64) s0 msg /\ length buffer = 64%nat /\
  take (length msg mod 64) buffer = drop (64 * (length msg / 64)) msg.

Lemma length_split (msg : list Z) : length msg = (64 * (length msg / 64) + length msg mod 64)%nat /\ (length msg mod 64 < 64)%nat.
Proof. split; [apply Nat.div_mod_eq | apply Nat.mod_upper_bound; lia]. Qed.

Lemma split_div n q r : n = (64 * q + r)%nat -> (r < 64)%nat -> (n / 64 = q /\ n mod 64 = r)%nat.
Proof. intros E Hr. split; symmetry; [apply (Nat.div_unique n 64 q r) | apply (Nat.mod_unique n 64 q r)]; lia. Qed.

(** Bytes that do not complete a block. *)
Lemma absorbed_short s0 msg s b l : absorbed s0 msg s b -> (length msg mod 64 + length l < 64)%nat ->
  absorbed s0 (msg ++ l) s (write_at (length msg mod 64) l b).
Proof.
  intros (Hs & Hb & Hr) Hl. destruct (length_split msg) as [E Hlt].
  destruct (split_div (length (msg ++ l)) (length msg / 64) (length msg mod 64 + length l)) as [E1 E2]; [rewrite length_app; lia | lia |].
  unfold absorbed. rewrite E1, E2. split_and!.
  - rewrite Hs. rewrite <- (take_drop (64 * (length msg / 64)) msg) at 2 4. rewrite <- app_assoc, !blocks_prefix by (rewrite length_take; lia). done.
  - apply write_at_length; [done | lia].
  - rewrite write_at_take by (done || lia). rewrite Hr. by rewrite drop_app_le by lia.
Qed.

(** Bytes that complete the block in the buffer. *)
Lemma absorbed_fill s0 msg s b l b' : absorbed s0 msg s b -> (length msg mod 64 + length l = 64)%nat -> length b' = 64%nat ->
  absorbed s0 (msg ++ l) (process s (write_at (length msg mod 64) l b)) b'.
Proof.
  intros (Hs & Hb & Hr) Hl Hb'. destruct (length_split msg) as [E Hlt].
  destruct (split_div (length (msg ++ l)) (length msg / 64 + 1) 0) as [E1 E2]; [rewrite length_app; lia | lia |].
  unfold absorbed. rewrite E1, E2. split_and!; [| done | rewrite drop_ge by (rewrite length_app; lia); done].
  rewrite <- (take_drop (64 * (length msg / 64)) msg) at 3. rewrite <- app_assoc, blocks_app by (rewrite length_take; lia). cbn [blocks].
  rewrite write_at_full, Hr, Hs by (done || lia). f_equal.
  - rewrite <- (take_drop (64 * (length msg / 64)) msg) at 2. by rewrite blocks_prefix by (rewrite length_take; lia).
  - symmetry. apply take_ge. rewrite length_app, length_drop. lia.
Qed.

(** Whole blocks, and a rest, when the buffer is empty. *)
Lemma absorbed_blocks s0 msg s b l : absorbed s0 msg s b -> (length msg mod 64 = 0)%nat ->
  absorbed s0 (msg ++ l) (blocks process (length l / 64) s l) (write_at 0 (drop (64 * (length l / 64)) l) b).
Proof.
  intros (Hs & Hb & Hr) H0. destruct (length_split msg) as [E _]. destruct (length_split l) as [El Hlt].
  destruct (split_div (length (msg ++ l)) (length msg / 64 + length l / 64) (length l mod 64)) as [E1 E2]; [rewrite length_app; lia | lia |].
  assert (Hd : length (drop (64 * (length l / 64)) l) = (length l mod 64)%nat) by (rewrite length_drop; lia).
  unfold absorbed. rewrite E1, E2. split_and!.
  - rewrite blocks_app by lia. by rewrite Hs.
  - apply write_at_length; [done | lia].
  - rewrite <- Hd at 1. rewrite <- (Nat.add_0_l (length (drop _ _))). rewrite write_at_take by (done || lia). rewrite take_0. cbn [app].
    rewrite drop_app_ge by lia. f_equal. lia.
Qed.

(** A message that is a number of blocks. *)
Lemma absorbed_whole s0 msg s b : absorbed s0 msg s b -> s = blocks process (length msg / 64) s0 msg.
Proof. by intros [? _]. Qed.
End merkle_damgard.

(** ** Counting *)

Lemma land_63 x : 0 <= x -> Z.land x 63 = x mod 64.
Proof. intros Hx. change 63 with (Z.ones 6). by rewrite Z.land_ones by lia. Qed.

Lemma nat_mod_64 (l : list Z) : Z.of_nat (length l mod 64) = len l mod 64.
Proof. rewrite Nat2Z.inj_mod. done. Qed.

Lemma u32_mod_64 x : u32 x mod 64 = x mod 64.
Proof. unfold wrap. change (2 ^ 32) with (64 * 2 ^ 26). rewrite Z.rem_mul_r by lia. rewrite Z.add_mod, Z.mul_mod, Z.mod_mod by lia. rewrite (Z.mod_same 64), Z.mul_0_l, Z.mod_0_l, Z.add_0_r, Z.mod_mod by lia. done. Qed.

Lemma carry_32 L i : 0 <= L -> 0 <= i < 2 ^ 32 ->
  (u32 (L + i) <? i) = negb ((L + i) / 2 ^ 32 =? L / 2 ^ 32) /\ ((L + i) / 2 ^ 32 = L / 2 ^ 32 \/ (L + i) / 2 ^ 32 = L / 2 ^ 32 + 1).
Proof.
  intros HL Hi. unfold wrap. pose proof (Z.div_mod L (2 ^ 32) ltac:(lia)) as E. pose proof (Z.mod_pos_bound L (2 ^ 32) ltac:(lia)) as Hr.
  set (q := L / 2 ^ 32) in *. set (r := L mod 2 ^ 32) in *. destruct (Z_lt_le_dec (r + i) (2 ^ 32)) as [Hlt|Hge].
  - assert (E1 : (L + i) / 2 ^ 32 = q) by (symmetry; apply (Z.div_unique _ _ q (r + i)); lia).
    assert (E2 : (L + i) mod 2 ^ 32 = r + i) by (symmetry; apply (Z.mod_unique _ _ q (r + i)); lia).
    rewrite E1, E2, Z.eqb_refl. split; [apply Z.ltb_ge; lia | by left].
  - assert (E1 : (L + i) / 2 ^ 32 = q + 1) by (symmetry; apply (Z.div_unique _ _ _ (r + i - 2 ^ 32)); lia).
    assert (E2 : (L + i) mod 2 ^ 32 = r + i - 2 ^ 32) by (symmetry; apply (Z.mod_unique _ _ (q + 1) (r + i - 2 ^ 32)); lia).
    rewrite E1, E2, (proj2 (Z.eqb_neq (q + 1) q)) by lia. split; [apply Z.ltb_lt; lia | by right].
Qed.

(** ** The context of SHA-1 *)

Definition sha1_iv : word5 := (0x67452301, 0xEFCDAB89, 0x98BADCFE, 0x10325476, 0xC3D2E1F0).

Definition sha1_ok (ctx : sha1_context) (msg : list Z) : Prop :=
  total ctx = (u32 (len msg), u32 (len msg / 2 ^ 32)) /\ absorbed sha1_process sha1_iv msg (sha1_state ctx) (sha1_buffer ctx).

Lemma sha1_starts_ok buffer : length buffer = 64%nat -> sha1_ok (sha1_starts buffer) [].
Proof. intros Hb. by split_and!. Qed.

Lemma drop_nil_write (b : list Z) k l : len (drop k l) <= 0 -> write_at 0 (drop k l) b = b.
Proof. intros H. destruct (drop k l); [done | cbn in H; lia]. Qed.

Lemma blocks_count (l : list Z) : Z.to_nat (len l / 64) = (length l / 64)%nat.
Proof. rewrite <- (Nat2Z.id (length l / 64)). f_equal. by rewrite Nat2Z.inj_div. Qed.

Lemma sha1_update_ok ctx msg l : sha1_ok ctx msg -> len l < 2 ^ 31 -> sha1_ok (sha1_update ctx l) (msg ++ l).
Proof.
  intros [Ht Ha] Hl. unfold sha1_update. destruct (Z.leb_spec (len l) 0) as [H0|Hpos].
  { destruct l; [| cbn in H0; lia]. by rewrite app_nil_r. }
  rewrite Ht. cbn [fst snd]. rewrite (wrap_add_l 32). rewrite land_63 by (apply (wrap_range 32); lia). rewrite u32_mod_64, <- nat_mod_64.
  destruct (carry_32 (len msg) (len l) ltac:(lia) ltac:(lia)) as [Ec Eq].
  assert (Etot : (u32 (len msg + len l), if u32 (len msg + len l) <? len l then u32 (u32 (len msg / 2 ^ 32) + 1) else u32 (len msg / 2 ^ 32)) = (u32 (len (msg ++ l)), u32 (len (msg ++ l) / 2 ^ 32))).
  { rewrite length_app, Nat2Z.inj_add, Ec. destruct Eq as [-> | ->]; [by rewrite Z.eqb_refl |]. rewrite (proj2 (Z.eqb_neq _ _)) by lia. cbn [negb]. by rewrite (wrap_add_l 32). }
  set (r := (length msg mod 64)%nat) in *. assert (Hr : (r < 64)%nat) by (apply Nat.mod_upper_bound; lia).
  destruct (Z.eqb_spec (Z.of_nat r) 0) as [Hz|Hz]; cbn [negb andb].
  - (* the buffer is empty *)
    rewrite Etot. split; [done |]. cbn [sha1_state sha1_buffer]. rewrite blocks_count. assert (Hr0 : r = 0%nat) by lia. rewrite Hz. change (Z.to_nat 0) with 0%nat.
    pose proof (absorbed_blocks sha1_process sha1_iv msg _ _ l Ha Hr0) as H. destruct (Z.ltb_spec 0 (len (drop (64 * (length l / 64)) l))); [exact H |]. by rewrite drop_nil_write in H.
  - destruct (Z.leb_spec (64 - Z.of_nat r) (len l)) as [Hf|Hf].
    + (* a block is completed *)
      rewrite Etot. split; [done |]. cbn [sha1_state sha1_buffer]. rewrite Nat2Z.id. replace (Z.to_nat (64 - Z.of_nat r)) with (64 - r)%nat by lia. rewrite blocks_count. change (Z.to_nat 0) with 0%nat.
      set (b := write_at r (take (64 - r) l) (sha1_buffer ctx)).
      assert (Hlt : length (take (64 - r) l) = (64 - r)%nat) by (rewrite length_take; lia).
      assert (Hb : length b = 64%nat) by (apply write_at_length; [apply Ha | lia]).
      pose proof (absorbed_fill sha1_process sha1_iv msg _ _ (take (64 - r) l) b Ha ltac:(fold r; lia) Hb) as H1. fold r b in H1.
      assert (Hm : (length (msg ++ take (64 - r) l) mod 64 = 0)%nat).
      { destruct (length_split msg) as [E _]. fold r in E. destruct (split_div (length (msg ++ take (64 - r) l)) (length msg / 64 + 1) 0) as [_ E2]; [rewrite length_app; lia | lia | done]. }
      pose proof (absorbed_blocks sha1_process sha1_iv _ _ _ (drop (64 - r) l) H1 Hm) as H2. rewrite <- app_assoc, take_drop in H2.
      destruct (Z.ltb_spec 0 (len (drop (64 * (length (drop (64 - r) l) / 64)) (drop (64 - r) l)))); [exact H2 |]. by rewrite drop_nil_write in H2.
    + (* it is not *)
      rewrite Etot. split; [done |]. cbn [sha1_state sha1_buffer]. rewrite Nat2Z.id. assert (Hn : Z.to_nat (len l / 64) = 0%nat) by (rewrite Z.div_small by lia; done). rewrite Hn. cbn [sha1_blocks blocks Nat.mul]. rewrite drop_0.
      rewrite (proj2 (Z.ltb_lt 0 _)) by lia. apply absorbed_short; [done | fold r; lia].
Qed.

(** ** FIPS 180-1 *)

Definition be_pad (msg : list Z) : list Z :=
  msg ++ [0x80] ++ replicate (Z.to_nat ((55 - len msg) mod 64)) 0 ++ be_bytes 8 (8 * len msg).

(** The words of a block, up to the 80th. *)
Definition extend (w : list Z) : list Z :=
  let n := length w in
  let W k := nth (n - k) w 0 in
  w ++ [S_ (Z.lxor (Z.lxor (Z.lxor (W 3%nat) (W 8%nat)) (W 14%nat)) (W 16%nat)) 1].

Definition schedule (data : list Z) : list Z := for_n extend 64 (be_words 16 data).

Definition f_fips (t : nat) (b c d : Z) : Z :=
  if (t <? 20)%nat then Z.lor (Z.land b c) (Z.land (Z.lnot b) d)
  else if (t <? 40)%nat then Z.lxor (Z.lxor b c) d
  else if (t <? 60)%nat then Z.lor (Z.lor (Z.land b c) (Z.land b d)) (Z.land c d)
  else Z.lxor (Z.lxor b c) d.

Definition K_fips (t : nat) : Z := nth (t / 20) [0x5A827999; 0x6ED9EBA1; 0x8F1BBCDC; 0xCA62C1D6] 0.

Definition fips_step (w : list Z) (v : word5) (t : nat) : word5 :=
  let '(a, b, c, d, e) := v in
  let temp := u32 (S_ a 5 + f_fips t b c d + e + nth t w 0 + K_fips t) in
  (temp, a, S_ b 30, c, d).

Definition fips_process (h : word5) (data : list Z) : word5 := add5 h (fold_left (fips_step (schedule data)) (seq 0 80) h).

Definition sha1_fips (msg : list Z) : list Z :=
  let m := be_pad msg in be_out5 (blocks fips_process (length m / 64) sha1_iv m).

Lemma extend_length n M : length (for_n extend n M) = (length M + n)%nat.
Proof.
  induction n as [|n IH]; [cbn; lia |]. rewrite for_n_succ. unfold extend at 1. rewrite length_app, IH. cbn. lia.
Qed.

Lemma extend_prefix n M t : (t < length M + n)%nat -> nth t (extend (for_n extend n M)) 0 = nth t (for_n extend n M) 0.
Proof. intros Ht. unfold extend at 1. apply app_nth1. by rewrite extend_length. Qed.

Lemma extend_stable n m M t : (t < length M + n)%nat -> nth t (for_n extend (n + m) M) 0 = nth t (for_n extend n M) 0.
Proof.
  intros Ht. induction m as [|m IH]; [by rewrite Nat.add_0_r |]. rewrite <- plus_n_Sm, for_n_succ, extend_prefix; [done | lia].
Qed.

Lemma schedule_word n M t : length M = 16%nat -> (16 <= t < 16 + n)%nat ->
  let w k := nth k (for_n extend n M) 0 in
  w t = S_ (Z.lxor (Z.lxor (Z.lxor (w (t - 3)%nat) (w (t - 8)%nat)) (w (t - 14)%nat)) (w (t - 16)%nat)) 1.
Proof.
  intros HM Ht w. subst w. cbn beta. replace n with ((t - 15) + (n - (t - 15)))%nat by lia. rewrite !extend_stable by lia.
  replace (t - 15)%nat with (S (t - 16)) by lia. rewrite for_n_succ.
  rewrite (extend_prefix _ _ (t - 3)), (extend_prefix _ _ (t - 8)), (extend_prefix _ _ (t - 14)), (extend_prefix _ _ (t - 16)) by lia.
  set (l := for_n extend (t - 16) M). assert (Hl : length l = t) by (unfold l; rewrite extend_length; lia).
  unfold extend. rewrite app_nth2 by lia. by rewrite Hl, Nat.sub_diag.
Qed.

Lemma schedule_first n M t : (t < length M)%nat -> nth t (for_n extend n M) 0 = nth t M 0.
Proof. intros Ht. apply (extend_stable 0 n M t). lia. Qed.

Lemma be_words_length n data : length (be_words n data) = n.
Proof. revert data. induction n as [|n IH]; intros data; cbn; [done | by rewrite IH]. Qed.

(** ** The circular buffer of words *)

(** Before step [t] the buffer holds the last 16 words of the schedule. *)
Definition window (w : list Z) (t : nat) (W : list Z) : Prop :=
  length W = 16%nat /\ forall j, (Nat.max t 16 - 16 <= j < Nat.max t 16)%nat -> nth (j mod 16) W 0 = nth j w 0.

Lemma land_15 t k : (k <= t)%nat -> Z.to_nat (Z.land (Z.of_nat t - Z.of_nat k) 15) = ((t - k) mod 16)%nat.
Proof.
  intros Hk. change 15 with (Z.ones 4). rewrite Z.land_ones by lia. rewrite <- Nat2Z.inj_sub by lia. change (2 ^ 4) with (Z.of_nat 16).
  by rewrite <- Nat2Z.inj_mod, Nat2Z.id.
Qed.

Lemma land_15_0 t : Z.to_nat (Z.land (Z.of_nat t) 15) = (t mod 16)%nat.
Proof. pose proof (land_15 t 0 ltac:(lia)) as E. rewrite Nat.sub_0_r, Z.sub_0_r in E. exact E. Qed.

Lemma window_word w t W k : window w t W -> (16 <= t)%nat -> 1 <= k <= 16 ->
  word_at W (Z.land (Z.of_nat t - k) 15) = nth (t - Z.to_nat k) w 0.
Proof. intros [_ HW] Ht Hk. unfold word_at. rewrite <- (Z2Nat.id k) at 1 by lia. rewrite land_15 by lia. apply HW. lia. Qed.

Lemma mod16_differ t j : (t - 16 < j < t)%nat -> (16 <= t)%nat -> (j mod 16 <> t mod 16)%nat.
Proof.
  intros Hj Ht E. pose proof (Nat.div_mod_eq j 16). pose proof (Nat.div_mod_eq t 16). lia.
Qed.

Lemma window_R M t W : length M = 16%nat -> (16 <= t < 80)%nat -> window (for_n extend 64 M) t W -> window (for_n extend 64 M) (S t) (R W (Z.of_nat t)).
Proof.
  intros HM Ht HW. set (w := for_n extend 64 M) in *. split; [unfold R; rewrite length_insert; apply HW |]. intros j Hj.
  pose proof (land_15_0 t) as E15.
  assert (Hm : (t mod 16 < 16)%nat) by (apply Nat.mod_upper_bound; lia).
  unfold R. rewrite E15. rewrite !nth_lookup. destruct (decide (j = t)) as [->|Hne].
  - rewrite list_lookup_insert_eq by (destruct HW; lia). cbn [default]. unfold id. rewrite <- nth_lookup.
    pose proof (schedule_word 64 M t HM ltac:(lia)) as E. cbn zeta in E. fold w in E. rewrite E.
    rewrite (window_word w t W 3), (window_word w t W 8), (window_word w t W 14) by (done || lia).
    pose proof (window_word w t W 16 HW ltac:(lia) ltac:(lia)) as E16. unfold word_at in E16 |- *. change 16 with (Z.of_nat 16) in E16. rewrite land_15, Nat2Z.id in E16 by lia.
    rewrite Z.sub_0_r, E15. replace (t mod 16)%nat with ((t - 16) mod 16)%nat; [by rewrite E16 |].
    replace t with ((t - 16) + 1 * 16)%nat at 2 by lia. by rewrite Nat.Div0.mod_add.
  - rewrite list_lookup_insert_ne by (apply not_eq_sym, mod16_differ; lia). rewrite <- !nth_lookup. apply HW. lia.
Qed.

Lemma window_first M t : length M = 16%nat -> (t <= 16)%nat -> window (for_n extend 64 M) t M.
Proof.
  intros HM Ht. split; [done |]. intros j Hj. rewrite schedule_first by lia. by rewrite Nat.mod_small by lia.
Qed.

(** ** The steps *)

Lemma of_nat_ltb (t k : nat) : (Z.of_nat t <? Z.of_nat k) = (t <? k)%nat.
Proof. destruct (Z.ltb_spec (Z.of_nat t) (Z.of_nat k)), (Nat.ltb_spec t k); lia. Qed.

(** Two functions of three words that agree on every bit. *)
Ltac bitwise x y z :=
  let i := fresh in let Hi := fresh in
  apply Z.bits_inj'; intros i Hi; repeat (rewrite ?Z.lxor_spec, ?Z.lor_spec, ?Z.land_spec, ?Z.lnot_spec by done);
  destruct (Z.testbit x i), (Z.testbit y i), (Z.testbit z i); done.

Lemma F_sha_fips t x y z : F_sha (Z.of_nat t) x y z = f_fips t x y z.
Proof.
  unfold F_sha, f_fips. rewrite (of_nat_ltb t 20 : (_ <? 20) = _), (of_nat_ltb t 40 : (_ <? 40) = _), (of_nat_ltb t 60 : (_ <? 60) = _).
  destruct (t <? 20)%nat; [bitwise x y z |]. destruct (t <? 40)%nat; [done |]. destruct (t <? 60)%nat; [bitwise x y z | done].
Qed.

Lemma K_sha_fips t : (t < 80)%nat -> K_sha (Z.of_nat t) = K_fips t.
Proof. intros Ht. do 80 (destruct t as [|t]; [reflexivity |]). lia. Qed.

Lemma P_fips t x v w : (t < 80)%nat -> x = nth t w 0 -> P (Z.of_nat t) x v = fips_step w v t.
Proof.
  intros Ht ->. destruct v as [[[[a b] c] d] e]. unfold P, fips_step. rewrite F_sha_fips, K_sha_fips by done. do 5 f_equal. lia.
Qed.

Lemma sha1_step_spec M t W v : length M = 16%nat -> (t < 80)%nat -> window (for_n extend 64 M) t W ->
  exists W', sha1_step (Z.of_nat t, W, v) = (Z.of_nat (S t), W', fips_step (for_n extend 64 M) v t) /\ window (for_n extend 64 M) (S t) W'.
Proof.
  intros HM Ht HW. unfold sha1_step. rewrite Nat2Z.inj_succ. unfold Z.succ. destruct (Z.ltb_spec (Z.of_nat t) 16) as [Hlt|Hge].
  - exists W. rewrite (P_fips t _ v (for_n extend 64 M)) by (try lia; unfold word_at; rewrite land_15_0; apply HW; lia).
    split; [done |]. destruct HW as [HL HW]. split; [done |]. intros j Hj. apply HW. lia.
  - pose proof (window_R M t W HM ltac:(lia) HW) as HW'. exists (R W (Z.of_nat t)). split; [| done].
    rewrite (P_fips t _ v (for_n extend 64 M)); [done | done |]. unfold word_at. rewrite land_15_0. apply HW'. lia.
Qed.

Lemma sha1_steps_spec M v n : length M = 16%nat -> (n <= 80)%nat ->
  exists W, for_n sha1_step n (0, M, v) = (Z.of_nat n, W, fold_left (fips_step (for_n extend 64 M)) (seq 0 n) v) /\ window (for_n extend 64 M) n W.
Proof.
  intros HM. induction n as [|n IH]; intros Hn; [exists M; split; [done | apply window_first; [done | lia]] |].
  destruct (IH ltac:(lia)) as (W & E & HW). rewrite for_n_succ, E.
  destruct (sha1_step_spec M n W (fold_left (fips_step (for_n extend 64 M)) (seq 0 n) v) HM ltac:(lia) HW) as (W' & E' & HW').
  exists W'. rewrite E', seq_S, fold_left_app. done.
Qed.

Lemma sha1_process_fips s data : sha1_process s data = fips_process s data.
Proof.
  unfold sha1_process, fips_process, schedule. destruct (sha1_steps_spec (be_words 16 data) s 80) as (W & E & _); [apply be_words_length | lia |].
  by rewrite E.
Qed.

Lemma blocks_ext {St} (f g : St -> list Z -> St) n : forall s l, (forall s b, length b = 64%nat -> f s b = g s b) -> (64 * n <= length l)%nat ->
  blocks f n s l = blocks g n s l.
Proof.
  induction n as [|n IH]; intros s l H Hl; cbn [blocks]; [done |]. rewrite H by (rewrite length_take; lia). apply IH; [done | rewrite length_drop; lia].
Qed.

Lemma whole_blocks (l : list Z) : (64 * (length l / 64) <= length l)%nat.
Proof. apply Nat.Div0.mul_div_le. Qed.

(** ** The padding *)

Lemma be_bytes_cat n m v : be_bytes (n + m) v = be_bytes n (Z.shiftr v (8 * Z.of_nat m)) ++ be_bytes m v.
Proof.
  induction n as [|n IH]; [done |]. cbn [be_bytes Nat.add app]. rewrite IH, Z.shiftr_shiftr by lia. repeat f_equal. lia.
Qed.

Lemma sha1_msglen L : 0 <= L < 2 ^ 61 ->
  be_bytes 4 (Z.lor (Z.shiftr (u32 L) 29) (u32 (Z.shiftl (u32 (L / 2 ^ 32)) 3))) ++ be_bytes 4 (u32 (Z.shiftl (u32 L) 3)) = be_bytes 8 (8 * L).
Proof.
  intros HL. rewrite (be_bytes_cat 4 4). change (8 * Z.of_nat 4) with 32. f_equal.
  - f_equal. apply Z.bits_inj'. intros i Hi. rewrite Z.lor_spec, !Z.shiftr_spec, !wrap_testbit, Z.shiftl_spec by lia.
    rewrite (Z.mul_comm 8). change 8 with (2 ^ 3). rewrite <- Z.shiftl_mul_pow2, Z.shiftl_spec by lia. replace (i + 32 - 3) with (i + 29) by lia.
    destruct (Z.ltb_spec (i + 29) 32), (Z.ltb_spec i 32); try lia; cbn [andb orb].
    + rewrite (Z.testbit_neg_r _ (i - 3)), orb_false_r by lia. done.
    + rewrite wrap_testbit, (proj2 (Z.ltb_lt _ _)), <- Z.shiftr_div_pow2, Z.shiftr_spec by lia. cbn [andb]. f_equal. lia.
    + symmetry. apply (testbit_small 61); lia.
  - rewrite be_bytes_wrap by (cbn; lia). rewrite <- (be_bytes_wrap 4 32 (8 * L)) by (cbn; lia). rewrite <- (be_bytes_wrap 4 32 (Z.shiftl _ _)) by (cbn; lia).
    rewrite Z.shiftl_mul_pow2, (wrap_mul_l 32) by lia. do 2 f_equal. lia.
Qed.

Lemma sha1_padn (msg : list Z) : let last := Z.of_nat (length msg mod 64) in
  take (Z.to_nat (if last <? 56 then 56 - last else 120 - last)) sha1_padding = [0x80] ++ replicate (Z.to_nat ((55 - len msg) mod 64)) 0.
Proof.
  intros last. destruct (length_split msg) as [E Hlt].
  assert (Hp : exists p, Z.to_nat (if last <? 56 then 56 - last else 120 - last) = S p /\ (p < 64)%nat /\ (55 - len msg) mod 64 = Z.of_nat p).
  { destruct (Z.ltb_spec last 56).
    - exists (55 - length msg mod 64)%nat. split_and!; [lia | lia |]. symmetry. apply (Z.mod_unique _ _ (- Z.of_nat (length msg / 64))); lia.
    - exists (119 - length msg mod 64)%nat. split_and!; [lia | lia |]. symmetry. apply (Z.mod_unique _ _ (- Z.of_nat (length msg / 64) - 1)); lia. }
  destruct Hp as (p & -> & Hp & ->). rewrite Nat2Z.id. unfold sha1_padding. cbn [take app]. f_equal. rewrite take_replicate. f_equal. lia.
Qed.

Lemma sha1_finish_fips ctx msg : sha1_ok ctx msg -> len msg < 2 ^ 61 -> sha1_finish ctx = sha1_fips msg.
Proof.
  intros Hok HL. pose proof (proj1 Hok) as Ht. unfold sha1_finish. rewrite Ht. cbn [fst snd]. rewrite sha1_msglen by lia.
  rewrite land_63, u32_mod_64, <- nat_mod_64, sha1_padn by (apply (wrap_range 32); lia).
  set (zs := replicate _ _). assert (Hz : len zs < 64) by (unfold zs; rewrite length_replicate, Z2Nat.id by (apply Z.mod_pos_bound; lia); apply Z.mod_pos_bound; lia).
  pose proof (sha1_update_ok ctx msg ([0x80] ++ zs) Hok ltac:(rewrite length_app; cbn; lia)) as H1.
  pose proof (sha1_update_ok _ _ (be_bytes 8 (8 * len msg)) H1 ltac:(rewrite be_bytes_length; lia)) as [_ H2].
  rewrite <- !app_assoc in H2. rewrite (absorbed_whole _ _ _ _ _ H2). unfold sha1_fips, be_pad. fold zs. cbn [app].
  f_equal. apply blocks_ext; [intros s b _; apply sha1_process_fips | apply whole_blocks].
Qed.

Lemma sha1_pieces_ok pieces : forall ctx msg, sha1_ok ctx msg -> Forall (fun l => len l < 2 ^ 31) pieces ->
  sha1_ok (fold_left sha1_update pieces ctx) (msg ++ concat pieces).
Proof.
  induction pieces as [|l pieces IH]; intros ctx msg Hok Hp; cbn [fold_left concat]; [by rewrite app_nil_r |].
  apply Forall_cons_1 in Hp as [Hl Hp]. rewrite app_assoc. apply IH; [by apply sha1_update_ok | done].
Qed.

(** C16: a message given to the SHA-1 code at once or in pieces of any size
    (each shorter than 2^31 bytes, the whole shorter than 2^61) has the digest
    of FIPS 180-1: the padding to whole blocks with the number of bits, and
    for each block the 80 steps over the schedule of 80 words, which the code
    keeps in 16. *)
Theorem sha1_is_fips buffer pieces :
  length buffer = 64%nat -> Forall (fun l => len l < 2 ^ 31) pieces -> len (concat pieces) < 2 ^ 61 ->
  sha1_finish (fold_left sha1_update pieces (sha1_starts buffer)) = sha1_fips (concat pieces).
Proof.
  intros Hb Hp HL. apply sha1_finish_fips; [| done]. apply (sha1_pieces_ok pieces _ []); [by apply sha1_starts_ok | done].
Qed.

Lemma sha1_is_fips_witness :
  sha1_finish (fold_left sha1_update [str "abcdbcdecdefdefgefghfghighijhijkijkljklm"; []; str "klmnlmnomnopnopq"] (sha1_starts (replicate 64 0xA5))) =
  sha1_fips (str "abcdbcdecdefdefgefghfghighijhijkijkljklmklmnlmnomnopnopq").
Proof. apply (sha1_is_fips (replicate 64 0xA5) [str "abcdbcdecdefdefgefghfghighijhijkijkljklm"; []; str "klmnlmnomnopnopq"]); [done | by_eval | done]. Defined.

(** ** HMAC *)

(** RFC 2104 for a key of at most a block: the key is filled with zeros. *)
Definition hmac_sha1 (key input : list Z) : list Z :=
  let k := key ++ replicate (64 - length key) 0 in
  sha1_fips (map (Z.lxor 0x5C) k ++ sha1_fips (map (Z.lxor 0x36) k ++ input)).

Lemma hmac_pad c key : map (fun i => if i <? len key then Z.lxor c (nthZ key i) else c) (seqZ 0 64) =
  map (Z.lxor c) (take 64 key ++ replicate (64 - length key) 0).
Proof.
  apply list_eq. intros i. rewrite !list_lookup_fmap. destruct (lt_dec i 64) as [Hi|Hi].
  - rewrite lookup_seqZ_lt by lia. cbn [fmap option_fmap option_map]. unfold nthZ. rewrite Z.add_0_l, Nat2Z.id, nth_lookup.
    destruct (Z.ltb_spec (Z.of_nat i) (len key)) as [Hk|Hk].
    + rewrite lookup_app_l by (rewrite length_take; lia). rewrite lookup_take_lt by lia.
      destruct (lookup_lt_is_Some_2 key i ltac:(lia)) as [x Hx]. by rewrite Hx.
    + rewrite lookup_app_r by (rewrite length_take; lia). rewrite lookup_replicate_2 by (rewrite length_take; lia). cbn. by rewrite Z.lxor_0_r.
  - rewrite lookup_seqZ_ge by lia. rewrite lookup_ge_None_2; [done |]. rewrite length_app, length_take, length_replicate. lia.
Qed.

Lemma sha1_fips_length msg : length (sha1_fips msg) = 20%nat.
Proof. unfold sha1_fips. destruct (blocks _ _ _ _) as [[[[a b] c] d] e]. unfold be_out5. by rewrite !length_app, !be_bytes_length. Qed.

Lemma sha1_two buffer a b : length buffer = 64%nat -> len a < 2 ^ 31 -> len b < 2 ^ 31 ->
  sha1_finish (sha1_update (sha1_update (sha1_starts buffer) a) b) = sha1_fips (a ++ b).
Proof.
  intros Hb Ha Hl. apply sha1_finish_fips; [| rewrite length_app; lia].
  apply sha1_update_ok; [| done]. apply (sha1_update_ok _ []); [by apply sha1_starts_ok | done].
Qed.

(** The bytes of the key after the 64th do not count: RFC 2104 would take the
    digest of such a key. *)
Lemma sha1_hmac_spec buffer buffer' key input : length buffer = 64%nat -> length buffer' = 64%nat -> len input < 2 ^ 31 ->
  sha1_hmac buffer buffer' key input = hmac_sha1 (take 64 key) input.
Proof.
  intros Hb Hb' Hl. assert (Ek : replicate (64 - length (take 64 key)) 0 = replicate (64 - length key) 0) by (f_equal; rewrite length_take; lia).
  unfold sha1_hmac, hmac_sha1. rewrite Ek, !hmac_pad, (sha1_two buffer), (sha1_two buffer'); rewrite ?sha1_fips_length, ?length_map, ?length_app, ?length_take, ?length_replicate; (done || lia).
Qed.

(** Two keys that differ after the 64th byte give the same code. *)
Lemma sha1_hmac_long_key buffer buffer' k1 k2 input :
  length buffer = 64%nat -> length buffer' = 64%nat -> len input < 2 ^ 31 -> take 64 k1 = take 64 k2 ->
  sha1_hmac buffer buffer' k1 input = sha1_hmac buffer buffer' k2 input.
Proof. intros Hb Hb' Hl E. by rewrite !sha1_hmac_spec, E. Qed.

(** ** RFC 1321 *)

(** The sine of [i] radians with 256 binary digits after the point, by its
    series: 200 terms are enough up to 64 radians. *)
Definition sin_step (x : Z) (s : Z * Z * Z) : Z * Z * Z :=
  let '(k, term, sum) := s in (k + 2, - (term * (x * x) / ((k + 1) * (k + 2))), sum + term).

Definition sin_256 (x : Z) : Z := let '(_, _, sum) := for_n (sin_step x) 200 (1, Z.shiftl x 256, 0) in sum.

(** [T[i]]: the integer part of 2^32 times the absolute value of [sin (i)]. *)
Definition md5_T (i : nat) : Z := Z.shiftr (Z.abs (sin_256 (Z.of_nat i))) 224.

Definition md5_k (i : nat) : nat := (nth (i / 16) [i; 5 * i + 1; 3 * i + 5; 7 * i] 0 mod 16)%nat.

Definition md5_s (i : nat) : Z := nth (i mod 4) (nth (i / 16) [[7; 12; 17; 22]; [5; 9; 14; 20]; [4; 11; 16; 23]; [6; 10; 15; 21]] []) 0.

Definition not32 (x : Z) : Z := u32 (Z.lnot x).

Definition md5_FGHI (i : nat) (x y z : Z) : Z :=
  match (i / 16)%nat with
  | 0%nat => Z.lor (Z.land x y) (Z.land (Z.lnot x) z)
  | 1%nat => Z.lor (Z.land x z) (Z.land y (Z.lnot z))
  | 2%nat => Z.lxor (Z.lxor x y) z
  | _ => Z.lxor y (Z.lor x (not32 z))
  end.

Fixpoint le_words (n : nat) (data : list Z) : list Z :=
  match n with
  | O => []
  | S n => be_val (rev (take 4 data)) :: le_words n (drop 4 data)
  end.

Definition rfc_step (X : list Z) (v : word4) (i : nat) : word4 :=
  let '(a, b, c, d) := v in
  let t := u32 (a + md5_FGHI i b c d + nth (md5_k i) X 0 + md5_T (S i)) in
  (d, u32 (b + S_ t (md5_s i)), b, c).

Definition rfc_process (h : word4) (data : list Z) : word4 := add4 h (fold_left (rfc_step (le_words 16 data)) (seq 0 64) h).

Definition le_pad (msg : list Z) : list Z :=
  msg ++ [0x80] ++ replicate (Z.to_nat ((55 - len msg) mod 64)) 0 ++ rev (be_bytes 8 (8 * len msg)).

Definition md5_iv : word4 := (0x67452301, 0xefcdab89, 0x98badcfe, 0x10325476).

Definition md5_rfc (msg : list Z) : list Z :=
  let m := le_pad msg in
  let '(a, b, c, d) := blocks rfc_process (length m / 64) md5_iv m in
  rev (be_bytes 4 a) ++ rev (be_bytes 4 b) ++ rev (be_bytes 4 c) ++ rev (be_bytes 4 d).

(** The calls of the source are the steps of the standard, the constants and
    all. *)
Lemma md5_table : md5_steps = map (fun i => (nth (i / 16) [F1; F2; F3; F4] F1, md5_k i, md5_T (S i), md5_s i)) (seq 0 64).
Proof. vm_compute. reflexivity. Qed.

Lemma md5_f_rfc i x y z : (i < 64)%nat -> md5_f (nth (i / 16) [F1; F2; F3; F4] F1) x y z = md5_FGHI i x y z.
Proof.
  intros Hi. unfold md5_FGHI, not32. assert (Hq : (i / 16 < 4)%nat) by (apply Nat.Div0.div_lt_upper_bound; lia).
  destruct (i / 16)%nat as [|[|[|[|q]]]]; [| | | | lia]; cbn [nth md5_f]; [bitwise x y z | bitwise x y z | done | done].
Qed.

Lemma MD5STEP_rfc X v i : (i < 64)%nat -> MD5STEP X v (nth (i / 16) [F1; F2; F3; F4] F1, md5_k i, md5_T (S i), md5_s i) = rfc_step X v i.
Proof.
  intros Hi. destruct v as [[[a b] c] d]. unfold MD5STEP, rfc_step. rewrite md5_f_rfc, (wrap_add_r 32), Z.add_assoc by done. unfold S_. do 4 f_equal. apply Z.add_comm.
Qed.

Lemma md5_steps_rfc X v : fold_left (MD5STEP X) md5_steps v = fold_left (rfc_step X) (seq 0 64) v.
Proof.
  rewrite md5_table. assert (H : Forall (fun i => (i < 64)%nat) (seq 0 64)) by (apply Forall_forall; intros i Hi; apply elem_of_seq in Hi; lia).
  revert v. induction H as [|i l Hi _ IH]; intros v; cbn [map fold_left]; [done |]. by rewrite MD5STEP_rfc, IH.
Qed.

Lemma reversed_words n : forall b, (4 * n <= length b)%nat -> be_words n (byteReverse n b) = le_words n b.
Proof.
  induction n as [|n IH]; intros b Hb; cbn [be_words byteReverse le_words]; [done |].
  assert (H4 : length (rev (take 4 b)) = 4%nat) by (rewrite length_rev, length_take; lia).
  rewrite take_app_length', drop_app_length' by done. rewrite IH; [done | rewrite length_drop; lia].
Qed.

Lemma byteReverse_length n : forall b, length (byteReverse n b) = length b.
Proof.
  induction n as [|n IH]; intros b; cbn [byteReverse]; [done |]. rewrite length_app, length_rev, IH, <- length_app, take_drop. done.
Qed.

Lemma byteReverse_app n : forall m x y, length x = (4 * n)%nat -> byteReverse (n + m) (x ++ y) = byteReverse n x ++ byteReverse m y.
Proof.
  induction n as [|n IH]; intros m x y Hx; cbn [byteReverse Nat.add]; [destruct x; [done | cbn in Hx; lia] |].
  rewrite take_app_le, drop_app_le by lia. rewrite IH by (rewrite length_drop; lia). apply app_assoc.
Qed.

Definition md5_process (s : word4) (b : list Z) : word4 := MD5Transform s (be_words 16 (byteReverse 16 b)).

Lemma md5_process_rfc s b : length b = 64%nat -> md5_process s b = rfc_process s b.
Proof. intros Hb. unfold md5_process, rfc_process, MD5Transform. rewrite reversed_words by lia. by rewrite md5_steps_rfc. Qed.

Lemma md5_out_rfc a b c d : md5_out (a, b, c, d) = rev (be_bytes 4 a) ++ rev (be_bytes 4 b) ++ rev (be_bytes 4 c) ++ rev (be_bytes 4 d).
Proof. reflexivity. Qed.

(** ** The context of MD5 *)

Definition md5_ok (ctx : MD5Context) (msg : list Z) : Prop :=
  bits ctx = (u32 (8 * len msg), u32 (8 * len msg / 2 ^ 32)) /\ absorbed md5_process md5_iv msg (md5_buf ctx) (md5_in ctx).

Lemma MD5Init_ok buffer : length buffer = 64%nat -> md5_ok (MD5Init buffer) [].
Proof. intros Hb. by split_and!. Qed.

Lemma md5_blocks_spec n : forall s b l, length b = 64%nat -> (64 * n <= length l)%nat ->
  exists b', blocks md5_block n (s, b) l = (blocks md5_process n s l, b') /\ length b' = 64%nat.
Proof.
  induction n as [|n IH]; intros s b l Hb Hl; cbn [blocks]; [by exists b |]. unfold md5_block at 2. cbn [fst].
  apply IH; [rewrite byteReverse_length, length_take | rewrite length_drop]; lia.
Qed.

Lemma absorbed_other {St} (process : St -> list Z -> St) s0 msg s b b' :
  absorbed process s0 msg s b -> (length msg mod 64 = 0)%nat -> length b' = 64%nat -> absorbed process s0 msg s b'.
Proof. intros (Hs & Hb & Hr) H0 Hb'. split_and!; [done | done |]. by rewrite <- Hr, H0, !take_0. Qed.

Lemma bits_count (msg : list Z) : Z.land (Z.shiftr (u32 (8 * len msg)) 3) 0x3f = Z.of_nat (length msg mod 64).
Proof.
  rewrite nat_mod_64. rewrite land_63 by (apply Z.shiftr_nonneg, (wrap_range 32); lia). rewrite Z.shiftr_div_pow2 by lia. unfold wrap.
  Z.div_mod_to_equations. lia.
Qed.

Lemma bits_carry L l : 0 <= L -> 0 <= l < 2 ^ 32 ->
  u32 (u32 (8 * L) + u32 (Z.shiftl l 3)) = u32 (8 * (L + l)) /\
  u32 ((if u32 (u32 (8 * L) + u32 (Z.shiftl l 3)) <? u32 (8 * L) then u32 (u32 (8 * L / 2 ^ 32) + 1) else u32 (8 * L / 2 ^ 32)) + Z.shiftr l 29) =
  u32 (8 * (L + l) / 2 ^ 32).
Proof.
  intros HL Hl. rewrite Z.shiftl_mul_pow2, Z.shiftr_div_pow2 by lia. assert (E0 : u32 (u32 (8 * L) + u32 (l * 2 ^ 3)) = u32 (8 * (L + l))).
  { rewrite (wrap_add_l 32), (wrap_add_r 32). f_equal. lia. }
  split; [done |]. rewrite E0. assert (E : 8 * (L + l) / 2 ^ 32 = (if u32 (8 * (L + l)) <? u32 (8 * L) then 8 * L / 2 ^ 32 + 1 else 8 * L / 2 ^ 32) + l / 2 ^ 29).
  { unfold wrap. destruct (Z.ltb_spec ((8 * (L + l)) mod 2 ^ 32) ((8 * L) mod 2 ^ 32)); Z.div_mod_to_equations; lia. }
  rewrite E. destruct (_ <? _); [by rewrite (wrap_add_l 32), <- !Z.add_assoc, (wrap_add_l 32) | by rewrite (wrap_add_l 32)].
Qed.

Lemma MD5Update_ok ctx msg l : md5_ok ctx msg -> len l < 2 ^ 31 -> md5_ok (MD5Update ctx l) (msg ++ l).
Proof.
  intros [Ht Ha] Hl. destruct (bits_carry (len msg) (len l) ltac:(lia) ltac:(lia)) as [Eb0 Eb1].
  unfold MD5Update. rewrite Ht. cbn [fst snd]. rewrite Eb1, Eb0, bits_count.
  assert (Etot : len msg + len l = len (msg ++ l)) by (rewrite length_app; lia). rewrite !Etot. clear Eb0 Eb1.
  set (r := (length msg mod 64)%nat) in *. assert (Hr : (r < 64)%nat) by (apply Nat.mod_upper_bound; lia).
  destruct (Z.eqb_spec (Z.of_nat r) 0) as [Hz|Hz]; cbn [negb andb].
  - rewrite blocks_count. destruct (md5_blocks_spec (length l / 64) (md5_buf ctx) (md5_in ctx) l) as (b' & Eb & Hb'); [apply Ha | apply whole_blocks |].
    rewrite Eb. split; [done |]. apply absorbed_blocks; [| unfold r in Hz; lia]. apply (absorbed_other _ _ _ _ (md5_in ctx)); [done | unfold r in Hz; lia | done].
  - rewrite Nat2Z.id. replace (Z.to_nat (64 - Z.of_nat r)) with (64 - r)%nat by lia.
    destruct (Z.ltb_spec (len l) (64 - Z.of_nat r)) as [Hf|Hf]; [split; [done | apply absorbed_short; [done | fold r; lia]] |].
    rewrite blocks_count. unfold md5_block at 2. cbn [fst]. set (b := write_at r (take (64 - r) l) (md5_in ctx)).
    assert (Hlt : length (take (64 - r) l) = (64 - r)%nat) by (rewrite length_take; lia).
    assert (Hb : length (byteReverse 16 b) = 64%nat) by (rewrite byteReverse_length; apply write_at_length; [apply Ha | lia]).
    pose proof (absorbed_fill md5_process md5_iv msg _ _ (take (64 - r) l) (byteReverse 16 b) Ha ltac:(fold r; lia) Hb) as H1. fold r b in H1.
    assert (Hm : (length (msg ++ take (64 - r) l) mod 64 = 0)%nat).
    { destruct (length_split msg) as [E _]. fold r in E. destruct (split_div (length (msg ++ take (64 - r) l)) (length msg / 64 + 1) 0) as [_ E2]; [rewrite length_app; lia | lia | done]. }
    destruct (md5_blocks_spec (length (drop (64 - r) l) / 64) (md5_process (md5_buf ctx) b) (byteReverse 16 b) (drop (64 - r) l) Hb (whole_blocks _)) as (b' & Eb & Hb').
    unfold md5_process in Eb at 1. rewrite Eb. split; [done |].
    pose proof (absorbed_blocks md5_process md5_iv _ _ _ (drop (64 - r) l) (absorbed_other _ _ _ _ _ b' H1 Hm Hb') Hm) as H2.
    rewrite <- app_assoc, take_drop in H2. exact H2.
Qed.

(** ** The last blocks of MD5 *)

Lemma write_at_app i a b l : length l = 64%nat -> (i + length a + length b <= 64)%nat -> write_at (i + length a) b (write_at i a l) = write_at i (a ++ b) l.
Proof.
  intros Hl Hi. unfold write_at at 1. rewrite write_at_take by (done || lia). unfold write_at. rewrite !length_app, <- !app_assoc. do 3 f_equal.
  rewrite !drop_app_ge by (rewrite ?length_take; lia). rewrite drop_drop, length_take. f_equal. lia.
Qed.

(** The number of bits after 56 bytes. *)
Lemma md5_length_words b L : length b = 64%nat ->
  byteReverse 16 (write_at 56 (rev (be_bytes 8 L)) b) = write_at 56 (be_bytes 4 L ++ be_bytes 4 (Z.shiftr L 32)) (byteReverse 14 b).
Proof.
  intros Hb. unfold write_at. rewrite length_rev, length_app, !be_bytes_length, !drop_ge, !app_nil_r by (rewrite ?byteReverse_length; lia).
  rewrite (byteReverse_app 14 2) by (rewrite length_take; lia).
  assert (E2 : byteReverse 2 (rev (be_bytes 8 L)) = be_bytes 4 L ++ be_bytes 4 (Z.shiftr L 32)) by reflexivity. rewrite E2. f_equal.
  rewrite <- (take_drop 56 b) at 2. change 14%nat with (14 + 0)%nat. rewrite byteReverse_app by (rewrite length_take; lia).
  rewrite take_app_length'; [done |]. rewrite byteReverse_length, length_take. lia.
Qed.

(** The bytes before the number of bits fill the last block up to 56. *)
Lemma md5_last s0 m s b L : absorbed md5_process s0 m s b -> (length m mod 64 = 56)%nat ->
  let m' := m ++ rev (be_bytes 8 L) in
  MD5Transform s (be_words 16 (write_at 56 (be_bytes 4 L ++ be_bytes 4 (Z.shiftr L 32)) (byteReverse 14 b))) = blocks md5_process (length m' / 64) s0 m'.
Proof.
  intros Ha Hm m'. pose proof (absorbed_fill md5_process s0 m s b (rev (be_bytes 8 L)) b Ha) as H. rewrite Hm in H.
  destruct H as [H _]; [by rewrite length_rev, be_bytes_length | apply Ha |]. fold m' in H. rewrite <- H. unfold md5_process.
  by rewrite md5_length_words by apply Ha.
Qed.

Ltac len_lia := rewrite ?length_app; cbn [length] in *; lia.

Lemma MD5Final_blocks ctx msg : md5_ok ctx msg -> len msg < 2 ^ 61 ->
  MD5Final ctx = md5_out (blocks md5_process (length (le_pad msg) / 64) md5_iv (le_pad msg)).
Proof.
  intros [Ht Ha] HL. unfold MD5Final. cbv zeta. rewrite Ht. cbn [fst snd]. rewrite bits_count. rewrite !be_bytes_wrap by (cbn; lia).
  rewrite <- Z.shiftr_div_pow2 by lia. destruct (length_split msg) as [E Hlt]. set (r := (length msg mod 64)%nat) in *. rewrite Nat2Z.id.
  replace (Z.to_nat (Z.of_nat r + 1)) with (r + length [0x80%Z])%nat by (cbn; lia). assert (Hb : length (md5_in ctx) = 64%nat) by apply Ha.
  unfold le_pad. rewrite (app_assoc [0x80%Z]), (app_assoc msg). destruct (Z.ltb_spec (64 - 1 - Z.of_nat r) 8) as [Hf|Hf].
  - set (zs := replicate (Z.to_nat (64 - 1 - Z.of_nat r)) 0). assert (Hz : length zs = (63 - r)%nat) by (unfold zs; rewrite length_replicate; lia).
    assert (Ez : replicate (Z.to_nat ((55 - len msg) mod 64)) 0 = zs ++ replicate 56 0).
    { unfold zs. rewrite <- replicate_add. f_equal. assert (Em : (55 - len msg) mod 64 = 119 - Z.of_nat r); [| lia].
      symmetry. apply (Z.mod_unique _ _ (- Z.of_nat (length msg / 64) - 1)); lia. }
    clearbody zs. rewrite write_at_app by len_lia. unfold md5_block. cbn [fst]. set (b1 := write_at r ([0x80%Z] ++ zs) (md5_in ctx)).
    assert (Hb1 : length (byteReverse 16 b1) = 64%nat) by (rewrite byteReverse_length; apply write_at_length; [done | len_lia]).
    pose proof (absorbed_fill md5_process md5_iv msg _ _ ([0x80%Z] ++ zs) (byteReverse 16 b1) Ha ltac:(fold r; len_lia) Hb1) as H1. fold r b1 in H1.
    assert (Hm : (length (msg ++ [0x80%Z] ++ zs) mod 64 = 0)%nat).
    { destruct (split_div (length (msg ++ [0x80%Z] ++ zs)) (length msg / 64 + 1) 0) as [_ E2]; [len_lia | lia | done]. }
    pose proof (absorbed_short md5_process md5_iv _ _ _ (replicate 56 0) H1 ltac:(rewrite Hm, length_replicate; lia)) as H2. rewrite Hm in H2.
    rewrite Ez, (app_assoc [0x80%Z]), (app_assoc msg). f_equal. apply (md5_last md5_iv _ _ _ (8 * len msg) H2).
    destruct (split_div (length ((msg ++ [0x80%Z] ++ zs) ++ replicate 56 0%Z)) (length msg / 64 + 1) 56) as [_ E2]; [| lia | done].
    rewrite !length_app, length_replicate. len_lia.
  - set (zs := replicate (Z.to_nat (64 - 1 - Z.of_nat r - 8)) 0). assert (Hz : length zs = (55 - r)%nat) by (unfold zs; rewrite length_replicate; lia).
    assert (Ez : replicate (Z.to_nat ((55 - len msg) mod 64)) 0 = zs).
    { unfold zs. f_equal. assert (Em : (55 - len msg) mod 64 = 55 - Z.of_nat r); [| lia]. symmetry. apply (Z.mod_unique _ _ (- Z.of_nat (length msg / 64))); lia. }
    clearbody zs. rewrite write_at_app by len_lia.
    rewrite Ez. f_equal. pose proof (absorbed_short md5_process md5_iv msg _ _ ([0x80%Z] ++ zs) Ha ltac:(fold r; len_lia)) as H2.
    apply (md5_last md5_iv _ _ _ (8 * len msg) H2).
    destruct (split_div (length (msg ++ [0x80%Z] ++ zs)) (length msg / 64) 56) as [_ E2]; [len_lia | lia | done].
Qed.

Lemma md5_blocks_rfc m : blocks md5_process (length m / 64) md5_iv m = blocks rfc_process (length m / 64) md5_iv m.
Proof. apply blocks_ext; [apply md5_process_rfc | apply whole_blocks]. Qed.

Lemma MD5Final_rfc ctx msg : md5_ok ctx msg -> len msg < 2 ^ 61 -> MD5Final ctx = md5_rfc msg.
Proof. intros Hok HL. rewrite (MD5Final_blocks ctx msg Hok HL), md5_blocks_rfc. unfold md5_rfc. destruct (blocks _ _ _ _) as [[[a b] c] d]. apply md5_out_rfc. Qed.

Lemma md5_pieces_ok pieces : forall ctx msg, md5_ok ctx msg -> Forall (fun l => len l < 2 ^ 31) pieces ->
  md5_ok (fold_left MD5Update pieces ctx) (msg ++ concat pieces).
Proof.
  induction pieces as [|l pieces IH]; intros ctx msg Hok Hp; cbn [fold_left concat]; [by rewrite app_nil_r |].
  apply Forall_cons_1 in Hp as [Hl Hp]. rewrite app_assoc. apply IH; [by apply MD5Update_ok | done].
Qed.

(** C17: a message given to the MD5 code at once or in pieces of any size has
    the digest of RFC 1321: the table of the 64 steps is the one the standard
    makes from the sine, and the bytes are reversed in place, which the
    big-endian machine needs, so that the words are read low byte first. *)
Theorem md5_is_rfc buffer pieces :
  length buffer = 64%nat -> Forall (fun l => len l < 2 ^ 31) pieces -> len (concat pieces) < 2 ^ 61 ->
  MD5Final (fold_left MD5Update pieces (MD5Init buffer)) = md5_rfc (concat pieces).
Proof.
  intros Hb Hp HL. apply MD5Final_rfc; [| done]. apply (md5_pieces_ok pieces _ []); [by apply MD5Init_ok | done].
Qed.

Lemma md5_is_rfc_witness :
  MD5Final (fold_left MD5Update [str "12345678901234567890123456789012345678901234567890123456789"; str "012345678901234567890"; []] (MD5Init (replicate 64 0xA5))) =
  md5_rfc (str "12345678901234567890123456789012345678901234567890123456789012345678901234567890").
Proof.
  apply (md5_is_rfc (replicate 64 0xA5) [str "12345678901234567890123456789012345678901234567890123456789"; str "012345678901234567890"; []]); [done | by_eval | done].
Defined.

(** A whole input in one call, as the image code gives it. *)
Lemma sha1_csum_spec buffer input : length buffer = 64%nat -> len input < 2 ^ 31 -> sha1_csum buffer input = sha1_fips input.
Proof. intros Hb Hl. apply sha1_finish_fips; [| lia]. apply (sha1_update_ok _ []); [by apply sha1_starts_ok | done]. Qed.

Lemma md5_spec buffer input : length buffer = 64%nat -> len input < 2 ^ 31 -> md5 buffer input = md5_rfc input.
Proof. intros Hb Hl. apply MD5Final_rfc; [| lia]. apply (MD5Update_ok _ []); [by apply MD5Init_ok | done]. Qed.
