(* ===== verification/Fit.v ===== *)
(** * FIT images: the second half of common/image.c, include/image.h

    An image in the flattened image tree format is a device tree with a node
    for each component, which holds its data, its type and its digests, and
    with configurations that name the components to boot.  The blob lies in
    memory at [fit]; a node is an offset and an error a negative number, as in
    [Fdt]; an address 0 is [NULL]; [stack] is what the stack holds where a
    digest has its buffer.  What the code prints is not modelled.

    The theorems: on a blob that encodes a tree, a configuration names the
    kernel that the tree gives it; the digests of a component are accepted
    exactly when each of its hash nodes has the CRC-32, the SHA-1 or the MD5
    of its data; a component with one wrong byte that has a CRC-32 is
    refused. *)

From S2P Require Import Prelude Memory Strings Vsprintf Crc Image Fdt Hash.

Local Open Scope Z_scope.

(** ** The tables of names *)

Definition IH_OS_INVALID : Z := 0.
Definition IH_OS_NETBSD : Z := 2.
Definition IH_OS_U_BOOT : Z := 17.
Definition IH_OS_RTEMS : Z := 18.
Definition IH_TYPE_KERNEL : Z := 2.
Definition IH_TYPE_MULTI : Z := 4.

Record table_entry_t := mk_entry { id_ : Z; sname : option (list Z); lname : list Z }.

Definition entry (i : Z) (s l : String.string) : table_entry_t := mk_entry i (Some (str s)) (str l).
Arguments entry i (s l)%_string_scope.

Definition uimage_arch : list table_entry_t :=
  [mk_entry 0 None (str "Invalid ARCH"); entry 1 "alpha" "Alpha"; entry 2 "arm" "ARM"; entry 3 "x86" "Intel x86";
   entry 4 "ia64" "IA64"; entry 12 "m68k" "M68K"; entry 14 "microblaze" "MicroBlaze"; entry 5 "mips" "MIPS";
   entry 6 "mips64" "MIPS 64 Bit"; entry 13 "nios" "NIOS"; entry 15 "nios2" "NIOS II"; entry 7 "powerpc" "PowerPC";
   entry 7 "ppc" "PowerPC"; entry 8 "s390" "IBM S390"; entry 9 "sh" "SuperH"; entry 10 "sparc" "SPARC";
   entry 11 "sparc64" "SPARC 64 Bit"; entry 16 "blackfin" "Blackfin"; entry 17 "avr32" "AVR32"; entry IH_ARCH_OR1K "or1k" "OR1K"].

Definition uimage_os : list table_entry_t :=
  [mk_entry IH_OS_INVALID None (str "Invalid OS"); entry IH_OS_LINUX "linux" "Linux"; entry IH_OS_NETBSD "netbsd" "NetBSD";
   entry IH_OS_RTEMS "rtems" "RTEMS"; entry IH_OS_U_BOOT "u-boot" "U-Boot"].

Definition uimage_type : list table_entry_t :=
  [mk_entry 0 None (str "Invalid Image"); entry 7 "filesystem" "Filesystem Image"; entry 5 "firmware" "Firmware";
   entry IH_TYPE_KERNEL "kernel" "Kernel Image"; entry IH_TYPE_MULTI "multi" "Multi-File Image";
   entry IH_TYPE_RAMDISK "ramdisk" "RAMDisk Image"; entry 6 "script" "Script"; entry 1 "standalone" "Standalone Program";
   entry 8 "flat_dt" "Flat Device Tree"].

Definition uimage_comp : list table_entry_t :=
  [entry IH_COMP_NONE "none" "uncompressed"; entry 2 "bzip2" "bzip2 compressed"; entry IH_COMP_GZIP "gzip" "gzip compressed";
   entry 3 "lzma" "lzma compressed"].

(** The list ends where the table has its entry of id -1. *)
Definition get_table_entry_id (table : list table_entry_t) (name : list Z) : Z :=
  match List.find (fun t => match sname t with Some s => bool_decide (s = name) | None => false end) table with
  | Some t => id_ t
  | None => -1
  end.

Definition get_table_entry_name (table : list table_entry_t) (msg : list Z) (i : Z) : list Z :=
  match List.find (fun t => id_ t =? i) table with
  | Some t => lname t
  | None => msg
  end.

Definition genimg_get_os_id (name : list Z) : Z := get_table_entry_id uimage_os name.
Definition genimg_get_arch_id (name : list Z) : Z := get_table_entry_id uimage_arch name.
Definition genimg_get_type_id (name : list Z) : Z := get_table_entry_id uimage_type name.
Definition genimg_get_comp_id (name : list Z) : Z := get_table_entry_id uimage_comp name.

(** ** Naming a part of an image *)

(** [*addr] and [*name], when the separator is there; the name is what stands
    behind it. *)
Definition fit_parse_spec (spec : list Z) (sepc addr_curr : Z) : option (Z * list Z) :=
  match drop_while (fun c => negb (c =? sepc)) spec with
  | [] => None
  | _ :: name => Some (if 0 <? len spec - len name - 1 then (simple_strtoul spec 16).1 else addr_curr, name)
  end.

Definition fit_parse_conf (spec : list Z) (addr_curr : Z) : option (Z * list Z) := fit_parse_spec spec 35 (* '#' *) addr_curr.
Definition fit_parse_subimage (spec : list Z) (addr_curr : Z) : option (Z * list Z) := fit_parse_spec spec 58 (* ':' *) addr_curr.

Definition FIT_IMAGES_PATH : list Z := str "/images".
Definition FIT_CONFS_PATH : list Z := str "/configurations".
Definition FIT_HASH_NODENAME : list Z := str "hash".
Definition FIT_ALGO_PROP : list Z := str "algo".
Definition FIT_VALUE_PROP : list Z := str "value".
Definition FIT_DATA_PROP : list Z := str "data".
Definition FIT_TIMESTAMP_PROP : list Z := str "timestamp".
Definition FIT_DESC_PROP : list Z := str "description".
Definition FIT_ARCH_PROP : list Z := str "arch".
Definition FIT_TYPE_PROP : list Z := str "type".
Definition FIT_OS_PROP : list Z := str "os".
Definition FIT_COMP_PROP : list Z := str "compression".
Definition FIT_ENTRY_PROP : list Z := str "entry".
Definition FIT_LOAD_PROP : list Z := str "load".
Definition FIT_KERNEL_PROP : list Z := str "kernel".
Definition FIT_RAMDISK_PROP : list Z := str "ramdisk".
Definition FIT_FDT_PROP : list Z := str "fdt".
Definition FIT_DEFAULT_PROP : list Z := str "default".

Section fit.
Context (fuel : nat) (stack : list Z) (m : mem) (fit : Z).

(** A pointer to a string, as the string that [strcmp] and the search for a
    node read. *)
Definition string_at (p : Z) : option (list Z) :=
  n ← strlen fuel m p;
  Some (load m p (Z.to_nat n)).

Definition fit_get_size : Z := fdt_totalsize m fit.
Definition fit_get_end : Z := u32 (fit + fdt_totalsize m fit).
Definition fit_get_name (noffset : Z) : option Z := fdt_get_name fuel m fit noffset.

(** ** The properties of a node *)

(** [*desc], or none for -1. *)
Definition fit_get_desc (noffset : Z) : option (option Z) :=
  '(desc, _) ← fdt_getprop fuel m fit noffset FIT_DESC_PROP;
  Some (if desc =? 0 then None else Some desc).

(** The code, and [*timestamp] with 0. *)
Definition fit_get_timestamp (noffset : Z) : option (Z * Z) :=
  '(data, n) ← fdt_getprop fuel m fit noffset FIT_TIMESTAMP_PROP;
  Some (if data =? 0 then (-1, 0) else if negb (n =? 4) then (-2, 0) else (0, get32 m data)).

Definition fit_image_get_node (image_uname : list Z) : option Z :=
  images_noffset ← fdt_path_offset fuel m fit FIT_IMAGES_PATH;
  if images_noffset <? 0 then Some images_noffset else fdt_subnode_offset fuel m fit images_noffset image_uname.

(** The code and the byte of a name in a table: -1 for a property that is not
    there and for a name that the table does not have, the code 0 for the
    second. *)
Definition fit_image_get_id (prop : list Z) (get_id : list Z -> Z) (noffset : Z) : option (Z * Z) :=
  '(data, _) ← fdt_getprop fuel m fit noffset prop;
  if data =? 0 then Some (-1, u8 (-1))
  else
    name ← string_at data;
    Some (0, u8 (get_id name)).

Definition fit_image_get_os (noffset : Z) : option (Z * Z) := fit_image_get_id FIT_OS_PROP genimg_get_os_id noffset.
Definition fit_image_get_arch (noffset : Z) : option (Z * Z) := fit_image_get_id FIT_ARCH_PROP genimg_get_arch_id noffset.
Definition fit_image_get_type (noffset : Z) : option (Z * Z) := fit_image_get_id FIT_TYPE_PROP genimg_get_type_id noffset.
Definition fit_image_get_comp (noffset : Z) : option (Z * Z) := fit_image_get_id FIT_COMP_PROP genimg_get_comp_id noffset.

(** [*load] and [*entry], or none for -1. *)
Definition fit_image_get_load (noffset : Z) : option (option Z) :=
  '(data, _) ← fdt_getprop fuel m fit noffset FIT_LOAD_PROP;
  Some (if data =? 0 then None else Some (get32 m data)).

Definition fit_image_get_entry (noffset : Z) : option (option Z) :=
  '(data, _) ← fdt_getprop fuel m fit noffset FIT_ENTRY_PROP;
  Some (if data =? 0 then None else Some (get32 m data)).

(** [*data] and [*size], or none for -1. *)
Definition fit_image_get_data (noffset : Z) : option (option (Z * Z)) :=
  '(data, n) ← fdt_getprop fuel m fit noffset FIT_DATA_PROP;
  Some (if data =? 0 then None else Some (data, n)).

Definition fit_image_hash_get_algo (noffset : Z) : option (option Z) :=
  '(algo, _) ← fdt_getprop fuel m fit noffset FIT_ALGO_PROP;
  Some (if algo =? 0 then None else Some algo).

Definition fit_image_hash_get_value (noffset : Z) : option (option (Z * Z)) :=
  '(value, n) ← fdt_getprop fuel m fit noffset FIT_VALUE_PROP;
  Some (if value =? 0 then None else Some (value, n)).

(** ** Digests *)

Definition CHUNKSZ_CRC32 : Z := 64 * 1024.
Definition CHUNKSZ_SHA1 : Z := 64 * 1024.
Definition CHUNKSZ_MD5 : Z := 64 * 1024.

(** [value], [*value_len] bytes long, or none for -1. *)
Definition calculate_hash (data data_len : Z) (algo : list Z) : option (list Z) :=
  let bytes := load m data (Z.to_nat data_len) in
  if bool_decide (algo = str "crc32") then Some (be_bytes 4 (crc32_wd 0 bytes data_len CHUNKSZ_CRC32))
  else if bool_decide (algo = str "sha1") then Some (sha1_csum_wd stack bytes CHUNKSZ_SHA1)
  else if bool_decide (algo = str "md5") then Some (md5_wd stack bytes CHUNKSZ_MD5)
  else None.

(** One node below a component: false for [goto error], none to go on. *)
Definition check_hash_node (data size noffset ndepth : Z) : option (option bool) :=
  if negb (ndepth =? 1) then Some None
  else
    name ← fit_get_name noffset;
    if negb (bool_decide (load m name (length FIT_HASH_NODENAME) = FIT_HASH_NODENAME)) then Some None
    else
      algo ← fit_image_hash_get_algo noffset;
      match algo with
      | None => Some (Some false)
      | Some algo =>
          fit_value ← fit_image_hash_get_value noffset;
          match fit_value with
          | None => Some (Some false)
          | Some (fit_value, fit_value_len) =>
              algo ← string_at algo;
              Some (match calculate_hash data size algo with
                    | None => Some false
                    | Some value =>
                        if negb (len value =? fit_value_len) then Some false
                        else if negb (bool_decide (value = load m fit_value (length value))) then Some false
                        else None
                    end)
          end
      end.

Definition fit_image_check_hashes (image_noffset : Z) : option bool :=
  d ← fit_image_get_data image_noffset;
  match d with
  | None => Some false
  | Some (data, size) =>
      '(noffset, ndepth) ← fdt_next_node fuel m fit image_noffset 0;
      r ← for_nodes fuel m fit fuel (check_hash_node data size) noffset ndepth;
      Some (match r with inr r => r | inl _ => true end)
  end.

(** One node below [/images]. *)
Definition check_image_node (noffset ndepth : Z) : option (option bool) :=
  if negb (ndepth =? 1) then Some None
  else
    ok ← fit_image_check_hashes noffset;
    Some (if (ok : bool) then None else Some false).

Definition fit_all_image_check_hashes : option bool :=
  images_noffset ← fdt_path_offset fuel m fit FIT_IMAGES_PATH;
  if images_noffset <? 0 then Some false
  else
    '(noffset, ndepth) ← fdt_next_node fuel m fit images_noffset 0;
    r ← for_nodes fuel m fit fuel check_image_node noffset ndepth;
    Some (match r with inr r => r | inl _ => true end).

(** ** Checks *)

Definition fit_image_check_os (noffset os : Z) : option bool :=
  '(rc, image_os) ← fit_image_get_os noffset; Some (if truth rc then false else os =? image_os).

Definition fit_image_check_arch (noffset arch : Z) : option bool :=
  '(rc, image_arch) ← fit_image_get_arch noffset; Some (if truth rc then false else arch =? image_arch).

Definition fit_image_check_type (noffset type : Z) : option bool :=
  '(rc, image_type) ← fit_image_get_type noffset; Some (if truth rc then false else type =? image_type).

Definition fit_image_check_comp (noffset comp : Z) : option bool :=
  '(rc, image_comp) ← fit_image_get_comp noffset; Some (if truth rc then false else comp =? image_comp).

Definition fit_image_check_target_arch (noffset : Z) : option bool := fit_image_check_arch noffset IH_ARCH_OR1K.

Definition fit_check_format : option bool :=
  '(desc, _) ← fdt_getprop fuel m fit 0 FIT_DESC_PROP;
  if desc =? 0 then Some false
  else
    images ← fdt_path_offset fuel m fit FIT_IMAGES_PATH;
    Some (negb (images <? 0)).

(** ** Configurations *)

(** None for the default one. *)
Definition fit_conf_get_node (conf_uname : option (list Z)) : option Z :=
  confs_noffset ← fdt_path_offset fuel m fit FIT_CONFS_PATH;
  if confs_noffset <? 0 then Some confs_noffset
  else
    match conf_uname with
    | Some name => fdt_subnode_offset fuel m fit confs_noffset name
    | None =>
        '(p, n) ← fdt_getprop fuel m fit confs_noffset FIT_DEFAULT_PROP;
        if p =? 0 then Some n
        else
          name ← string_at p;
          fdt_subnode_offset fuel m fit confs_noffset name
    end.

Definition __fit_conf_get_prop_node (noffset : Z) (prop_name : list Z) : option Z :=
  '(p, n) ← fdt_getprop fuel m fit noffset prop_name;
  if p =? 0 then Some n
  else
    uname ← string_at p;
    fit_image_get_node uname.

Definition fit_conf_get_kernel_node (noffset : Z) : option Z := __fit_conf_get_prop_node noffset FIT_KERNEL_PROP.
Definition fit_conf_get_ramdisk_node (noffset : Z) : option Z := __fit_conf_get_prop_node noffset FIT_RAMDISK_PROP.
Definition fit_conf_get_fdt_node (noffset : Z) : option Z := __fit_conf_get_prop_node noffset FIT_FDT_PROP.

(** [fit_check_ramdisk]: 1 is true. *)
Definition fit_check_ramdisk (rd_noffset arch : Z) (verify : bool) : option bool :=
  ok ← (if verify then fit_image_check_hashes rd_noffset else Some true);
  if negb ok then Some false
  else
    a ← fit_image_check_os rd_noffset IH_OS_LINUX;
    if negb a then Some false
    else
      b ← fit_image_check_arch rd_noffset arch;
      if negb b then Some false else fit_image_check_type rd_noffset IH_TYPE_RAMDISK.

(** [fit_check_kernel] of cmd_bootm.c. *)
Definition fit_check_kernel (os_noffset : Z) (verify : bool) : option bool :=
  ok ← (if verify then fit_image_check_hashes os_noffset else Some true);
  if negb ok then Some false
  else
    a ← fit_image_check_target_arch os_noffset;
    if negb a then Some false else fit_image_check_type os_noffset IH_TYPE_KERNEL.
End fit.

(** ** What a tree says *)

(** The C string at the start of a value. *)
Definition c_str (v : list Z) : list Z := take_while (fun c => negb (c =? 0)) v.

Definition string_props : list (list Z) :=
  [FIT_ALGO_PROP; FIT_ARCH_PROP; FIT_TYPE_PROP; FIT_OS_PROP; FIT_COMP_PROP; FIT_KERNEL_PROP; FIT_RAMDISK_PROP; FIT_FDT_PROP; FIT_DEFAULT_PROP].

(** The properties that the code reads as strings end with a NUL. *)
Definition terminated (n : node) : Prop :=
  Forall (fun name => match find_prop name n with Some v => 0 ∈ v | None => True end) string_props.

Fixpoint all_nodes (P : node -> Prop) (n : node) : Prop :=
  match n with Node name props subs => P (Node name props subs) /\ fold_right (fun s Q => all_nodes P s /\ Q) True subs end.

Definition digest (algo data : list Z) : option (list Z) :=
  if bool_decide (algo = str "crc32") then Some (be_bytes 4 (crc32 0 data (len data)))
  else if bool_decide (algo = str "sha1") then Some (sha1_fips data)
  else if bool_decide (algo = str "md5") then Some (md5_rfc data)
  else None.

Definition is_hash (n : node) : bool := bool_decide (take (length FIT_HASH_NODENAME) (node_name n) = FIT_HASH_NODENAME).

Definition hash_ok (data : list Z) (h : node) : bool :=
  match find_prop FIT_ALGO_PROP h, find_prop FIT_VALUE_PROP h with
  | Some a, Some v => match digest (c_str a) data with Some x => bool_decide (x = v) | None => false end
  | _, _ => false
  end.

(** Every hash node of a component has the digest of its data. *)
Definition hashes_ok (n : node) : bool :=
  match find_prop FIT_DATA_PROP n with
  | None => false
  | Some d => forallb (fun h => negb (is_hash h) || hash_ok d h) (node_subs n)
  end.

Definition prop_id (prop : list Z) (get_id : list Z -> Z) (n : node) : option Z :=
  (fun v => u8 (get_id (c_str v))) <$> find_prop prop n.

Definition image_of (root : node) (uname : list Z) : option node :=
  images ← find_sub (str "images") root; find_sub uname images.

Definition conf_of (root : node) (uname : option (list Z)) : option node :=
  confs ← find_sub (str "configurations") root;
  name ← match uname with Some name => Some name | None => c_str <$> find_prop FIT_DEFAULT_PROP confs end;
  find_sub name confs.

Definition conf_image (root conf : node) (prop : list Z) : option node :=
  v ← find_prop prop conf; image_of root (c_str v).

(** ** Strings in a blob *)

Lemma c_str_good v : good_chars (c_str v).
Proof. eapply Forall_impl; [apply take_while_Forall |]. intros c Hc. cbn beta in Hc. by destruct (Z.eqb_spec c 0). Qed.

Lemma c_str_split v : 0 ∈ v -> exists rest, v = c_str v ++ 0 :: rest.
Proof.
  intros Hz. unfold c_str. pose proof (take_drop_while (fun c => negb (c =? 0)) v) as E. destruct (drop_while _ v) as [|c r] eqn:Ed.
  - exfalso. rewrite app_nil_r in E. pose proof (take_while_Forall (fun c => negb (c =? 0)) v) as Hf. rewrite E in Hf. rewrite Forall_forall in Hf. by apply (Hf 0) in Hz.
  - apply drop_while_head in Ed as Hc. destruct (Z.eqb_spec c 0) as [->|]; [| done]. by exists r.
Qed.

Lemma load_c_str m p v : load m p (length v) = v -> 0 ∈ v -> cstr m p (c_str v).
Proof.
  intros Hl Hz. destruct (c_str_split v Hz) as [rest E]. set (s := c_str v) in *. rewrite E in Hl. rewrite length_app in Hl. cbn [length] in Hl.
  rewrite load_app in Hl. apply app_inj_1 in Hl as [H1 H2]; [| by rewrite load_length]. cbn [load] in H2. injection H2 as H2 _. split_and!; [done | done | apply c_str_good].
Qed.

Lemma c_str_length v : len (c_str v) <= len v.
Proof. unfold c_str. rewrite <- (take_drop_while (fun c => negb (c =? 0)) v) at 2. rewrite length_app. lia. Qed.

Lemma cstr_prefix m a n pre : cstr m a n -> good_chars pre -> bool_decide (load m a (length pre) = pre) = bool_decide (take (length pre) n = pre).
Proof.
  intros Hc Hg. destruct (decide (length pre <= length n)%nat) as [Hle|Hgt]; [by rewrite (cstr_load m a n (length pre) Hc Hle) |].
  rewrite !bool_decide_eq_false_2; [done | |].
  - intros E%(f_equal length). rewrite length_take in E. lia.
  - intros E. assert (Hz : pre !! length n = Some 0) by (rewrite <- E, load_lookup by lia; by rewrite (cstr_end m a n Hc)).
    unfold good_chars in Hg. rewrite Forall_lookup in Hg. by apply (Hg _ _ Hz).
Qed.

Lemma sub_all P n s : all_nodes P n -> s ∈ node_subs n -> all_nodes P s.
Proof.
  destruct n as [name props subs]. cbn [all_nodes node_subs]. intros [_ H] Hs. induction subs as [|s' subs IH]; [by apply not_elem_of_nil in Hs |].
  cbn [fold_right] in H. destruct H as [H1 H2]. apply elem_of_cons in Hs as [-> | Hs]; [done | by apply IH].
Qed.

Lemma all_here P n : all_nodes P n -> P n.
Proof. destruct n. by intros [H _]. Qed.

Lemma find_sub_all P n name s : all_nodes P n -> find_sub name n = Some s -> all_nodes P s.
Proof. intros H Hf. apply (sub_all P n); [done |]. unfold find_sub in Hf. apply List.find_some in Hf as [Hin _]. by apply list_elem_of_In. Qed.

Section tree.
Context (stroff : list Z -> Z) (fuel : nat) (stack : list Z) (m : mem) (fit : Z) (size : Z).
Hypothesis Hok : blob_ok fuel m fit size.
Hypothesis Hstack : length stack = 64%nat.

Local Notation at_off := (node_at stroff fuel m fit size).

Lemma lit_ok s : forallb (fun c => negb (c =? 0)) s = true -> len s < 2 ^ 31 - 1 -> name_ok s.
Proof. intros H1 H2. split; [by apply good_ascii | done]. Qed.

(** A property that the code reads as a string. *)
Lemma string_prop off n prop : at_off off n -> terminated n -> prop ∈ string_props ->
  match find_prop prop n with
  | Some v => exists p, fdt_getprop fuel m fit off prop = Some (p, len v) /\ p <> 0 /\ string_at fuel m p = Some (c_str v) /\ name_ok (c_str v)
  | None => fdt_getprop fuel m fit off prop = Some (0, - FDT_ERR_NOTFOUND)
  end.
Proof.
  clear Hstack. intros Hn Ht Hp. assert (Hname : name_ok prop).
  { clear -Hp. unfold string_props in Hp. repeat (apply elem_of_cons in Hp as [-> | Hp]; [by apply lit_ok |]). by apply not_elem_of_nil in Hp. }
  pose proof (getprop_spec stroff fuel m fit size Hok off n prop Hn Hname) as HG. unfold terminated in Ht. rewrite Forall_forall in Ht. specialize (Ht prop Hp).
  destruct (find_prop prop n) as [v|]; [| done]. destruct HG as (p & E & Hp0 & Hl & Hlo & Hhi). exists p. pose proof (c_str_length v) as Hcl.
  pose proof (blob_small _ _ _ _ Hok). pose proof (blob_fuel _ _ _ _ Hok). split_and!; [done | done | | split; [apply c_str_good | lia]].
  pose proof (load_c_str m p v Hl Ht) as Hc. unfold string_at. rewrite (strlen_spec m p (c_str v)) by (done || lia). cbn [mbind option_bind]. rewrite Nat2Z.id. by rewrite (proj1 Hc).
Qed.

Lemma get_id_spec off n prop get_id : at_off off n -> terminated n -> prop ∈ string_props ->
  fit_image_get_id fuel m fit prop get_id off = Some match prop_id prop get_id n with Some x => (0, x) | None => (-1, u8 (-1)) end.
Proof.
  intros Hn Ht Hp. pose proof (string_prop off n prop Hn Ht Hp) as H. unfold fit_image_get_id, prop_id. destruct (find_prop prop n) as [v|]; cbn [fmap option_fmap option_map].
  - destruct H as (p & -> & Hp0 & Hs & _). cbn [mbind option_bind]. rewrite (proj2 (Z.eqb_neq p 0) Hp0), Hs. done.
  - by rewrite H.
Qed.

(** ** The digests *)

Lemma digest_spec data d algo : load m data (length d) = d -> len d < 2 ^ 31 ->
  calculate_hash stack m data (len d) algo = digest algo d.
Proof.
  intros Hl Hd. unfold calculate_hash, digest, crc32_wd, sha1_csum_wd, md5_wd. rewrite Nat2Z.id, Hl.
  pose proof (sha1_csum_spec stack d Hstack Hd) as E1. pose proof (md5_spec stack d Hstack Hd) as E2. unfold sha1_csum in E1. unfold md5 in E2. by rewrite E1, E2.
Qed.

Lemma hash_node_spec off h data d : at_off off h -> terminated h -> load m data (length d) = d -> len d < 2 ^ 31 ->
  check_hash_node fuel stack m fit data (len d) off 1 = Some (if negb (is_hash h) || hash_ok d h then None else Some false).
Proof.
  intros Hn Ht Hl Hd. unfold check_hash_node. cbn [Z.eqb Pos.eqb negb]. destruct (get_name_spec stroff fuel m fit size Hok off h Hn) as (p & Ep & _ & Hc).
  unfold fit_get_name. rewrite Ep. cbn [mbind option_bind]. rewrite (cstr_prefix m p _ FIT_HASH_NODENAME Hc (good_ascii FIT_HASH_NODENAME eq_refl)). fold (is_hash h).
  destruct (is_hash h); cbn [negb orb]; [| done]. unfold fit_image_hash_get_algo, fit_image_hash_get_value, hash_ok.
  pose proof (string_prop off h FIT_ALGO_PROP Hn Ht ltac:(by_eval)) as Ha. destruct (find_prop FIT_ALGO_PROP h) as [a|]; [| by rewrite Ha].
  destruct Ha as (pa & -> & Hpa & Hs & _). cbn [mbind option_bind]. rewrite (proj2 (Z.eqb_neq pa 0) Hpa).
  pose proof (getprop_spec stroff fuel m fit size Hok off h FIT_VALUE_PROP Hn (lit_ok FIT_VALUE_PROP eq_refl ltac:(done))) as Hv. destruct (find_prop FIT_VALUE_PROP h) as [v|]; [| by rewrite Hv].
  destruct Hv as (pv & -> & Hpv & Hlv & _). cbn [mbind option_bind]. rewrite (proj2 (Z.eqb_neq pv 0) Hpv), Hs. cbn [mbind option_bind].
  rewrite (digest_spec data d) by done. destruct (digest (c_str a) d) as [x|]; [| done]. destruct (Z.eqb_spec (len x) (len v)) as [E|E]; cbn [negb].
  - assert (length x = length v) as -> by lia. rewrite Hlv. by destruct (bool_decide (x = v)).
  - rewrite bool_decide_eq_false_2 by congruence. done.
Qed.

Lemma visit_hashes off n data d : at_off off n -> Forall terminated (node_subs n) -> load m data (length d) = d -> len d < 2 ^ 31 ->
  forall l2 l1, node_subs n = l1 ++ l2 ->
  visit (check_hash_node fuel stack m fit data (len d)) (first_sub off n + toks_size (concat (map node_toks l1))) l2 =
  Some (if forallb (fun h => negb (is_hash h) || hash_ok d h) l2 then None else Some false).
Proof.
  intros Hn Ht Hl Hd. induction l2 as [|h l2 IH]; intros l1 E; [done |]. cbn [visit forallb].
  assert (Hh : terminated h) by (rewrite E in Ht; by apply Forall_app in Ht as [_ [? _]%Forall_cons]).
  rewrite (hash_node_spec _ h data d) by (done || by eapply sub_at). cbn [mbind option_bind]. destruct (negb (is_hash h) || hash_ok d h); [| done]. cbn [andb].
  specialize (IH (l1 ++ [h])). rewrite <- app_assoc in IH. specialize (IH E). rewrite <- IH. f_equal. rewrite map_app, concat_app, toks_size_app. cbn [map concat]. rewrite app_nil_r. lia.
Qed.

Lemma check_hashes_spec off n : at_off off n -> Forall terminated (node_subs n) -> fit_image_check_hashes fuel stack m fit off = Some (hashes_ok n).
Proof.
  intros Hn Ht. unfold fit_image_check_hashes, fit_image_get_data, hashes_ok.
  pose proof (getprop_spec stroff fuel m fit size Hok off n FIT_DATA_PROP Hn (lit_ok FIT_DATA_PROP eq_refl ltac:(done))) as HG. destruct (find_prop FIT_DATA_PROP n) as [d|]; [| by rewrite HG].
  destruct HG as (p & -> & Hp & Hl & Hlo & Hhi). cbn [mbind option_bind]. rewrite (proj2 (Z.eqb_neq p 0) Hp). pose proof (blob_small _ _ _ _ Hok) as Hs.
  pose proof (visit_hashes off n p d Hn Ht Hl ltac:(lia) (node_subs n) [] eq_refl) as HV. cbn [map concat toks_size fold_right] in HV. rewrite Z.add_0_r in HV.
  destruct Hn as (rest & Hat & Hf).
  destruct (for_subnodes stroff fuel m fit size Hok (check_hash_node fuel stack m fit p (len d)) ltac:(intros o d' Hd'; unfold check_hash_node; by rewrite (proj2 (Z.eqb_neq d' 1) Hd')) off n rest _ Hat Hf HV) as (o & E & _).
  cbn [mbind option_bind] in E |- *. destruct (fdt_next_node fuel m fit off 0) as [[o1 d1]|]; cbn [mbind option_bind] in E |- *; [| done]. rewrite E. cbn [mbind option_bind].
  by destruct (forallb _ _).
Qed.

(** A component without a hash node is accepted as it is. *)
Lemma no_hash_accepted n d : find_prop FIT_DATA_PROP n = Some d -> Forall (fun h => is_hash h = false) (node_subs n) -> hashes_ok n = true.
Proof.
  intros Hd Hh. unfold hashes_ok. rewrite Hd. apply forallb_forall. intros h Hin%list_elem_of_In. rewrite Forall_forall in Hh. by rewrite (Hh h Hin).
Qed.

(** ** Components and configurations *)

Lemma at_nonneg off n : at_off off n -> 0 <= off.
Proof. by intros (? & (? & _) & _). Qed.

Lemma path_spec root name : at_off 0 root -> path_name name ->
  match find_sub name root with
  | Some n => exists o, fdt_path_offset fuel m fit (47 :: name) = Some o /\ at_off o n
  | None => fdt_path_offset fuel m fit (47 :: name) = Some (- FDT_ERR_NOTFOUND)
  end.
Proof.
  intros Hr Hn. rewrite (absolute_path fuel m fit size Hok) by done. pose proof (path_loop_spec stroff fuel m fit size Hok [name] (length (path_of [name])) 0 root Hr) as HP.
  specialize (HP ltac:(apply Forall_singleton; exact Hn) (Nat.le_refl _)). unfold path_walk. cbn [descend] in HP. unfold path_of in HP. cbn [map concat] in HP. rewrite app_nil_r in HP.
  by destruct (find_sub name root).
Qed.

Lemma path_lit s : forallb (fun c => negb (c =? 0)) s = true -> len s < 2 ^ 31 - 1 -> s <> [] -> bool_decide (47 ∈ s) = false -> path_name s.
Proof. intros H1 H2 H3 H4. split_and!; [by apply lit_ok | done | by apply bool_decide_eq_false in H4]. Qed.

Lemma image_node_spec root uname : at_off 0 root -> name_ok uname ->
  match image_of root uname with
  | Some n => exists o, fit_image_get_node fuel m fit uname = Some o /\ at_off o n
  | None => fit_image_get_node fuel m fit uname = Some (- FDT_ERR_NOTFOUND)
  end.
Proof.
  intros Hr Hu. pose proof (path_spec root (str "images") Hr (path_lit (str "images") eq_refl ltac:(done) ltac:(done) eq_refl)) as HP.
  unfold fit_image_get_node, image_of. change FIT_IMAGES_PATH with (47 :: str "images"). destruct (find_sub (str "images") root) as [images|]; cbn [mbind option_bind].
  - destruct HP as (o & -> & Ho). cbn [mbind option_bind]. rewrite (proj2 (Z.ltb_ge o 0)) by (by eapply at_nonneg).
    apply (subnode_spec stroff fuel m fit size Hok o images uname Ho Hu).
  - by rewrite HP.
Qed.

Lemma conf_node_spec root uname : at_off 0 root -> all_nodes terminated root -> (forall name, uname = Some name -> name_ok name) ->
  match conf_of root uname with
  | Some c => exists o, fit_conf_get_node fuel m fit uname = Some o /\ at_off o c
  | None => fit_conf_get_node fuel m fit uname = Some (- FDT_ERR_NOTFOUND)
  end.
Proof.
  intros Hr Ht Hu. pose proof (path_spec root (str "configurations") Hr (path_lit (str "configurations") eq_refl ltac:(done) ltac:(done) eq_refl)) as HP.
  unfold fit_conf_get_node, conf_of. change FIT_CONFS_PATH with (47 :: str "configurations"). destruct (find_sub (str "configurations") root) as [confs|] eqn:Ec; cbn [mbind option_bind].
  2: by rewrite HP.
  destruct HP as (o & -> & Ho). cbn [mbind option_bind]. rewrite (proj2 (Z.ltb_ge o 0)) by (by eapply at_nonneg). destruct uname as [name|]; cbn [mbind option_bind].
  - apply (subnode_spec stroff fuel m fit size Hok o confs name Ho). by apply Hu.
  - pose proof (string_prop o confs FIT_DEFAULT_PROP Ho (all_here _ _ (find_sub_all _ _ _ _ Ht Ec)) ltac:(by_eval)) as HD.
    destruct (find_prop FIT_DEFAULT_PROP confs) as [v|]; cbn [fmap option_fmap option_map mbind option_bind]; [| by rewrite HD].
    destruct HD as (p & -> & Hp & Hs & Hv). cbn [mbind option_bind]. rewrite (proj2 (Z.eqb_neq p 0) Hp), Hs. cbn [mbind option_bind].
    apply (subnode_spec stroff fuel m fit size Hok o confs (c_str v) Ho Hv).
Qed.

Lemma conf_image_spec root conf off prop : at_off 0 root -> at_off off conf -> terminated conf -> prop ∈ string_props ->
  match conf_image root conf prop with
  | Some n => exists o, __fit_conf_get_prop_node fuel m fit off prop = Some o /\ at_off o n
  | None => __fit_conf_get_prop_node fuel m fit off prop = Some (- FDT_ERR_NOTFOUND)
  end.
Proof.
  intros Hr Hc Ht Hp. pose proof (string_prop off conf prop Hc Ht Hp) as HS. unfold __fit_conf_get_prop_node, conf_image.
  destruct (find_prop prop conf) as [v|]; cbn [mbind option_bind]; [| by rewrite HS]. destruct HS as (p & -> & Hp0 & Hs & Hv).
  cbn [mbind option_bind]. rewrite (proj2 (Z.eqb_neq p 0) Hp0), Hs. cbn [mbind option_bind]. by apply image_node_spec.
Qed.

Lemma check_format_spec root : at_off 0 root ->
  fit_check_format fuel m fit = Some (bool_decide (is_Some (find_prop FIT_DESC_PROP root) /\ is_Some (find_sub (str "images") root))).
Proof.
  intros Hr. pose proof (getprop_spec stroff fuel m fit size Hok 0 root FIT_DESC_PROP Hr (lit_ok FIT_DESC_PROP eq_refl ltac:(done))) as HG.
  pose proof (path_spec root (str "images") Hr (path_lit (str "images") eq_refl ltac:(done) ltac:(done) eq_refl)) as HP. unfold fit_check_format. change FIT_IMAGES_PATH with (47 :: str "images").
  destruct (find_prop FIT_DESC_PROP root) as [v|].
  2: { rewrite HG. cbn [mbind option_bind Z.eqb]. rewrite bool_decide_eq_false_2; [done |]. intros [[? [=]] _]. }
  destruct HG as (p & -> & Hp & _). cbn [mbind option_bind]. rewrite (proj2 (Z.eqb_neq p 0) Hp). destruct (find_sub (str "images") root) as [n|].
  - destruct HP as (o & -> & Ho). cbn [mbind option_bind]. rewrite (proj2 (Z.ltb_ge o 0)) by (by eapply at_nonneg). rewrite bool_decide_eq_true_2 by (split; by eexists). done.
  - rewrite HP. cbn [mbind option_bind]. rewrite bool_decide_eq_false_2; [done |]. intros [_ [? [=]]].
Qed.

(** All the components of an image. *)
Lemma image_checked_spec off h : at_off off h -> all_nodes terminated h -> check_image_node fuel stack m fit off 1 = Some (if hashes_ok h then None else Some false).
Proof.
  intros Hn Ht. unfold check_image_node. cbn [Z.eqb Pos.eqb negb]. rewrite (check_hashes_spec off h Hn) by (apply Forall_forall; intros s Hs; by eapply all_here, sub_all). done.
Qed.

Lemma visit_images off n : at_off off n -> all_nodes terminated n -> forall l2 l1, node_subs n = l1 ++ l2 ->
  visit (check_image_node fuel stack m fit) (first_sub off n + toks_size (concat (map node_toks l1))) l2 = Some (if forallb hashes_ok l2 then None else Some false).
Proof.
  intros Hn Ht. induction l2 as [|h l2 IH]; intros l1 E; [done |]. cbn [visit forallb].
  assert (Hh : all_nodes terminated h) by (apply (sub_all _ n); [done |]; rewrite E; apply elem_of_app; right; by left).
  rewrite (image_checked_spec _ h) by (done || by eapply sub_at). cbn [mbind option_bind]. destruct (hashes_ok h); [| done]. cbn [andb].
  specialize (IH (l1 ++ [h])). rewrite <- app_assoc in IH. specialize (IH E). rewrite <- IH. f_equal. rewrite map_app, concat_app, toks_size_app. cbn [map concat]. rewrite app_nil_r. lia.
Qed.

Lemma all_hashes_spec root : at_off 0 root -> all_nodes terminated root ->
  fit_all_image_check_hashes fuel stack m fit = Some match find_sub (str "images") root with Some n => forallb hashes_ok (node_subs n) | None => false end.
Proof.
  intros Hr Ht. pose proof (path_spec root (str "images") Hr (path_lit (str "images") eq_refl ltac:(done) ltac:(done) eq_refl)) as HP.
  unfold fit_all_image_check_hashes. change FIT_IMAGES_PATH with (47 :: str "images"). destruct (find_sub (str "images") root) as [n|] eqn:Ei; [| by rewrite HP].
  destruct HP as (o & -> & Ho). cbn [mbind option_bind]. rewrite (proj2 (Z.ltb_ge o 0)) by (by eapply at_nonneg).
  pose proof (visit_images o n Ho (find_sub_all _ _ _ _ Ht Ei) (node_subs n) [] eq_refl) as HV. cbn [map concat toks_size fold_right] in HV. rewrite Z.add_0_r in HV.
  destruct Ho as (rest & Hat & Hf).
  destruct (for_subnodes stroff fuel m fit size Hok (check_image_node fuel stack m fit) ltac:(intros o' d' Hd'; unfold check_image_node; by rewrite (proj2 (Z.eqb_neq d' 1) Hd')) o n rest _ Hat Hf HV) as (o1 & E & _).
  destruct (fdt_next_node fuel m fit o 0) as [[o2 d2]|]; cbn [mbind option_bind] in E |- *; [| done]. rewrite E. cbn [mbind option_bind]. by destruct (forallb _ _).
Qed.

(** A component that [fit_check_kernel] takes. *)
Definition kernel_ok (verify : bool) (n : node) : bool :=
  (negb verify || hashes_ok n) && bool_decide (prop_id FIT_ARCH_PROP genimg_get_arch_id n = Some IH_ARCH_OR1K) &&
  bool_decide (prop_id FIT_TYPE_PROP genimg_get_type_id n = Some IH_TYPE_KERNEL).

Lemma check_id off n prop get_id x : at_off off n -> terminated n -> prop ∈ string_props ->
  ('(rc, v) ← fit_image_get_id fuel m fit prop get_id off; Some (if truth rc then false else x =? v)) = Some (bool_decide (prop_id prop get_id n = Some x)).
Proof.
  intros Hn Ht Hp. rewrite (get_id_spec off n prop get_id Hn Ht Hp). destruct (prop_id prop get_id n) as [v|]; cbn [mbind option_bind truth Z.eqb negb]; [| done].
  f_equal. destruct (Z.eqb_spec x v) as [->|Hne]; [by rewrite bool_decide_eq_true_2 |]. rewrite bool_decide_eq_false_2; [done | congruence].
Qed.

Lemma check_kernel_spec off n verify : at_off off n -> all_nodes terminated n -> fit_check_kernel fuel stack m fit off verify = Some (kernel_ok verify n).
Proof.
  intros Hn Ht. pose proof (all_here _ _ Ht) as Ht0. assert (Hs : Forall terminated (node_subs n)) by (apply Forall_forall; intros s Hs; by eapply all_here, sub_all).
  unfold fit_check_kernel, kernel_ok, fit_image_check_target_arch, fit_image_check_arch, fit_image_check_type, fit_image_get_arch, fit_image_get_type.
  rewrite (check_id off n FIT_TYPE_PROP) by (done || by_eval). rewrite (check_id off n FIT_ARCH_PROP) by (done || by_eval).
  destruct verify; cbn [negb orb mbind option_bind]; [rewrite (check_hashes_spec off n Hn Hs); cbn [mbind option_bind]; destruct (hashes_ok n); cbn [negb andb]; [| done] |];
    by destruct (bool_decide (prop_id FIT_ARCH_PROP genimg_get_arch_id n = Some IH_ARCH_OR1K)).
Qed.

(** ** Properties *)

(** C14: The digests of a component of a FIT image.  On a blob that encodes a
    tree, [fit_image_check_hashes] accepts a component exactly when it has
    data and each of its hash nodes names CRC-32, SHA-1 or MD5 and has the
    digest that the standard gives for the data; when a hash node has the
    CRC-32 of data that differs in one byte, the component is refused. *)
Theorem fit_hashes_checked off n : at_off off n -> Forall terminated (node_subs n) ->
  fit_image_check_hashes fuel stack m fit off = Some (hashes_ok n) /\
  forall h a pre b b' post, find_prop FIT_DATA_PROP n = Some (pre ++ b' :: post) -> h ∈ node_subs n -> is_hash h = true ->
    find_prop FIT_ALGO_PROP h = Some a -> c_str a = str "crc32" ->
    find_prop FIT_VALUE_PROP h = Some (be_bytes 4 (crc32 0 (pre ++ b :: post) (len (pre ++ b :: post)))) ->
    Forall byte pre -> byte b -> byte b' -> Forall byte post -> b <> b' -> fit_image_check_hashes fuel stack m fit off = Some false.
Proof.
  intros Hn Ht. pose proof (check_hashes_spec off n Hn Ht) as E. split; [exact E |]. intros h a pre b b' post Hd Hin Hh Ha Hc Hv Hpre Hb Hb' Hpost Hne.
  rewrite E. f_equal. unfold hashes_ok. rewrite Hd. apply not_true_is_false. intros HF. rewrite forallb_forall in HF. specialize (HF h (proj1 (list_elem_of_In _ _) Hin)).
  rewrite Hh in HF. cbn [negb orb] in HF. unfold hash_ok in HF. rewrite Ha, Hv, Hc in HF. unfold digest in HF. rewrite bool_decide_eq_true_2 in HF by done.
  apply bool_decide_eq_true in HF. apply (crc32_byte_error 0 pre b b' post ltac:(done) Hpre Hpost Hb Hb' Hne).
  assert (HR : forall c, byte c -> 0 <= crc32 0 (pre ++ c :: post) (len (pre ++ c :: post)) < 2 ^ 32).
  { intros c Hcb. apply crc32_range; [| lia]. apply Forall_app; split; [done | by constructor]. }
  apply (f_equal be_val) in HF. rewrite !get32_bytes in HF by (by apply HR). by symmetry.
Qed.
End tree.

(** ** Witnesses *)

(** A FIT image with a kernel and its CRC-32. *)
Definition demo_fit_strings : list (list Z) :=
  [FIT_DESC_PROP; FIT_DATA_PROP; FIT_TYPE_PROP; FIT_ARCH_PROP; FIT_OS_PROP; FIT_COMP_PROP; FIT_LOAD_PROP; FIT_ENTRY_PROP; FIT_ALGO_PROP; FIT_VALUE_PROP; FIT_DEFAULT_PROP; FIT_KERNEL_PROP].

Definition zstr (s : String.string) : list Z := str s ++ [0].
Arguments zstr s%_string_scope.

Definition demo_crc : list Z := Eval vm_compute in be_bytes 4 (crc32 0 demo_payload 5).

Definition demo_kernel : node :=
  Node (str "kernel@1")
    [(FIT_DATA_PROP, demo_payload); (FIT_TYPE_PROP, zstr "kernel"); (FIT_ARCH_PROP, zstr "or1k"); (FIT_OS_PROP, zstr "linux");
     (FIT_COMP_PROP, zstr "none"); (FIT_LOAD_PROP, be_bytes 4 0x100000); (FIT_ENTRY_PROP, be_bytes 4 0x100100)]
    [Node (str "hash@1") [(FIT_ALGO_PROP, zstr "crc32"); (FIT_VALUE_PROP, demo_crc)] []].

Definition demo_conf : node := Node (str "config@1") [(FIT_KERNEL_PROP, zstr "kernel@1")] [].

Definition demo_fit : node :=
  Node [] [(FIT_DESC_PROP, zstr "demo")] [Node (str "images") [] [demo_kernel]; Node (str "configurations") [(FIT_DEFAULT_PROP, zstr "config@1")] [demo_conf]].

Lemma terminated_eval n : forallb (fun name => match find_prop name n with Some v => bool_decide (0 ∈ v) | None => true end) string_props = true -> terminated n.
Proof.
  intros H. apply Forall_forall. intros name Hn%list_elem_of_In. rewrite forallb_forall in H. apply H in Hn. destruct (find_prop name n); [by apply bool_decide_eq_true in Hn | done].
Qed.

(** With a byte of the data changed the digests are refused. *)
Definition demo_bad_kernel : node :=
  Node (str "kernel@1") ((FIT_DATA_PROP, [0x18; 0; 1; 3; 255]) :: tail (node_props demo_kernel)) (node_subs demo_kernel).

Definition demo_bad_fit : node := Node [] [(FIT_DESC_PROP, zstr "demo")] [Node (str "images") [] [demo_bad_kernel]].

Definition demo_bad_mem : mem := store_list (fun _ => 0) 0x1000 (fdt_blob demo_fit_strings demo_bad_fit).

Lemma demo_strings_ok : Forall good_chars demo_fit_strings.
Proof. repeat (apply Forall_cons; split; [by apply good_ascii |]). by apply Forall_nil. Qed.

(** A list of names of the table. *)
Ltac names_ok :=
  cbn [node_ok demo_fit demo_kernel demo_conf demo_bad_fit demo_bad_kernel fold_right node_props node_subs tail]; split_and!; try done; try (by apply good_ascii);
  repeat (apply Forall_cons; split; [apply (bool_decide_eq_true_1 _); by vm_compute |]); by apply Forall_nil.

Lemma demo_bad_names : node_ok demo_fit_strings demo_bad_fit.
Proof. names_ok. Qed.

Lemma fit_hashes_checked_witness :
  exists off, fit_image_get_node 1000 demo_bad_mem 0x1000 (str "kernel@1") = Some off /\
    fit_image_check_hashes 1000 (replicate 64 0xA5) demo_bad_mem 0x1000 off = Some false.
Proof.
  destruct (fdt_blob_read demo_fit_strings demo_bad_fit demo_bad_mem 0x1000 (load_store_list _ _ _) demo_strings_ok demo_bad_names ltac:(by vm_compute) ltac:(by vm_compute) 1000 ltac:(by vm_compute)) as [Hb Hr].
  pose proof (image_node_spec _ _ _ _ _ Hb demo_bad_fit (str "kernel@1") Hr (lit_ok (str "kernel@1") eq_refl ltac:(done))) as HI.
  change (image_of demo_bad_fit (str "kernel@1")) with (Some demo_bad_kernel) in HI. destruct HI as (off & E & Hk). exists off. split; [exact E |].
  destruct (fit_hashes_checked _ 1000 (replicate 64 0xA5) demo_bad_mem 0x1000 _ Hb eq_refl off demo_bad_kernel Hk) as [_ H].
  - repeat (apply Forall_cons; split; [apply terminated_eval; by vm_compute |]). by apply Forall_nil.
  - apply (H (Node (str "hash@1") [(FIT_ALGO_PROP, zstr "crc32"); (FIT_VALUE_PROP, demo_crc)] []) (zstr "crc32") [0x18; 0; 1] 2 3 [255]);
      [vm_compute; reflexivity | apply list_elem_of_In; left; reflexivity | vm_compute; reflexivity | vm_compute; reflexivity | vm_compute; reflexivity | vm_compute; reflexivity | bytes_eval | unfold byte; lia | unfold byte; lia | bytes_eval | lia].
Defined.
