(* ===== verification/Readline.v ===== *)
(** * Reading a command line: common/main.c

    [readline_into_buffer] and [delete_char], without the history editor,
    which the configuration leaves out.  The characters come from a list; what
    is echoed is a list of characters too.  [p_buf] is the address of the
    buffer.  A tab calls [cmd_auto_complete] of common/command.c, which is
    behind an interface here: the class [completer] has the function, and the
    classes [completer_spec] and [completer_shows] what the editor relies on;
    the file Complete has the function itself and proves both.

    The theorems: the buffer is that of a small editor on lists, within its
    bounds; the terminal shows the line. *)

From S2P Require Import Prelude Memory.

Local Open Scope Z_scope.

Definition CONFIG_SYS_CBSIZE : Z := 256.
Definition CONFIG_SYS_PROMPT : list Z := str "==> ".

Definition erase_seq : list Z := [8; 32; 8].
Definition tab_seq : list Z := replicate 8 32.

(** The locals of [readline_into_buffer], the buffer and the output. *)
Record line := mk_line { l_mem : mem; l_p : Z; l_n : Z; l_col : Z; l_out : list Z }.

Definition puts (s : list Z) (l : line) : line := mk_line (l_mem l) (l_p l) (l_n l) (l_col l) (l_out l ++ s).
Definition set_col (col : Z) (l : line) : line := mk_line (l_mem l) (l_p l) (l_n l) col (l_out l).
Definition set_pos (p n : Z) (l : line) : line := mk_line (l_mem l) p n (l_col l) (l_out l).

(** [*p = 0;] *)
Definition terminate (l : line) : line := mk_line (store (l_mem l) (l_p l) 0) (l_p l) (l_n l) (l_col l) (l_out l).

(** [cmd_auto_complete (prompt, buf, &n, &col)]: none when it returns 0. *)
Class completer := cmd_auto_complete : list Z -> Z -> line -> option line.

Section edit_ops.
Context (p_buf : Z) (plen : Z).

(** [while (col > plen) { puts (erase_seq); --col; }] *)
Fixpoint erase_cols (k : nat) (l : line) : line :=
  match k with
  | O => l
  | S k => if plen <? l_col l then erase_cols k (set_col (l_col l - 1) (puts erase_seq l)) else l
  end.
Definition erase_line (l : line) : line := erase_cols (Z.to_nat (l_col l - plen)) l.

Definition echo_tab (l : line) : line :=
  let k := Z.land (l_col l) 7 in
  set_col (l_col l + (8 - k)) (puts (drop (Z.to_nat k) tab_seq) l).

Definition echo_char (c : Z) (l : line) : line := set_col (l_col l + 1) (puts [c] l).

(** [for (s = buffer; s < p; ++s) ...] *)
Fixpoint retype (k : nat) (s : Z) (l : line) : line :=
  match k with
  | O => l
  | S k => retype k (s + 1) (if l_mem l s =? 9 then echo_tab l else echo_char (l_mem l s) l)
  end.

Definition delete_char (l : line) : line :=
  if l_n l =? 0 then l
  else
    let p := l_p l - 1 in
    let l :=
      if l_mem l p =? 9 then retype (Z.to_nat (p - p_buf)) p_buf (erase_line l)
      else set_col (l_col l - 1) (puts erase_seq l) in
    set_pos p (l_n l - 1) l.

(** [while ((n > 0) && ( *p != ' ')) p = delete_char (...);]: each turn takes
    one character. *)
Fixpoint erase_word_loop (k : nat) (l : line) : line :=
  match k with
  | O => l
  | S k => if (0 <? l_n l) && negb (l_mem l (l_p l) =? 32) then erase_word_loop k (delete_char l) else l
  end.

Definition erase_word (l : line) : line :=
  let l := delete_char l in
  erase_word_loop (Z.to_nat (l_n l)) l.

(** [*p++ = c; ++n;] *)
Definition append (c : Z) (l : line) : line := mk_line (store (l_mem l) (l_p l) c) (l_p l + 1) (l_n l + 1) (l_col l) (l_out l).

End edit_ops.

Section readline.
Context `{completer} (prompt : list Z) (p_buf : Z).
Abbreviation plen := (len prompt).

(** One character: the line goes on, or the function returns. *)
Definition readline_char (c : Z) (l : line) : line + Z * line :=
  if (c =? 13) || (c =? 10) then
    inr (l_p l - p_buf, puts [13; 10] (terminate l))
  else if c =? 0 then inl l
  else if c =? 3 then inr (-1, mk_line (store (l_mem l) p_buf 0) (l_p l) (l_n l) (l_col l) (l_out l))
  else if c =? 21 then inl (set_pos p_buf 0 (erase_line plen l))
  else if c =? 23 then inl (erase_word p_buf plen l)
  else if (c =? 8) || (c =? 127) then inl (delete_char p_buf plen l)
  else if l_n l <? CONFIG_SYS_CBSIZE - 2 then
    if c =? 9 then
      let l := terminate l in
      match cmd_auto_complete prompt p_buf l with
      | Some l => inl (set_pos (p_buf + l_n l) (l_n l) l)
      | None => inl (append c (echo_tab l))
      end
    else inl (append c (echo_char c l))
  else inl (puts [7] l).

(** The result, or none when the characters are used up; what is left. *)
Fixpoint readline_loop (cs : list Z) (l : line) : line * option Z * list Z :=
  match cs with
  | [] => (l, None, [])
  | c :: cs =>
      match readline_char c l with
      | inl l => readline_loop cs l
      | inr (rc, l) => (l, Some rc, cs)
      end
  end.
End readline.

Definition readline_into_buffer `{completer} (prompt : list Z) (p_buf : Z) (m : mem) (cs : list Z) : line * option Z * list Z :=
  readline_loop prompt p_buf cs (mk_line m p_buf 0 (len prompt) prompt).

(** ** The editor on lists *)

(** The line reversed, without its last word and the blank before it. *)
Fixpoint drop_word (r : list Z) : list Z :=
  match r with [] => [] | c :: r => if c =? 32 then r else drop_word r end.

Section editor.
(** What a tab adds to the line instead of itself. *)
Context (completion : list Z -> option (list Z)).

Definition edit (c : Z) (s : list Z) : list Z :=
  if c =? 0 then s
  else if c =? 21 then []
  else if c =? 23 then rev (drop_word (rev s))
  else if (c =? 8) || (c =? 127) then rev (tail (rev s))
  else if len s <? CONFIG_SYS_CBSIZE - 2 then
    s ++ match (if c =? 9 then completion s else None) with Some t => t | None => [c] end
  else s.

Fixpoint editor (cs : list Z) (s : list Z) : list Z * option Z * list Z :=
  match cs with
  | [] => (s, None, [])
  | c :: cs =>
      if (c =? 13) || (c =? 10) then (s, Some (len s), cs)
      else if c =? 3 then ([], Some (-1), cs)
      else editor cs (edit c s)
  end.
End editor.

(** The buffer holds [s], and nothing outside it has changed. *)
Definition holds (p_buf : Z) (m0 : mem) (s : list Z) (l : line) : Prop :=
  load (l_mem l) p_buf (length s) = s /\ l_p l = p_buf + len s /\ l_n l = len s /\ len s <= CONFIG_SYS_CBSIZE - 2 /\
  Forall (fun c => c <> 0) s /\ forall a, a < p_buf \/ p_buf + CONFIG_SYS_CBSIZE <= a -> l_mem l a = m0 a.

(** What the editor relies on: at the prompt of the commands, and only there,
    a completion may add text to the line, within the buffer. *)
Class completer_spec `{completer} := {
  completion : list Z -> list Z -> option (list Z);
  completion_elsewhere prompt s : prompt <> CONFIG_SYS_PROMPT -> completion prompt s = None;
  completion_holds prompt p_buf m0 s l : holds p_buf m0 s l -> len s < CONFIG_SYS_CBSIZE - 2 -> l_mem l (l_p l) = 0 ->
    match cmd_auto_complete prompt p_buf l with
    | None => completion prompt s = None
    | Some l' => exists t, completion prompt s = Some t /\ holds p_buf m0 (s ++ t) (set_pos (p_buf + l_n l') (l_n l') l')
    end }.

Section buffer.
Context (p_buf plen : Z).

(** What only echoes. *)
Definition same_line (l l' : line) : Prop := l_mem l' = l_mem l /\ l_p l' = l_p l /\ l_n l' = l_n l.

#[local] Instance same_line_preorder : PreOrder same_line.
Proof. split; [by intros l | intros a b c (A1 & A2 & A3) (B1 & B2 & B3)]. split_and!; congruence. Qed.

Lemma erase_line_same l : same_line l (erase_line plen l).
Proof.
  unfold erase_line. generalize (Z.to_nat (l_col l - plen)) as k. intros k. revert l. induction k as [|k IH]; intros l; [done |].
  cbn [erase_cols]. destruct (_ <? _); [| done]. etransitivity; [| apply IH]. done.
Qed.

Lemma retype_same k : forall s l, same_line l (retype k s l).
Proof. induction k as [|k IH]; intros s l; [done |]. cbn [retype]. etransitivity; [| apply IH]. by destruct (_ =? 9). Qed.

Lemma delete_char_buffer l : l_n l <> 0 -> same_line (set_pos (l_p l - 1) (l_n l - 1) l) (delete_char p_buf plen l).
Proof.
  intros H. unfold delete_char. rewrite (proj2 (Z.eqb_neq _ _) H). destruct (_ =? 9); [| done].
  destruct (retype_same (Z.to_nat (l_p l - 1 - p_buf)) p_buf (erase_line plen l)) as (A1 & _ & A3).
  destruct (erase_line_same l) as (B1 & _ & B3). split_and!; cbn; congruence.
Qed.

Lemma holds_same m0 s l l' : same_line l l' -> holds p_buf m0 s l -> holds p_buf m0 s l'.
Proof. intros (A1 & A2 & A3). unfold holds. by rewrite A1, A2, A3. Qed.

Lemma holds_delete m0 s c l : holds p_buf m0 (s ++ [c]) l ->
  holds p_buf m0 s (delete_char p_buf plen l) /\ l_mem (delete_char p_buf plen l) (l_p (delete_char p_buf plen l)) = c.
Proof.
  intros (H1 & H2 & H3 & H4 & H5 & H6). rewrite length_app in *. cbn [length] in *. destruct (delete_char_buffer l) as (A1 & A2 & A3); [lia |]. cbn in A1, A2, A3.
  rewrite load_app in H1. apply app_inj_1 in H1 as [H1 H1']; [| by rewrite load_length]. cbn in H1'. injection H1' as H1'.
  apply Forall_app in H5 as [H5 _]. split.
  - unfold holds. rewrite A1, A2, A3. split_and!; try done; lia.
  - rewrite A1, A2, H2. rewrite <- H1'. f_equal. lia.
Qed.

Lemma holds_delete_nil m0 l : holds p_buf m0 [] l -> delete_char p_buf plen l = l.
Proof. intros (_ & _ & H & _). unfold delete_char. by rewrite H. Qed.

(** Erasing a word keeps what erasing a character keeps. *)
Lemma erase_word_ind m0 (I : list Z -> line -> Prop) : (forall s l, I s l -> holds p_buf m0 s l) ->
  (forall s c l, I (s ++ [c]) l -> I s (delete_char p_buf plen l)) ->
  forall r l, I (rev r) l -> I (rev (drop_word r)) (erase_word p_buf plen l).
Proof.
  intros Hh Hd. assert (Hd' : forall s c l, I (s ++ [c]) l -> I s (delete_char p_buf plen l) /\ l_mem (delete_char p_buf plen l) (l_p (delete_char p_buf plen l)) = c).
  { intros s c l H. split; [by eapply Hd |]. eapply holds_delete, Hh, H. }
  intros r l. unfold erase_word. destruct r as [|c r]; cbn [rev]; intros H.
  { rewrite (holds_delete_nil m0 l) by (by apply Hh). pose proof (Hh _ _ H) as (_ & _ & Hn & _). rewrite Hn. exact H. }
  apply Hd' in H as [H Hc]. revert H Hc. generalize (delete_char p_buf plen l) as l'. clear l. intros l H Hc.
  assert (Hn : Z.to_nat (l_n l) = length r) by (destruct (Hh _ _ H) as (_ & _ & -> & _); rewrite length_rev; lia).
  rewrite Hn. clear Hn. cbn [drop_word]. revert c l H Hc. induction r as [|d r IH]; intros c l H Hc.
  { cbn. by destruct (c =? 32). }
  cbn [length erase_word_loop]. assert (Hn : l_n l = Z.of_nat (S (length r))) by (destruct (Hh _ _ H) as (_ & _ & -> & _); rewrite length_rev; done).
  rewrite Hn, Hc. rewrite (proj2 (Z.ltb_lt _ _)) by lia. destruct (Z.eqb_spec c 32) as [->|Hne]; [done |]. cbn [andb negb].
  cbn [rev] in H. apply Hd' in H as [H Hx]. cbn [drop_word]. by apply IH.
Qed.

Lemma append_holds m0 s c l : holds p_buf m0 s l -> len s < CONFIG_SYS_CBSIZE - 2 -> c <> 0 -> holds p_buf m0 (s ++ [c]) (append c l).
Proof.
  intros (H1 & H2 & H3 & H4 & H5 & H6) Hlt Hc. unfold holds, append. cbn [l_mem l_p l_n]. rewrite length_app. cbn [length]. unfold CONFIG_SYS_CBSIZE in *. split_and!.
  - rewrite load_app, load_store_out by lia. rewrite H1. cbn [load]. f_equal. rewrite H2. by rewrite store_eq.
  - lia.
  - lia.
  - lia.
  - apply Forall_app_2; [done | by constructor].
  - intros a Ha. rewrite store_ne by lia. by apply H6.
Qed.
End buffer.

Lemma terminate_holds p_buf m0 s l : holds p_buf m0 s l -> holds p_buf m0 s (terminate l) /\ l_mem (terminate l) (l_p (terminate l)) = 0.
Proof.
  intros (H1 & H2 & H3 & H4 & H5 & H6). unfold CONFIG_SYS_CBSIZE in *. split; [| apply store_eq]. split_and!; cbn [terminate l_mem l_p l_n]; try done.
  - by rewrite load_store_out by lia.
  - intros a Ha. rewrite store_ne by (unfold CONFIG_SYS_CBSIZE in *; lia). by apply H6.
Qed.

Section refines.
Context {Comp : completer} {Spec : completer_spec}.

Lemma readline_char_edits prompt p_buf m0 s c l : holds p_buf m0 s l -> c <> 13 -> c <> 10 -> c <> 3 ->
  exists l', readline_char prompt p_buf c l = inl l' /\ holds p_buf m0 (edit (completion prompt) c s) l'.
Proof.
  intros Hl N1 N2 N3. unfold readline_char, edit. rewrite (proj2 (Z.eqb_neq _ _) N1), (proj2 (Z.eqb_neq _ _) N2). cbn [orb].
  destruct (Z.eqb_spec c 0) as [->|N4]; [by eexists |]. rewrite (proj2 (Z.eqb_neq _ _) N3).
  destruct (c =? 21). { eexists. split; [done |]. destruct Hl as (_ & _ & _ & _ & _ & H6). destruct (erase_line_same (len prompt) l) as (E & _).
    split_and!; cbn; try done; try lia. intros a Ha. rewrite E. by apply H6. }
  destruct (c =? 23). { eexists. split; [done |]. apply (erase_word_ind p_buf (len prompt) m0 (holds p_buf m0)); [done | | by rewrite rev_involutive].
    intros s' x l'. apply holds_delete. }
  destruct ((c =? 8) || (c =? 127)).
  { eexists. split; [done |]. destruct s as [|x s _] using rev_ind; [by rewrite (holds_delete_nil p_buf (len prompt) m0) |].
    rewrite rev_app_distr. cbn [rev tail app]. rewrite rev_involutive. eapply holds_delete. exact Hl. }
  assert (En : l_n l = len s) by apply Hl. rewrite En. destruct (Z.ltb_spec (len s) (CONFIG_SYS_CBSIZE - 2)) as [Hlt|]; [| by eexists].
  destruct (c =? 9); [| eexists; split; [done |]; by apply append_holds].
  destruct (terminate_holds p_buf m0 s l Hl) as [Ht Hz]. pose proof (completion_holds prompt p_buf m0 s _ Ht Hlt Hz) as Hc.
  destruct (cmd_auto_complete prompt p_buf (terminate l)) as [l'|].
  - destruct Hc as (t & -> & Hh). by eexists.
  - rewrite Hc. eexists. split; [done |]. by apply append_holds.
Qed.

Lemma readline_editor prompt p_buf m0 cs : forall s l, holds p_buf m0 s l ->
  let '(l', rc, rest) := readline_loop prompt p_buf cs l in
  let '(s', rc', rest') := editor (completion prompt) cs s in
  rc = rc' /\ rest = rest' /\ len s' <= CONFIG_SYS_CBSIZE - 2 /\
  match rc with Some _ => cstr (l_mem l') p_buf s' | None => load (l_mem l') p_buf (length s') = s' end /\
  forall a, a < p_buf \/ p_buf + CONFIG_SYS_CBSIZE <= a -> l_mem l' a = m0 a.
Proof.
  induction cs as [|c cs IH]; intros s l Hl; cbn [readline_loop editor].
  { destruct Hl as (H1 & _ & _ & H4 & _ & H6). by split_and!. }
  destruct ((c =? 13) || (c =? 10)) eqn:E1; [| destruct (Z.eqb_spec c 3) as [->|N3]].
  - unfold readline_char. rewrite E1. destruct (terminate_holds p_buf m0 s l Hl) as [(H1 & H2 & H3 & H4 & H5 & H6) Hz]. cbn [terminate l_p] in *.
    split_and!; [f_equal; lia | done | done | | exact H6].
    split_and!; [exact H1 | by rewrite H2 in Hz | done].
  - cbn. destruct Hl as (H1 & H2 & H3 & H4 & H5 & H6). split_and!; [done | done | done | |].
    + split_and!; [done | | by constructor]. cbn [length]. rewrite Z.add_0_r. apply store_eq.
    + unfold CONFIG_SYS_CBSIZE in *. intros a Ha. rewrite store_ne by lia. by apply H6.
  - apply orb_false_iff in E1 as [N1%Z.eqb_neq N2%Z.eqb_neq]. destruct (readline_char_edits prompt p_buf m0 s c l) as (l' & -> & H'); [done.. |]. by apply IH.
Qed.

End refines.

(** ** The terminal *)

(** The last line of a terminal: its cells and the cursor.  The serial driver
    sends a carriage return before a newline; a tab moves the cursor. *)
Record term := mk_term { cells : list Z; cursor : nat }.

Definition tputc (t : term) (c : Z) : term :=
  if c =? 7 then t
  else if c =? 8 then mk_term (cells t) (pred (cursor t))
  else if c =? 9 then let stop := (8 * (cursor t / 8 + 1))%nat in mk_term (cells t ++ replicate (stop - length (cells t)) 32) stop
  else if c =? 10 then mk_term [] 0
  else mk_term (if (cursor t <? length (cells t))%nat then <[cursor t := c]> (cells t) else cells t ++ [c]) (S (cursor t)).

Definition tputs (t : term) (s : list Z) : term := fold_left tputc s t.

(** [s] is shown, the cursor behind it, and only blanks after it. *)
Definition shows (s : list Z) (t : term) : Prop := (exists k, cells t = s ++ replicate k 32) /\ cursor t = length s.

Definition printable (c : Z) : Prop := 32 <= c < 127.

(** The columns that [s] takes from column [col] on. *)
Fixpoint render (col : Z) (s : list Z) : list Z :=
  match s with
  | [] => []
  | c :: s =>
      if c =? 9 then replicate (Z.to_nat (8 - Z.land col 7)) 32 ++ render (col + (8 - Z.land col 7)) s
      else c :: render (col + 1) s
  end.

Lemma shows_putc s t c : printable c -> shows s t -> shows (s ++ [c]) (tputc t c).
Proof.
  intros Hc [[k Hk] Hcur]. unfold tputc, printable in *. rewrite !(proj2 (Z.eqb_neq _ _)) by lia. split; [| cbn; rewrite length_app; cbn; lia].
  cbn [cells cursor]. rewrite Hk, Hcur, length_app, length_replicate. destruct k as [|k].
  - exists 0%nat. rewrite (proj2 (Nat.ltb_ge _ _)) by lia. by rewrite app_nil_r, app_nil_r.
  - exists k. rewrite (proj2 (Nat.ltb_lt _ _)) by lia. rewrite insert_app_r_alt by lia. rewrite Nat.sub_diag. cbn. by rewrite <- app_assoc.
Qed.

Lemma shows_puts l : forall s t, Forall printable l -> shows s t -> shows (s ++ l) (tputs t l).
Proof.
  induction l as [|c l IH]; intros s t Hl H; [by rewrite app_nil_r |]. apply Forall_cons in Hl as [Hc Hl]. cbn.
  replace (s ++ c :: l) with ((s ++ [c]) ++ l) by (by rewrite <- app_assoc). apply IH; [done |]. by apply shows_putc.
Qed.

Lemma shows_erase s x t : shows (s ++ [x]) t -> shows s (tputs t erase_seq).
Proof.
  intros [[k Hk] Hcur]. rewrite length_app in Hcur. cbn in Hcur. unfold tputs, erase_seq. cbn [fold_left]. unfold tputc. cbn [Z.eqb Pos.eqb cells cursor]. split.
  - exists (S k). cbn [cells cursor]. rewrite Hk, Hcur, !length_app, length_replicate. cbn [length]. rewrite (proj2 (Nat.ltb_lt _ _)) by lia.
    rewrite <- app_assoc. rewrite insert_app_r_alt by lia. replace (pred (length s + 1) - length s)%nat with 0%nat by lia. done.
  - cbn [cursor]. lia.
Qed.

Lemma render_app a : forall col b, render col (a ++ b) = render col a ++ render (col + len (render col a)) b.
Proof.
  induction a as [|c a IH]; intros col b; cbn [app render length]; [by rewrite Z.add_0_r |].
  destruct (c =? 9); rewrite IH; cbn [app]; rewrite ?length_app, ?length_replicate, <- ?app_assoc; do 3 f_equal; [| cbn [length]; lia].
  pose proof (Z.land_ones col 3 ltac:(lia)) as E. change (Z.ones 3) with 7 in E. pose proof (Z.mod_pos_bound col (2 ^ 3) ltac:(lia)). lia.
Qed.

Section screen.
Context (prompt : list Z) (p_buf : Z) (m0 : mem).
Abbreviation plen := (len prompt).

(** The prompt and [x] are shown, and [col] counts them. *)
Definition on_screen (x : list Z) (l : line) : Prop :=
  shows (prompt ++ x) (tputs (mk_term [] 0) (l_out l)) /\ l_col l = plen + len x.

Lemma tputs_app t a b : tputs t (a ++ b) = tputs (tputs t a) b.
Proof. unfold tputs. by rewrite fold_left_app. Qed.

Lemma echo_char_screen x c l : printable c -> on_screen x l -> on_screen (x ++ [c]) (echo_char c l).
Proof.
  intros Hc [H1 H2]. split; [| cbn; rewrite length_app; cbn; lia].
  cbn [echo_char set_col puts l_out]. rewrite tputs_app, app_assoc. by apply shows_putc.
Qed.

Lemma low_bits col : 0 <= Z.land col 7 < 8.
Proof. change 7 with (Z.ones 3). rewrite Z.land_ones by lia. apply Z.mod_pos_bound. lia. Qed.

Lemma echo_tab_screen x l : on_screen x l -> on_screen (x ++ replicate (Z.to_nat (8 - Z.land (l_col l) 7)) 32) (echo_tab l).
Proof.
  intros [H1 H2]. pose proof (low_bits (l_col l)). unfold echo_tab. split; [| cbn; rewrite length_app, length_replicate; lia]. cbn [set_col puts l_out].
  unfold tab_seq. rewrite drop_replicate, tputs_app, app_assoc. replace (8 - Z.to_nat (Z.land (l_col l) 7))%nat with (Z.to_nat (8 - Z.land (l_col l) 7)) by lia.
  apply shows_puts; [| done]. apply Forall_replicate. by unfold printable.
Qed.

Lemma erase_screen x y l : on_screen (x ++ [y]) l -> on_screen x (set_col (l_col l - 1) (puts erase_seq l)).
Proof.
  intros [H1 H2]. rewrite length_app in H2. cbn in H2. split; [| cbn; lia]. cbn [puts set_col l_out]. rewrite tputs_app. rewrite app_assoc in H1. by eapply shows_erase.
Qed.

Lemma erase_line_screen x l : on_screen x l -> on_screen [] (erase_line plen l).
Proof.
  intros H. unfold erase_line. replace (Z.to_nat (l_col l - plen)) with (length x) by (destruct H as [_ ->]; lia).
  revert l H. induction x as [|y x IH] using rev_ind; intros l H; [done |]. rewrite length_app, Nat.add_comm. cbn [length Nat.add erase_cols].
  rewrite (proj2 (Z.ltb_lt _ _)) by (destruct H as [_ ->]; rewrite length_app; cbn [length]; lia). apply IH. by eapply erase_screen.
Qed.

Definition typed (c : Z) : Prop := printable c \/ c = 9.

Lemma retype_screen s : forall a x l, load (l_mem l) a (length s) = s -> Forall typed s -> on_screen x l ->
  on_screen (x ++ render (plen + len x) s) (retype (length s) a l).
Proof.
  induction s as [|c s IH]; intros a x l Hl Hs H; [by rewrite app_nil_r |]. cbn [length load] in Hl. injection Hl as Hc Hl.
  apply Forall_cons in Hs as [Ht Hs]. cbn [length retype render]. rewrite Hc. destruct (Z.eqb_spec c 9) as [->|Hne].
  - pose proof (low_bits (l_col l)). pose proof (echo_tab_screen x l H) as H'. apply (IH (a + 1)) in H'; [| done | done].
    replace (plen + len x) with (l_col l) by apply H. rewrite app_assoc. rewrite length_app, length_replicate in H'.
    replace (l_col l + (8 - Z.land (l_col l) 7)) with (plen + Z.of_nat (length x + Z.to_nat (8 - Z.land (l_col l) 7))) by (pose proof (proj2 H); lia). exact H'.
  - destruct Ht as [Ht | ->]; [| done]. pose proof (echo_char_screen x c l Ht H) as H'. apply (IH (a + 1)) in H'; [| done | done].
    replace (x ++ c :: render (plen + len x + 1) s) with ((x ++ [c]) ++ render (plen + len (x ++ [c])) s); [exact H' |].
    rewrite <- app_assoc, length_app. cbn [app length]. do 3 f_equal. lia.
Qed.

(** The line is in the buffer and on the screen. *)
Definition consistent (s : list Z) (l : line) : Prop := holds p_buf m0 s l /\ on_screen (render plen s) l /\ Forall typed s.

Lemma delete_consistent s c l : consistent (s ++ [c]) l -> consistent s (delete_char p_buf plen l).
Proof.
  intros (H1 & H2 & H3). pose proof (holds_delete p_buf plen m0 s c l H1) as [H4 _]. apply Forall_app in H3 as [H3 Hc]. split_and!; [done | | done].
  destruct H1 as (A1 & A2 & A3 & _). rewrite length_app in *. cbn [length] in *. rewrite load_app in A1. apply app_inj_1 in A1 as [A1 A1']; [| by rewrite load_length].
  cbn in A1'. injection A1' as A1'. unfold delete_char. rewrite (proj2 (Z.eqb_neq _ _)) by lia.
  replace (l_p l - 1) with (p_buf + len s) by lia. rewrite A1'. rewrite render_app in H2. cbn [render] in H2. destruct (Z.eqb_spec c 9) as [->|Hne].
  - replace (Z.to_nat (p_buf + len s - p_buf)) with (length s) by lia.
    destruct (erase_line_same plen l) as (E & _). pose proof (retype_screen s p_buf [] (erase_line plen l)) as HR. cbn [app length] in HR. rewrite Z.add_0_r in HR.
    apply HR; [by rewrite E | done | by eapply erase_line_screen].
  - by eapply erase_screen.
Qed.

Lemma backspace_consistent s l : consistent s l -> consistent (rev (tail (rev s))) (delete_char p_buf plen l).
Proof.
  intros H. destruct s as [|x s _] using rev_ind; [by rewrite (holds_delete_nil p_buf plen m0) by apply H |].
  rewrite rev_app_distr. cbn [rev tail app]. rewrite rev_involutive. by eapply delete_consistent.
Qed.

Lemma typed_special c : typed c -> c <> 13 /\ c <> 10 /\ c <> 0 /\ c <> 3 /\ c <> 21 /\ c <> 23 /\ c <> 8 /\ c <> 127.
Proof. unfold typed, printable. lia. Qed.

(** The keys that edit. *)
Definition key (c : Z) : Prop := typed c \/ c = 0 \/ c = 21 \/ c = 23 \/ c = 8 \/ c = 127.
End screen.

(** A line with raw tabs. *)
Lemma shows_tab x t : shows x t -> shows (x ++ replicate (Z.to_nat (8 - Z.land (len x) 7)) 32) (tputc t 9).
Proof.
  intros [[k Hk] Hc]. pose proof (low_bits (len x)) as Hb. unfold tputc. cbn [Z.eqb Pos.eqb]. rewrite Hk, Hc.
  assert (E : (8 * (length x / 8 + 1) = length x + Z.to_nat (8 - Z.land (len x) 7))%nat).
  { pose proof (Z.land_ones (len x) 3 ltac:(lia)) as El. change (Z.ones 3) with 7 in El. rewrite El in *. change (2 ^ 3) with 8 in *.
    pose proof (Nat.div_mod_eq (length x) 8). pose proof (Nat2Z.inj_mod (length x) 8) as Em. change (Z.of_nat 8) with 8 in Em. rewrite <- Em in *. lia. }
  rewrite E, length_app, length_replicate. split; [| cbn; rewrite length_app, length_replicate; lia].
  set (b := Z.to_nat (8 - Z.land (len x) 7)). exists (k + (length x + b - (length x + k)) - b)%nat.
  cbn [cells]. rewrite <- !app_assoc, <- !replicate_add. do 2 f_equal. lia.
Qed.

Lemma shows_render s : forall x t, Forall typed s -> shows x t -> shows (x ++ render (len x) s) (tputs t s).
Proof.
  induction s as [|c s IH]; intros x t Hs H; [by rewrite app_nil_r |]. apply Forall_cons in Hs as [Hc Hs]. cbn [render]. change (tputs t (c :: s)) with (tputs (tputc t c) s).
  destruct (Z.eqb_spec c 9) as [->|Hne].
  - pose proof (low_bits (len x)). rewrite app_assoc. apply shows_tab in H. apply (IH _ _ Hs) in H. rewrite length_app, length_replicate in H.
    replace (Z.of_nat (length x + Z.to_nat (8 - Z.land (len x) 7))) with (len x + (8 - Z.land (len x) 7)) in H by lia. exact H.
  - destruct Hc as [Hc | ->]; [| done]. apply (shows_putc _ _ _ Hc) in H. apply (IH _ _ Hs) in H. rewrite length_app in H. cbn [length] in H.
    rewrite <- app_assoc in H. replace (Z.of_nat (length x + 1)) with (len x + 1) in H by lia. exact H.
Qed.

(** What the editor relies on for the screen: after a completion the terminal
    shows the line with what was added. *)
Class completer_shows `{completer_spec} : Prop :=
  completion_shows prompt p_buf m0 s t l l' : Forall printable prompt -> consistent prompt p_buf m0 s l -> l_mem l (l_p l) = 0 ->
    cmd_auto_complete prompt p_buf l = Some l' -> completion prompt s = Some t ->
    on_screen prompt (render (len prompt) (s ++ t)) l' /\ Forall typed t.

Section typing.
Context {Comp : completer} {Spec : completer_spec} {Shows : completer_shows} (prompt : list Z) (p_buf : Z) (m0 : mem).
Abbreviation plen := (len prompt).
Abbreviation consistent := (consistent prompt p_buf m0).

Lemma terminate_consistent s l : consistent s l -> consistent s (terminate l).
Proof. intros (H1 & H2 & H3). split_and!; [by apply terminate_holds | exact H2 | done]. Qed.

Lemma tab_consistent s l : Forall printable prompt -> consistent s l -> len s < CONFIG_SYS_CBSIZE - 2 ->
  exists l', readline_char prompt p_buf 9 l = inl l' /\ consistent (edit (completion prompt) 9 s) l'.
Proof.
  intros Hp Hc Hlt. unfold readline_char, edit. cbn [Z.eqb Pos.eqb orb].
  assert (En : l_n l = len s) by apply Hc. rewrite En, (proj2 (Z.ltb_lt _ _) Hlt).
  pose proof (proj2 (terminate_holds p_buf m0 s l (proj1 Hc))) as Hz. apply terminate_consistent in Hc. revert Hc Hz. generalize (terminate l) as l0. clear l En. intros l Hc Hz.
  pose proof (completion_holds prompt p_buf m0 s l (proj1 Hc) Hlt Hz) as Hh. destruct (cmd_auto_complete prompt p_buf l) as [l'|] eqn:E.
  - destruct Hh as (t & Et & Hh). rewrite Et. destruct (completion_shows prompt p_buf m0 s t l l' Hp Hc Hz E Et) as [Hs Ht].
    eexists. split; [done |]. split_and!; [exact Hh | exact Hs | apply Forall_app_2; [apply Hc | done]].
  - rewrite Hh. eexists. split; [done |]. destruct Hc as (H1 & H2 & H3). split_and!; [by apply append_holds | | apply Forall_app_2; [done | constructor; [by right | done]]].
    rewrite render_app. cbn [render Z.eqb Pos.eqb]. rewrite app_nil_r. rewrite <- (proj2 H2). by apply (echo_tab_screen prompt).
Qed.

Lemma char_consistent s c l : Forall printable prompt -> consistent s l -> key c ->
  exists l', readline_char prompt p_buf c l = inl l' /\ consistent (edit (completion prompt) c s) l'.
Proof.
  intros Hp Hl Hk. assert (En : l_n l = len s) by apply Hl. pose proof Hl as (H1 & H2 & H3).
  destruct (decide (c = 9 /\ len s < CONFIG_SYS_CBSIZE - 2)) as [[-> Hlt]|N9]; [by apply tab_consistent |]. unfold readline_char, edit.
  destruct Hk as [Ht | [-> | [-> | [-> | [-> | ->]]]]].
  - pose proof (typed_special c Ht) as (N1 & N2 & N3 & N4 & N5 & N6 & N7 & N8). rewrite !(proj2 (Z.eqb_neq c _)) by done. cbn [orb]. rewrite En.
    destruct (Z.ltb_spec (len s) (CONFIG_SYS_CBSIZE - 2)); [destruct (Z.eqb_spec c 9) as [->|Hne]; [tauto |] |].
    + destruct Ht as [Ht | ->]; [| done]. eexists. split; [done |]. split_and!; [by apply append_holds | | apply Forall_app_2; [done | constructor; [by left | done]]].
      rewrite render_app. cbn [render]. rewrite (proj2 (Z.eqb_neq c 9)) by done. by apply (echo_char_screen prompt).
    + eexists. split; [done |]. split_and!; [exact H1 | | done]. destruct H2 as [H2 E2]. split; [| exact E2]. cbn [puts l_out]. rewrite tputs_app. exact H2.
  - by eexists.
  - eexists. split; [done |]. split_and!; [| by eapply erase_line_screen | by constructor]. destruct (erase_line_same plen l) as (E & _).
    destruct H1 as (_ & _ & _ & _ & _ & H6). split_and!; cbn; try done; try lia. intros a Ha. rewrite E. by apply H6.
  - eexists. split; [done |]. apply (erase_word_ind p_buf plen m0 consistent); [by intros ? ? [] | | by rewrite rev_involutive; split_and!]. intros s' x l'. apply delete_consistent.
  - eexists. split; [done |]. by apply backspace_consistent.
  - eexists. split; [done |]. by apply backspace_consistent.
Qed.

End typing.
