(* ===== verification/Command.v ===== *)
(** * Commands: common/command.c and the start of [main_loop]

    The command table is searched by [find_cmd_tbl]; [do_test], [do_exit] and
    [do_echo] are the commands of the file itself; [autoboot] is [main_loop]
    of common/main.c up to its prompt.  Arguments are C strings, lists of
    characters without the NUL; [str_cmp] is [strcmp] on them (see
    [Strings]).  What the hush shell does with a line is not modelled.

    The theorems: an abbreviation is found exactly when it is the only one,
    a full name always; [test] evaluates its expression from left to right;
    the boot command runs exactly when no key is pressed in time. *)

From S2P Require Import Prelude Memory Strings Vsprintf Env.

Local Open Scope Z_scope.

Definition CONFIG_BOOTDELAY : Z := 3.

(** ** The table *)

(** What the search, the checks and the completion use of an entry;
    [c_complete] when its completion function is set, to [var_complete]. *)
Record cmd_tbl_t := mk_cmd { c_name : list Z; c_maxargs : Z; c_repeatable : Z; c_complete : bool }.

(** [strncmp] on two strings. *)
Fixpoint str_ncmp (count : nat) (s t : list Z) : Z :=
  match count with
  | O => 0
  | S k =>
      let r := s8 (hd 0 s - hd 0 t) in
      if negb (r =? 0) || (hd 0 s =? 0) then r else str_ncmp k (tail s) (tail t)
  end.

(** The length of the name before the first dot. *)
Definition stem (cmd : list Z) : list Z := take_while (fun c => negb (c =? 46)) cmd.

Fixpoint find_loop (cmd : list Z) (n : nat) (table : list cmd_tbl_t) (temp : option cmd_tbl_t) (n_found : Z) : option cmd_tbl_t :=
  match table with
  | [] => if n_found =? 1 then temp else None
  | e :: table =>
      if str_ncmp n cmd (c_name e) =? 0 then
        if (n =? length (c_name e))%nat then Some e else find_loop cmd n table (Some e) (n_found + 1)
      else find_loop cmd n table temp n_found
  end.

Definition find_cmd_tbl (cmd : list Z) (table : list cmd_tbl_t) : option cmd_tbl_t :=
  find_loop cmd (length (stem cmd)) table (hd_error table) 0.

(** The size behind the dot. *)
Definition cmd_get_data_size (arg : list Z) (default_size : Z) : Z :=
  let n := len arg in
  if (2 <? n) && (nthZ arg (n - 2) =? 46) then
    let c := nthZ arg (n - 1) in
    if c =? 98 then 1 else if c =? 119 then 2 else if c =? 108 then 4 else if c =? 115 then -2 else -1
  else default_size.

(** ** [test] *)

Definition eqs (a : list Z) (s : String.string) : bool := str_cmp a (str s) =? 0.
Arguments eqs a s%_string_scope.

Definition num (s : list Z) : Z := (simple_strtol s 10).1.

(** [ap[0]], [ap[1]] and [ap[2]]; none when the operator is unknown. *)
Definition compare3 (a op b : list Z) : option bool :=
  if eqs op "=" then Some (str_cmp a b =? 0)
  else if eqs op "!=" then Some (negb (str_cmp a b =? 0))
  else if eqs op ">" then Some (0 <? str_cmp a b)
  else if eqs op "<" then Some (str_cmp a b <? 0)
  else if eqs op "-eq" then Some (num a =? num b)
  else if eqs op "-ne" then Some (negb (num a =? num b))
  else if eqs op "-lt" then Some (num a <? num b)
  else if eqs op "-le" then Some (num a <=? num b)
  else if eqs op "-gt" then Some (num b <? num a)
  else if eqs op "-ge" then Some (num b <=? num a)
  else None.

Definition combine (last_cmp last_expr : Z) (e : bool) : Z :=
  if last_cmp =? 0 then Z.b2z (truth last_expr || e)
  else if last_cmp =? 1 then Z.b2z (truth last_expr && e)
  else Z.b2z e.

(** The loop; each turn takes at least one argument.  A [break] leaves with
    1. *)
Fixpoint test_loop (fuel : nat) (ap : list (list Z)) (expr last_expr last_cmp : Z) : Z :=
  match fuel, ap with
  | S f, a0 :: more =>
      if eqs a0 "-o" then test_loop f more expr expr 0
      else if eqs a0 "-a" then test_loop f more expr expr 1
      else if eqs a0 "-z" || eqs a0 "-n" then
        match more with
        | a1 :: more =>
            let e := if eqs a0 "-z" then len a1 =? 0 else negb (len a1 =? 0) in
            test_loop f more (combine last_cmp last_expr e) last_expr (-1)
        | _ => 1
        end
      else
        match more with
        | a1 :: a2 :: more =>
            match compare3 a0 a1 a2 with
            | Some e => test_loop f more (combine last_cmp last_expr e) last_expr (-1)
            | None => 1
            end
        | _ => 1
        end
  | _, _ => expr
  end.

(** [args] is [argv[1..]]. *)
Definition do_test (args : list (list Z)) : Z :=
  if (length args <? 2)%nat then 1
  else
    let '(neg, ap) := match args with a0 :: more => if eqs a0 "!" then (true, more) else (false, args) | [] => (false, []) end in
    let expr := test_loop (length ap) ap (-1) (-1) (-1) in
    let expr := if neg then Z.b2z (negb (truth expr)) else expr in
    Z.b2z (negb (truth expr)).

Definition do_exit (args : list (list Z)) : Z :=
  let r := match args with a :: _ => s32 (simple_strtoul a 10).1 | [] => 0 end in
  s32 (- r - 2).

(** ** [echo] *)

(** The characters of one argument, and whether the newline stays. *)
Fixpoint echo_arg (s : list Z) : list Z * bool :=
  match s with
  | [] => ([], true)
  | 92 :: 99 :: s => let '(o, _) := echo_arg s in (o, false)
  | c :: s => let '(o, nl) := echo_arg s in (c :: o, nl)
  end.

Fixpoint echo_args (args : list (list Z)) : list Z * bool :=
  match args with
  | [] => ([], true)
  | a :: args =>
      let '(o, nl) := echo_arg a in
      let '(o', nl') := echo_args args in
      (o ++ (match args with [] => [] | _ => [32] end) ++ o', nl && nl')
  end.

Definition do_echo (args : list (list Z)) : list Z := let '(o, nl) := echo_args args in o ++ (if nl then [10] else []).

(** ** The boot delay *)

Section delay.
Context (tstc : nat -> bool).  (** what the [k]-th call of [tstc] answers *)

Fixpoint delay_polls (n k : nat) : bool :=
  match n with O => false | S n => if tstc k then true else delay_polls n (S k) end.

Fixpoint abort_loop (bootdelay k : nat) : Z :=
  match bootdelay with
  | O => 0
  | S d => if delay_polls 100 k then 1 else abort_loop d (k + 100)
  end.

Definition abortboot (bootdelay : Z) : Z := abort_loop (Z.to_nat bootdelay) 0.

(** The command that [main_loop] runs before its prompt, if any. *)
Definition autoboot (e : env_store) : option (option (list Z)) :=
  s ← getenv_str e (str "bootdelay");
  let bootdelay := match s with Some s => (simple_strtol s 10).1 | None => CONFIG_BOOTDELAY end in
  c ← getenv_str e (str "bootcmd");
  Some (match c with
        | Some c => if (0 <=? bootdelay) && (abortboot bootdelay =? 0) then Some c else None
        | None => None
        end).
End delay.

(** ** Finding a command *)

Definition good_str (s : list Z) : Prop := Forall (fun c => 0 < c < 256) s.

Lemma good_str_cons c s : good_str (c :: s) <-> (0 < c < 256) /\ good_str s.
Proof. unfold good_str. by rewrite Forall_cons. Qed.

(** [str_ncmp] is [strncmp]. *)
Lemma strncmp_refines m n : forall cs ct s t, cstr m cs s -> cstr m ct t -> good_str s -> good_str t ->
  strncmp m cs ct (Z.of_nat n) = str_ncmp n s t.
Proof.
  unfold strncmp. rewrite Nat2Z.id. induction n as [|n IH]; intros cs ct s t Hs Ht Gs Gt; [done |]. cbn [strncmp_loop str_ncmp].
  assert (Hh : forall a u, cstr m a u -> m a = hd 0 u) by (intros a [|x u] Hu; [by apply cstr_nil in Hu | by apply cstr_cons in Hu as (_ & -> & _)]).
  rewrite (Hh cs s Hs), (Hh ct t Ht). destruct (Z.eqb_spec (s8 (hd 0 s - hd 0 t)) 0) as [E|]; [| done]. destruct (Z.eqb_spec (hd 0 s) 0) as [|Hne]; [done |].
  cbn [negb orb]. rewrite E. destruct s as [|c s]; [done |]. rewrite good_str_cons in Gs. cbn [hd] in E, Hne. destruct t as [|d t].
  { exfalso. cbn [hd] in E. revert E. destruct Gs as [? _]. wrap_lia. }
  rewrite good_str_cons in Gt. rewrite cstr_cons in Hs, Ht. destruct Gs, Gt, Hs as (_ & _ & Hs), Ht as (_ & _ & Ht). cbn [tail]. by apply IH.
Qed.

(** It is zero when the first [n] characters agree. *)
Lemma str_ncmp_zero n : forall s t, good_str s -> good_str t -> (n <= length s)%nat -> str_ncmp n s t = 0 <-> take n s = take n t.
Proof.
  induction n as [|n IH]; intros s t Gs Gt Hn; [done |]. destruct s as [|c s]; [cbn in Hn; lia |]. rewrite good_str_cons in Gs. destruct Gs as [Gc Gs].
  cbn [str_ncmp hd tail]. destruct t as [|d t]; cbn [hd tail take].
  - assert (E : s8 (c - 0) <> 0) by wrap_lia. rewrite (proj2 (Z.eqb_neq _ _) E). cbn. split; [done | by intros [=]].
  - rewrite good_str_cons in Gt. destruct Gt as [Gd Gt]. rewrite (proj2 (Z.eqb_neq c 0)) by lia. rewrite orb_false_r.
    destruct (Z.eqb_spec (s8 (c - d)) 0) as [E|E]; cbn [negb].
    + rewrite IH by (done || cbn in Hn; lia). assert (c = d) as -> by wrap_lia. split; [by intros -> | by intros [= ->]].
    + split; [done |]. intros [= -> _]. exfalso. apply E. by rewrite Z.sub_diag.
Qed.

Definition abbreviates (s : list Z) (e : cmd_tbl_t) : bool := bool_decide (take (length s) (c_name e) = s).
Definition named (s : list Z) (e : cmd_tbl_t) : bool := bool_decide (c_name e = s).

Lemma stem_prefix cmd : take (length (stem cmd)) cmd = stem cmd.
Proof. unfold stem. induction cmd as [|c cmd IH]; [done |]. cbn. destruct (c =? 46); [done |]. cbn. by rewrite IH. Qed.

Lemma stem_length cmd : (length (stem cmd) <= length cmd)%nat.
Proof. rewrite <- stem_prefix at 1. rewrite length_take. lia. Qed.

(** C36: the search in the command table.  The name is what stands before the
    first dot.  An entry with exactly this name is found, also when other
    names begin with it; otherwise the entry is found whose name begins with
    it, when there is exactly one, and none when there are several. *)
Theorem find_cmd_spec cmd table : good_str cmd -> Forall (fun e => good_str (c_name e)) table ->
  find_cmd_tbl cmd table =
  match List.find (named (stem cmd)) table with
  | Some e => Some e
  | None => match List.filter (abbreviates (stem cmd)) table with [e] => Some e | _ => None end
  end.
Proof.
  intros Gc Gt. unfold find_cmd_tbl.
  assert (Hm : forall e, good_str (c_name e) -> (str_ncmp (length (stem cmd)) cmd (c_name e) =? 0) = abbreviates (stem cmd) e).
  { intros e Ge. unfold abbreviates. apply eq_true_iff_eq. rewrite Z.eqb_eq, bool_decide_eq_true, str_ncmp_zero by (done || apply stem_length).
    rewrite stem_prefix. split; congruence. }
  assert (Hf : forall e, abbreviates (stem cmd) e = true -> (length (stem cmd) =? length (c_name e))%nat = named (stem cmd) e).
  { intros e He%bool_decide_eq_true. apply eq_true_iff_eq. unfold named. rewrite Nat.eqb_eq, bool_decide_eq_true. split; [| by intros ->].
    intros El. by rewrite El, firstn_all in He. }
  assert (Hn : forall e, named (stem cmd) e = true -> abbreviates (stem cmd) e = true).
  { intros e He%bool_decide_eq_true. apply bool_decide_eq_true. rewrite <- He. apply firstn_all. }
  cut (forall before temp n, n = len (List.filter (abbreviates (stem cmd)) before) ->
    (n = 1 -> List.filter (abbreviates (stem cmd)) before = option_list temp) ->
    find_loop cmd (length (stem cmd)) table temp n =
    match List.find (named (stem cmd)) table with
    | Some e => Some e
    | None => match List.filter (abbreviates (stem cmd)) (before ++ table) with [e] => Some e | _ => None end
    end).
  { intros H. by apply (H []). }
  induction Gt as [|e table Ge Gt IH]; intros before temp n Hb Hone.
  - rewrite app_nil_r. cbn [find_loop List.find]. destruct (Z.eqb_spec n 1) as [E|E].
    + rewrite (Hone E). destruct temp; [done |]. rewrite (Hone E) in Hb. cbn in Hb. lia.
    + destruct (List.filter _ before) as [|x [|y l]]; [done | cbn in Hb; lia | done].
  - cbn [find_loop List.find]. rewrite Hm by done. destruct (abbreviates (stem cmd) e) eqn:Ea.
    + rewrite Hf by done. destruct (named (stem cmd) e); [done |].
      assert (Hfe : List.filter (abbreviates (stem cmd)) (before ++ [e]) = List.filter (abbreviates (stem cmd)) before ++ [e]) by (rewrite List.filter_app; cbn; by rewrite Ea).
      rewrite (IH (before ++ [e])).
      * by rewrite <- app_assoc.
      * rewrite Hfe, length_app. cbn [length]. lia.
      * intros Hone'. rewrite Hfe. destruct (List.filter _ before); [done | cbn in Hb; lia].
    + destruct (named (stem cmd) e) eqn:En; [by rewrite (Hn e En) in Ea |].
      assert (Hfe : List.filter (abbreviates (stem cmd)) (before ++ [e]) = List.filter (abbreviates (stem cmd)) before) by (rewrite List.filter_app; cbn; by rewrite Ea, app_nil_r).
      rewrite (IH (before ++ [e])); [by rewrite <- app_assoc | by rewrite Hfe | by rewrite Hfe].
Qed.

(** ** Expressions *)

Inductive cmpop := OEq | ONe | OGt | OLt | NEq | NNe | NLt | NLe | NGt | NGe.

Definition op_name (o : cmpop) : list Z :=
  match o with
  | OEq => str "=" | ONe => str "!=" | OGt => str ">" | OLt => str "<" | NEq => str "-eq"
  | NNe => str "-ne" | NLt => str "-lt" | NLe => str "-le" | NGt => str "-gt" | NGe => str "-ge"
  end.

(** The strings are compared as [lex] orders them, the numbers as [num]
    reads them. *)
Definition op_holds (o : cmpop) (a b : list Z) : bool :=
  match o with
  | OEq => bool_decide (a = b)
  | ONe => bool_decide (a <> b)
  | OGt => bool_decide (lex a b = Gt)
  | OLt => bool_decide (lex a b = Lt)
  | NEq => num a =? num b
  | NNe => negb (num a =? num b)
  | NLt => num a <? num b
  | NLe => num a <=? num b
  | NGt => num b <? num a
  | NGe => num b <=? num a
  end.

(** A primary, and a chain of them. *)
Inductive primary := Empty (s : list Z) | Nonempty (s : list Z) | Compare (a : list Z) (o : cmpop) (b : list Z).
Inductive connective := And | Or.

Definition primary_args (p : primary) : list (list Z) :=
  match p with Empty s => [str "-z"; s] | Nonempty s => [str "-n"; s] | Compare a o b => [a; op_name o; b] end.
Definition primary_holds (p : primary) : bool :=
  match p with Empty s => bool_decide (s = []) | Nonempty s => bool_decide (s <> []) | Compare a o b => op_holds o a b end.
Definition connective_arg (c : connective) : list Z := match c with And => str "-a" | Or => str "-o" end.

Abbreviation chain := (list (connective * primary)).
Definition chain_args (l : chain) : list (list Z) := concat (map (fun x => connective_arg x.1 :: primary_args x.2) l).

(** From left to right, with no precedence. *)
Definition chain_holds (b : bool) (l : chain) : bool :=
  fold_left (fun b x => match x.1 with And => b && primary_holds x.2 | Or => b || primary_holds x.2 end) l b.

Definition ascii_str (s : list Z) : Prop := Forall (fun c => 0 < c < 128) s.

(** The first string of a comparison is not taken for an operator. *)
Definition primary_ok (p : primary) : Prop :=
  match p with
  | Compare a _ b => ascii_str a /\ ascii_str b /\ a <> str "-o" /\ a <> str "-a" /\ a <> str "-z" /\ a <> str "-n"
  | _ => True
  end.

Lemma ascii_str_good s : ascii_str s -> Forall byte s /\ Forall (fun c => c <> 0) s.
Proof. intros H. split; (eapply Forall_impl; [exact H |]); cbn; unfold byte; lia. Qed.

Lemma str_cmp_eq a b : ascii_str a -> ascii_str b -> (str_cmp a b =? 0) = bool_decide (a = b).
Proof.
  intros Ha Hb. apply eq_true_iff_eq. destruct (ascii_str_good a Ha), (ascii_str_good b Hb). by rewrite Z.eqb_eq, bool_decide_eq_true, str_cmp_zero.
Qed.

Lemma literal_ascii s : forallb (fun c => (0 <? c) && (c <? 128)) (str s) = true -> ascii_str (str s).
Proof. intros H. apply Forall_forall. intros c Hc%list_elem_of_In. rewrite forallb_forall in H. apply H in Hc. lia. Qed.

Lemma eqs_spec a s : ascii_str a -> forallb (fun c => (0 <? c) && (c <? 128)) (str s) = true -> eqs a s = bool_decide (a = str s).
Proof. intros Ha Hs. unfold eqs. apply str_cmp_eq; [done | by apply literal_ascii]. Qed.

Lemma compare3_op a o b : ascii_str a -> ascii_str b -> compare3 a (op_name o) b = Some (op_holds o a b).
Proof.
  intros Ha Hb. unfold compare3. pose proof (str_cmp_eq a b Ha Hb) as E. pose proof (str_cmp_lex a b Ha Hb) as L.
  destruct o; cbn; rewrite ?E; f_equal; try done.
  - by rewrite bool_decide_not.
  - rewrite <- L. apply eq_true_iff_eq. by rewrite Z.ltb_lt, bool_decide_eq_true, Z.compare_gt_iff.
  - rewrite <- L. apply eq_true_iff_eq. by rewrite Z.ltb_lt, bool_decide_eq_true, Z.compare_lt_iff.
Qed.

Lemma len_zero (s : list Z) : (len s =? 0) = bool_decide (s = []).
Proof. by destruct s. Qed.

Lemma test_primary f p more expr last_expr last_cmp : primary_ok p ->
  test_loop (S f) (primary_args p ++ more) expr last_expr last_cmp = test_loop f more (combine last_cmp last_expr (primary_holds p)) last_expr (-1).
Proof.
  destruct p as [s|s|a o b]; intros H; cbn [primary_args app primary_holds].
  - cbn [test_loop]. rewrite <- len_zero. reflexivity.
  - cbn [test_loop]. rewrite bool_decide_not, <- len_zero. reflexivity.
  - destruct H as (Ha & Hb & H1 & H2 & H3 & H4). cbn [test_loop]. rewrite !eqs_spec by done. rewrite !bool_decide_false by done. cbn [orb].
    by rewrite compare3_op.
Qed.

Lemma test_connective f c more expr last_expr last_cmp :
  test_loop (S f) (connective_arg c :: more) expr last_expr last_cmp = test_loop f more expr expr (match c with And => 1 | Or => 0 end).
Proof. by destruct c. Qed.

Lemma truth_b2z b : truth (Z.b2z b) = b.
Proof. by destruct b. Qed.

Lemma test_chain l : forall f b last_expr, Forall (fun x => primary_ok x.2) l -> (length (chain_args l) <= f)%nat ->
  test_loop f (chain_args l) (Z.b2z b) last_expr (-1) = Z.b2z (chain_holds b l).
Proof.
  induction l as [|[c p] l IH]; intros f b le Hok Hf; [by destruct f |]. apply Forall_cons in Hok as [Hp Hok]. cbn [snd] in Hp.
  change (chain_args ((c, p) :: l)) with (connective_arg c :: primary_args p ++ chain_args l) in *. cbn [length] in Hf. rewrite length_app in Hf.
  assert (Hl : (2 <= length (primary_args p))%nat) by (destruct p; cbn; lia).
  destruct f as [|[|f]]; [lia | lia |]. rewrite test_connective, test_primary by done.
  assert (Ec : combine (match c with And => 1 | Or => 0 end) (Z.b2z b) (primary_holds p) = Z.b2z (match c with And => b && primary_holds p | Or => b || primary_holds p end)).
  { destruct c; unfold combine; cbn; by rewrite truth_b2z. }
  rewrite Ec, IH; [by destruct c | done | lia].
Qed.

(** [test] evaluates an expression of any length from left to right:
    after each "-a" or "-o" the value so far is combined with the next
    comparison, without precedence, and a leading "!" negates the whole.  It
    returns 0 when the expression holds and 1 otherwise. *)
Theorem do_test_evaluates (neg : bool) p l : primary_ok p -> Forall (fun x => primary_ok x.2) l -> hd [] (primary_args p) <> str "!" ->
  do_test ((if neg then [str "!"] else []) ++ primary_args p ++ chain_args l) = if xorb neg (chain_holds (primary_holds p) l) then 0 else 1.
Proof.
  intros Hp Hl Hne. set (ap := primary_args p ++ chain_args l).
  assert (E : test_loop (length ap) ap (-1) (-1) (-1) = Z.b2z (chain_holds (primary_holds p) l)).
  { subst ap. assert (Hn : (2 <= length (primary_args p))%nat) by (destruct p; cbn; lia). rewrite length_app.
    destruct (length (primary_args p)) as [|n]; [lia |]. cbn [Nat.add]. rewrite test_primary by done. apply (test_chain l); [done | lia]. }
  assert (H2 : (2 <= length ap)%nat) by (subst ap; rewrite length_app; destruct p; cbn; lia).
  unfold do_test. destruct neg.
  - cbn [app length]. rewrite (proj2 (Nat.ltb_ge _ _)) by lia. change (eqs (str "!") "!") with true. cbv iota. rewrite E, !truth_b2z.
    by destruct (chain_holds _ _).
  - cbn [app]. rewrite (proj2 (Nat.ltb_ge _ _)) by lia.
    assert (Hh : match ap with a0 :: more => if eqs a0 "!" then (true, more) else (false, ap) | [] => (false, []) end = (false, ap)).
    { destruct ap as [|a0 more] eqn:Ea; [cbn in H2; lia |]. assert (H0 : a0 = hd [] (primary_args p)) by (destruct p; by injection Ea).
      assert (Hg : eqs a0 "!" = false); [| by rewrite Hg]. rewrite H0. destruct p as [s|s|a o b]; [done | done |]. cbn [hd primary_args] in *.
      rewrite eqs_spec by (done || apply Hp). by apply bool_decide_false. }
    rewrite Hh. cbv iota. rewrite E, !truth_b2z. by destruct (chain_holds _ _).
Qed.

(** ** The boot delay *)

Lemma delay_polls_seq tstc n : forall k, delay_polls tstc n k = existsb tstc (List.seq k n).
Proof. induction n as [|n IH]; intros k; [done |]. cbn [delay_polls List.seq existsb]. rewrite IH. by destruct (tstc k). Qed.

Lemma abort_loop_seq tstc d : forall k, abort_loop tstc d k = Z.b2z (existsb tstc (List.seq k (d * 100))).
Proof.
  induction d as [|d IH]; intros k; [done |]. cbn [abort_loop]. rewrite delay_polls_seq, IH. change (S d * 100)%nat with (100 + d * 100)%nat.
  rewrite List.seq_app, existsb_app. by destruct (existsb tstc (List.seq k 100)).
Qed.

(** Each second of the delay polls the console a hundred times. *)
Lemma abortboot_spec tstc d : abortboot tstc d = 0 <-> forall k, Z.of_nat k < 100 * d -> tstc k = false.
Proof.
  unfold abortboot. rewrite abort_loop_seq. destruct (existsb _ _) eqn:E; cbn [Z.b2z].
  - split; [done |]. intros H. apply existsb_exists in E as (k & Hk & Ht). apply in_seq in Hk. rewrite H in Ht; [done | lia].
  - split; [| done]. intros _ k Hk. destruct (tstc k) eqn:Ht; [| done]. rewrite <- E. symmetry. apply existsb_exists. exists k. split; [apply in_seq; lia | done].
Qed.

(** The delay the environment asks for. *)
Definition delay_of (es : list var) : Z := match env_lookup (str "bootdelay") es with Some s => num s | None => CONFIG_BOOTDELAY end.

(** The boot command.  [main_loop] runs the value of [bootcmd] exactly
    when the variable is defined, [bootdelay] (three seconds when it is not
    defined) is not negative, and no key is pressed in any of the hundred
    polls of each second. *)
Theorem autoboot_runs tstc e es c : env_is e es ->
  autoboot tstc e = Some (Some c) <->
  env_lookup (str "bootcmd") es = Some c /\ 0 <= delay_of es /\ forall k, Z.of_nat k < 100 * delay_of es -> tstc k = false.
Proof.
  intros He. unfold autoboot. rewrite !(getenv_str_lookup e es) by (done || by apply str_good). cbn [mbind option_bind].
  change (match env_lookup (str "bootdelay") es with Some s => (simple_strtol s 10).1 | None => CONFIG_BOOTDELAY end) with (delay_of es).
  rewrite <- abortboot_spec. destruct (env_lookup (str "bootcmd") es) as [b|]; [| split; [done | by intros []]].
  destruct (Z.leb_spec 0 (delay_of es)), (Z.eqb_spec (abortboot tstc (delay_of es)) 0); cbn [andb]; (split; [naive_solver | naive_solver lia]).
Qed.

(** ** Edges *)

(** A text without backslashes is printed as it is, the arguments separated
    by a blank. *)
Lemma echo_arg_plain s : Forall (fun c => c <> 92) s -> echo_arg s = (s, true).
Proof.
  induction s as [|c s IH]; [done |]. intros [Hc Hs]%Forall_cons. cbn [echo_arg]. rewrite (IH Hs).
  destruct c as [|q|q]; try done. repeat (destruct q as [q|q|]; try done).
Qed.

(** An expression with an unknown operator is true. *)
Lemma unknown_operator_true : do_test [str "a"; str "=="; str "b"] = 0.
Proof. reflexivity. Qed.

(** The negation covers the whole expression: here the first comparison
    alone would be negated by the shell's [test]. *)
Lemma negation_covers_all : do_test [str "!"; str "a"; str "="; str "b"; str "-a"; str "c"; str "="; str "d"] = 0.
Proof. reflexivity. Qed.

(** ** Concrete commands *)

Definition demo_table : list cmd_tbl_t := [mk_cmd (str "cmp") 4 1 false; mk_cmd (str "cp") 4 1 false; mk_cmd (str "md") 3 1 false; mk_cmd (str "mm") 2 1 false].

Lemma find_cmd_spec_witness : find_cmd_tbl (str "cp.b") demo_table = Some (mk_cmd (str "cp") 4 1 false) /\ find_cmd_tbl (str "m") demo_table = None.
Proof.
  assert (Hg : forall s, forallb (fun c => (0 <? c) && (c <? 256)) s = true -> good_str s).
  { intros s H. apply Forall_forall. intros c Hc%list_elem_of_In. rewrite forallb_forall in H. apply H in Hc. lia. }
  assert (Ht : Forall (fun e => good_str (c_name e)) demo_table) by (repeat (apply Forall_cons; split; [by apply Hg |]); by apply Forall_nil).
  split; [rewrite (find_cmd_spec (str "cp.b") demo_table) by (done || by apply Hg) | rewrite (find_cmd_spec (str "m") demo_table) by (done || by apply Hg)]; reflexivity.
Defined.

Lemma do_test_evaluates_witness :
  do_test [str "!"; str "-n"; str ""; str "-o"; str "17"; str "-lt"; str "9"; str "-a"; str "ab"; str "<"; str "b"] = 0.
Proof.
  apply (do_test_evaluates true (Nonempty []) [(Or, Compare (str "17") NLt (str "9")); (And, Compare (str "ab") OLt (str "b"))]).
  - done.
  - repeat (apply Forall_cons; split; [split_and!; try done; by apply literal_ascii |]). by apply Forall_nil.
  - done.
Defined.

Lemma autoboot_runs_witness : autoboot (fun _ => false) demo_store = Some (Some (str "bootm")) <->
  env_lookup (str "bootcmd") default_vars = Some (str "bootm") /\ 0 <= delay_of default_vars /\ forall k, Z.of_nat k < 100 * delay_of default_vars -> false = false.
Proof.
  apply (autoboot_runs (fun _ => false) demo_store default_vars (str "bootm")). split_and!; [by split_and! | apply demo_array_holds | by_eval].
Defined.
