(* ===== verification/Complete.v ===== *)
(** * Completion of a command line: common/command.c

    [cmd_auto_complete] and what it calls.  A string is a list; [past name k]
    is the string that memory holds [k] bytes behind the start of a name that
    is shorter than [k], and [stray] the length of what the word before the
    first of [argv] points to: the code reads both in the cases shown at the
    end.  The static buffer of [var_complete] is the list that [env_complete]
    gives.

    The theorems: the completion keeps within the interface that the line
    editor relies on (see [Readline]), and what it adds to a word is common to
    everything the word may stand for. *)

From S2P Require Import Prelude Memory Strings Env Readline Command.

Local Open Scope Z_scope.

Definition CONFIG_SYS_MAXARGS : nat := 16.

(** ** The handlers *)

(** The names in the table differ: each belongs to a symbol of the linker. *)
Definition install_auto_complete_handler (cmd : list Z) (table : list cmd_tbl_t) : list cmd_tbl_t :=
  match find_cmd_tbl cmd table with
  | None => table
  | Some f => map (fun e => if streq (c_name e) (c_name f) then mk_cmd (c_name e) (c_maxargs e) (c_repeatable e) true else e) table
  end.

Definition install_auto_complete (table : list cmd_tbl_t) : list cmd_tbl_t :=
  install_auto_complete_handler (str "run") (install_auto_complete_handler (str "setenv") (install_auto_complete_handler (str "printenv") table)).

(** ** Words and lists *)

Definition blank (c : Z) : bool := (c =? 32) || (c =? 9).

(** At most [argvsz - 1] words. *)
Fixpoint make_argv (k : nat) (s : list Z) : list (list Z) :=
  match k with
  | O => []
  | S k =>
      match drop_while blank s with
      | [] => []
      | s => take_while (fun c => negb (blank c)) s :: make_argv k (tail (drop_while (fun c => negb (blank c)) s))
      end
  end.

(** The loop of [print_argv]; [i] is the column. *)
Fixpoint print_loop (leader sep : list Z) (linemax i : Z) (argv : list (list Z)) : list Z :=
  match argv with
  | [] => []
  | a :: argv =>
      let n := len a + len sep in
      if linemax <=? i + n then [10] ++ leader ++ a ++ print_loop leader sep linemax (len leader - len sep + n) argv
      else sep ++ a ++ print_loop leader sep linemax (i + n) argv
  end.

Definition print_argv (leader sep : list Z) (linemax : Z) (argv : list (list Z)) : list Z :=
  print_loop leader sep linemax linemax argv ++ [10].

(** How far [t] is the same as the first [n] characters of the anchor. *)
Fixpoint agree (n : nat) (s t : list Z) : nat :=
  match n with
  | O => 0
  | S n => if hd 0 t =? hd 0 s then S (agree n (tail s) (tail t)) else 0
  end.

Definition find_common_prefix (argv : list (list Z)) : nat :=
  match argv with
  | [] => 0
  | anchor :: argv => fold_left (fun n t => agree n anchor t) argv (length anchor)
  end.

Section complete.
Context (table : list cmd_tbl_t) (w : env_store) (past : list Z -> nat -> list Z) (stray : nat).

(** ** What may stand there *)

(** An environment without an end is not completed; see [env_complete]. *)
Definition var_complete (argv : list (list Z)) (last_char : Z) (maxv : Z) : list (list Z) :=
  let space := (last_char =? 0) || (last_char =? 32) || (last_char =? 9) in
  match argv with
  | [_] => if space then default [] (env_complete w [] maxv 512) else []
  | [_; a] => if space then [] else default [] (env_complete w a maxv 512)
  | _ => []
  end.

(** The names among the table's that [p] accepts, three dots for the rest. *)
Fixpoint list_cmds (p : cmd_tbl_t -> bool) (maxv : Z) (t : list cmd_tbl_t) (cmdv : list (list Z)) : list (list Z) :=
  match t with
  | [] => cmdv
  | e :: t =>
      if p e then
        if maxv - 2 <=? len cmdv then cmdv ++ [str "..."] else list_cmds p maxv t (cmdv ++ [c_name e])
      else list_cmds p maxv t cmdv
  end.

(** [clen < len], and [memcmp] of [len] bytes. *)
Definition partial_match (cmd : list Z) (e : cmd_tbl_t) : bool :=
  let n := length (stem cmd) in
  negb (length (c_name e) <? n)%nat && streq (take n (c_name e)) (take n cmd).

Definition complete_cmdv (argv : list (list Z)) (last_char : Z) (maxv : Z) : list (list Z) :=
  match argv with
  | [] => list_cmds (fun _ => true) maxv table []
  | cmd :: _ =>
      if (1 <? length argv)%nat || ((last_char =? 0) || (last_char =? 32) || (last_char =? 9)) then
        match find_cmd_tbl cmd table with
        | Some e => if c_complete e then var_complete argv last_char maxv else []
        | None => []
        end
      else list_cmds (partial_match cmd) maxv table []
  end.

(** ** The completion *)

(** What [cmd_auto_complete] decides up to [if (s != NULL)]: to return 0, to
    ring, to add [t] and a separator, or to list what is possible. *)
Inductive decision := Declines | Rings | Adds (t sep : list Z) | Lists (cmdv : list (list Z)).

(** [name + k]. *)
Definition from (name : list Z) (k : nat) : list Z := if (k <=? length name)%nat then drop k name else past name k.

Definition decide_completion (s : list Z) : decision :=
  let last_char := if 1 <=? len s then nthZ s (len s - 1) else 0 in
  let argv := make_argv CONFIG_SYS_MAXARGS s in
  let cmdv := complete_cmdv argv last_char 20 in
  let k := match last argv with Some a => length a | None => stray end in
  match cmdv with
  | [] => if (1 <? length argv)%nat then Declines else Rings
  | [c] => Adds (from c k) [32]
  | c :: _ =>
      let j := find_common_prefix cmdv in
      if negb (j =? 0)%nat && (k <? j)%nat then Adds (take (j - k) (from c k)) [] else Lists cmdv
  end.

(** The string at [a] in the buffer. *)
Definition buffer_string (m : mem) (a : Z) : list Z := take_while (fun c => negb (c =? 0)) (load m a (Z.to_nat CONFIG_SYS_CBSIZE)).

Definition add_text (buf : Z) (s t sep : list Z) (l : line) : line :=
  let k := len t + len sep in
  mk_line (store_list (l_mem l) (buf + len s) (t ++ sep ++ [0])) (l_p l) (l_n l + k) (l_col l + k)
    (l_out l ++ t ++ sep ++ match sep with [] => [7] | _ => [] end).

#[local] Instance cmd_auto_complete_op : completer := fun prompt buf l =>
  if negb (streq prompt CONFIG_SYS_PROMPT) then None
  else
    let s := buffer_string (l_mem l) buf in
    match decide_completion s with
    | Declines => None
    | Rings => Some (puts [7] l)
    | Adds t sep =>
        if CONFIG_SYS_CBSIZE - 2 <=? l_n l + (len t + len sep) then Some (puts [7] l)
        else Some (add_text buf s t sep l)
    | Lists cmdv => Some (puts (print_argv (str "  ") (str " ") 78 cmdv ++ prompt ++ s) l)
    end.
End complete.

(** ** The candidates *)

(** [cmdv] is the list [ns], or a part of it and three dots. *)
Definition listed (ns cmdv : list (list Z)) : Prop := cmdv = ns \/ exists k, (k < length ns)%nat /\ cmdv = take k ns ++ [str "..."].

Definition starts (v n : list Z) : bool := bool_decide (take (length v) n = v).

Lemma listed_cons n ns cmdv : listed ns cmdv -> listed (n :: ns) (n :: cmdv).
Proof. intros [-> | (k & Hk & ->)]; [by left | right; exists (S k); split; [cbn; lia | done]]. Qed.

Lemma listed_full n ns : listed (n :: ns) [str "..."].
Proof. right. exists 0%nat. split; [cbn; lia | done]. Qed.

Lemma starts_spec v n : starts v n = true <-> exists t, n = v ++ t.
Proof.
  unfold starts. rewrite bool_decide_eq_true. split; [intros E; exists (drop (length v) n); by rewrite <- E at 1; rewrite take_drop |].
  intros [t ->]. by rewrite take_app_length.
Qed.

Lemma list_cmds_listed p maxv t : forall acc, exists L, list_cmds p maxv t acc = acc ++ L /\ listed (map c_name (List.filter p t)) L.
Proof.
  induction t as [|e t IH]; intros acc; cbn [list_cmds List.filter].
  { exists []. rewrite app_nil_r. split; [done | by left]. }
  destruct (p e); [| apply IH]. destruct (_ <=? _); [exists [str "..."]; split; [done | apply listed_full] |].
  destruct (IH (acc ++ [c_name e])) as (L & -> & HL). exists (c_name e :: L). rewrite <- app_assoc. split; [done | by apply listed_cons].
Qed.

(** One variable. *)
Lemma env_complete_step d var maxv n v fuel i bufsz acc : good_var (n, v) -> cstr d i (entry (n, v)) -> len (entry (n, v)) < CONFIG_ENV_SIZE ->
  env_complete_loop (S fuel) d var maxv bufsz i acc =
    let nxt := i + len (entry (n, v)) + 1 in
    if negb (starts var n) then env_complete_loop fuel d var maxv bufsz nxt acc
    else if (len acc >=? maxv - 2) || (bufsz <? len n + 1) then Some (acc ++ [str "..."])
    else env_complete_loop fuel d var maxv (bufsz - len n - 1) nxt (acc ++ [n]).
Proof.
  intros [Hn Hv] Hc Hl. cbn [fst snd] in Hn, Hv. pose proof (entry_length (n, v)) as Hel. cbn [fst snd] in Hel. cbn [env_complete_loop].
  rewrite (proj2 (Z.eqb_neq (d i) 0)) by (rewrite <- (Z.add_0_r i); eapply cstr_nonzero; [exact Hc | lia]).
  rewrite (entry_end_spec d i _ Hc) by lia. replace (Z.to_nat (i + len (entry (n, v)) - i)) with (length (entry (n, v))) by lia.
  rewrite (proj1 Hc). assert (En : take_while (fun c => negb (c =? 61)) (entry (n, v)) = n).
  { unfold entry. cbn [fst snd]. apply good_name_chars in Hn. clear -Hn. induction Hn as [|c n [_ Hc] _ IH]; [done |]. cbn [app take_while]. rewrite (proj2 (Z.eqb_neq c 61) Hc). cbn [negb]. by rewrite IH. }
  rewrite En. assert (Em : (0 <? len var) && ((len n <? len var) || negb (bool_decide (load d i (length var) = var))) = negb (starts var n)).
  { destruct var as [|x var]; [unfold starts; by rewrite bool_decide_eq_true_2 |]. rewrite (proj2 (Z.ltb_lt 0 _)) by (cbn [length]; lia). cbn [andb]. set (u := x :: var) in *.
    destruct (Z.ltb_spec (len n) (len u)) as [Hlt|Hge]; cbn [orb].
    - symmetry. apply negb_true_iff, not_true_iff_false. rewrite starts_spec. intros [t ->]. rewrite length_app in Hlt. lia.
    - unfold starts. do 2 f_equal. rewrite (cstr_load d i _ _ Hc) by (unfold u in *; lia). unfold entry. cbn [fst snd]. rewrite take_app_le by lia. done. }
  by rewrite Em.
Qed.

Lemma env_complete_loop_listed d var maxv : forall es fuel i bufsz acc,
  Forall good_var es -> strs_at d i (map entry es) -> d (i + size_of es) = 0 -> 0 <= i -> i + size_of es < CONFIG_ENV_SIZE -> (length es < fuel)%nat ->
  exists L, env_complete_loop fuel d var maxv bufsz i acc = Some (acc ++ L) /\ listed (List.filter (starts var) es.*1) L /\
    forall n ns, List.filter (starts var) es.*1 = n :: ns -> acc = [] -> 2 < maxv -> len n < bufsz -> exists L', L = n :: L'.
Proof.
  induction es as [|[n v] es IH]; intros [|fuel] i bufsz acc Hg Hs Hz Hi Hsz Hf; simpl in Hg, Hs, Hz, Hsz, Hf |- *; try lia.
  { rewrite Z.add_0_r in Hz. rewrite Hz. exists []. rewrite app_nil_r. split_and!; [done | by left | done]. }
  apply Forall_cons in Hg as [Hx Hg]. destruct Hs as (Hne & Hc & Hs). pose proof (flen_nonneg (map entry es)).
  assert (HI : forall b acc', exists L, env_complete_loop fuel d var maxv b (i + len (entry (n, v)) + 1) acc' = Some (acc' ++ L) /\ listed (List.filter (starts var) es.*1) L /\
    forall n ns, List.filter (starts var) es.*1 = n :: ns -> acc' = [] -> 2 < maxv -> len n < b -> exists L', L = n :: L').
  { intros b acc'. apply IH; try done; try lia. by replace (i + len (entry (n, v)) + 1 + size_of es) with (i + (len (entry (n, v)) + 1 + size_of es)) by lia. }
  pose proof (env_complete_step d var maxv n v fuel i bufsz acc Hx Hc ltac:(lia)) as Est. cbn [env_complete_loop] in Est. rewrite Est. cbn zeta. clear Est.
  destruct (starts var n); cbn [negb]; [| apply HI]. destruct ((len acc >=? maxv - 2) || (bufsz <? len n + 1)) eqn:Efull.
  - exists [str "..."]. split_and!; [done | apply listed_full |]. intros m ns [= <- _] -> Hm Hb. cbn [length] in Efull. apply orb_true_iff in Efull as [Ef%Z.geb_le | Ef%Z.ltb_lt]; lia.
  - destruct (HI (bufsz - len n - 1) (acc ++ [n])) as (L & -> & HL & _). exists (n :: L). rewrite <- app_assoc. split_and!; [done | by apply listed_cons |].
    intros m ns [= <- _] _ _ _. by exists L.
Qed.

Lemma env_complete_listed w es var maxv bufsz : env_holds (env_get_char w) es ->
  exists L, env_complete w var maxv bufsz = Some L /\ listed (List.filter (starts var) es.*1) L /\
    forall n ns, List.filter (starts var) es.*1 = n :: ns -> 2 < maxv -> len n < bufsz -> exists L', L = n :: L'.
Proof.
  intros Hh. pose proof (env_holds_count _ _ Hh) as Hf. destruct Hh as (Hg & Hs & Hz & _ & Hsz).
  destruct (env_complete_loop_listed _ var maxv es env_fuel 0 bufsz [] Hg Hs Hz) as (L & E & HL & Hh); [lia | env_lia | done |].
  exists L. split_and!; [exact E | done |]. intros n ns E1. by apply (Hh n ns E1).
Qed.

(** What all characters have, those of the candidates have. *)
Lemma listed_chars (P : Z -> Prop) ns L : P 46 -> Forall (Forall P) ns -> listed ns L -> Forall (Forall P) L.
Proof. intros Hd Hn [-> | (k & _ & ->)]; [done |]. apply Forall_app_2; [by apply Forall_take |]. by repeat constructor. Qed.

(** ** The interface of the line editor *)

Section interface.
Context (table : list cmd_tbl_t) (w : env_store) (past : list Z -> nat -> list Z) (stray : nat) (es : list var).
Hypothesis Henv : env_holds (env_get_char w) es.

#[local] Instance the_completer : completer := cmd_auto_complete_op table w past stray.

Section chars.
Context (P : Z -> Prop).
Hypothesis Hdot : P 46.
Hypothesis Hnames : Forall (fun e => Forall P (c_name e)) table.
Hypothesis Hpast : forall n k, Forall P (past n k).
Hypothesis Hvars : Forall (Forall P) es.*1.

Lemma list_cmds_chars p maxv : Forall (Forall P) (list_cmds p maxv table []).
Proof.
  destruct (list_cmds_listed p maxv table []) as (L & -> & HL). eapply listed_chars; [exact Hdot | | exact HL].
  apply Forall_map, Forall_forall. intros e [He _]%list_elem_of_In%filter_In. by eapply Forall_forall in Hnames; [| apply list_elem_of_In].
Qed.

Lemma env_complete_chars v maxv bufsz : Forall (Forall P) (default [] (env_complete w v maxv bufsz)).
Proof.
  destruct (env_complete_listed w es v maxv bufsz Henv) as (L & -> & HL & _). eapply listed_chars; [exact Hdot | | exact HL].
  apply Forall_forall. intros n [Hn _]%list_elem_of_In%filter_In. eapply Forall_forall in Hvars; [done |]. by apply list_elem_of_In.
Qed.

Lemma complete_cmdv_chars argv last_char maxv : Forall (Forall P) (complete_cmdv table w argv last_char maxv).
Proof.
  destruct argv as [|cmd argv]; [apply list_cmds_chars |]. cbn [complete_cmdv]. destruct (_ || _); [| apply list_cmds_chars].
  destruct (find_cmd_tbl cmd table) as [e|]; [| by constructor]. destruct (c_complete e); [| by constructor].
  unfold var_complete. destruct argv as [|a [|b argv]]; [| | by constructor]; (destruct (_ || _ || _); [apply env_complete_chars || by constructor | by constructor || apply env_complete_chars]).
Qed.

Lemma decision_chars s t sep : decide_completion table w past stray s = Adds t sep -> Forall P t /\ (sep = [] \/ sep = [32]).
Proof.
  unfold decide_completion. generalize (if 1 <=? len s then nthZ s (len s - 1) else 0) as last_char. intros lc.
  pose proof (complete_cmdv_chars (make_argv CONFIG_SYS_MAXARGS s) lc 20) as HC. set (cmdv := complete_cmdv _ _ _ _ _) in *. clearbody cmdv.
  generalize (match last (make_argv CONFIG_SYS_MAXARGS s) with Some a => length a | None => stray end) as k. intros k.
  assert (Hf : forall c cs, Forall (Forall P) (c :: cs) -> Forall P (from past c k)).
  { intros c cs [Hc _]%Forall_cons. unfold from. destruct (_ <=? _)%nat; [by apply Forall_drop | apply Hpast]. }
  destruct cmdv as [|c [|c' cs]].
  - by destruct (_ <? _)%nat.
  - intros [= <- <-]. split; [by eapply Hf | by right].
  - destruct (negb _ && _); [| done]. intros [= <- <-]. split; [by eapply Forall_take, Hf | by left].
Qed.
End chars.

(** What a tab adds at the prompt of the commands. *)
Definition completion_text (prompt s : list Z) : option (list Z) :=
  if negb (streq prompt CONFIG_SYS_PROMPT) then None
  else
    match decide_completion table w past stray s with
    | Declines => None
    | Adds t sep => Some (if CONFIG_SYS_CBSIZE - 2 <=? len s + (len t + len sep) then [] else t ++ sep)
    | _ => Some []
    end.

Lemma buffer_string_spec m a s : cstr m a s -> len s < CONFIG_SYS_CBSIZE -> buffer_string m a = s.
Proof.
  intros (H1 & H2 & H3) Hl. unfold buffer_string, CONFIG_SYS_CBSIZE in *. replace (Z.to_nat 256) with (length s + S (255 - length s))%nat by lia.
  rewrite load_app, H1. cbn [load]. rewrite H2. generalize (load m (a + len s + 1) (255 - length s)) as tl. clear -H3. intros tl.
  induction H3 as [|c l Hc _ IH]; [done |]. cbn [app take_while]. rewrite (proj2 (Z.eqb_neq _ _) Hc). cbn [negb]. by rewrite IH.
Qed.

Lemma holds_string p_buf m0 s l : holds p_buf m0 s l -> l_mem l (l_p l) = 0 -> buffer_string (l_mem l) p_buf = s.
Proof.
  intros (H1 & H2 & H3 & H4 & H5 & _) Hz. apply buffer_string_spec; [| unfold CONFIG_SYS_CBSIZE in *; lia]. split_and!; [done | by rewrite <- H2 | done].
Qed.

Lemma add_text_holds p_buf m0 s t sep l : holds p_buf m0 s l -> Forall (fun c => c <> 0) (t ++ sep) -> len s + (len t + len sep) < CONFIG_SYS_CBSIZE - 2 ->
  let l' := add_text p_buf s t sep l in holds p_buf m0 (s ++ t ++ sep) (set_pos (p_buf + l_n l') (l_n l') l').
Proof.
  intros (H1 & H2 & H3 & H4 & H5 & H6) Hn Hlt. unfold holds, add_text, CONFIG_SYS_CBSIZE in *. cbn [set_pos l_mem l_n l_p]. rewrite !length_app. split_and!.
  - rewrite app_assoc, store_list_app, load_store_list_disjoint by (rewrite !length_app; lia). rewrite load_app, load_store_list_disjoint, H1 by lia.
    by rewrite <- length_app, load_store_list.
  - lia.
  - lia.
  - lia.
  - by apply Forall_app_2.
  - intros a Ha. rewrite store_list_out by (rewrite !length_app; cbn [length]; lia). by apply H6.
Qed.

Section spec.
Hypothesis Hnames : Forall (fun e => Forall (fun c => c <> 0) (c_name e)) table.
Hypothesis Hpast : forall n k, Forall (fun c => c <> 0) (past n k).

Lemma vars_nonzero : Forall (Forall (fun c => c <> 0)) es.*1.
Proof. destruct Henv as [Hg _]. apply Forall_fmap. eapply Forall_impl; [exact Hg |]. intros x [[_ Hn] _]. eapply Forall_impl; [exact Hn |]. by intros c []. Qed.

Lemma decision_nonzero s t sep : decide_completion table w past stray s = Adds t sep -> Forall (fun c => c <> 0) (t ++ sep) /\ (sep = [] \/ sep = [32]).
Proof.
  intros E. destruct (decision_chars (fun c => c <> 0) ltac:(done) Hnames Hpast vars_nonzero s t sep E) as [Ht Hs].
  split; [| done]. apply Forall_app_2; [done |]. destruct Hs as [-> | ->]; by repeat constructor.
Qed.

#[local] Program Instance the_completer_spec : completer_spec := {| completion := completion_text |}.
Next Obligation. intros prompt s Hp. unfold completion_text, streq. by rewrite bool_decide_eq_false_2. Qed.
Next Obligation.
  intros prompt p_buf m0 s l Hl Hlt Hz. unfold cmd_auto_complete, the_completer, cmd_auto_complete_op, completion_text.
  destruct (negb _); [done |]. rewrite (holds_string p_buf m0 s l Hl Hz). assert (En : l_n l = len s) by apply Hl. assert (Ep : l_p l = p_buf + len s) by apply Hl.
  assert (H0 : holds p_buf m0 (s ++ []) (set_pos (p_buf + l_n l) (l_n l) l)) by (rewrite app_nil_r, En, <- Ep, <- En; exact Hl).
  destruct (decide_completion table w past stray s) as [ | | t sep | cmdv] eqn:E; [done | by exists [] | | by exists []].
  rewrite En. destruct (Z.leb_spec (CONFIG_SYS_CBSIZE - 2) (len s + (len t + len sep))); [by exists [] |]. exists (t ++ sep). split; [done |].
  apply (add_text_holds p_buf m0); [done | by eapply decision_nonzero | lia].
Qed.

Section screen.
Hypothesis Pnames : Forall (fun e => Forall printable (c_name e)) table.
Hypothesis Ppast : forall n k, Forall printable (past n k).
Hypothesis Pvars : Forall (Forall printable) es.*1.

Lemma render_printable t : forall col, Forall printable t -> render col t = t.
Proof.
  induction t as [|c t IH]; intros col Ht; [done |]. apply Forall_cons in Ht as [Hc Ht]. cbn [render]. rewrite (proj2 (Z.eqb_neq c 9)) by (unfold printable in Hc; lia). by rewrite IH.
Qed.

Lemma newline_clears t s : tputs t (s ++ [10]) = mk_term [] 0.
Proof. by rewrite tputs_app. Qed.

Lemma print_argv_newline t cmdv : tputs t (print_argv (str "  ") (str " ") 78 cmdv) = mk_term [] 0.
Proof. apply newline_clears. Qed.

Lemma rings_shows prompt s l : on_screen prompt (render (len prompt) s) l -> on_screen prompt (render (len prompt) (s ++ [])) (puts [7] l).
Proof. rewrite app_nil_r. intros [H1 H2]. split; [| exact H2]. cbn [puts l_out]. by rewrite tputs_app. Qed.

Lemma add_text_shows prompt p_buf s t sep l : on_screen prompt (render (len prompt) s) l -> Forall printable (t ++ sep) ->
  on_screen prompt (render (len prompt) (s ++ t ++ sep)) (add_text p_buf s t sep l).
Proof.
  intros [H1 H2] Hp. rewrite render_app, (render_printable (t ++ sep)) by done. split; cbn [add_text l_out l_col].
  - rewrite !app_assoc, tputs_app, <- !app_assoc, tputs_app, !(app_assoc prompt). apply (shows_puts _ _ _ Hp) in H1. by destruct sep.
  - rewrite !length_app. lia.
Qed.

#[local] Instance the_completer_shows : completer_shows.
Proof.
  intros prompt p_buf m0 s t l l' Hp (Hl & Hs & Ht) Hz. unfold cmd_auto_complete, the_completer, cmd_auto_complete_op, completion, the_completer_spec, completion_text.
  destruct (negb _); [done |]. rewrite (holds_string p_buf m0 s l Hl Hz). assert (En : l_n l = len s) by apply Hl. rewrite En.
  destruct (decide_completion table w past stray s) as [ | | u sep | cmdv] eqn:E; [done | | |].
  - intros [= <-] [= <-]. split; [by apply rings_shows | done].
  - destruct (_ <=? _); intros [= <-] [= <-]; [split; [by apply rings_shows | done] |].
    destruct (decision_chars printable ltac:(done) Pnames Ppast Pvars s u sep E) as [Hu Hsep].
    assert (Hus : Forall printable (u ++ sep)) by (apply Forall_app_2; [done |]; destruct Hsep as [-> | ->]; by repeat constructor).
    split; [by apply add_text_shows | eapply Forall_impl; [exact Hus |]; by left].
  - intros [= <-] [= <-]. split; [| done]. rewrite app_nil_r. destruct Hs as [_ Hcol]. split; [| exact Hcol]. cbn [puts l_out].
    rewrite tputs_app, tputs_app, print_argv_newline, tputs_app. apply shows_render; [done |]. apply (shows_puts prompt []); [done |]. split; [by exists 0%nat | done].
Qed.
End screen.
End spec.
End interface.

(** ** What is added *)

Lemma list_cmds_head p maxv e r t : 2 < maxv -> List.filter p t = e :: r -> exists L, list_cmds p maxv t [] = c_name e :: L.
Proof.
  intros Hm. induction t as [|x t IH]; [done |]. cbn [List.filter list_cmds]. destruct (p x); [| exact IH]. intros [= <- _].
  rewrite (proj2 (Z.leb_gt _ _)) by (cbn; lia). cbn [app]. destruct (list_cmds_listed p maxv t [c_name x]) as (L & -> & _). by exists L.
Qed.

Lemma list_cmds_all p maxv t : forall acc, len acc + len (List.filter p t) <= maxv - 2 -> list_cmds p maxv t acc = acc ++ map c_name (List.filter p t).
Proof.
  induction t as [|e t IH]; intros acc H; cbn [list_cmds List.filter map] in *; [by rewrite app_nil_r |]. destruct (p e); [| by apply IH].
  cbn [length map] in *. rewrite (proj2 (Z.leb_gt _ _)) by lia. rewrite IH by (rewrite length_app; cbn [length]; lia). by rewrite <- app_assoc.
Qed.

Lemma agree_le n : forall s t, (agree n s t <= n)%nat.
Proof. induction n as [|n IH]; intros s t; cbn; [done |]. destruct (_ =? _); [specialize (IH (tail s) (tail t)); lia | lia]. Qed.

Lemma agree_take n : forall s t, Forall (fun c => c <> 0) s -> (n <= length s)%nat -> take (agree n s t) t = take (agree n s t) s.
Proof.
  induction n as [|n IH]; intros s t Hs Hn; [done |]. destruct s as [|c s]; [cbn in Hn; lia |]. apply Forall_cons in Hs as [Hc Hs]. cbn [agree hd tail].
  destruct (Z.eqb_spec (hd 0 t) c) as [E|]; [| done]. destruct t as [|d t]; [by subst c |]. cbn [hd tail] in *. subst d. cbn [take]. f_equal. apply IH; [done | cbn in Hn; lia].
Qed.

Lemma agree_ge n : forall s t m, (m <= n)%nat -> (m <= length s)%nat -> take m s = take m t -> (m <= agree n s t)%nat.
Proof.
  induction n as [|n IH]; intros s t m Hm Hl E; [lia |]. destruct m as [|m]; [lia |]. destruct s as [|c s]; [cbn in Hl; lia |]. destruct t as [|d t]; [done |].
  cbn [take] in E. injection E as <- E. cbn [agree hd tail]. rewrite Z.eqb_refl. cbn [length] in Hl. apply le_n_S, IH; [lia | lia | done].
Qed.

Lemma common_prefix_le anchor ts : forall n, (fold_left (fun n t => agree n anchor t) ts n <= n)%nat.
Proof. induction ts as [|t ts IH]; intros n; cbn [fold_left]; [done |]. pose proof (agree_le n anchor t). specialize (IH (agree n anchor t)). lia. Qed.

Lemma common_prefix_take anchor ts : Forall (fun c => c <> 0) anchor -> forall n, (n <= length anchor)%nat ->
  let j := fold_left (fun n t => agree n anchor t) ts n in Forall (fun t => take j t = take j anchor) ts.
Proof.
  intros Ha. induction ts as [|t ts IH]; intros n Hn j; [by constructor |]. cbn [fold_left] in j. pose proof (agree_le n anchor t). constructor.
  - pose proof (common_prefix_le anchor ts (agree n anchor t)) as Hj. fold j in Hj. pose proof (agree_take n anchor t Ha Hn) as E.
    apply (f_equal (take j)) in E. rewrite !take_take, (Nat.min_l j) in E by lia. exact E.
  - apply IH. lia.
Qed.

Lemma common_prefix_ge anchor ts m : (m <= length anchor)%nat -> Forall (fun t => take m t = take m anchor) ts -> forall n, (m <= n)%nat ->
  (m <= fold_left (fun n t => agree n anchor t) ts n)%nat.
Proof.
  intros Hm Hs. induction Hs as [|t ts Ht _ IH]; intros n Hn; [done |]. cbn [fold_left]. apply IH. by apply agree_ge.
Qed.

(** Nothing is common with the three dots. *)
Lemma common_prefix_dots c ts : hd 0 c <> 46 -> find_common_prefix (c :: ts ++ [str "..."]) = 0%nat.
Proof.
  intros Hc. cbn [find_common_prefix]. rewrite fold_left_app. cbn [fold_left]. set (n := fold_left _ _ _). clearbody n. destruct n as [|n]; [done |].
  cbn [agree]. change (hd 0 (str "...")) with 46. by rewrite (proj2 (Z.eqb_neq 46 _)) by done.
Qed.

(** A word that is being typed. *)
Definition word (wd : list Z) : Prop := wd <> [] /\ Forall (fun c => c <> 0 /\ blank c = false) wd /\ hd 0 wd <> 46.

(** [t] completes [wd], which may stand for each of [cs]: the only one, and a
    blank; or what they have in common. *)
Definition completes (wd t : list Z) (cs : list (list Z)) : Prop :=
  match cs with
  | [] => False
  | [c] => wd ++ t = c ++ [32]
  | _ => Forall (fun c => starts (wd ++ t) c = true) cs
  end.

Definition decided (wd : list Z) (cs : list (list Z)) (d : decision) : Prop :=
  match d with
  | Adds t sep => completes wd (t ++ sep) cs
  | Lists _ => (2 <= length cs)%nat
  | _ => False
  end.

(** The last part of [decide_completion]. *)
Definition choose (past : list Z -> nat -> list Z) (k : nat) (cmdv : list (list Z)) : decision :=
  match cmdv with
  | [] => Rings
  | [c] => Adds (from past c k) [32]
  | c :: _ => let j := find_common_prefix cmdv in if negb (j =? 0)%nat && (k <? j)%nat then Adds (take (j - k) (from past c k)) [] else Lists cmdv
  end.

Lemma starts_head wd c : wd <> [] -> starts wd c = true -> hd 0 c = hd 0 wd.
Proof. intros Hn [t ->]%starts_spec. by destruct wd. Qed.

Lemma from_word past wd t : from past (wd ++ t) (length wd) = t.
Proof. unfold from. rewrite (proj2 (Nat.leb_le _ _)) by (rewrite length_app; lia). by rewrite drop_app_length. Qed.

Lemma choose_all past wd c cs : Forall (fun c => starts wd c = true /\ Forall (fun x => x <> 0) c) (c :: cs) ->
  decided wd (c :: cs) (choose past (length wd) (c :: cs)) /\
  match choose past (length wd) (c :: cs) with
  | Adds t sep => forall u, Forall (fun c => starts u c = true) (c :: cs) -> (length u <= length (wd ++ t ++ sep))%nat
  | _ => forall u, Forall (fun c => starts u c = true) (c :: cs) -> (length u <= length wd)%nat
  end.
Proof.
  intros Hcs. pose proof Hcs as [[[t ->]%starts_spec Hnz] Hr]%Forall_cons. destruct cs as [|c' cs].
  { cbn [choose decided completes]. rewrite from_word, app_assoc. split; [done |]. intros u [[v E]%starts_spec _]%Forall_cons. apply (f_equal length) in E. rewrite !length_app in *. cbn. lia. }
  cbn [choose]. set (j := find_common_prefix ((wd ++ t) :: c' :: cs)).
  assert (Hj : (j <= length (wd ++ t))%nat) by apply common_prefix_le.
  pose proof (common_prefix_take (wd ++ t) (c' :: cs) Hnz (length (wd ++ t)) (Nat.le_refl _)) as Ht. fold j in Ht.
  assert (Hmax : forall u, Forall (fun c => starts u c = true) ((wd ++ t) :: c' :: cs) -> (length u <= j)%nat).
  { intros u [[v E]%starts_spec Hu]%Forall_cons. apply common_prefix_ge; [rewrite E, length_app; lia | | rewrite E, length_app; lia].
    eapply Forall_impl; [exact Hu |]. cbn. intros x [y ->]%starts_spec. by rewrite E, !take_app_length. }
  assert (Hk : (length wd <= j)%nat) by (apply Hmax; eapply Forall_impl; [exact Hcs |]; by intros x []).
  destruct (Nat.ltb_spec (length wd) j) as [Hlt|Hge].
  - rewrite (proj2 (Nat.eqb_neq j 0)) by lia. cbn [negb andb decided]. rewrite from_word, app_nil_r.
    assert (E : wd ++ take (j - length wd) t = take j (wd ++ t)) by (by rewrite take_app_ge by lia).
    split; [| intros u Hu; rewrite E, length_take; specialize (Hmax u Hu); lia].
    cbn [completes]. rewrite E. assert (El : length (take j (wd ++ t)) = j) by (rewrite length_take; lia).
    constructor; [unfold starts; by rewrite El, bool_decide_eq_true_2 |]. eapply Forall_impl; [exact Ht |]. intros x Hx. cbn beta. unfold starts. rewrite El. by apply bool_decide_eq_true_2.
  - rewrite andb_false_r. split; [cbn; lia |]. intros u Hu. specialize (Hmax u Hu). lia.
Qed.

(** Also when the list is not complete. *)
Lemma choose_listed past wd c cs cmdv : word wd -> Forall (fun c => starts wd c = true /\ Forall (fun x => x <> 0) c) (c :: cs) ->
  listed (c :: cs) (c :: cmdv) -> decided wd (c :: cs) (choose past (length wd) (c :: cmdv)).
Proof.
  intros (W1 & W2 & W3) Hcs [E | (k & Hk & E)]; [rewrite E; by apply choose_all |].
  pose proof Hcs as [[Hc _] _]%Forall_cons. apply (starts_head wd c W1) in Hc. assert (Hc' : hd 0 c <> 46) by congruence.
  destruct k as [|k]; [cbn in E; injection E as -> _; done |]. cbn [take app] in E. injection E as ->. cbn [length] in Hk.
  assert (Ech : choose past (length wd) (c :: take k cs ++ [str "..."]) = Lists (c :: take k cs ++ [str "..."])).
  { pose proof (common_prefix_dots c (take k cs) Hc') as Ej. unfold choose. rewrite Ej. by destruct (take k cs). }
  rewrite Ech. cbn [decided length]. lia.
Qed.

Lemma make_argv_word k wd : word wd -> make_argv (S k) wd = [wd].
Proof.
  intros (W1 & W2 & _). assert (Hd : drop_while blank wd = wd) by (destruct W2 as [|c wd [_ Hc] _]; [done |]; cbn; by rewrite Hc).
  cbn [make_argv]. rewrite Hd. destruct wd as [|c wd]; [done |]. set (u := c :: wd) in *.
  assert (Ht : take_while (fun c => negb (blank c)) u = u /\ drop_while (fun c => negb (blank c)) u = []).
  { clearbody u. clear -W2. induction W2 as [|x l [_ Hx] _ [IH1 IH2]]; [done |]. cbn [take_while drop_while]. rewrite Hx. cbn [negb]. by rewrite IH1, IH2. }
  destruct Ht as [-> ->]. by destruct k.
Qed.

Lemma make_argv_two k cmd wd : word cmd -> word wd -> make_argv (S (S k)) (cmd ++ 32 :: wd) = [cmd; wd].
Proof.
  intros (W1 & W2 & _) Hw. assert (Hd : drop_while blank (cmd ++ 32 :: wd) = cmd ++ 32 :: wd) by (destruct W2 as [|c cmd [_ Hc] _]; [done |]; cbn; by rewrite Hc).
  change (make_argv (S (S k)) (cmd ++ 32 :: wd)) with (match drop_while blank (cmd ++ 32 :: wd) with [] => []
    | s => take_while (fun c => negb (blank c)) s :: make_argv (S k) (tail (drop_while (fun c => negb (blank c)) s)) end).
  rewrite Hd. assert (Ht : take_while (fun c => negb (blank c)) (cmd ++ 32 :: wd) = cmd /\ drop_while (fun c => negb (blank c)) (cmd ++ 32 :: wd) = 32 :: wd).
  { clear -W2. induction W2 as [|x l [_ Hx] _ [IH1 IH2]]; [done |]. cbn [app take_while drop_while]. rewrite Hx. cbn [negb]. by rewrite IH1, IH2. }
  destruct Ht as [Ht1 Ht2]. destruct cmd as [|c cmd]; [done |]. cbn [app] in *. rewrite Ht1, Ht2. cbn [tail]. by rewrite make_argv_word.
Qed.

Lemma word_last pre wd : word wd -> let s := pre ++ wd in
  let lc := if 1 <=? len s then nthZ s (len s - 1) else 0 in (lc =? 0) || (lc =? 32) || (lc =? 9) = false.
Proof.
  intros (W1 & W2 & _) s lc. destruct wd as [|x u _] using rev_ind; [done |]. apply Forall_app in W2 as [_ [[Hx0 Hx] _]%Forall_cons].
  unfold blank in Hx. apply orb_false_iff in Hx as [Hx1 Hx2]. assert (E : lc = x).
  { unfold lc, s. rewrite app_assoc, length_app. cbn [length]. rewrite (proj2 (Z.leb_le _ _)) by lia. unfold nthZ.
    replace (Z.to_nat (Z.of_nat (length (pre ++ u) + 1) - 1)) with (length (pre ++ u)) by lia. by rewrite nth_middle. }
  rewrite E, Hx1, Hx2. by rewrite (proj2 (Z.eqb_neq x 0)).
Qed.

Lemma stem_no_dot wd : 46 ∉ wd -> stem wd = wd.
Proof.
  unfold stem. induction wd as [|c wd IH]; intros H; [done |]. apply not_elem_of_cons in H as [Hc H]. cbn. rewrite (proj2 (Z.eqb_neq c 46)) by done. cbn [negb]. by rewrite IH.
Qed.

Lemma filter_partial wd table : 46 ∉ wd -> map c_name (List.filter (partial_match wd) table) = List.filter (starts wd) (map c_name table).
Proof.
  intros Hd. induction table as [|e t IH]; [done |]. cbn [List.filter map]. assert (E : partial_match wd e = starts wd (c_name e)).
  { unfold partial_match. rewrite stem_no_dot by done. unfold streq, starts. rewrite firstn_all. destruct (Nat.ltb_spec (length (c_name e)) (length wd)) as [Hl|]; [| done].
    cbn. symmetry. apply bool_decide_eq_false_2. intros E%(f_equal length). rewrite length_take in E. lia. }
  rewrite E. destruct (starts wd (c_name e)); cbn [map]; by rewrite IH.
Qed.

Lemma decide_choose table w past stray s c cmdv a :
  complete_cmdv table w (make_argv CONFIG_SYS_MAXARGS s) (if 1 <=? len s then nthZ s (len s - 1) else 0) 20 = c :: cmdv ->
  last (make_argv CONFIG_SYS_MAXARGS s) = Some a -> decide_completion table w past stray s = choose past (length a) (c :: cmdv).
Proof. intros E1 E2. unfold decide_completion. rewrite E1, E2. reflexivity. Qed.

Section sound.
Context (table : list cmd_tbl_t) (w : env_store) (past : list Z -> nat -> list Z) (stray : nat).

Definition short_name (n : list Z) : Prop := Forall (fun c => c <> 0) n /\ len n < CONFIG_SYS_CBSIZE - 3.

(** What is decided is what a tab adds: it fits. *)
Lemma decided_text s pre wd cs : s = pre ++ wd -> len pre <= 0 \/ Forall (fun c => len pre + len c < CONFIG_SYS_CBSIZE - 3) cs ->
  Forall short_name cs -> decided wd cs (decide_completion table w past stray s) ->
  completion_text table w past stray CONFIG_SYS_PROMPT s =
    Some match decide_completion table w past stray s with Adds t sep => t ++ sep | _ => [] end.
Proof.
  intros -> Hp Hs Hd. unfold completion_text, streq. rewrite bool_decide_eq_true_2 by done. cbn [negb]. destruct (decide_completion _ _ _ _ _) as [ | | t sep | cmdv]; try done.
  cbn [decided] in Hd. destruct cs as [|c cs]; [done |]. assert (Hc : len pre + len c < CONFIG_SYS_CBSIZE - 3).
  { destruct Hp as [Hp | Hp]; [apply Forall_cons in Hs as [[_ Hc] _]; lia | by apply Forall_cons in Hp as [Hp _]]. }
  assert (Hl : len wd + (len t + len sep) <= len c + 1).
  { destruct cs as [|c' cs]; cbn [completes] in Hd; [apply (f_equal length) in Hd; rewrite !length_app in Hd; cbn [length] in Hd; lia |].
    apply Forall_cons in Hd as [[u ->]%starts_spec _]. rewrite !length_app. lia. }
  rewrite (proj2 (Z.leb_gt _ _)) by (rewrite length_app; lia). done.
Qed.

Lemma filter_short wd ns : Forall short_name ns -> Forall (fun c => starts wd c = true /\ Forall (fun x => x <> 0) c) (List.filter (starts wd) ns) /\ Forall short_name (List.filter (starts wd) ns).
Proof.
  intros H. split; apply Forall_forall; intros c [Hc Hs]%list_elem_of_In%filter_In; (eapply Forall_forall in H; [| by apply list_elem_of_In]); [by split; [| apply H] | done].
Qed.

(** A tab behind a command word. The word is completed to the only command
    that begins with it, and a blank; among several commands, to what they
    all have in common, and to all of that when they are not more than 18.
    Nothing is added to a word that begins no command. *)
Theorem completion_sound wd : word wd -> 46 ∉ wd -> Forall short_name (map c_name table) ->
  exists t, completion_text table w past stray CONFIG_SYS_PROMPT wd = Some t /\
    match List.filter (starts wd) (map c_name table) with
    | [] => t = []
    | [c] => wd ++ t = c ++ [32]
    | cs => Forall (fun c => starts (wd ++ t) c = true) cs /\
        (len cs <= 18 -> forall u, Forall (fun c => starts u c = true) cs -> (length u <= length (wd ++ t))%nat)
    end.
Proof.
  intros Hw Hdot Hn. pose proof (word_last [] wd Hw) as Hlc. cbn [app] in Hlc. pose proof (make_argv_word 15 wd Hw) as Ha. fold CONFIG_SYS_MAXARGS in Ha.
  pose proof (filter_partial wd table Hdot) as Ef. destruct (filter_short wd _ Hn) as [Hg Hsh].
  assert (Ec : complete_cmdv table w [wd] (if 1 <=? len wd then nthZ wd (len wd - 1) else 0) 20 = list_cmds (partial_match wd) 20 table []).
  { cbn [complete_cmdv length]. by rewrite Hlc. }
  destruct (List.filter (partial_match wd) table) as [|e r] eqn:Ep; rewrite <- Ef in *.
  { exists []. split; [| done]. unfold completion_text, decide_completion. rewrite Ha, Ec, list_cmds_all by (rewrite Ep; cbn; lia). by rewrite Ep. }
  destruct (list_cmds_head (partial_match wd) 20 e r table ltac:(lia) Ep) as [L EL]. cbn [map] in *.
  destruct (list_cmds_listed (partial_match wd) 20 table []) as (L' & EL' & HL). rewrite EL in EL'. cbn [app] in EL'. subst L'. rewrite Ep in HL. cbn [map] in HL.
  assert (Ed : decide_completion table w past stray wd = choose past (length wd) (c_name e :: L)) by (apply decide_choose; rewrite Ha; [by rewrite Ec | done]).
  pose proof (choose_listed past wd _ _ _ Hw Hg HL) as Hd. rewrite <- Ed in Hd.
  rewrite (decided_text wd [] wd _ eq_refl (or_introl (Z.le_refl 0)) Hsh Hd). eexists. split; [done |].
  assert (Hmax : len r <= 17 -> forall u, Forall (fun c => starts u c = true) (c_name e :: map c_name r) -> (length u <= length (wd ++ match choose past (length wd) (c_name e :: map c_name r) with Adds t sep => t ++ sep | _ => [] end))%nat /\ L = map c_name r).
  { intros Hr u Hu. rewrite list_cmds_all in EL by (rewrite Ep; cbn [length]; lia). rewrite Ep in EL. injection EL as <-. split; [| done].
    pose proof (proj2 (choose_all past wd _ _ Hg)) as Hm. destruct (choose _ _ _); rewrite ?app_nil_r; by apply Hm. }
  destruct r as [|e' r]; cbn [map] in *.
  - destruct (decide_completion _ _ _ _ _) as [ | | t sep | cmdv]; cbn [decided length completes] in Hd; (done || lia).
  - split.
    + destruct (decide_completion _ _ _ _ _) as [ | | t sep | cmdv]; cbn [decided completes] in Hd; try done. rewrite app_nil_r. eapply Forall_impl; [exact Hg |]. by intros x [].
    + intros Hl u Hu. destruct (Hmax ltac:(cbn [length] in *; rewrite length_map in Hl; lia) u Hu) as [Hu' ->]. by rewrite Ed.
Qed.
End sound.

(** ** Variables *)

Section variables.
Context (table : list cmd_tbl_t) (w : env_store) (past : list Z -> nat -> list Z) (stray : nat) (es : list var) (cmd : list Z) (e : cmd_tbl_t).
Hypothesis Henv : env_holds (env_get_char w) es.
Hypothesis Hcmd : word cmd.
Hypothesis Hfind : find_cmd_tbl cmd table = Some e.
Hypothesis Hcomplete : c_complete e = true.

(** A tab behind the beginning of a variable's name, for a command that takes
    one: the tab itself when there is no such variable. *)
Lemma completion_variable wd : word wd -> Forall (fun n => len cmd + 1 + len n < CONFIG_SYS_CBSIZE - 3) es.*1 ->
  let text := completion_text table w past stray CONFIG_SYS_PROMPT (cmd ++ 32 :: wd) in
  match List.filter (starts wd) es.*1 with
  | [] => text = None
  | cs => exists t, text = Some t /\ (completes wd t cs \/ t = [] /\ (2 <= length cs)%nat)
  end.
Proof.
  intros Hw Hlen text. set (s := cmd ++ 32 :: wd) in *. assert (Es : s = (cmd ++ [32]) ++ wd) by (unfold s; by rewrite <- app_assoc).
  pose proof (word_last (cmd ++ [32]) wd Hw) as Hlc. rewrite <- Es in Hlc. cbn zeta in Hlc.
  pose proof (make_argv_two 14 cmd wd Hcmd Hw) as Ha. fold CONFIG_SYS_MAXARGS s in Ha.
  destruct (env_complete_listed w es wd 20 512 Henv) as (L & EL & HL & Hhd).
  assert (Ec : complete_cmdv table w [cmd; wd] (if 1 <=? len s then nthZ s (len s - 1) else 0) 20 = L).
  { cbn [complete_cmdv length]. change (1 <? 2)%nat with true. cbn [orb]. rewrite Hfind, Hcomplete. unfold var_complete. by rewrite Hlc, EL. }
  assert (Hns : Forall short_name es.*1).
  { pose proof (vars_nonzero w es Henv) as Hz. apply Forall_forall. intros n Hn. eapply Forall_forall in Hz; [| exact Hn]. eapply Forall_forall in Hlen; [| exact Hn]. split; [done | lia]. }
  destruct (filter_short wd _ Hns) as [Hg Hsh].
  assert (Hpl : Forall (fun n => len (cmd ++ [32]) + len n < CONFIG_SYS_CBSIZE - 3) (List.filter (starts wd) es.*1)).
  { apply Forall_forall. intros n [Hn _]%list_elem_of_In%filter_In. eapply Forall_forall in Hlen; [| by apply list_elem_of_In]. rewrite length_app. cbn [length]. lia. }
  destruct (List.filter (starts wd) es.*1) as [|n ns].
  { destruct HL as [-> | (k & Hk & _)]; [| cbn in Hk; lia]. unfold text, completion_text, decide_completion. rewrite Ha, Ec. done. }
  destruct (Hhd n ns eq_refl) as [L' ->]; [lia | apply Forall_cons in Hpl as [Hpl _]; unfold CONFIG_SYS_CBSIZE in Hpl; lia |].
  assert (Ed : decide_completion table w past stray s = choose past (length wd) (n :: L')) by (apply decide_choose; rewrite Ha; [by rewrite Ec | done]).
  pose proof (choose_listed past wd _ _ _ Hw Hg HL) as Hd. rewrite <- Ed in Hd.
  unfold text. rewrite (decided_text table w past stray s (cmd ++ [32]) wd _ Es (or_intror Hpl) Hsh Hd). eexists. split; [done |].
  destruct (decide_completion _ _ _ _ _) as [ | | t sep | cmdv]; cbn [decided] in Hd; [done | done | by left | by right].
Qed.

(** A tab behind the blank. The length of the command is taken for that of a
    word that has not been typed: with one variable, as many characters of its
    name are left out. *)
Lemma completion_skips n v : es = [(n, v)] -> len n < 512 -> decide_completion table w past stray (cmd ++ [32]) = Adds (from past n (length cmd)) [32].
Proof.
  intros Ees Hn. destruct (env_complete_listed w es [] 20 512 Henv) as (L & EL & HL & Hhd).
  assert (Ef : List.filter (starts []) es.*1 = [n]) by (rewrite Ees; cbn [fmap list_fmap fst List.filter]; unfold starts; by rewrite bool_decide_eq_true_2).
  rewrite Ef in *. destruct (Hhd n [] eq_refl) as [L' ->]; [lia | done |]. assert (L' = []) as ->.
  { destruct HL as [[= ->] | (k & Hk & E)]; [done |]. cbn in Hk. destruct k; [| lia]. by injection E. }
  assert (Ea : make_argv CONFIG_SYS_MAXARGS (cmd ++ [32]) = [cmd]).
  { destruct Hcmd as (W1 & W2 & _). clear -W1 W2. unfold CONFIG_SYS_MAXARGS. cbn [make_argv].
    assert (Hd : drop_while blank (cmd ++ [32]) = cmd ++ [32]) by (destruct W2 as [|c cmd [_ Hc] _]; [done |]; cbn; by rewrite Hc). rewrite Hd.
    assert (Ht : take_while (fun c => negb (blank c)) (cmd ++ [32]) = cmd /\ drop_while (fun c => negb (blank c)) (cmd ++ [32]) = [32]).
    { clear -W2. induction W2 as [|x l [_ Hx] _ [IH1 IH2]]; [done |]. cbn [app take_while drop_while]. rewrite Hx. cbn [negb]. by rewrite IH1, IH2. }
    destruct Ht as [Ht1 Ht2]. destruct cmd as [|c cmd']; [done |]. cbn [app] in *. by rewrite Ht1, Ht2. }
  unfold decide_completion. rewrite Ea. rewrite length_app. cbn [length]. rewrite (proj2 (Z.leb_le 1 _)) by lia.
  replace (nthZ (cmd ++ [32]) (Z.of_nat (length cmd + 1) - 1)) with 32 by (unfold nthZ; replace (Z.to_nat (Z.of_nat (length cmd + 1) - 1)) with (length cmd) by lia; by rewrite nth_middle).
  cbn [complete_cmdv length]. change (1 <? 1)%nat with false. cbn [orb Z.eqb Pos.eqb]. rewrite Hfind, Hcomplete. unfold var_complete. cbn [orb Z.eqb Pos.eqb]. by rewrite EL.
Qed.
End variables.

(** A name with a size: what follows the name in memory is added. *)
Lemma completion_reads_on w past stray : decide_completion demo_table w past stray (str "cp.b") = Adds (past (str "cp") 4%nat) [32].
Proof. reflexivity. Qed.

(** ** A session at the prompt of the commands *)

Definition no_past : list Z -> nat -> list Z := fun _ _ => [].

#[local] Instance demo_completer : completer := cmd_auto_complete_op demo_table demo_store no_past 0.

Lemma demo_env : env_holds (env_get_char demo_store) default_vars.
Proof. exact demo_array_holds. Qed.

Lemma demo_printable : Forall (fun e => Forall printable (c_name e)) demo_table.
Proof. repeat (apply Forall_cons; split; [repeat (apply Forall_cons; split; [unfold printable; cbn; lia |]); by apply Forall_nil |]). by apply Forall_nil. Qed.

Lemma demo_vars_printable : Forall (Forall printable) default_vars.*1.
Proof. repeat (apply Forall_cons; split; [repeat (apply Forall_cons; split; [unfold printable; cbn; lia |]); by apply Forall_nil |]). by apply Forall_nil. Qed.

Lemma printable_nonzero s : Forall printable s -> Forall (fun c => c <> 0) s.
Proof. intros H. eapply Forall_impl; [exact H |]. unfold printable. lia. Qed.

#[local] Instance demo_spec : completer_spec :=
  the_completer_spec demo_table demo_store no_past 0 default_vars demo_env
    (Forall_impl _ _ _ demo_printable (fun e => printable_nonzero (c_name e))) (fun _ _ => Forall_nil_2 _).

#[local] Instance demo_shows : completer_shows :=
  the_completer_shows demo_table demo_store no_past 0 default_vars demo_env _ _ demo_printable (fun _ _ => Forall_nil_2 _) demo_vars_printable.


Lemma completion_sound_witness : exists t, completion_text demo_table demo_store no_past 0 CONFIG_SYS_PROMPT (str "c") = Some t /\ starts (str "c" ++ t) (str "cmp") = true.
Proof.
  destruct (completion_sound demo_table demo_store no_past 0 (str "c")) as (t & E & H).
  - split_and!; [done | by repeat constructor | done].
  - apply not_elem_of_cons. split; [done | apply not_elem_of_nil].
  - repeat (apply Forall_cons; split; [by split; [repeat constructor |] |]). by apply Forall_nil.
  - exists t. split; [exact E |]. change (List.filter (starts (str "c")) (map c_name demo_table)) with [str "cmp"; str "cp"] in H. destruct H as [[H _]%Forall_cons _]. exact H.
Defined.

