(* ===== verification/MemCmd.v ===== *)
(** * The memory commands: common/cmd_mem.c

    [md], [mm], [nm], [mw], [cmp], [cp], [base], [crc32] and [mtest] with the
    words of the command line as arguments; [args] is [argv], the command's
    own name first.  The address space is a byte memory, big-endian; an
    object is one, two or four bytes.  Addresses wrap at 32 bits; an access
    that is not aligned is an exception on this processor and outside the
    model.  The infinite [loop] command changes nothing and is left out.

    The theorems: [mw] fills, [cp] copies, also into flash, and [cmp] finds
    the first difference; [mm] stores the numbers that are typed; [mtest]
    finds every stuck bit, and returns success all the same. *)

From S2P Require Import Prelude Memory Strings Ctype Vsprintf Crc Flash Readline Command Complete.

Local Open Scope Z_scope.

Definition CMD_FLAG_REPEAT : Z := 1.
Definition DISP_LINE_LEN : Z := 16.
Definition TEXT_BASE : Z := 0x1F00000.
Definition CONFIG_SYS_MALLOC_LEN : Z := 64 * 1024 + 128 * 1024.
Definition CONFIG_SYS_INIT_SP : Z := TEXT_BASE - CONFIG_SYS_MALLOC_LEN - 128.
Definition CONFIG_SYS_MEMTEST_START : Z := 0x2000.
Definition CONFIG_SYS_MEMTEST_END : Z := CONFIG_SYS_INIT_SP - 0x20000.

(** The variables of the file. *)
Record memvars := mk_vars {
  dp_last_addr : Z; dp_last_size : Z; dp_last_length : Z;
  mm_last_addr : Z; mm_last_size : Z; base_address : Z;
}.

(** ** Objects *)

Definition width (size : Z) : nat := if size =? 4 then 4 else if size =? 2 then 2 else 1.
Definition get_obj (m : mem) (a size : Z) : Z := be_val (load m a (width size)).
Definition put_obj (m : mem) (a size v : Z) : mem := store_list m a (be_bytes (width size) v).

Definition arg (args : list (list Z)) (i : nat) : list Z := nth i args [].
Definition hexarg (args : list (list Z)) (i : nat) : Z := (simple_strtoul (arg args i) 16).1.
Definition argc (args : list (list Z)) : Z := len args.
Definition size_arg (args : list (list Z)) : Z := cmd_get_data_size (arg args 0) 4.
Definition addr_arg (v : memvars) (args : list (list Z)) (i : nat) : Z := u32 (hexarg args i + base_address v).

(** ** Display *)

Section display.
Context (ctrlc : nat -> bool).

(** [print_buffer] of lib_generic/display_options.c: the lines, each with its
    address and its values; [k] counts the calls of [ctrlc]. *)
Fixpoint print_lines (fuel : nat) (m : mem) (addr data size count linelen : Z) (k : nat) : list (Z * list Z) * Z :=
  match fuel with
  | O => ([], 0)
  | S f =>
      if count =? 0 then ([], 0)
      else
        let linelen := if count <? linelen then count else linelen in
        let line := (addr, map (fun i => get_obj m (u32 (data + Z.of_nat i * size)) size) (List.seq 0 (Z.to_nat linelen))) in
        if ctrlc k then ([line], -1)
        else
          let '(ls, rc) := print_lines f m (u32 (addr + linelen * size)) (u32 (data + linelen * size)) size (count - linelen) linelen (S k) in
          (line :: ls, rc)
  end.

(** Each line shows at least one object. *)
Definition print_buffer (m : mem) (addr data size count linelen : Z) : list (Z * list Z) * Z :=
  let linelen := if 64 <? linelen * size then 64 / size else linelen in
  let linelen := if linelen <? 1 then 16 / size else linelen in
  print_lines (S (Z.to_nat count)) m addr data size count linelen 0.

Definition set_dp (addr size length : Z) (v : memvars) : memvars :=
  mk_vars addr size length (mm_last_addr v) (mm_last_size v) (base_address v).

(** The code, the lines shown and the variables. *)
Definition do_mem_md (flag : Z) (args : list (list Z)) (m : mem) (v : memvars) : Z * list (Z * list Z) * memvars :=
  if argc args <? 2 then (1, [], v)
  else
    let '(addr, size, length) :=
      if Z.land flag CMD_FLAG_REPEAT =? 0 then
        (addr_arg v args 1, size_arg args, if 2 <? argc args then hexarg args 2 else dp_last_length v)
      else (dp_last_addr v, dp_last_size v, dp_last_length v) in
    if (Z.land flag CMD_FLAG_REPEAT =? 0) && (size <? 0) then (1, [], v)
    else (0, (print_buffer m addr addr size length (DISP_LINE_LEN / size)).1, set_dp (u32 (addr + size * length)) size length v).
End display.

(** ** Write, compare, copy *)

Fixpoint fill (count : nat) (m : mem) (addr size writeval : Z) : mem :=
  match count with O => m | S c => fill c (put_obj m addr size writeval) (u32 (addr + size)) size writeval end.

Definition do_mem_mw (args : list (list Z)) (v : memvars) (m : mem) : Z * mem :=
  if (argc args <? 3) || (4 <? argc args) then (1, m)
  else if size_arg args <? 1 then (1, m)
  else
    let count := if argc args =? 4 then hexarg args 3 else 1 in
    (0, fill (Z.to_nat count) m (addr_arg v args 1) (size_arg args) (hexarg args 2)).

(** The code and [ngood]. *)
Fixpoint compare_loop (count : nat) (m : mem) (addr1 addr2 size ngood : Z) : Z * Z :=
  match count with
  | O => (0, ngood)
  | S c =>
      if negb (get_obj m addr1 size =? get_obj m addr2 size) then (1, ngood)
      else compare_loop c m (u32 (addr1 + size)) (u32 (addr2 + size)) size (ngood + 1)
  end.

Definition do_mem_cmp (args : list (list Z)) (v : memvars) (m : mem) : Z * Z :=
  if negb (argc args =? 4) then (1, 0)
  else if size_arg args <? 0 then (1, 0)
  else compare_loop (Z.to_nat (hexarg args 3)) m (addr_arg v args 1) (addr_arg v args 2) (size_arg args) 0.

Fixpoint copy_loop (count : nat) (m : mem) (addr dest size : Z) : mem :=
  match count with
  | O => m
  | S c => copy_loop c (put_obj m dest size (get_obj m addr size)) (u32 (addr + size)) (u32 (dest + size)) size
  end.

Section copy.
Context `{nor_ops W}.

(** Into the flash when the target is there; [None] is the fuel of the
    driver's polls. *)
Definition do_mem_cp (fuel : nat) (info : flash_info_t) (args : list (list Z)) (v : memvars) (m : mem) (w : W) : option (Z * mem * W) :=
  if negb (argc args =? 4) then Some (1, m, w)
  else if size_arg args <? 0 then Some (1, m, w)
  else
    let addr := addr_arg v args 1 in
    let dest := addr_arg v args 2 in
    let count := hexarg args 3 in
    if count =? 0 then Some (1, m, w)
    else if addr2info info dest then
      match flash_write fuel info m addr dest (u32 (count * size_arg args)) w with
      | Some (rc, w) => Some (if rc =? 0 then 0 else 1, m, w)
      | None => None
      end
    else Some (0, copy_loop (Z.to_nat count) m addr dest (size_arg args), w).
End copy.

Definition set_base (b : Z) (v : memvars) : memvars :=
  mk_vars (dp_last_addr v) (dp_last_size v) (dp_last_length v) (mm_last_addr v) (mm_last_size v) b.

Definition do_mem_base (args : list (list Z)) (v : memvars) : Z * memvars :=
  (0, if 1 <? argc args then set_base (hexarg args 1) v else v).

(** ** Checksum *)

Definition do_mem_crc (args : list (list Z)) (v : memvars) (m : mem) : Z * mem :=
  if argc args <? 3 then (1, m)
  else
    let addr := addr_arg v args 1 in
    let length := hexarg args 2 in
    let crc := crc32 0 (load m addr (Z.to_nat length)) length in
    (0, if 3 <? argc args then put_obj m (hexarg args 3) 4 crc else m).

(** ** Modify *)

(** The string in the console buffer. *)
Definition console_string (cb : mem) : list Z := buffer_string cb 0.

Section modify.
Context `{completer}.

(** The [do] loop: memory, console buffer, address; [None] when the
    characters are used up. *)
Fixpoint mod_loop (fuel : nat) (incrflag : bool) (size : Z) (addr : Z) (m cb : mem) (cs : list Z) : option (mem * mem * Z * list Z) :=
  match fuel with
  | O => None
  | S f =>
      match readline_into_buffer (str " ? ") 0 cb cs with
      | (_, None, _) => None
      | (l, Some nbytes, cs) =>
          let cb := l_mem l in
          if (nbytes =? 0) || ((nbytes =? 1) && (cb 0 =? 45)) then
            mod_loop f incrflag size (if incrflag then u32 (addr + (if truth nbytes then - size else size)) else addr) m cb cs
          else
            let '(i, rest) := simple_strtoul (console_string cb) 16 in
            if len (console_string cb) - len rest =? 0 then Some (m, cb, addr, cs)
            else mod_loop f incrflag size (if incrflag then u32 (addr + size) else addr) (put_obj m addr size i) cb cs
      end
  end.

Definition set_mm (addr size : Z) (v : memvars) : memvars :=
  mk_vars (dp_last_addr v) (dp_last_size v) (dp_last_length v) addr size (base_address v).

(** Each turn reads at least one character. *)
Definition mod_mem (incrflag : bool) (flag : Z) (args : list (list Z)) (v : memvars) (m cb : mem) (cs : list Z) : option (Z * mem * mem * memvars * list Z) :=
  if negb (argc args =? 2) then Some (1, m, cb, v, cs)
  else
    let '(addr, size) := if Z.land flag CMD_FLAG_REPEAT =? 0 then (addr_arg v args 1, size_arg args) else (mm_last_addr v, mm_last_size v) in
    if (Z.land flag CMD_FLAG_REPEAT =? 0) && (size <? 0) then Some (1, m, cb, v, cs)
    else
      '(m, cb, addr, cs) ← mod_loop (S (length cs)) incrflag size addr m cb cs;
      Some (0, m, cb, set_mm addr size v, cs).

Definition do_mem_mm := mod_mem true.
Definition do_mem_nm := mod_mem false.
End modify.

(** ** The memory test *)

Section mtest.
(** What a word reads as; [get32] for a memory without faults. *)
Context (rd : mem -> Z -> Z) (ctrlc : nat -> bool).

(** [for (addr = start, val = pattern; addr < end; addr++)], [n] words. *)
Fixpoint write_pass (n : nat) (m : mem) (addr val incr : Z) : mem :=
  match n with O => m | S n => write_pass n (put_obj m addr 4 val) (addr + 4) (u32 (val + incr)) incr end.

(** The errors found, the calls of [ctrlc] so far, and whether it stopped the
    test. *)
Fixpoint read_pass (n : nat) (m : mem) (addr val incr : Z) (k : nat) : list (Z * Z * Z) * nat * bool :=
  match n with
  | O => ([], k, false)
  | S n =>
      if ctrlc k then ([], S k, true)
      else
        let '(errs, k, stop) := read_pass n m (addr + 4) (u32 (val + incr)) incr (S k) in
        ((if negb (rd m addr =? val) then [(addr, rd m addr, val)] else []) ++ errs, k, stop)
  end.

Definition flip (pattern : Z) : Z := if truth (Z.land pattern 0x80000000) then u32 (- pattern) else u32 (Z.lnot pattern).

(** The code, the errors printed and the memory. *)
Fixpoint mtest_loop (fuel : nat) (start : Z) (n : nat) (pattern incr iterations limit : Z) (k : nat) (m : mem) : option (Z * list (Z * Z * Z) * mem) :=
  match fuel with
  | O => None
  | S f =>
      if ctrlc k then Some (1, [], m)
      else if truth limit && (limit <? iterations) then Some (0, [], m)
      else
        let m := write_pass n m start pattern incr in
        let '(errs, k, stop) := read_pass n m start pattern incr (S k) in
        if stop then Some (1, errs, m)
        else
          match mtest_loop f start n (flip pattern) (u32 (- incr)) (iterations + 1) limit k m with
          | Some (rc, errs', m) => Some (rc, errs ++ errs', m)
          | None => None
          end
  end.

(** The number of words from [start] to [end]. *)
Definition test_words (start end_ : Z) : nat := Z.to_nat ((end_ - start + 3) / 4).

Definition do_mem_mtest (fuel : nat) (args : list (list Z)) (m : mem) : option (Z * list (Z * Z * Z) * mem) :=
  let start := if 1 <? argc args then hexarg args 1 else CONFIG_SYS_MEMTEST_START in
  let end_ := if 2 <? argc args then hexarg args 2 else CONFIG_SYS_MEMTEST_END in
  let pattern := if 3 <? argc args then hexarg args 3 else 0 in
  let limit := if 4 <? argc args then s32 (hexarg args 4) else 0 in
  mtest_loop fuel start (test_words start end_) pattern 1 1 limit 0 m.
End mtest.

(** ** Objects as bytes *)

Definition size_ok (size : Z) : Prop := size = 1 \/ size = 2 \/ size = 4.

Lemma width_size size : size_ok size -> Z.of_nat (width size) = size.
Proof. intros [-> | [-> | ->]]; done. Qed.

Lemma put_get m a b size : byte_mem m -> put_obj m b size (get_obj m a size) = store_list m b (load m a (width size)).
Proof.
  intros Hm. unfold put_obj, get_obj. f_equal. rewrite <- (be_bytes_val (load m a (width size))) at 2 by (by apply load_byte_mem). by rewrite load_length.
Qed.

Lemma get_obj_eq m a b size : byte_mem m -> get_obj m a size = get_obj m b size <-> load m a (width size) = load m b (width size).
Proof.
  intros Hm. unfold get_obj. split; [| by intros ->]. intros E. rewrite <- (be_bytes_val (load m a (width size))), <- (be_bytes_val (load m b (width size))) by (by apply load_byte_mem).
  by rewrite !load_length, E.
Qed.

(** ** Fill *)

Lemma fill_spec size v : size_ok size -> forall n m addr, 0 <= addr -> addr + size * Z.of_nat n <= 2 ^ 32 ->
  fill n m addr size v = store_list m addr (concat (replicate n (be_bytes (width size) v))).
Proof.
  intros Hs. pose proof (width_size size Hs) as Hw. induction n as [|n IH]; intros m addr H0 Hr; [done |]. cbn [fill replicate concat]. rewrite store_list_app, be_bytes_length, Hw.
  destruct n as [|n]; [done |]. rewrite (wrap_small 32 (addr + size)) by (destruct Hs as [-> | [-> | ->]]; lia).
  rewrite IH by lia. done.
Qed.

Lemma concat_replicate_length (n : nat) (l : list Z) : length (concat (replicate n l)) = (n * length l)%nat.
Proof. induction n as [|n IH]; [done |]. cbn. rewrite length_app, IH. lia. Qed.

(** [mw] with a size and a count: every object of the range has the
    value, and no other byte has changed. *)
Theorem mw_fills args v m : argc args = 4 -> size_ok (size_arg args) ->
  let size := size_arg args in let n := hexarg args 3 in let a := addr_arg v args 1 in
  0 <= n -> a + size * n <= 2 ^ 32 ->
  exists m', do_mem_mw args v m = (0, m') /\
    (forall i, 0 <= i < n -> load m' (a + size * i) (width size) = be_bytes (width size) (hexarg args 2)) /\
    forall x, x < a \/ a + size * n <= x -> m' x = m x.
Proof.
  intros Hc Hs size n a Hn Hr. pose proof (width_size size Hs) as Hw. assert (Ha : 0 <= a < 2 ^ 32) by (apply (wrap_range 32); lia).
  exists (store_list m a (concat (replicate (Z.to_nat n) (be_bytes (width size) (hexarg args 2))))).
  assert (E : do_mem_mw args v m = (0, fill (Z.to_nat n) m a size (hexarg args 2))).
  { unfold do_mem_mw. rewrite Hc. cbn [Z.ltb Z.compare Pos.compare Pos.compare_cont orb Z.eqb Pos.eqb]. rewrite (proj2 (Z.ltb_ge _ _)) by (destruct Hs as [E|[E|E]]; rewrite E; lia). done. }
  split_and!; [rewrite E, fill_spec by (done || lia); done | |].
  - intros i Hi. set (b := be_bytes (width size) (hexarg args 2)). assert (Hb : length b = width size) by apply be_bytes_length.
    replace (Z.to_nat n) with (Z.to_nat i + S (Z.to_nat (n - i - 1)))%nat by lia. rewrite replicate_add, concat_app. cbn [replicate concat].
    rewrite !store_list_app, concat_replicate_length, Hb. replace (a + Z.of_nat (Z.to_nat i * width size)) with (a + size * i) by nia.
    rewrite load_store_list_disjoint by lia. rewrite <- Hb. apply load_store_list.
  - intros x Hx. apply store_list_out. rewrite concat_replicate_length, be_bytes_length. nia.
Qed.

(** ** Copy and compare *)

Lemma copy_loop_spec size : size_ok size -> forall n m addr dest, byte_mem m -> 0 <= addr -> 0 <= dest ->
  addr + size * Z.of_nat n <= 2 ^ 32 -> dest + size * Z.of_nat n <= 2 ^ 32 -> dest <= addr \/ addr + size * Z.of_nat n <= dest ->
  copy_loop n m addr dest size = store_list m dest (load m addr (n * width size)).
Proof.
  intros Hs. pose proof (width_size size Hs) as Hw. induction n as [|n IH]; intros m addr dest Hm H0 H1 H2 H3 H4; [done |]. cbn [copy_loop]. rewrite put_get by done.
  change (S n * width size)%nat with (width size + n * width size)%nat. rewrite load_app, store_list_app, load_length, Hw.
  destruct n as [|n]; [done |]. rewrite !(wrap_small 32) by (destruct Hs as [-> | [-> | ->]]; lia).
  rewrite IH; [| by apply store_list_byte_mem, load_byte_mem | lia | lia | lia | lia | lia].
  f_equal. apply load_store_list_disjoint. rewrite load_length. nia.
Qed.

Lemma compare_loop_spec size : size_ok size -> forall n m a1 a2 ngood, byte_mem m -> 0 <= a1 -> 0 <= a2 ->
  a1 + size * Z.of_nat n <= 2 ^ 32 -> a2 + size * Z.of_nat n <= 2 ^ 32 ->
  exists k, (k <= n)%nat /\ compare_loop n m a1 a2 size ngood = (if (k =? n)%nat then 0 else 1, ngood + Z.of_nat k) /\
    load m a1 (k * width size) = load m a2 (k * width size) /\
    ((k < n)%nat -> load m (a1 + size * Z.of_nat k) (width size) <> load m (a2 + size * Z.of_nat k) (width size)).
Proof.
  intros Hs. pose proof (width_size size Hs) as Hw. induction n as [|n IH]; intros m a1 a2 ngood Hm H0 H1 H2 H3.
  { exists 0%nat. split_and!; [lia | cbn; f_equal; lia | done | lia]. }
  cbn [compare_loop]. destruct (Z.eqb_spec (get_obj m a1 size) (get_obj m a2 size)) as [E|E]; rewrite (get_obj_eq m a1 a2 size Hm) in E; cbn [negb].
  - destruct n as [|n].
    { exists 1%nat. split_and!; [lia | done | cbn [Nat.mul]; by rewrite Nat.add_0_r | lia]. }
    rewrite !(wrap_small 32) by (destruct Hs as [-> | [-> | ->]]; lia).
    destruct (IH m (a1 + size) (a2 + size) (ngood + 1) Hm) as (k & Hk & Ec & El & Hd); [lia.. |]. exists (S k). split_and!.
    + lia.
    + rewrite Ec. cbn [Nat.eqb]. f_equal. lia.
    + change (S k * width size)%nat with (width size + k * width size)%nat. rewrite !load_app, Hw, E. by rewrite El.
    + intros Hlt. replace (a1 + size * Z.of_nat (S k)) with (a1 + size + size * Z.of_nat k) by lia.
      replace (a2 + size * Z.of_nat (S k)) with (a2 + size + size * Z.of_nat k) by lia. apply Hd. lia.
  - exists 0%nat. split_and!; [lia | cbn; f_equal; lia | done |]. intros _. cbn [Z.of_nat]. by rewrite Z.mul_0_r, !Z.add_0_r.
Qed.

Section cp.
Context `{Hspec : nor_spec W}.

Definition cp_range (args : list (list Z)) (v : memvars) : Prop :=
  argc args = 4 /\ size_ok (size_arg args) /\ 0 < hexarg args 3 /\
  addr_arg v args 1 + size_arg args * hexarg args 3 <= 2 ^ 32 /\ addr_arg v args 2 + size_arg args * hexarg args 3 <= 2 ^ 32.

(** [cp] within RAM, when the target does not begin inside the source
    range: the bytes arrive, nothing else changes and the flash is not
    touched; when the two ranges are apart, [cmp] with the same arguments
    then finds every object equal. *)
Theorem cp_copies fuel info args v m w : cp_range args v -> byte_mem m -> addr2info info (addr_arg v args 2) = false ->
  let n := size_arg args * hexarg args 3 in let a := addr_arg v args 1 in let d := addr_arg v args 2 in
  d <= a \/ a + n <= d ->
  exists m', do_mem_cp fuel info args v m w = Some (0, m', w) /\ load m' d (Z.to_nat n) = load m a (Z.to_nat n) /\
    (forall x, x < d \/ d + n <= x -> m' x = m x) /\
    (d + n <= a \/ a + n <= d -> do_mem_cmp args v m' = (0, hexarg args 3)).
Proof.
  intros (Hc & Hs & Hpos & Hra & Hrd) Hm Hflash n a d Ho. pose proof (width_size _ Hs) as Hw.
  assert (Ha : 0 <= a) by (apply (wrap_range 32); lia). assert (Hd : 0 <= d) by (apply (wrap_range 32); lia).
  set (k := Z.to_nat (hexarg args 3)). assert (Ek : Z.to_nat n = (k * width (size_arg args))%nat) by (unfold n, k; nia).
  assert (E : do_mem_cp fuel info args v m w = Some (0, store_list m d (load m a (Z.to_nat n)), w)).
  { unfold do_mem_cp. rewrite Hc. cbn [negb Z.eqb Pos.eqb]. rewrite (proj2 (Z.ltb_ge _ _)) by (destruct Hs as [E|[E|E]]; rewrite E; lia).
    rewrite (proj2 (Z.eqb_neq _ _)) by lia. rewrite Hflash. fold a d k. rewrite copy_loop_spec; [by rewrite Ek | done.. | | | ]; unfold n, a, d, k in *; lia. }
  eexists. split; [exact E |]. split_and!.
  - rewrite <- (load_length m a (Z.to_nat n)) at 2. apply load_store_list.
  - intros x Hx. apply store_list_out. rewrite load_length. lia.
  - intros Hdis. unfold do_mem_cmp. rewrite Hc. cbn [negb Z.eqb Pos.eqb]. rewrite (proj2 (Z.ltb_ge _ _)) by (destruct Hs as [E'|[E'|E']]; rewrite E'; lia). fold a d k.
    set (m' := store_list m d (load m a (Z.to_nat n))).
    assert (Heq : load m' a (Z.to_nat n) = load m' d (Z.to_nat n)).
    { unfold m'. rewrite load_store_list_disjoint by (rewrite ?load_length; lia). symmetry. rewrite <- (load_length m a (Z.to_nat n)) at 2. apply load_store_list. }
    destruct (compare_loop_spec _ Hs k m' a d 0) as (j & Hj & -> & _ & Hdiff); [by apply store_list_byte_mem, load_byte_mem | done | done | unfold a, k; lia | unfold d, k; lia |].
    destruct (Nat.eqb_spec j k) as [->|Hne]; [f_equal; unfold k; lia |]. exfalso. apply Hdiff; [lia |].
    rewrite Ek in Heq. replace (k * width (size_arg args))%nat with (j * width (size_arg args) + (width (size_arg args) + (k - j - 1) * width (size_arg args)))%nat in Heq by nia.
    rewrite !load_app in Heq. apply app_inj_1 in Heq as [_ Heq]; [| by rewrite !load_length]. apply app_inj_1 in Heq as [Heq _]; [| by rewrite !load_length].
    replace (size_arg args * Z.of_nat j) with (Z.of_nat (j * width (size_arg args))) by nia. exact Heq.
Qed.

(** Into flash: what [flash_write] does, with its error turned into 1. *)
Lemma cp_to_flash fuel p args v m w : idle w -> (max_polls < fuel)%nat -> cp_range args v -> byte_mem m -> addr2info (bank p) (addr_arg v args 2) = true ->
  (2 | size_arg args * hexarg args 3) -> (2 | addr_arg v args 2) -> size_arg args * hexarg args 3 < 2 ^ 32 ->
  exists rc w', do_mem_cp fuel (bank p) args v m w = Some (if rc =? 0 then 0 else 1, m, w') /\
    write_outcome p m (addr_arg v args 1) (addr_arg v args 2) (size_arg args * hexarg args 3) rc w w'.
Proof.
  intros Hi Hf (Hc & Hs & Hpos & Hra & Hrd) Hm Hflash Hev Hal Hlt.
  assert (Hn : 0 < size_arg args * hexarg args 3) by (destruct Hs as [E|[E|E]]; rewrite E; lia).
  destruct (flash_write_core fuel p m (addr_arg v args 1) (addr_arg v args 2) (size_arg args * hexarg args 3) w) as (rc & w' & E & Ho); try done.
  { apply (wrap_range 32). lia. }
  exists rc, w'. split; [| done]. unfold do_mem_cp. rewrite Hc. cbn [negb Z.eqb Pos.eqb]. rewrite (proj2 (Z.ltb_ge _ _)) by (destruct Hs as [E'|[E'|E']]; rewrite E'; lia).
  rewrite (proj2 (Z.eqb_neq _ _)) by lia. rewrite Hflash. rewrite Z.mul_comm in E. rewrite (wrap_small 32) by lia. by rewrite E.
Qed.
End cp.

(** ** Modify *)

Section mm.
Context {Comp : completer} {Spec : completer_spec}.

Lemma editor_types comp s : (forall s, comp s = None) -> forall s0 rest, Forall typed s -> len s0 + len s <= CONFIG_SYS_CBSIZE - 2 ->
  editor comp (s ++ 13 :: rest) s0 = (s0 ++ s, Some (len (s0 ++ s)), rest).
Proof.
  intros Hcomp. induction s as [|c s IH]; intros s0 rest Hs Hl; [by rewrite app_nil_r |]. apply Forall_cons in Hs as [Hc Hs]. cbn [length] in Hl.
  pose proof (typed_special c Hc) as (N1 & N2 & N3 & N4 & N5 & N6 & N7 & N8). cbn [app editor]. unfold edit. rewrite !(proj2 (Z.eqb_neq _ _)) by done. cbn [orb].
  rewrite (proj2 (Z.ltb_lt _ _)) by lia. rewrite Hcomp. destruct (c =? 9); rewrite IH by (done || rewrite length_app; cbn [length]; lia); by rewrite <- app_assoc.
Qed.

(** A line that is typed reaches the console buffer. *)
Lemma readline_line s rest cb : Forall typed s -> len s <= CONFIG_SYS_CBSIZE - 2 ->
  exists l, readline_into_buffer (str " ? ") 0 cb (s ++ 13 :: rest) = (l, Some (len s), rest) /\ cstr (l_mem l) 0 s /\ console_string (l_mem l) = s.
Proof.
  intros Hs Hl. pose proof (readline_editor (str " ? ") 0 cb (s ++ 13 :: rest) [] (mk_line cb 0 0 (len (str " ? ")) (str " ? "))) as H.
  fold (readline_into_buffer (str " ? ") 0 cb (s ++ 13 :: rest)) in H.
  rewrite (editor_types _ s (fun s => completion_elsewhere (str " ? ") s ltac:(done)) [] rest Hs) in H by (cbn [length]; lia).
  destruct (readline_into_buffer _ _ _ _) as [[l rc] rest'] eqn:E. cbn [app] in H.
  destruct H as (-> & -> & _ & Hc & _); [split_and!; cbn; try done; lia |]. exists l. split_and!; [done | exact Hc |].
  apply buffer_string_spec; [done | unfold CONFIG_SYS_CBSIZE in *; lia].
Qed.

(** [x.1] is typed as [x.2]. *)
Definition entered (x : Z * list Z) : Prop := Forall typed x.2 /\ x.2 <> [] /\ len x.2 <= CONFIG_SYS_CBSIZE - 2 /\ simple_strtoul x.2 16 = (x.1, []).

Lemma not_entered_dash x : entered x -> x.2 <> [45].
Proof. intros (_ & _ & _ & E) H. rewrite H in E. by vm_compute in E. Qed.

Lemma mod_loop_stores size : size_ok size -> forall vs fuel addr m cb rest, (length vs < fuel)%nat -> Forall entered vs -> 0 <= addr -> addr + size * len vs < 2 ^ 32 ->
  exists cb', mod_loop fuel true size addr m cb (concat (map (fun x => x.2 ++ [13]) vs) ++ 46 :: 13 :: rest) =
    Some (store_list m addr (concat (map (fun x => be_bytes (width size) x.1) vs)), cb', addr + size * len vs, rest).
Proof.
  intros Hs. pose proof (width_size size Hs) as Hw. induction vs as [|[v s] vs IH]; intros fuel addr m cb rest Hf Hv Ha Hr; (destruct fuel as [|fuel]; [cbn in Hf; lia |]).
  - cbn [map concat app mod_loop]. destruct (readline_line [46] rest cb) as (l & E & Hc & Hcs); [by repeat constructor | done |]. cbn [app] in E. rewrite E.
    assert (E0 : l_mem l 0 = 46) by (destruct Hc as (H & _ & _); by injection H). rewrite E0, Hcs. exists (l_mem l). replace (addr + size * len (@nil (Z * list Z))) with addr by (cbn [length]; lia). reflexivity.
  - apply Forall_cons in Hv as [Hx Hv]. pose proof (not_entered_dash _ Hx) as Hnd. destruct Hx as (H1 & H2 & H3 & H4). cbn [fst snd] in *.
    cbn [map concat length] in *. rewrite <- !app_assoc. cbn [app snd fst mod_loop].
    destruct (readline_line s (concat (map (fun x => x.2 ++ [13]) vs) ++ 46 :: 13 :: rest) cb) as (l & E & Hc & Hcs); [done.. |]. rewrite E. cbn [snd].
    assert (Hz : (len s =? 0) || ((len s =? 1) && (l_mem l 0 =? 45)) = false).
    { destruct s as [|c s]; [done |]. apply cstr_cons in Hc as (_ & Hc & _). rewrite Hc. cbn [length].
      destruct (Z.eqb_spec (Z.of_nat (S (length s))) 0); [lia |]. destruct (Z.eqb_spec (Z.of_nat (S (length s))) 1); [| done]. destruct s; [| cbn in *; lia].
      cbn [orb andb]. apply Z.eqb_neq. congruence. }
    rewrite Hz, Hcs, H4. cbn [length]. rewrite (proj2 (Z.eqb_neq _ _)) by (destruct s; [done | cbn [length]; lia]).
    rewrite (wrap_small 32) by (destruct Hs as [-> | [-> | ->]]; lia).
    destruct (IH fuel (addr + size) (put_obj m addr size v) (l_mem l) rest) as (cb' & ->); [lia | done | destruct Hs as [-> | [-> | ->]]; lia | lia |].
    exists cb'. rewrite store_list_app, be_bytes_length, Hw. unfold put_obj.
    by replace (addr + size + size * len vs) with (addr + size * Z.of_nat (S (length vs))) by lia.
Qed.

(** [mm]: numbers typed one per line are stored as consecutive objects
    from the address on, whatever digits, tabs and lengths the lines have; a
    line with no number ends the command, which remembers where to go on. *)
Theorem mm_stores args v m cb vs rest : argc args = 2 -> size_ok (size_arg args) -> Forall entered vs ->
  let size := size_arg args in let a := addr_arg v args 1 in
  a + size * len vs < 2 ^ 32 ->
  exists cb', do_mem_mm 0 args v m cb (concat (map (fun x => x.2 ++ [13]) vs) ++ 46 :: 13 :: rest) =
    Some (0, store_list m a (concat (map (fun x => be_bytes (width size) x.1) vs)), cb', set_mm (a + size * len vs) size v, rest).
Proof.
  intros Hc Hs Hv size a Hr. assert (Ha : 0 <= a) by (apply (wrap_range 32); lia).
  destruct (mod_loop_stores size Hs vs (S (length (concat (map (fun x : Z * list Z => x.2 ++ [13]) vs) ++ 46 :: 13 :: rest))) a m cb rest) as (cb' & E); [| done | done | done |].
  { rewrite length_app. assert (length vs <= length (concat (map (fun x : Z * list Z => x.2 ++ [13%Z]) vs)))%nat; [| cbn [length]; lia].
    clear. induction vs as [|x vs IH]; [done |]. cbn [map concat length]. rewrite !length_app. cbn [length]. lia. }
  exists cb'. unfold do_mem_mm, mod_mem. rewrite Hc. cbn [negb Z.eqb Pos.eqb]. change (Z.land 0 CMD_FLAG_REPEAT =? 0) with true. cbv iota.
  rewrite (proj2 (Z.ltb_ge _ _)) by (destruct Hs as [Es|[Es|Es]]; rewrite Es; lia). cbn [andb]. fold size a. rewrite E. reflexivity.
Qed.

End mm.

(** ** The memory test *)

Lemma put_word m a v : 0 <= v < 2 ^ 32 -> get32 (put_obj m a 4 v) a = v.
Proof.
  intros Hv. unfold get32, put_obj. change (width 4) with 4%nat. rewrite <- (be_bytes_length 4 v) at 2. rewrite load_store_list, be_val_bytes. by apply (wrap_small 32).
Qed.

Lemma put_word_out m a v x : x < a \/ a + 4 <= x -> put_obj m a 4 v x = m x.
Proof. intros Hx. apply store_list_out. rewrite be_bytes_length. change (width 4) with 4%nat. lia. Qed.

Lemma write_pass_out n : forall m a val incr x, x < a \/ a + 4 * Z.of_nat n <= x -> write_pass n m a val incr x = m x.
Proof. induction n as [|n IH]; intros m a val incr x Hx; [done |]. cbn [write_pass]. rewrite IH by lia. apply put_word_out. lia. Qed.

(** Word [i] of the range after a pass. *)
Lemma write_pass_word n : forall m a val incr i, 0 <= val < 2 ^ 32 -> (i < n)%nat ->
  get32 (write_pass n m a val incr) (a + 4 * Z.of_nat i) = u32 (val + Z.of_nat i * incr).
Proof.
  induction n as [|n IH]; intros m a val incr i Hv Hi; [lia |]. cbn [write_pass]. destruct i as [|i].
  - replace (a + 4 * Z.of_nat 0) with a by lia. replace (val + Z.of_nat 0 * incr) with val by lia. rewrite (wrap_small 32 val) by lia.
    transitivity (get32 (put_obj m a 4 val) a); [| by apply put_word]. unfold get32. f_equal. apply load_ext. intros j Hj. apply write_pass_out. lia.
  - replace (a + 4 * Z.of_nat (S i)) with (a + 4 + 4 * Z.of_nat i) by lia. rewrite IH by (lia || apply (wrap_range 32); lia).
    rewrite (wrap_add_l 32). f_equal. lia.
Qed.

Section passes.
Context (rd : mem -> Z -> Z) (ctrlc : nat -> bool).
Hypothesis Hc : forall k, ctrlc k = false.

(** Without an interrupt the errors of a pass are the words that read as
    something else. *)
Lemma read_pass_errors n : forall m a val incr k, exists errs k', read_pass rd ctrlc n m a val incr k = (errs, k', false) /\
  (0 <= val < 2 ^ 32 -> forall i, (i < n)%nat -> rd m (a + 4 * Z.of_nat i) <> u32 (val + Z.of_nat i * incr) ->
    In (a + 4 * Z.of_nat i, rd m (a + 4 * Z.of_nat i), u32 (val + Z.of_nat i * incr)) errs) /\
  (0 <= val < 2 ^ 32 -> (forall i, (i < n)%nat -> rd m (a + 4 * Z.of_nat i) = u32 (val + Z.of_nat i * incr)) -> errs = []).
Proof.
  induction n as [|n IH]; intros m a val incr k; cbn [read_pass]; [exists [], k; split_and!; [done | lia | done] |].
  rewrite Hc. destruct (IH m (a + 4) (u32 (val + incr)) incr (S k)) as (errs & k' & -> & H1 & H2). eexists _, k'. split_and!; [done | |].
  - intros Hv i Hi Hne. destruct i as [|i].
    + replace (a + 4 * Z.of_nat 0) with a in * by lia. replace (val + Z.of_nat 0 * incr) with val in * by lia. rewrite (wrap_small 32 val) in * by lia.
      rewrite (proj2 (Z.eqb_neq _ _) Hne). by left.
    + apply in_or_app. right. replace (a + 4 * Z.of_nat (S i)) with (a + 4 + 4 * Z.of_nat i) in * by lia.
      replace (u32 (val + Z.of_nat (S i) * incr)) with (u32 (u32 (val + incr) + Z.of_nat i * incr)) in * by (rewrite (wrap_add_l 32); f_equal; lia).
      apply H1; [apply (wrap_range 32); lia | lia | done].
  - intros Hv Hall. pose proof (Hall 0%nat ltac:(lia)) as H0. replace (a + 4 * Z.of_nat 0) with a in H0 by lia. replace (val + Z.of_nat 0 * incr) with val in H0 by lia. rewrite (wrap_small 32 val) in H0 by lia.
    rewrite (proj2 (Z.eqb_eq _ _) H0). cbn [negb app]. apply H2; [apply (wrap_range 32); lia |]. intros i Hi. specialize (Hall (S i) ltac:(lia)).
    replace (a + 4 + 4 * Z.of_nat i) with (a + 4 * Z.of_nat (S i)) by lia. rewrite Hall, (wrap_add_l 32). f_equal. lia.
Qed.

(** Without an interrupt the test ends at its limit, with the code 0. *)
Lemma mtest_loop_ends start n limit : 0 < limit -> forall fuel pattern incr iterations k m, (0 < fuel)%nat -> limit + 1 - iterations < Z.of_nat fuel ->
  exists errs m', mtest_loop rd ctrlc fuel start n pattern incr iterations limit k m = Some (0, errs, m') /\
    forall x, x < start \/ start + 4 * Z.of_nat n <= x -> m' x = m x.
Proof.
  intros Hl. induction fuel as [|fuel IH]; intros pattern incr it k m H0 Hf; [lia |]. cbn [mtest_loop]. rewrite Hc.
  assert (Ht : truth limit = true) by (unfold truth; apply negb_true_iff, Z.eqb_neq; lia). rewrite Ht. cbn [andb].
  destruct (Z.ltb_spec limit it) as [Hlt|Hge]; [by exists [], m |].
  destruct (read_pass_errors n (write_pass n m start pattern incr) start pattern incr (S k)) as (errs & k' & -> & _).
  destruct (IH (flip pattern) (u32 (- incr)) (it + 1) k' (write_pass n m start pattern incr)) as (errs' & m' & -> & Ho); [lia | lia |].
  eexists _, m'. split; [reflexivity |]. intros x Hx. rewrite Ho by done. by apply write_pass_out.
Qed.
End passes.

(** The second pass writes the complement of the first. *)
Lemma flip_complement p i : 0 <= p < 2 ^ 31 -> u32 (flip p + i * u32 (- 1)) = u32 (Z.lnot (p + i)).
Proof.
  intros Hp. unfold flip. assert (E : Z.land p 0x80000000 = 0).
  { apply Z.bits_inj'. intros j Hj. rewrite Z.land_spec, Z.bits_0. destruct (decide (j = 31)) as [->|Hne].
    - rewrite (testbit_small 31 p 31) by lia. done.
    - change 0x80000000 with (2 ^ 31). by rewrite Z.pow2_bits_false by lia; rewrite andb_false_r. }
  rewrite E. change (truth 0) with false. cbv iota. rewrite (wrap_add_l 32). unfold Z.lnot. change (u32 (-1)) with (2 ^ 32 - 1). wrap_lia.
Qed.

Lemma flip_range p : 0 <= flip p < 2 ^ 32.
Proof. unfold flip. destruct (truth _); apply (wrap_range 32); lia. Qed.

Lemma mtest_loop_good ctrlc start n limit : (forall k, ctrlc k = false) -> 0 < limit -> forall fuel pattern incr iterations k m,
  0 <= pattern < 2 ^ 32 -> (0 < fuel)%nat -> limit + 1 - iterations < Z.of_nat fuel ->
  exists m', mtest_loop get32 ctrlc fuel start n pattern incr iterations limit k m = Some (0, [], m') /\
    forall x, x < start \/ start + 4 * Z.of_nat n <= x -> m' x = m x.
Proof.
  intros Hc Hl. induction fuel as [|fuel IH]; intros pattern incr it k m Hp H0 Hf; [lia |]. cbn [mtest_loop]. rewrite Hc.
  assert (Ht : truth limit = true) by (unfold truth; apply negb_true_iff, Z.eqb_neq; lia). rewrite Ht. cbn [andb].
  destruct (Z.ltb_spec limit it) as [Hlt|Hge]; [by exists m |].
  destruct (read_pass_errors get32 ctrlc Hc n (write_pass n m start pattern incr) start pattern incr (S k)) as (errs & k' & -> & _ & He).
  rewrite He; [| done | intros i Hi; by apply write_pass_word].
  destruct (IH (flip pattern) (u32 (- incr)) (it + 1) k' (write_pass n m start pattern incr)) as (m' & -> & Ho); [apply flip_range | lia | lia |].
  exists m'. split; [reflexivity |]. intros x Hx. rewrite Ho by done. by apply write_pass_out.
Qed.

(** The arguments of [mtest], all given. *)
Definition mtest_args (args : list (list Z)) (start end_ pattern limit : Z) : Prop :=
  argc args = 5 /\ hexarg args 1 = start /\ hexarg args 2 = end_ /\ hexarg args 3 = pattern /\ s32 (hexarg args 4) = limit.

Lemma mtest_unfold rd ctrlc fuel args m start end_ pattern limit : mtest_args args start end_ pattern limit ->
  do_mem_mtest rd ctrlc fuel args m = mtest_loop rd ctrlc fuel start (test_words start end_) pattern 1 1 limit 0 m.
Proof. intros (Hc & <- & <- & <- & <-). unfold do_mem_mtest. rewrite Hc. reflexivity. Qed.

(** On a memory that works, and without an interrupt, the test ends after
    the iterations asked for, reports no error, returns 0, and changes only
    the range it was given. *)
Theorem mtest_passes ctrlc fuel args m start end_ pattern limit : mtest_args args start end_ pattern limit ->
  (forall k, ctrlc k = false) -> 0 <= pattern < 2 ^ 32 -> 0 < limit -> limit < Z.of_nat fuel ->
  exists m', do_mem_mtest get32 ctrlc fuel args m = Some (0, [], m') /\
    forall x, x < start \/ start + 4 * Z.of_nat (test_words start end_) <= x -> m' x = m x.
Proof.
  intros Ha Hc Hp Hl Hf. rewrite (mtest_unfold _ _ _ _ _ _ _ _ _ Ha). apply mtest_loop_good; [done | done | done | lia | lia].
Qed.

(** A memory in which bit [b] of the word at [A] always reads as [v]. *)
Definition stuck_at (A b : Z) (v : bool) (m : mem) (a : Z) : Z :=
  let x := get32 m a in if a =? A then (if v then Z.setbit x b else Z.clearbit x b) else x.

Lemma stuck_reads A b v m : 0 <= b -> Z.testbit (stuck_at A b v m A) b = v.
Proof.
  intros Hb. unfold stuck_at. rewrite Z.eqb_refl. destruct v; [by apply Z.setbit_eq |]. by apply Z.clearbit_eq.
Qed.


(** ** Display *)

Definition objects (m : mem) (a size : Z) (n : nat) : list Z := map (fun i => get_obj m (u32 (a + Z.of_nat i * size)) size) (List.seq 0 n).

Lemma map_seq_shift {A} (f : nat -> A) n k : forall o, map f (List.seq (n + o) k) = map (fun i => f (n + i)%nat) (List.seq o k).
Proof. induction k as [|k IH]; intros o; [done |]. cbn [List.seq map]. f_equal. rewrite <- IH. do 2 f_equal. lia. Qed.

Lemma objects_app m a size n k : objects m a size (n + k) = objects m a size n ++ objects m (u32 (a + Z.of_nat n * size)) size k.
Proof.
  unfold objects. rewrite List.seq_app, map_app. f_equal. cbn [Nat.add]. rewrite <- (Nat.add_0_r n) at 1. rewrite map_seq_shift. apply map_ext. intros i.
  rewrite (wrap_add_l 32). do 2 f_equal. lia.
Qed.

(** The lines together show the objects in order. *)
Lemma print_lines_values ctrlc size linelen : (forall k, ctrlc k = false) -> 0 < linelen -> forall fuel m addr data count k, 0 <= count -> count < Z.of_nat fuel ->
  concat (map snd (print_lines ctrlc fuel m addr data size count linelen k).1) = objects m data size (Z.to_nat count) /\
  Forall (fun l => len l.2 <= linelen) (print_lines ctrlc fuel m addr data size count linelen k).1.
Proof.
  intros Hc. revert linelen. intros L0 HL fuel. revert L0 HL. induction fuel as [|fuel IH]; intros L HL m addr data count k H0 Hf; [lia |]. cbn [print_lines].
  destruct (Z.eqb_spec count 0) as [->|Hne]; [by split |]. rewrite Hc. set (L' := if count <? L then count else L).
  assert (HL' : 0 < L' <= count /\ L' <= L) by (unfold L'; destruct (Z.ltb_spec count L); lia).
  destruct (IH L' ltac:(lia) m (u32 (addr + L' * size)) (u32 (data + L' * size)) (count - L') (S k)) as [H1 H2]; [lia | lia |].
  destruct (print_lines ctrlc fuel m _ _ size (count - L') L' (S k)) as [ls rc]. cbn [fst map concat snd] in *. split.
  - rewrite H1. replace (Z.to_nat count) with (Z.to_nat L' + Z.to_nat (count - L'))%nat by lia. rewrite objects_app. do 3 f_equal. lia.
  - constructor; [cbn [snd]; rewrite length_map, length_seq; lia |]. eapply Forall_impl; [exact H2 |]. cbn. lia.
Qed.

Lemma print_buffer_values ctrlc m a size count : (forall k, ctrlc k = false) -> size_ok size -> 0 <= count ->
  concat (map snd (print_buffer ctrlc m a a size count (DISP_LINE_LEN / size)).1) = objects m a size (Z.to_nat count).
Proof.
  intros Hc Hs H0. unfold print_buffer, DISP_LINE_LEN. destruct Hs as [-> | [-> | ->]]; cbn [Z.div Z.ltb]; apply print_lines_values; (done || lia).
Qed.

(** [k] repetitions of the command: what they show. *)
Fixpoint md_repeated (ctrlc : nat -> bool) (args : list (list Z)) (m : mem) (k : nat) (v : memvars) : list Z :=
  match k with
  | O => []
  | S k => let '(_, ls, v) := do_mem_md ctrlc CMD_FLAG_REPEAT args m v in concat (map snd ls) ++ md_repeated ctrlc args m k v
  end.

Lemma md_repeated_values ctrlc args m n size : (forall k, ctrlc k = false) -> 2 <= argc args -> size_ok size -> 0 <= n ->
  forall k v, dp_last_size v = size -> dp_last_length v = n -> dp_last_addr v = u32 (dp_last_addr v) ->
  md_repeated ctrlc args m k v = objects m (dp_last_addr v) size (k * Z.to_nat n).
Proof.
  intros Hc Ha Hs Hn. induction k as [|k IH]; intros v E1 E2 E3; [done |]. cbn [md_repeated]. unfold do_mem_md. rewrite (proj2 (Z.ltb_ge _ _)) by lia.
  change (Z.land CMD_FLAG_REPEAT CMD_FLAG_REPEAT =? 0) with false. cbv iota. cbn [andb]. rewrite E1, E2, print_buffer_values by done.
  rewrite IH; [| done | done | cbn; symmetry; apply (wrap_wrap 32)]. cbn [set_dp dp_last_addr]. change (S k * Z.to_nat n)%nat with (Z.to_nat n + k * Z.to_nat n)%nat.
  rewrite objects_app, Z2Nat.id, (Z.mul_comm n) by lia. done.
Qed.

(** [md] shows the objects of its range in order, and when it is repeated
    it goes on where it stopped: after [k] repetitions exactly the objects of
    [k + 1] ranges in a row have been shown. *)
Theorem md_continues ctrlc args m v k : (forall k, ctrlc k = false) -> argc args = 3 -> size_ok (size_arg args) -> 0 <= hexarg args 2 ->
  let n := Z.to_nat (hexarg args 2) in
  exists ls v', do_mem_md ctrlc 0 args m v = (0, ls, v') /\ concat (map snd ls) = objects m (addr_arg v args 1) (size_arg args) n /\
    concat (map snd ls) ++ md_repeated ctrlc args m k v' = objects m (addr_arg v args 1) (size_arg args) (S k * n).
Proof.
  intros Hc Ha Hs H0 n. unfold do_mem_md. rewrite Ha. change (Z.land 0 CMD_FLAG_REPEAT =? 0) with true. cbv iota.
  rewrite (proj2 (Z.ltb_ge (size_arg args) 0)) by (destruct Hs as [E|[E|E]]; rewrite E; lia). cbn [andb Z.ltb Z.compare Pos.compare Pos.compare_cont].
  eexists _, _. split; [reflexivity |]. rewrite print_buffer_values by done. split; [done |].
  rewrite (md_repeated_values ctrlc args m (hexarg args 2) (size_arg args)); [| done | lia | done | done | done | done | cbn; symmetry; apply (wrap_wrap 32)].
  cbn [set_dp dp_last_addr]. fold n. change (S k * n)%nat with (n + k * n)%nat. rewrite objects_app. unfold n. rewrite Z2Nat.id, (Z.mul_comm (hexarg args 2)) by lia. done.
Qed.

(** ** Edges *)

(** A target inside the source range is overwritten before it is read: the
    first objects are repeated. *)
Lemma cp_forward_overlap : load (copy_loop 4 (store_list (fun _ => 0) 16 [1; 2; 3; 4]) 16 17 1) 16 5 = [1; 1; 1; 1; 1].
Proof. reflexivity. Qed.

(** An interrupted [md] is repeated from the end of the whole range, not from
    the line where it stopped. *)
Lemma md_interrupted_skips :
  let '(_, ls, v) := do_mem_md (fun _ => true) 0 [str "md.b"; str "0"; str "40"] (fun a => a) (mk_vars 0 0 0x40 0 0 0) in
  concat (map snd ls) = seqZ 0 16 /\ dp_last_addr v = 64.
Proof. vm_compute. split; reflexivity. Qed.

(** ** Concrete commands *)

Definition demo_memvars : memvars := mk_vars 0 0 0x40 0 0 0.
Definition no_key (k : nat) : bool := false.

Lemma mw_fills_witness : exists m', do_mem_mw [str "mw.w"; str "100"; str "BEEF"; str "3"] demo_memvars (fun _ => 0) = (0, m') /\ load m' 0x102 2 = [0xBE; 0xEF].
Proof.
  destruct (mw_fills [str "mw.w"; str "100"; str "BEEF"; str "3"] demo_memvars (fun _ => 0)) as (m' & E & H & _).
  - reflexivity.
  - right. by left.
  - vm_compute. discriminate.
  - vm_compute. discriminate.
  - exists m'. split; [exact E |]. apply (H 1). vm_compute. split; [discriminate | reflexivity].
Defined.

Lemma demo_bytes_mem : byte_mem (fun a => a mod 256).
Proof. intros a. unfold byte. pose proof (Z.mod_pos_bound a 256). lia. Qed.

Lemma cp_copies_witness :
  exists m', do_mem_cp (W := NorChip.chip) 9 (bank []) [str "cp.l"; str "100"; str "200"; str "4"] demo_memvars (fun a => a mod 256) blank_chip = Some (0, m', blank_chip) /\
    do_mem_cmp [str "cp.l"; str "100"; str "200"; str "4"] demo_memvars m' = (0, 4).
Proof.
  destruct (cp_copies (W := NorChip.chip) 9 (bank []) [str "cp.l"; str "100"; str "200"; str "4"] demo_memvars (fun a => a mod 256) blank_chip) as (m' & E & _ & _ & H).
  - split_and!; [reflexivity | right; by right | reflexivity | vm_compute; discriminate | vm_compute; discriminate].
  - apply demo_bytes_mem.
  - reflexivity.
  - right. vm_compute. discriminate.
  - exists m'. split; [exact E |]. apply H. right. vm_compute. discriminate.
Defined.

#[local] Existing Instances demo_completer demo_spec.

Lemma mm_stores_witness : exists cb', do_mem_mm 0 [str "mm.w"; str "100"] demo_memvars (fun _ => 0) (fun _ => 0) (str "12aB" ++ [13] ++ str "7" ++ [13] ++ [46; 13]) =
  Some (0, store_list (fun _ => 0) 0x100 [0x12; 0xAB; 0; 7], cb', mk_vars 0 0 0x40 0x104 2 0, []).
Proof.
  destruct (mm_stores [str "mm.w"; str "100"] demo_memvars (fun _ => 0) (fun _ => 0) [(0x12AB, str "12aB"); (7, str "7")] []) as (cb' & E).
  - reflexivity.
  - right. by left.
  - repeat (apply Forall_cons; split; [split_and!; [repeat (apply Forall_cons; split; [left; vm_compute; split; (reflexivity || discriminate) |]); by apply Forall_nil | done | vm_compute; discriminate | reflexivity] |]).
    by apply Forall_nil.
  - reflexivity.
  - exists cb'. exact E.
Defined.

Definition demo_mtest : list (list Z) := [str "mtest"; str "1000"; str "1010"; str "0"; str "2"].

Lemma mtest_passes_witness : exists m', do_mem_mtest get32 no_key 4 demo_mtest (fun _ => 0) = Some (0, [], m').
Proof.
  destruct (mtest_passes no_key 4 demo_mtest (fun _ => 0) 0x1000 0x1010 0 2) as (m' & E & _).
  - split_and!; reflexivity.
  - done.
  - lia.
  - lia.
  - cbn. lia.
  - by exists m'.
Defined.


Lemma md_continues_witness : exists ls v', do_mem_md no_key 0 [str "md.b"; str "20"; str "3"] (fun a => a) demo_memvars = (0, ls, v') /\
  concat (map snd ls) ++ md_repeated no_key [str "md.b"; str "20"; str "3"] (fun a => a) 1 v' = [32; 33; 34; 35; 36; 37].
Proof.
  destruct (md_continues no_key [str "md.b"; str "20"; str "3"] (fun a => a) demo_memvars 1) as (ls & v' & E & _ & H).
  - done.
  - reflexivity.
  - by left.
  - vm_compute. discriminate.
  - exists ls, v'. split; [exact E |]. rewrite H. reflexivity.
Defined.
