(* ===== verification/Bootm.v ===== *)
(** * Booting: common/cmd_bootm.c, common/image.c, lib_or1k/bootm.c, cpu/or1k/cpu.c

    The [bootm] command with its sub-commands: it finds the kernel image, in
    the legacy or the FIT format, checks it, finds the RAM disk, moves the
    kernel to its load address, reserves that area in the table of memory
    blocks and starts it.  The world has the memory, the environment, the
    static [images], the load address, the size of the RAM and whether
    interrupts are on; [gunzip] is a parameter, and what the commands print is
    not modelled.  A call that does not come back (the kernel, the reset) ends
    a command with the address that control goes to.

    The theorems: a kernel made by mkimage, or the kernel that a configuration
    of a FIT image names, is checked, loaded, reserved and started; an image
    that fails a check is refused and nothing is written; the sub-commands
    start, loados and go do together what [bootm] does at once. *)

From S2P Require Import Prelude Memory Strings Vsprintf Crc Lmb Env Image Fdt Hash Fit Command.

Local Open Scope Z_scope.

Definition CONFIG_SYS_SDRAM_BASE : Z := 0.
Definition CONFIG_SYS_RESET_ADDR : Z := 0xF0000100.

(** ** The state *)

Record bootm_fit := mk_fit {
  fit_uname_cfg : option (list Z); fit_hdr_os : Z; fit_uname_os : option (list Z); fit_noffset_os : Z;
  fit_hdr_rd : Z; fit_uname_rd : option (list Z); fit_noffset_rd : Z;
}.

(** The fields that this board uses; a name is the string that the pointer
    points to. *)
Record bootm_headers_t := mk_images {
  legacy_hdr_os : Z; legacy_hdr_os_copy : list Z; legacy_hdr_valid : bool; fits : bootm_fit;
  os_ : image_info_t; ep : Z; rd_start : Z; rd_end : Z; verify : bool; state : Z; lmb_ : lmb;
}.

Definition set_legacy (hdr : Z) (copy : list Z) (i : bootm_headers_t) : bootm_headers_t :=
  mk_images hdr copy true (fits i) (os_ i) (ep i) (rd_start i) (rd_end i) (verify i) (state i) (lmb_ i).
Definition set_fits (f : bootm_fit) (i : bootm_headers_t) : bootm_headers_t :=
  mk_images (legacy_hdr_os i) (legacy_hdr_os_copy i) (legacy_hdr_valid i) f (os_ i) (ep i) (rd_start i) (rd_end i) (verify i) (state i) (lmb_ i).
Definition set_os (o : image_info_t) (i : bootm_headers_t) : bootm_headers_t :=
  mk_images (legacy_hdr_os i) (legacy_hdr_os_copy i) (legacy_hdr_valid i) (fits i) o (ep i) (rd_start i) (rd_end i) (verify i) (state i) (lmb_ i).
Definition set_ep (e : Z) (i : bootm_headers_t) : bootm_headers_t :=
  mk_images (legacy_hdr_os i) (legacy_hdr_os_copy i) (legacy_hdr_valid i) (fits i) (os_ i) e (rd_start i) (rd_end i) (verify i) (state i) (lmb_ i).
Definition set_rd (s e : Z) (i : bootm_headers_t) : bootm_headers_t :=
  mk_images (legacy_hdr_os i) (legacy_hdr_os_copy i) (legacy_hdr_valid i) (fits i) (os_ i) (ep i) s e (verify i) (state i) (lmb_ i).
Definition set_state (s : Z) (i : bootm_headers_t) : bootm_headers_t :=
  mk_images (legacy_hdr_os i) (legacy_hdr_os_copy i) (legacy_hdr_valid i) (fits i) (os_ i) (ep i) (rd_start i) (rd_end i) (verify i) s (lmb_ i).
Definition set_lmb (l : lmb) (i : bootm_headers_t) : bootm_headers_t :=
  mk_images (legacy_hdr_os i) (legacy_hdr_os_copy i) (legacy_hdr_valid i) (fits i) (os_ i) (ep i) (rd_start i) (rd_end i) (verify i) (state i) l.

Definition set_image (d n : Z) (o : image_info_t) : image_info_t := mk_image_info (start o) (end_ o) d n (load_ o) (comp o) (type o) (os o).
Definition set_type (t : Z) (o : image_info_t) : image_info_t := mk_image_info (start o) (end_ o) (image_start o) (image_len o) (load_ o) (comp o) t (os o).
Definition set_comp (c : Z) (o : image_info_t) : image_info_t := mk_image_info (start o) (end_ o) (image_start o) (image_len o) (load_ o) c (type o) (os o).
Definition set_os_id (s : Z) (o : image_info_t) : image_info_t := mk_image_info (start o) (end_ o) (image_start o) (image_len o) (load_ o) (comp o) (type o) s.
Definition set_end (e : Z) (o : image_info_t) : image_info_t := mk_image_info (start o) e (image_start o) (image_len o) (load_ o) (comp o) (type o) (os o).
Definition set_load (l : Z) (o : image_info_t) : image_info_t := mk_image_info (start o) (end_ o) (image_start o) (image_len o) l (comp o) (type o) (os o).
Definition set_start (s : Z) (o : image_info_t) : image_info_t := mk_image_info s (end_ o) (image_start o) (image_len o) (load_ o) (comp o) (type o) (os o).

Record world := mk_world {
  ram : mem; env : env_store; images : bootm_headers_t; load_addr : Z; bi_memsize : Z; interrupts : bool;
}.

Definition set_images (i : bootm_headers_t) (w : world) : world := mk_world (ram w) (env w) i (load_addr w) (bi_memsize w) (interrupts w).
Definition set_ram (m : mem) (w : world) : world := mk_world m (env w) (images w) (load_addr w) (bi_memsize w) (interrupts w).
Definition set_interrupts (b : bool) (w : world) : world := mk_world (ram w) (env w) (images w) (load_addr w) (bi_memsize w) b.

(** How a command ends: it returns, or control goes to an address, or through
    a word behind the end of the table [boot_os]. *)
Inductive outcome := Ret (rc : Z) (w : world) | Jumps (addr : Z) (w : world) | Wild (index : Z) (w : world).

(** ** Helpers of image.c *)

Definition getenv_yesno (e : env_store) (var : list Z) : option bool :=
  s ← getenv_str e var;
  Some (match s with Some v => negb (hd 0 v =? 110 (* 'n' *)) | None => true end).

Definition getenv_bootm_low (e : env_store) : option Z :=
  s ← getenv_str e (str "bootm_low");
  Some (match s with Some v => (simple_strtoul v 16).1 | None => CONFIG_SYS_SDRAM_BASE end).

Definition getenv_bootm_size (e : env_store) (memsize : Z) : option Z :=
  s ← getenv_str e (str "bootm_size");
  Some (match s with Some v => (simple_strtoul v 16).1 | None => memsize end).

Definition IMAGE_FORMAT_INVALID : Z := 0.
Definition IMAGE_FORMAT_LEGACY : Z := 1.
Definition IMAGE_FORMAT_FIT : Z := 2.

Definition genimg_get_format (m : mem) (img_addr : Z) : Z :=
  if image_check_magic m img_addr then IMAGE_FORMAT_LEGACY
  else if fdt_check_header m img_addr =? 0 then IMAGE_FORMAT_FIT
  else IMAGE_FORMAT_INVALID.

(** No data flash is configured. *)
Definition genimg_get_image (img_addr : Z) : Z := img_addr.

Definition genimg_has_config (i : bootm_headers_t) : bool := match fit_uname_cfg (fits i) with Some _ => true | None => false end.

Section bootm.
Context (gunzip : mem -> Z -> Z -> Z -> Z -> mem * Z * Z) (fuel : nat) (stack : list Z).

(** The name a pointer points to, none for [NULL]. *)
Definition name_at (m : mem) (p : Z) : option (option (list Z)) :=
  if p =? 0 then Some None else s ← string_at fuel m p; Some (Some s).

(** The address an argument gives, and the name of a configuration or of a
    component. *)
Definition parse_image_arg (arg : list Z) (addr_curr : Z) : Z * option (list Z) * option (list Z) :=
  match fit_parse_conf arg addr_curr with
  | Some (addr, name) => (addr, Some name, None)
  | None =>
      match fit_parse_subimage arg addr_curr with
      | Some (addr, name) => (addr, None, Some name)
      | None => ((simple_strtoul arg 16).1, None, None)
      end
  end.

(** ** The kernel *)

(** The legacy part: the header (0 for [NULL]) and [images]. *)
Definition get_kernel_legacy (m : mem) (img_addr : Z) (i : bootm_headers_t) : option (Z * bootm_headers_t) :=
  let '(hdr, _) := image_get_kernel m img_addr (verify i) in
  if hdr =? 0 then Some (0, i)
  else
    r ← (if image_get_type m hdr =? IH_TYPE_KERNEL then Some (Some (image_get_data hdr, image_get_data_size m hdr))
         else if image_get_type m hdr =? IH_TYPE_MULTI then Some <$> image_multi_getimg fuel m hdr 0
         else Some None);
    Some (match r with
          | None => (0, i)
          | Some (d, n) => (img_addr, set_legacy hdr (load m hdr 64) (set_os (set_image d n (os_ i)) i))
          end).

(** The FIT part: the offset of the kernel's node, its name, and [images] with
    the name of the configuration. *)
Definition get_kernel_node (m : mem) (fit_hdr : Z) (uname_config uname_kernel : option (list Z)) (i : bootm_headers_t)
    : option (option (Z * option (list Z)) * bootm_headers_t) :=
  match uname_kernel with
  | Some name =>
      os_noffset ← fit_image_get_node fuel m fit_hdr name;
      Some (Some (os_noffset, Some name), i)
  | None =>
      cfg_noffset ← fit_conf_get_node fuel m fit_hdr uname_config;
      if cfg_noffset <? 0 then Some (None, i)
      else
        p ← fdt_get_name fuel m fit_hdr cfg_noffset;
        cfg ← name_at m p;
        let f := fits i in
        let i := set_fits (mk_fit cfg (fit_hdr_os f) (fit_uname_os f) (fit_noffset_os f) (fit_hdr_rd f) (fit_uname_rd f) (fit_noffset_rd f)) i in
        os_noffset ← fit_conf_get_kernel_node fuel m fit_hdr cfg_noffset;
        p ← fit_get_name fuel m fit_hdr os_noffset;
        name ← name_at m p;
        Some (Some (os_noffset, name), i)
  end.

Definition get_kernel_fit (m : mem) (img_addr : Z) (uname_config uname_kernel : option (list Z)) (i : bootm_headers_t) : option (Z * bootm_headers_t) :=
  let fit_hdr := img_addr in
  ok ← fit_check_format fuel m fit_hdr;
  if negb ok then Some (0, i)
  else
    '(r, i) ← get_kernel_node m fit_hdr uname_config uname_kernel i;
    match r with
    | None => Some (0, i)
    | Some (os_noffset, name) =>
        if os_noffset <? 0 then Some (0, i)
        else
          ok ← fit_check_kernel fuel stack m fit_hdr os_noffset (verify i);
          if negb ok then Some (0, i)
          else
            d ← fit_image_get_data fuel m fit_hdr os_noffset;
            Some (match d with
                  | None => (0, i)
                  | Some (data, n) =>
                      let f := fits i in
                      (img_addr, set_fits (mk_fit (fit_uname_cfg f) fit_hdr name os_noffset (fit_hdr_rd f) (fit_uname_rd f) (fit_noffset_rd f))
                                   (set_os (set_image data n (os_ i)) i))
                  end)
    end.

(** The address of the image and the names in the first argument. *)
Definition image_arg (load_addr : Z) (argv : list (list Z)) : Z * option (list Z) * option (list Z) :=
  match argv with
  | _ :: arg :: _ => parse_image_arg arg load_addr
  | _ => (load_addr, None, None)
  end.

Definition boot_get_kernel (m : mem) (load_addr : Z) (argv : list (list Z)) (i : bootm_headers_t) : option (Z * bootm_headers_t) :=
  let '(img_addr, uname_config, uname_kernel) := image_arg load_addr argv in
  let img_addr := genimg_get_image img_addr in
  let i := set_os (set_image 0 0 (os_ i)) i in
  let format := genimg_get_format m img_addr in
  if format =? IMAGE_FORMAT_LEGACY then get_kernel_legacy m img_addr i
  else if format =? IMAGE_FORMAT_FIT then get_kernel_fit m img_addr uname_config uname_kernel i
  else Some (0, i).

(** ** The RAM disk *)

(** [rd_data] and [rd_len], or none for [return 1]. *)
Definition get_ramdisk_fit (m : mem) (rd_addr : Z) (uname_config uname_ramdisk : option (list Z)) (arch : Z) (i : bootm_headers_t)
    : option (option (Z * Z) * bootm_headers_t) :=
  let fit_hdr := rd_addr in
  ok ← fit_check_format fuel m fit_hdr;
  if negb ok then Some (None, i)
  else
    r ← match uname_ramdisk with
        | Some name => rd_noffset ← fit_image_get_node fuel m fit_hdr name; Some (Some (rd_noffset, Some name))
        | None =>
            cfg_noffset ← fit_conf_get_node fuel m fit_hdr uname_config;
            if cfg_noffset <? 0 then Some None
            else
              rd_noffset ← fit_conf_get_ramdisk_node fuel m fit_hdr cfg_noffset;
              p ← fit_get_name fuel m fit_hdr rd_noffset;
              name ← name_at m p;
              Some (Some (rd_noffset, name))
        end;
    match r with
    | None => Some (None, i)
    | Some (rd_noffset, name) =>
        if rd_noffset <? 0 then Some (None, i)
        else
          ok ← fit_check_ramdisk fuel stack m fit_hdr rd_noffset arch (verify i);
          if negb ok then Some (None, i)
          else
            d ← fit_image_get_data fuel m fit_hdr rd_noffset;
            match d with
            | None => Some (None, i)
            | Some (data, n) =>
                rd_load ← fit_image_get_load fuel m fit_hdr rd_noffset;
                Some (match rd_load with
                      | None => (None, i)
                      | Some _ =>
                          let f := fits i in
                          (Some (data, n), set_fits (mk_fit (fit_uname_cfg f) (fit_hdr_os f) (fit_uname_os f) (fit_noffset_os f) fit_hdr name rd_noffset) i)
                      end)
            end
    end.

(** The image at [rd_addr]. *)
Definition get_ramdisk_at (m : mem) (rd_addr : Z) (uname_config uname_ramdisk : option (list Z)) (arch : Z) (i : bootm_headers_t)
    : option (option (Z * Z) * bootm_headers_t) :=
  let rd_addr := genimg_get_image rd_addr in
  let format := genimg_get_format m rd_addr in
  if format =? IMAGE_FORMAT_LEGACY then
    let '(rd_hdr, _) := image_get_ramdisk m rd_addr arch (verify i) in
    Some (if rd_hdr =? 0 then (None, i) else (Some (image_get_data rd_hdr, image_get_data_size m rd_hdr), i))
  else if format =? IMAGE_FORMAT_FIT then get_ramdisk_fit m rd_addr uname_config uname_ramdisk arch i
  else Some (None, i).

(** [return 1], or [*rd_start] and [*rd_end] for data that is there. *)
Definition set_ramdisk (r : option (Z * Z) * bootm_headers_t) : Z * bootm_headers_t :=
  let '(r, i) := r in
  match r with
  | None => (1, i)
  | Some (rd_data, rd_len) => (0, if rd_data =? 0 then i else set_rd rd_data (u32 (rd_data + rd_len)) i)
  end.

(** The code and [images]. *)
Definition boot_get_ramdisk (m : mem) (load_addr : Z) (argv : list (list Z)) (arch : Z) (i : bootm_headers_t) : option (Z * bootm_headers_t) :=
  let i := set_rd 0 0 i in
  match argv with
  | _ :: _ :: arg :: _ =>
      if bool_decide (arg = str "-") then Some (set_ramdisk (Some (0, 0), i))
      else
        let default_addr := match fit_uname_os (fits i) with Some _ => fit_hdr_os (fits i) | None => load_addr end in
        let '(rd_addr, uname_config, uname_ramdisk) := parse_image_arg arg default_addr in
        r ← get_ramdisk_at m rd_addr uname_config uname_ramdisk arch i;
        Some (set_ramdisk r)
  | _ =>
      if genimg_has_config i then
        let rd_addr := fit_hdr_os (fits i) in
        cfg_noffset ← fit_conf_get_node fuel m rd_addr (fit_uname_cfg (fits i));
        if cfg_noffset <? 0 then Some (1, i)
        else
          rd_noffset ← fit_conf_get_ramdisk_node fuel m rd_addr cfg_noffset;
          if rd_noffset <? 0 then Some (0, i)
          else
            r ← get_ramdisk_at m rd_addr (fit_uname_cfg (fits i)) None arch i;
            Some (set_ramdisk r)
      else if legacy_hdr_valid i && (nthZ (legacy_hdr_os_copy i) 30 =? IH_TYPE_MULTI) then
        r ← image_multi_getimg fuel m (legacy_hdr_os i) 1;
        Some (set_ramdisk (Some r, i))
      else Some (set_ramdisk (Some (0, 0), i))
  end.

(** ** [bootm_start] *)

Definition zero_table : lmb_region := mk_region 0 0 (replicate 9 (mk_prop 0 0)).

(** [memset (&images, 0, sizeof (images))] *)
Definition zero_images : bootm_headers_t :=
  mk_images 0 (replicate 64 0) false (mk_fit None 0 None 0 0 None 0) (mk_image_info 0 0 0 0 0 0 0 0) 0 0 0 false 0 (mk_lmb zero_table zero_table).

Definition BOOTM_STATE_START : Z := 1.
Definition BOOTM_STATE_LOADOS : Z := 2.
Definition BOOTM_STATE_OS_CMDLINE : Z := 0x10.
Definition BOOTM_STATE_OS_BD_T : Z := 0x20.
Definition BOOTM_STATE_OS_PREP : Z := 0x40.
Definition BOOTM_STATE_OS_GO : Z := 0x80.

(** [switch (genimg_get_format (os_hdr))]: whether the parameters are there. *)
Definition get_image_params (m : mem) (os_hdr : Z) (i : bootm_headers_t) : option (bool * bootm_headers_t) :=
  let format := genimg_get_format m os_hdr in
  if format =? IMAGE_FORMAT_LEGACY then
    let o := os_ i in
    Some (true, set_os (set_load (image_get_load m os_hdr) (set_end (image_get_image_end m os_hdr)
                   (set_os_id (image_get_os m os_hdr) (set_comp (image_get_comp m os_hdr) (set_type (image_get_type m os_hdr) o))))) i)
  else if format =? IMAGE_FORMAT_FIT then
    let fit_hdr := fit_hdr_os (fits i) in
    let noffset := fit_noffset_os (fits i) in
    '(rc, t) ← fit_image_get_type fuel m fit_hdr noffset;
    let i := set_os (set_type t (os_ i)) i in
    if truth rc then Some (false, i)
    else
      '(rc, c) ← fit_image_get_comp fuel m fit_hdr noffset;
      let i := set_os (set_comp c (os_ i)) i in
      if truth rc then Some (false, i)
      else
        '(rc, s) ← fit_image_get_os fuel m fit_hdr noffset;
        let i := set_os (set_os_id s (os_ i)) i in
        if truth rc then Some (false, i)
        else
          let i := set_os (set_end (fit_get_end m fit_hdr) (os_ i)) i in
          l ← fit_image_get_load fuel m fit_hdr noffset;
          Some (match l with None => (false, i) | Some l => (true, set_os (set_load l (os_ i)) i) end)
  else Some (false, i).

(** The entry point, or none. *)
Definition get_entry_point (m : mem) (i : bootm_headers_t) : option (option Z) :=
  if legacy_hdr_valid i then Some (Some (be_val (take 4 (drop 20 (legacy_hdr_os_copy i)))))
  else
    match fit_uname_os (fits i) with
    | Some _ => fit_image_get_entry fuel m (fit_hdr_os (fits i)) (fit_noffset_os (fits i))
    | None => Some None
    end.

(** The code and [images], from an [images] with its memory blocks. *)
Definition start_image (m : mem) (load_addr : Z) (argv : list (list Z)) (i : bootm_headers_t) : option (Z * bootm_headers_t) :=
  '(os_hdr, i) ← boot_get_kernel m load_addr argv i;
  if image_len (os_ i) =? 0 then Some (1, i)
  else
    '(ok, i) ← get_image_params m os_hdr i;
    if negb ok then Some (1, i)
    else
      e ← get_entry_point m i;
      match e with
      | None => Some (1, i)
      | Some e =>
          let i := set_ep e i in
          '(rc, i) ← (if os (os_ i) =? IH_OS_LINUX then boot_get_ramdisk m load_addr argv IH_ARCH_OR1K i else Some (0, i));
          Some (if truth rc then (1, i) else (0, set_state BOOTM_STATE_START (set_os (set_start os_hdr (os_ i)) i)))
      end.

(** The RAM table with the memory that may be used. *)
Definition boot_lmb (w : world) : option lmb :=
  mem_start ← getenv_bootm_low (env w);
  mem_size ← getenv_bootm_size (env w) (bi_memsize w);
  Some (lmb_add (lmb_init zero_table zero_table) mem_start mem_size).1.

Definition bootm_start (w : world) (argv : list (list Z)) : option (Z * world) :=
  v ← getenv_yesno (env w) (str "verify");
  l ← boot_lmb w;
  let i := mk_images 0 (replicate 64 0) false (fits zero_images) (os_ zero_images) 0 0 0 v 0 l in
  '(rc, i) ← start_image (ram w) (load_addr w) argv i;
  Some (rc, set_images i w).

(** ** Starting the system *)

(** [disable_interrupts] returns 0 whether they were on or not. *)
Definition disable_interrupts (w : world) : world * Z := (set_interrupts false w, 0).
Definition enable_interrupts (w : world) : world := set_interrupts true w.

Definition do_reset (w : world) : outcome := Jumps CONFIG_SYS_RESET_ADDR (disable_interrupts w).1.

(** The entry point of the image is not used. *)
Definition do_bootm_linux (flag : Z) (w : world) : outcome := Jumps 0x100 w.

(** [boot_os]: six words, only the one of Linux is set; nothing is relocated. *)
Definition boot_os_size : Z := IH_OS_LINUX + 1.

Definition boot_fn (flag : Z) (w : world) : outcome :=
  let i := os (os_ (images w)) in
  if i =? IH_OS_LINUX then do_bootm_linux flag w
  else if i <? boot_os_size then Jumps 0 w
  else Wild i w.

Definition reserve_os (load_end : Z) (w : world) : world :=
  let i := images w in
  set_images (set_lmb (lmb_reserve (lmb_ i) (load_ (os_ i)) (u32 (load_end - load_ (os_ i)))).1 i) w.

(** ** Sub-commands *)

Definition cmd_bootm_sub : list (list Z * Z) :=
  [(str "start", BOOTM_STATE_START); (str "loados", BOOTM_STATE_LOADOS); (str "bdt", BOOTM_STATE_OS_BD_T);
   (str "cmdline", BOOTM_STATE_OS_CMDLINE); (str "prep", BOOTM_STATE_OS_PREP); (str "go", BOOTM_STATE_OS_GO)].

(** The state in the [cmd] field of the entry found. *)
Definition find_sub_state (name : list Z) : option Z :=
  c ← find_cmd_tbl name (map (fun e => mk_cmd e.1 0 1 false) cmd_bootm_sub);
  snd <$> List.find (fun e => bool_decide (e.1 = c_name c)) cmd_bootm_sub.

Definition do_bootm_subcommand (w : world) (argv : list (list Z)) : option outcome :=
  match find_sub_state (nth 1 argv []) with
  | None => Some (Ret 1 w)
  | Some s =>
      if s =? BOOTM_STATE_START then
        '(rc, w) ← bootm_start w (tail argv);
        Some (Ret rc w)
      else if s <=? state (images w) then Some (Ret 1 w)
      else
        let w := set_images (set_state (Z.lor (state (images w)) s) (images w)) w in
        Some (if s =? BOOTM_STATE_LOADOS then
                let '(m, ret, load_end) := bootm_load_os gunzip (ram w) (os_ (images w)) in
                let w := set_ram m w in
                if truth ret then Ret ret w else Ret 0 (reserve_os load_end w)
              else if s =? BOOTM_STATE_OS_GO then boot_fn s (disable_interrupts w).1
              else boot_fn s w)
  end.

(** ** The command *)

(** Whether the first argument is a sub-command: no number, no FIT name. *)
Definition is_subcommand (argv : list (list Z)) : bool :=
  match argv with
  | _ :: arg :: _ =>
      let e := hd 0 (simple_strtoul arg 16).2 in
      negb (e =? 0) && negb (e =? 58) && negb (e =? 35)
  | _ => false
  end.

(** After [bootm_start]. *)
Definition boot_image (w : world) : outcome :=
  let '(w, iflag) := disable_interrupts w in
  let '(m, ret, load_end) := bootm_load_os gunzip (ram w) (os_ (images w)) in
  let w := set_ram m w in
  if ret =? BOOTM_ERR_RESET then do_reset w
  else if (ret =? BOOTM_ERR_OVERLAP) && negb (legacy_hdr_valid (images w)) then do_reset w
  else if ret =? BOOTM_ERR_UNIMPLEMENTED then Ret 1 (if truth iflag then enable_interrupts w else w)
  else boot_fn 0 (reserve_os load_end w).

Definition do_bootm (w : world) (argv : list (list Z)) : option outcome :=
  if is_subcommand argv then do_bootm_subcommand w argv
  else
    '(rc, w) ← bootm_start w argv;
    Some (if truth rc then Ret 1 w else boot_image w).

(** ** [iminfo] *)

(** The code of [image_info]. *)
Definition image_info (m : mem) (addr : Z) : option Z :=
  let hdr := addr in
  let format := genimg_get_format m hdr in
  if format =? IMAGE_FORMAT_LEGACY then
    Some (if negb (image_check_magic m hdr) then 1
          else if negb (image_check_hcrc m hdr) then 1
          else if negb (image_check_dcrc m hdr) then 1
          else 0)
  else if format =? IMAGE_FORMAT_FIT then
    ok ← fit_check_format fuel m hdr;
    if negb ok then Some 1
    else
      ok ← fit_all_image_check_hashes fuel stack m hdr;
      Some (if (ok : bool) then 0 else 1)
  else Some 1.

Fixpoint iminfo_loop (m : mem) (args : list (list Z)) (rcode : Z) : option Z :=
  match args with
  | [] => Some rcode
  | arg :: args =>
      rc ← image_info m (simple_strtoul arg 16).1;
      iminfo_loop m args (if truth rc then 1 else rcode)
  end.

Definition do_iminfo (w : world) (argv : list (list Z)) : option Z :=
  match tail argv with
  | [] => image_info (ram w) (load_addr w)
  | args => iminfo_loop (ram w) args 0
  end.
End bootm.

(** ** Arguments *)

Lemma drop_absent (c : Z) l : c ∉ l -> drop_while (fun x => negb (x =? c)) l = [].
Proof.
  induction l as [|x l IH]; intros H; [done |]. apply not_elem_of_cons in H as [Hx H]. cbn [drop_while]. rewrite (proj2 (Z.eqb_neq x c)) by congruence. by apply IH.
Qed.

(** An argument that is a number and nothing else. *)
Definition plain_addr (arg : list Z) (addr : Z) : Prop := simple_strtoul arg 16 = (addr, []) /\ (35 ∉ arg) /\ (58 ∉ arg).

Lemma parse_plain arg addr cur : plain_addr arg addr -> parse_image_arg arg cur = (addr, None, None).
Proof.
  intros (E & H1 & H2).
  unfold parse_image_arg, fit_parse_conf, fit_parse_subimage, fit_parse_spec. rewrite (drop_absent 35 arg H1), (drop_absent 58 arg H2). by rewrite E.
Qed.

Lemma plain_no_subcommand cmd arg addr rest : plain_addr arg addr -> is_subcommand (cmd :: arg :: rest) = false.
Proof. intros (E & _). unfold is_subcommand. by rewrite E. Qed.

(** ** The table of memory blocks *)

Definition memory_low (es : list var) : Z := match env_lookup (str "bootm_low") es with Some v => (simple_strtoul v 16).1 | None => CONFIG_SYS_SDRAM_BASE end.
Definition memory_size (memsize : Z) (es : list var) : Z := match env_lookup (str "bootm_size") es with Some v => (simple_strtoul v 16).1 | None => memsize end.
Definition verify_on (es : list var) : bool := match env_lookup (str "verify") es with Some v => negb (hd 0 v =? 110) | None => true end.

Lemma good_literal s : s <> [] -> forallb (fun c => negb (c =? 0) && negb (c =? 61)) s = true -> good_name s.
Proof.
  intros Hne H. split; [done |]. apply Forall_forall. intros c Hc%list_elem_of_In. rewrite forallb_forall in H. apply H in Hc. lia.
Qed.

Lemma boot_lmb_spec w es : env_is (env w) es ->
  exists l, boot_lmb w = Some l /\ reserved l = mk_region 1 0 (replicate 9 (mk_prop 0 0)) /\ 
    memory l = mk_region 1 0 (mk_prop (memory_low es) (memory_size (bi_memsize w) es) :: replicate 8 (mk_prop 0 0)).
Proof.
  intros He. unfold boot_lmb, getenv_bootm_low, getenv_bootm_size. rewrite !(getenv_str_lookup (env w) es _ He) by (by apply good_literal). cbn [mbind option_bind].
  eexists. split; [reflexivity |]. done.
Qed.

Lemma verify_spec e es : env_is e es -> getenv_yesno e (str "verify") = Some (verify_on es).
Proof. intros He. unfold getenv_yesno. rewrite (getenv_str_lookup e es _ He) by (by apply good_literal). done. Qed.

(** The area of the kernel is all that is reserved. *)
Lemma reserve_spec l b s : reserved l = mk_region 1 0 (replicate 9 (mk_prop 0 0)) ->
  forall a, covers (live (reserved (lmb_reserve l b s).1)) a <-> b <= a < b + s.
Proof.
  intros E a. unfold lmb_reserve. rewrite E.
  change (lmb_add_region (mk_region 1 0 (replicate 9 (mk_prop 0 0))) b s) with (mk_region 1 0 (mk_prop b s :: replicate 8 (mk_prop 0 0)), 0).
  cbn [fst reserved]. change (live (mk_region 1 0 (mk_prop b s :: replicate 8 (mk_prop 0 0)))) with [mk_prop b s]. autorewrite with dsd. unfold inside. cbn [base Lmb.size]. tauto.
Qed.

(** ** A legacy kernel *)

(** A Linux kernel for this processor, not compressed. *)
Definition linux_opts (o : mkimage_opts) : Prop :=
  opts_ok o /\ opt_os o = IH_OS_LINUX /\ opt_arch o = IH_ARCH_OR1K /\ opt_type o = IH_TYPE_KERNEL /\ opt_comp o = IH_COMP_NONE.

Local Opaque crc32 crc32_wd.

Section legacy.
Context (gunzip : mem -> Z -> Z -> Z -> Z -> mem * Z * Z) (fuel : nat) (stack : list Z).
Context (w : world) (es : list var) (cmd arg : list Z) (hdr : Z) (o : mkimage_opts) (p : list Z).
Hypothesis Henv : env_is (env w) es.
Hypothesis Harg : plain_addr arg hdr.
Hypothesis Ho : linux_opts o.
Hypothesis Hp : Forall byte p /\ p <> [].
Hypothesis Hhdr : 0 < hdr /\ hdr + 64 + len p < 2 ^ 32.
Hypothesis Hload : load (ram w) hdr (length (mkimage o p)) = mkimage o p.

(** What [bootm_start] finds. *)
Definition legacy_info : image_info_t :=
  mk_image_info hdr (hdr + 64 + len p) (hdr + 64) (len p) (opt_addr o) IH_COMP_NONE IH_TYPE_KERNEL IH_OS_LINUX.

Lemma start_legacy : exists i, bootm_start fuel stack w [cmd; arg] = Some (0, set_images i w) /\
  os_ i = legacy_info /\ ep i = opt_ep o /\ legacy_hdr_valid i = true /\ rd_start i = 0 /\ rd_end i = 0 /\ state i = BOOTM_STATE_START /\
  reserved (lmb_ i) = mk_region 1 0 (replicate 9 (mk_prop 0 0)).
Proof.
  destruct Ho as (Hok & Hos & Harch & Htype & Hcomp). destruct Hp as [Hpb Hpn]. pose proof Hok as ((Ht & Ha & He) & _).
  destruct (mkimage_checks (ram w) hdr o p Hok Hpb ltac:(lia) ltac:(lia) Hload) as (Em & Eh & Ed).
  destruct (mkimage_split (ram w) hdr o p Hok Hload) as [H1 H2].
  assert (Hd : 0 <= crc32 0 p (len p) < 2 ^ 32) by (apply crc32_range; [done | lia]).
  assert (Hc : 0 <= crc32 0 (raw_header o (len p) (crc32 0 p (len p)) 0) 64 < 2 ^ 32) by (apply crc32_range; [by apply raw_header_bytes | rewrite raw_header_length by done; lia]).
  destruct (header_fields (ram w) hdr o (len p) _ _ Hok ltac:(lia) Hd Hc H1) as (_ & _ & _ & Es & El & Ee & _ & Eo & Ea & Et & Ec).
  destruct (boot_lmb_spec w es Henv) as (l & El' & Hres & _). unfold bootm_start. rewrite (verify_spec _ es Henv), El'. cbn [mbind option_bind].
  assert (EK : forall v, image_get_kernel (ram w) hdr v = (hdr, 4)).
  { intros v. unfold image_get_kernel, image_check_target_arch, image_check_arch. rewrite Em, Eh, Ed, Ea, Harch. by destruct v. }
  assert (Hlen : len p <> 0) by (intros E0; apply Hpn, nil_length_inv; lia).
  assert (Eend : image_get_image_end (ram w) hdr = hdr + 64 + len p).
  { unfold image_get_image_end, image_get_image_size, image_get_header_size. rewrite Es, (wrap_small 32 (len p + 64)), (wrap_small 32 (hdr + (len p + 64))) by lia. lia. }
  unfold start_image, boot_get_kernel, image_arg, genimg_get_image. rewrite (parse_plain arg hdr _ Harg). unfold genimg_get_format. rewrite Em. cbn [IMAGE_FORMAT_LEGACY Z.eqb Pos.eqb].
  unfold get_kernel_legacy. rewrite EK. rewrite (proj2 (Z.eqb_neq hdr 0)) by lia. rewrite Et, Htype. cbn [IH_TYPE_KERNEL Z.eqb Pos.eqb mbind option_bind].
  unfold image_get_data_size, image_get_data, image_get_header_size. rewrite Es, (wrap_small 32 (hdr + 64)) by lia. cbn [os_ image_len set_os set_legacy set_image].
  rewrite (proj2 (Z.eqb_neq (len p) 0) Hlen). unfold get_image_params, genimg_get_format. rewrite Em. cbn [IMAGE_FORMAT_LEGACY Z.eqb Pos.eqb mbind option_bind negb].
  unfold get_entry_point. cbn [legacy_hdr_valid set_os set_legacy mbind option_bind legacy_hdr_os_copy os_ os set_load set_end set_os_id set_ep].
  rewrite Eo, Hos. cbn [IH_OS_LINUX Z.eqb Pos.eqb]. unfold boot_get_ramdisk. cbn [genimg_has_config fits fit_uname_cfg set_rd set_ep set_os set_legacy zero_images legacy_hdr_valid legacy_hdr_os_copy andb].
  assert (E30 : nthZ (load (ram w) hdr 64) 30 = IH_TYPE_KERNEL).
  { unfold nthZ. rewrite nth_lookup, load_lookup by (vm_compute; lia). cbn [default]. unfold id. change (Z.of_nat (Z.to_nat 30)) with 30. unfold image_get_type in Et. by rewrite Et. }
  rewrite E30. cbn [IH_TYPE_KERNEL IH_TYPE_MULTI Z.eqb Pos.eqb set_ramdisk mbind option_bind truth negb].
  eexists. split; [reflexivity |]. split_and!; [| | reflexivity | reflexivity | reflexivity | reflexivity | exact Hres].
  - cbn [os_ set_state set_os set_rd set_ep set_load set_end set_os_id set_comp set_type set_start set_image start end_ image_start image_len load_ comp type os].
    rewrite El, Ec, Hcomp, Eend, Et, Htype. reflexivity.
  - cbn [ep set_state set_os set_rd set_ep]. rewrite <- Ee. unfold image_get_ep, get32. f_equal. symmetry. apply (load_sub (ram w) hdr (load (ram w) hdr 64) 20 4); [by rewrite load_length | rewrite load_length; lia].
Qed.

Lemma legacy_blob : 0 <= opt_addr o -> opt_addr o + len p < 2 ^ 32 -> Image.blob_ok legacy_info.
Proof. intros H1 H2. unfold Image.blob_ok, legacy_info. cbn [start image_start image_len end_ load_]. lia. Qed.

(** The kernel is loaded and started. *)
Lemma boot_legacy : opt_addr o + len p < 2 ^ 32 -> opt_addr o <> hdr ->
  exists w', do_bootm gunzip fuel stack w [cmd; arg] = Some (Jumps 0x100 w') /\
    meq (ram w') (store_list (ram w) (opt_addr o) p) /\ interrupts w' = false /\ ep (images w') = opt_ep o /\
    (forall a, covers (live (reserved (lmb_ (images w')))) a <-> opt_addr o <= a < opt_addr o + len p).
Proof.
  intros Hend Hne. destruct start_legacy as (i & Es & Eo & Ee & Ev & _ & _ & _ & Er). pose proof Ho as (((_ & Ha & _) & _) & _).
  destruct (load_none_spec gunzip (ram w) legacy_info (legacy_blob ltac:(lia) Hend) eq_refl) as (m' & El & Hm). unfold loaded in Hm. rewrite decide_False in Hm by done.
  cbn [legacy_info load_ image_start image_len] in Hm. rewrite Nat2Z.id in Hm. rewrite (proj2 (mkimage_split (ram w) hdr o p (proj1 Ho) Hload)) in Hm.
  unfold do_bootm. rewrite (plain_no_subcommand cmd arg hdr [] Harg), Es. cbn [mbind option_bind truth Z.eqb negb].
  unfold boot_image, disable_interrupts. cbn [set_interrupts set_images ram images]. rewrite Eo, El. cbn [set_ram images set_images set_interrupts]. rewrite Ev. cbn [negb]. rewrite andb_false_r.
  set (rc := if decide _ then _ else _). assert (Hrc : rc = BOOTM_ERR_OVERLAP \/ rc = 0) by (unfold rc; case_decide; [by left | by right]).
  rewrite (proj2 (Z.eqb_neq rc BOOTM_ERR_RESET)), (proj2 (Z.eqb_neq rc BOOTM_ERR_UNIMPLEMENTED)) by (destruct Hrc as [-> | ->]; done).
  unfold boot_fn, reserve_os. cbn [images set_images set_ram set_interrupts os_ lmb_ set_lmb]. rewrite Eo. cbn [legacy_info os IH_OS_LINUX Z.eqb Pos.eqb do_bootm_linux].
  eexists. split; [reflexivity |]. cbn [ram interrupts images ep set_images set_lmb lmb_ load_ image_len legacy_info]. split_and!; [exact Hm | reflexivity | exact Ee |].
  intros a. replace (u32 (opt_addr o + len p - opt_addr o)) with (len p) by (rewrite (wrap_small 32); lia). by apply reserve_spec.
Qed.
End legacy.

(** ** A FIT image *)

(** A node that was found is found by its own name. *)
Lemma matches_exact n name : name_matches n name = true -> 64 ∈ name -> n = name.
Proof.
  unfold name_matches. intros [H1 H2]%andb_true_iff Hin. apply bool_decide_eq_true in H1. destruct (drop (length name) n) as [|c r] eqn:E.
  - rewrite <- (take_drop (length name) n), E, app_nil_r. exact H1.
  - rewrite (bool_decide_eq_true_2 (64 ∈ name) Hin) in H2. done.
Qed.

Lemma matches_self n : name_matches n n = true.
Proof. unfold name_matches. rewrite firstn_all, drop_all, bool_decide_eq_true_2 by done. done. Qed.

Lemma matches_cases n name : name_matches n name = true -> n = name \/ 64 ∈ n.
Proof.
  unfold name_matches. intros [H1 H2]%andb_true_iff. apply bool_decide_eq_true in H1. pose proof (take_drop (length name) n) as E. destruct (drop (length name) n) as [|c r] eqn:Ed.
  - left. rewrite <- E, app_nil_r. exact H1.
  - right. apply andb_true_iff in H2 as [_ H2%Z.eqb_eq]. subst c. rewrite <- E. apply elem_of_app. right. by left.
Qed.

Lemma find_again name n s : find_sub name n = Some s -> find_sub (node_name s) n = Some s.
Proof.
  unfold find_sub. intros H. pose proof (List.find_some _ _ H) as [_ Hm]. destruct (matches_cases _ _ Hm) as [-> | H64]; [done |].
  revert H. induction (node_subs n) as [|x l IH]; cbn [List.find]; [done |]. destruct (name_matches (node_name x) name) eqn:Ex.
  - intros [= ->]. by rewrite matches_self.
  - intros H. destruct (name_matches (node_name x) (node_name s)) eqn:Es; [| by apply IH]. apply matches_exact in Es; [| done]. congruence.
Qed.

Section fit_boot.
Context (gunzip : mem -> Z -> Z -> Z -> Z -> mem * Z * Z) (fuel : nat) (stack : list Z).
Context (w : world) (es : list var) (cmd arg : list Z) (fit : Z) (strings : list (list Z)) (root conf kernel : node) (d lv ev : list Z).
Hypothesis Henv : env_is (env w) es.
Hypothesis Harg : plain_addr arg fit.
Hypothesis Hstack : length stack = 64%nat.
Hypothesis Hload : load (ram w) fit (length (fdt_blob strings root)) = fdt_blob strings root.
Hypothesis Hstr : Forall good_chars strings.
Hypothesis Hnode : node_ok strings root.
Hypothesis Haddr : 0 <= fit /\ fit + len (fdt_blob strings root) < 2 ^ 32.
Hypothesis Hsmall : len (fdt_blob strings root) < 2 ^ 31 - 16.
Hypothesis Hfuel : len (fdt_blob strings root) < Z.of_nat fuel.
Hypothesis Hterm : all_nodes terminated root.
Hypothesis Hdesc : is_Some (find_prop FIT_DESC_PROP root).
Hypothesis Hconf : conf_of root None = Some conf.
Hypothesis Hkernel : conf_image root conf FIT_KERNEL_PROP = Some kernel.
Hypothesis Hrd : find_prop FIT_RAMDISK_PROP conf = None.
Hypothesis Hok : kernel_ok (verify_on es) kernel = true.
Hypothesis Hcomp : prop_id FIT_COMP_PROP genimg_get_comp_id kernel = Some IH_COMP_NONE.
Hypothesis Hos : prop_id FIT_OS_PROP genimg_get_os_id kernel = Some IH_OS_LINUX.
Hypothesis Hdata : find_prop FIT_DATA_PROP kernel = Some d /\ d <> [].
Hypothesis Hlv : find_prop FIT_LOAD_PROP kernel = Some lv /\ 4 <= len lv.
Hypothesis Hev : find_prop FIT_ENTRY_PROP kernel = Some ev /\ 4 <= len ev.

Let size := len (struct_bytes strings root).
Let m := ram w.
Local Notation at_off := (node_at (str_offset strings) fuel m fit size).

Lemma fit_ok : Fdt.blob_ok fuel m fit size /\ at_off 0 root.
Proof. apply fdt_blob_read; assumption. Qed.

Lemma name_at_spec off n : at_off off n -> exists p, fdt_get_name fuel m fit off = Some p /\ name_at fuel m p = Some (Some (node_name n)).
Proof.
  intros Hn. destruct fit_ok as [Hb _]. destruct (get_name_spec _ _ _ _ _ Hb off n Hn) as (p & E & Hp & Hc). exists p. split; [done |].
  destruct (node_name_at _ _ _ _ _ off n Hn) as (_ & H0 & Hl). pose proof (blob_fuel _ _ _ _ Hb) as Hf. unfold name_at. rewrite (proj2 (Z.eqb_neq p 0) Hp). unfold string_at.
  rewrite (strlen_spec m p (node_name n)) by (done || lia). cbn [mbind option_bind]. rewrite Nat2Z.id. by rewrite (proj1 Hc).
Qed.

Lemma word_prop off n prop v : at_off off n -> name_ok prop -> find_prop prop n = Some v -> 4 <= len v ->
  exists p q, fdt_getprop fuel m fit off prop = Some (p, q) /\ p <> 0 /\ get32 m p = be_val (take 4 v).
Proof.
  intros Hn Hp Hv H4. destruct fit_ok as [Hb _]. pose proof (getprop_spec _ _ _ _ _ Hb off n prop Hn Hp) as HG. rewrite Hv in HG. destruct HG as (p & E & Hp0 & Hl & _).
  exists p, (len v). split_and!; [done | done |]. unfold get32. f_equal. pose proof (load_sub m p v 0 4) as HS. rewrite drop_0, Z.add_0_r in HS. apply HS; [done | lia].
Qed.

(** What [bootm_start] finds, the data at [pd]. *)
Definition fit_info (pd : Z) : image_info_t :=
  mk_image_info fit (fit + len (fdt_blob strings root)) pd (len d) (be_val (take 4 lv)) IH_COMP_NONE IH_TYPE_KERNEL IH_OS_LINUX.

Lemma conf_again : conf_of root (Some (node_name conf)) = Some conf.
Proof.
  revert Hconf. unfold conf_of. destruct (find_sub (str "configurations") root) as [confs|]; cbn [mbind option_bind]; [| done].
  destruct (c_str <$> find_prop FIT_DEFAULT_PROP confs) as [name|]; cbn [mbind option_bind]; [| done]. apply find_again.
Qed.

Lemma fit_format : genimg_get_format m fit = IMAGE_FORMAT_FIT.
Proof.
  destruct fit_ok as [Hb _]. unfold genimg_get_format, image_check_magic, image_get_magic. rewrite (blob_header _ _ _ _ Hb).
  assert (E : get32 m fit = FDT_MAGIC) by (pose proof (blob_word strings root m fit Hload Hsmall 0 FDT_MAGIC eq_refl) as H; by rewrite Z.add_0_r in H). by rewrite E.
Qed.

Lemma conf_terminated : all_nodes terminated conf.
Proof.
  revert Hconf. unfold conf_of. destruct (find_sub (str "configurations") root) as [confs|] eqn:Ec; cbn [mbind option_bind]; [| done].
  destruct (c_str <$> find_prop FIT_DEFAULT_PROP confs) as [name|]; cbn [mbind option_bind]; [| done]. intros E. exact (find_sub_all _ _ _ _ (find_sub_all _ _ _ _ Hterm Ec) E).
Qed.

Lemma kernel_terminated : all_nodes terminated kernel.
Proof.
  revert Hkernel. unfold conf_image, image_of. destruct (find_prop FIT_KERNEL_PROP conf) as [v|]; cbn [mbind option_bind]; [| done].
  destruct (find_sub (str "images") root) as [ims|] eqn:Ei; cbn [mbind option_bind]; [| done]. intros E. exact (find_sub_all _ _ _ _ (find_sub_all _ _ _ _ Hterm Ei) E).
Qed.

(** The kernel's node and its data. *)
Lemma get_fit_spec i : verify i = verify_on es ->
  exists o pd, at_off o kernel /\ load m pd (length d) = d /\ fit <= pd /\ pd + len d <= fit + len (fdt_blob strings root) /\
    get_kernel_fit fuel stack m fit None None i =
    Some (fit, set_fits (mk_fit (Some (node_name conf)) fit (Some (node_name kernel)) o (fit_hdr_rd (fits i)) (fit_uname_rd (fits i)) (fit_noffset_rd (fits i)))
                 (set_os (set_image pd (len d) (os_ i)) (set_fits (mk_fit (Some (node_name conf)) (fit_hdr_os (fits i)) (fit_uname_os (fits i)) (fit_noffset_os (fits i)) (fit_hdr_rd (fits i)) (fit_uname_rd (fits i)) (fit_noffset_rd (fits i))) i))).
Proof.
  intros Hv. destruct fit_ok as [Hb Hr]. unfold get_kernel_fit. rewrite (check_format_spec (str_offset strings) fuel m fit size Hb root Hr).
  assert (Him : is_Some (find_sub (str "images") root)).
  { revert Hkernel. unfold conf_image, image_of. destruct (find_prop FIT_KERNEL_PROP conf); [| done]. cbn [mbind option_bind]. by destruct (find_sub (str "images") root). }
  rewrite bool_decide_eq_true_2 by done. cbn [mbind option_bind negb]. unfold get_kernel_node.
  pose proof conf_terminated as Hct. pose proof kernel_terminated as Hkt.
  pose proof (conf_node_spec (str_offset strings) fuel m fit size Hb root None Hr Hterm ltac:(intros name [=])) as HC. rewrite Hconf in HC. destruct HC as (oc & -> & Hoc). cbn [mbind option_bind].
  rewrite (proj2 (Z.ltb_ge oc 0)) by (by eapply at_nonneg). destruct (name_at_spec oc conf Hoc) as (pc & -> & Enc). cbn [mbind option_bind]. rewrite Enc. cbn [mbind option_bind].
  pose proof (conf_image_spec (str_offset strings) fuel m fit size Hb root conf oc FIT_KERNEL_PROP Hr Hoc (all_here _ _ Hct) ltac:(by_eval)) as HK. rewrite Hkernel in HK. destruct HK as (ok & Ek & Hk).
  unfold fit_conf_get_kernel_node. rewrite Ek. cbn [mbind option_bind]. unfold fit_get_name. destruct (name_at_spec ok kernel Hk) as (pk & -> & Enk). cbn [mbind option_bind]. rewrite Enk. cbn [mbind option_bind].
  rewrite (proj2 (Z.ltb_ge ok 0)) by (by eapply at_nonneg). cbn [verify set_fits]. rewrite Hv.
  rewrite (check_kernel_spec (str_offset strings) fuel stack m fit size Hb Hstack ok kernel (verify_on es) Hk Hkt), Hok. cbn [mbind option_bind negb].
  pose proof (getprop_spec _ _ _ _ _ Hb ok kernel FIT_DATA_PROP Hk (lit_ok FIT_DATA_PROP eq_refl ltac:(done))) as HG. rewrite (proj1 Hdata) in HG. destruct HG as (pd & Ed & Hpd & Hld & Hlo & Hhi).
  unfold fit_image_get_data. rewrite Ed. cbn [mbind option_bind]. rewrite (proj2 (Z.eqb_neq pd 0) Hpd).
  pose proof (blob_base strings root m fit Hload Hsmall) as Hbase. pose proof (blob_length strings root) as Hlen. rewrite Hbase in *.
  exists ok, pd. split_and!; [done | done | lia | unfold size in Hhi; lia | reflexivity].
Qed.

Lemma id_prop off prop get_id x : at_off off kernel -> prop ∈ string_props -> prop_id prop get_id kernel = Some x -> fit_image_get_id fuel m fit prop get_id off = Some (0, x).
Proof.
  intros Hk Hp E. destruct fit_ok as [Hb _]. rewrite (get_id_spec (str_offset strings) fuel m fit size Hb off kernel prop get_id Hk) by (done || by apply all_here, kernel_terminated). by rewrite E.
Qed.

Lemma start_fit : exists i pd, bootm_start fuel stack w [cmd; arg] = Some (0, set_images i w) /\
  os_ i = fit_info pd /\ load m pd (length d) = d /\ fit <= pd /\ pd + len d <= fit + len (fdt_blob strings root) /\ ep i = be_val (take 4 ev) /\
  legacy_hdr_valid i = false /\ rd_start i = 0 /\ rd_end i = 0 /\ state i = BOOTM_STATE_START /\
  reserved (lmb_ i) = mk_region 1 0 (replicate 9 (mk_prop 0 0)).
Proof.
  destruct fit_ok as [Hb Hr]. destruct (boot_lmb_spec w es Henv) as (l & El & Hres & _). unfold bootm_start. rewrite (verify_spec _ es Henv), El. cbn [mbind option_bind]. fold m.
  unfold start_image, boot_get_kernel, image_arg, genimg_get_image. rewrite (parse_plain arg fit _ Harg), fit_format. cbn [IMAGE_FORMAT_LEGACY IMAGE_FORMAT_FIT Z.eqb Pos.eqb].
  set (i0 := set_os _ _). destruct (get_fit_spec i0 eq_refl) as (o & pd & Hk & Hld & Hlo & Hhi & ->). cbn [mbind option_bind].
  assert (Hlen : len d <> 0) by (destruct Hdata as [_ Hd]; intros E0; apply Hd, nil_length_inv; lia).
  cbn [os_ set_fits set_os set_image image_len]. rewrite (proj2 (Z.eqb_neq (len d) 0) Hlen).
  unfold get_image_params. rewrite fit_format. cbn [IMAGE_FORMAT_LEGACY IMAGE_FORMAT_FIT Z.eqb Pos.eqb fits set_fits fit_hdr_os fit_noffset_os].
  pose proof Hok as [[_ Harch]%andb_true_iff Htype]%andb_true_iff. apply bool_decide_eq_true in Htype.
  unfold fit_image_get_type, fit_image_get_comp, fit_image_get_os.
  rewrite (id_prop o FIT_TYPE_PROP genimg_get_type_id IH_TYPE_KERNEL Hk ltac:(by_eval) Htype). cbn [mbind option_bind truth Z.eqb negb].
  rewrite (id_prop o FIT_COMP_PROP genimg_get_comp_id IH_COMP_NONE Hk ltac:(by_eval) Hcomp). cbn [mbind option_bind truth Z.eqb negb].
  rewrite (id_prop o FIT_OS_PROP genimg_get_os_id IH_OS_LINUX Hk ltac:(by_eval) Hos). cbn [mbind option_bind truth Z.eqb negb].
  destruct (word_prop o kernel FIT_LOAD_PROP lv Hk (lit_ok FIT_LOAD_PROP eq_refl ltac:(done)) (proj1 Hlv) (proj2 Hlv)) as (pl & ql & Epl & Hpl & Elv).
  unfold fit_image_get_load. rewrite Epl. cbn [mbind option_bind]. rewrite (proj2 (Z.eqb_neq pl 0) Hpl), Elv. cbn [negb].
  unfold get_entry_point. cbn [legacy_hdr_valid set_os set_fits i0 fits fit_uname_os fit_hdr_os fit_noffset_os].
  destruct (word_prop o kernel FIT_ENTRY_PROP ev Hk (lit_ok FIT_ENTRY_PROP eq_refl ltac:(done)) (proj1 Hev) (proj2 Hev)) as (pe & qe & Epe & Hpe & Eev).
  unfold fit_image_get_entry. rewrite Epe. cbn [mbind option_bind]. rewrite (proj2 (Z.eqb_neq pe 0) Hpe), Eev.
  cbn [os_ set_ep set_os set_load set_end set_os_id os IH_OS_LINUX Z.eqb Pos.eqb].
  unfold boot_get_ramdisk. cbn [genimg_has_config fits fit_uname_cfg set_rd set_ep set_os set_fits fit_hdr_os].
  assert (Hname : name_ok (node_name conf)).
  { pose proof (conf_node_spec (str_offset strings) fuel m fit size Hb root None Hr Hterm ltac:(intros ? [=])) as HC. rewrite Hconf in HC. destruct HC as (oc & _ & Hoc).
    destruct (node_name_at _ _ _ _ _ oc conf Hoc) as ((_ & _ & Hg) & H0 & Hl). pose proof (blob_small _ _ _ _ Hb). split; [done | lia]. }
  pose proof (conf_node_spec (str_offset strings) fuel m fit size Hb root (Some (node_name conf)) Hr Hterm ltac:(by intros ? [= <-])) as HC. rewrite conf_again in HC. destruct HC as (oc & -> & Hoc).
  cbn [mbind option_bind]. rewrite (proj2 (Z.ltb_ge oc 0)) by (by eapply at_nonneg).
  pose proof (conf_image_spec (str_offset strings) fuel m fit size Hb root conf oc FIT_RAMDISK_PROP Hr Hoc (all_here _ _ conf_terminated) ltac:(by_eval)) as HR.
  unfold conf_image in HR. rewrite Hrd in HR. cbn [mbind option_bind] in HR. unfold fit_conf_get_ramdisk_node. rewrite HR. cbn [mbind option_bind]. cbn [FDT_ERR_NOTFOUND Z.opp Z.ltb Z.compare mbind option_bind truth Z.eqb negb].
  assert (Eend : fit_get_end m fit = fit + len (fdt_blob strings root)).
  { unfold fit_get_end, fdt_totalsize. change 4 with (4 * Z.of_nat 1). rewrite (blob_word strings root m fit Hload Hsmall 1 _ eq_refl). pose proof (blob_length strings root). rewrite (wrap_small 32); lia. }
  eexists _, pd. split; [reflexivity |]. split_and!; [| exact Hld | exact Hlo | exact Hhi | reflexivity | reflexivity | reflexivity | reflexivity | reflexivity | exact Hres].
  cbn [os_ set_state set_os set_rd set_ep set_fits set_load set_end set_os_id set_comp set_type set_start set_image start end_ image_start image_len load_ comp type os].
  rewrite Eend. reflexivity.
Qed.

Lemma fit_blob pd : fit <= pd -> pd + len d <= fit + len (fdt_blob strings root) -> 0 <= be_val (take 4 lv) -> be_val (take 4 lv) + len d < 2 ^ 32 -> Image.blob_ok (fit_info pd).
Proof. intros H1 H2 H3 H4. unfold Image.blob_ok, fit_info. cbn [start image_start image_len end_ load_]. lia. Qed.

(** The kernel is loaded and started. *)
Lemma boot_fit : let la := be_val (take 4 lv) in 0 <= la -> la + len d < 2 ^ 32 -> la + len d <= fit \/ fit + len (fdt_blob strings root) <= la ->
  exists w', do_bootm gunzip fuel stack w [cmd; arg] = Some (Jumps 0x100 w') /\
    meq (ram w') (store_list (ram w) la d) /\ interrupts w' = false /\ ep (images w') = be_val (take 4 ev) /\
    (forall a, covers (live (reserved (lmb_ (images w')))) a <-> la <= a < la + len d).
Proof.
  intros la H0 Hend Hap. destruct start_fit as (i & pd & Es & Eo & Hld & Hlo & Hhi & Ee & Ev & _ & _ & _ & Er). pose proof (blob_length strings root) as Hbl.
  destruct (load_none_spec gunzip (ram w) (fit_info pd) (fit_blob pd Hlo Hhi H0 Hend) eq_refl) as (m' & El & Hm). unfold loaded in Hm.
  assert (Hd : 0 < len d) by (destruct Hdata as [_ Hd]; destruct d; [done | cbn; lia]).
  rewrite decide_False in Hm by (cbn [fit_info load_ start]; fold la; lia). rewrite decide_False in El by (unfold areas_meet; cbn [fit_info load_ start end_ image_len]; fold la; lia).
  cbn [fit_info load_ image_start image_len] in Hm. rewrite Nat2Z.id in Hm. fold m in Hm. rewrite Hld in Hm.
  unfold do_bootm. rewrite (plain_no_subcommand cmd arg fit [] Harg), Es. cbn [mbind option_bind truth Z.eqb negb].
  unfold boot_image, disable_interrupts. cbn [set_interrupts set_images ram images]. rewrite Eo, El. cbn [BOOTM_ERR_RESET BOOTM_ERR_OVERLAP BOOTM_ERR_UNIMPLEMENTED Z.eqb andb].
  unfold boot_fn, reserve_os. cbn [images set_images set_ram set_interrupts os_ lmb_ set_lmb]. rewrite Eo. cbn [fit_info os IH_OS_LINUX Z.eqb Pos.eqb do_bootm_linux].
  eexists. split; [reflexivity |]. cbn [ram interrupts images ep set_images set_lmb lmb_ load_ image_len fit_info]. split_and!; [exact Hm | reflexivity | exact Ee |].
  intros a. fold la. replace (u32 (la + len d - la)) with (len d) by (rewrite (wrap_small 32); lia). by apply reserve_spec.
Qed.
End fit_boot.

(** ** No kernel without its checks *)

(** The image at [addr] passed every check that its format has: the node of a
    FIT image is one at an offset. *)
Definition image_checked (fuel : nat) (stack : list Z) (m : mem) (addr : Z) (v : bool) : Prop :=
  (image_get_magic m addr = IH_MAGIC /\ addr <> 0 /\ image_check_hcrc m addr = true /\ (v = true -> image_check_dcrc m addr = true) /\
   image_get_arch m addr = IH_ARCH_OR1K /\ (image_get_type m addr = IH_TYPE_KERNEL \/ image_get_type m addr = IH_TYPE_MULTI)) \/
  (fdt_check_header m addr = 0 /\ fit_check_format fuel m addr = Some true /\
   exists noffset, 0 <= noffset /\ (v = true -> fit_image_check_hashes fuel stack m addr noffset = Some true) /\
     fit_image_get_arch fuel m addr noffset = Some (0, IH_ARCH_OR1K) /\ fit_image_get_type fuel m addr noffset = Some (0, IH_TYPE_KERNEL)).

Ltac bind_inv H :=
  match type of H with
  | mbind _ ?x = Some _ => let E := fresh "E" in destruct x eqn:E; cbn [mbind option_bind] in H; [| discriminate H]
  end.

Lemma kernel_header_checked m addr v h n : image_get_kernel m addr v = (h, n) -> h <> 0 ->
  h = addr /\ image_check_hcrc m addr = true /\ (v = true -> image_check_dcrc m addr = true) /\ image_get_arch m addr = IH_ARCH_OR1K.
Proof.
  unfold image_get_kernel, image_check_target_arch, image_check_arch. intros E Hh. destruct (image_check_magic m addr); [| by injection E as <- <-].
  destruct (image_check_hcrc m addr); [| by injection E as <- <-]. destruct (image_check_dcrc m addr), v; cbn [negb andb] in E;
    try (by injection E as <- <-); destruct (Z.eqb_spec (image_get_arch m addr) IH_ARCH_OR1K); cbn [negb] in E; injection E as <- <-; done.
Qed.

Lemma code_truth rc : truth rc = false -> rc = 0.
Proof. unfold truth. destruct (Z.eqb_spec rc 0); done. Qed.

Lemma kernel_node_checked fuel stack m fit off v : fit_check_kernel fuel stack m fit off v = Some true ->
  (v = true -> fit_image_check_hashes fuel stack m fit off = Some true) /\
  fit_image_get_arch fuel m fit off = Some (0, IH_ARCH_OR1K) /\ fit_image_get_type fuel m fit off = Some (0, IH_TYPE_KERNEL).
Proof.
  unfold fit_check_kernel, fit_image_check_target_arch, fit_image_check_arch, fit_image_check_type. intros H.
  bind_inv H. destruct b; cbn [negb] in H; [| done]. bind_inv H. destruct b; cbn [negb] in H; [| done]. bind_inv E0. destruct p as [rc a]. bind_inv H. destruct p as [rc' t].
  destruct (truth rc) eqn:Er; [done |]. destruct (truth rc') eqn:Er'; [done |]. apply code_truth in Er as ->. apply code_truth in Er' as ->.
  destruct (Z.eqb_spec IH_ARCH_OR1K a) as [<-|]; [| done]. destruct (Z.eqb_spec IH_TYPE_KERNEL t) as [<-|]; [| done]. by destruct v.
Qed.

Lemma get_node_keeps fuel m fit cfg sub i r i' : get_kernel_node fuel m fit cfg sub i = Some (r, i') -> os_ i' = os_ i /\ verify i' = verify i.
Proof.
  unfold get_kernel_node. destruct sub as [name|].
  - intros H. bind_inv H. by injection H as <- <-.
  - intros H. bind_inv H. destruct (_ <? 0); [by injection H as <- <- |]. do 5 bind_inv H. by injection H as <- <-.
Qed.

Lemma get_kernel_checked fuel stack m la argv i hdr i' : boot_get_kernel fuel stack m la argv i = Some (hdr, i') -> image_len (os_ i') <> 0 ->
  image_checked fuel stack m (image_arg la argv).1.1 (verify i).
Proof.
  unfold boot_get_kernel, genimg_get_image, genimg_get_format. destruct (image_arg la argv) as [[addr cfg] sub]. cbn [fst]. intros H Hlen. unfold image_checked.
  unfold image_check_magic in H. destruct (Z.eqb_spec (image_get_magic m addr) IH_MAGIC) as [Em|_]; [left | destruct (Z.eqb_spec (fdt_check_header m addr) 0) as [Ef|_]; [right |]];
    cbn [IMAGE_FORMAT_LEGACY IMAGE_FORMAT_FIT IMAGE_FORMAT_INVALID Z.eqb Pos.eqb] in H.
  - unfold get_kernel_legacy in H. cbn [verify set_os] in H. destruct (image_get_kernel m addr (verify i)) as [h n] eqn:Ek.
    destruct (Z.eqb_spec h 0) as [->|Hne]; [injection H as <- <-; done |]. destruct (kernel_header_checked _ _ _ _ _ Ek Hne) as (-> & Hc & Hd & Ha).
    split_and!; [exact Em | exact Hne | exact Hc | exact Hd | exact Ha |].
    destruct (Z.eqb_spec (image_get_type m addr) IH_TYPE_KERNEL); [by left |]. destruct (Z.eqb_spec (image_get_type m addr) IH_TYPE_MULTI); [by right |].
    cbn [mbind option_bind] in H. injection H as <- <-. exfalso. apply Hlen. reflexivity.
  - unfold get_kernel_fit in H. bind_inv H. destruct b; cbn [negb] in H; [| injection H as <- <-; done]. split; [done |]. split; [done |].
    bind_inv H. destruct p as [r i1]. apply get_node_keeps in E0 as [Eo Ev]. cbn [os_ verify set_os] in Eo, Ev.
    destruct r as [[o name]|]; [| injection H as <- <-; by rewrite Eo in Hlen]. destruct (Z.ltb_spec o 0) as [Hlt|Hge]; [injection H as <- <-; by rewrite Eo in Hlen |].
    bind_inv H. destruct b; cbn [negb] in H; [| injection H as <- <-; by rewrite Eo in Hlen]. exists o. split; [done |]. apply kernel_node_checked. by rewrite <- Ev.
  - injection H as <- <-. done.
Qed.


(** C4: a kernel that mkimage made is booted.  An uncompressed Linux kernel
    for this processor that lies in memory as mkimage wrote it, at an address
    other than 0 and other than its load address, is checked, copied to its
    load address, even when the two areas overlap, its area is the one
    reserved in the table of memory blocks, the interrupts are switched off and
    control goes to 0x100: the entry point is read from the header and not
    used. *)
Theorem bootm_boots_legacy gunzip fuel stack w es cmd arg hdr o p :
  env_is (env w) es -> plain_addr arg hdr -> linux_opts o -> Forall byte p /\ p <> [] -> 0 < hdr /\ hdr + 64 + len p < 2 ^ 32 ->
  load (ram w) hdr (length (mkimage o p)) = mkimage o p -> opt_addr o + len p < 2 ^ 32 -> opt_addr o <> hdr ->
  exists w', do_bootm gunzip fuel stack w [cmd; arg] = Some (Jumps 0x100 w') /\
    meq (ram w') (store_list (ram w) (opt_addr o) p) /\ interrupts w' = false /\ ep (images w') = opt_ep o /\
    (forall a, covers (live (reserved (lmb_ (images w')))) a <-> opt_addr o <= a < opt_addr o + len p).
Proof. intros. by apply (boot_legacy gunzip fuel stack w es cmd arg hdr o p). Qed.

(** A tree in memory at [fit] in the format that the FIT code expects, and the
    kernel that its default configuration names. *)
Record fit_in_memory (fuel : nat) (m : mem) (fit : Z) (strings : list (list Z)) (root : node) : Prop := {
  fim_load : load m fit (length (fdt_blob strings root)) = fdt_blob strings root;
  fim_strings : Forall good_chars strings;
  fim_names : node_ok strings root;
  fim_addr : 0 <= fit /\ fit + len (fdt_blob strings root) < 2 ^ 32;
  fim_small : len (fdt_blob strings root) < 2 ^ 31 - 16;
  fim_fuel : len (fdt_blob strings root) < Z.of_nat fuel;
  fim_terminated : all_nodes terminated root;
  fim_description : is_Some (find_prop FIT_DESC_PROP root)
}.

Record default_kernel (v : bool) (root conf kernel : node) (d lv ev : list Z) : Prop := {
  dk_conf : conf_of root None = Some conf;
  dk_kernel : conf_image root conf FIT_KERNEL_PROP = Some kernel;
  dk_ramdisk : find_prop FIT_RAMDISK_PROP conf = None;
  dk_checks : kernel_ok v kernel = true;
  dk_comp : prop_id FIT_COMP_PROP genimg_get_comp_id kernel = Some IH_COMP_NONE;
  dk_os : prop_id FIT_OS_PROP genimg_get_os_id kernel = Some IH_OS_LINUX;
  dk_data : find_prop FIT_DATA_PROP kernel = Some d /\ d <> [];
  dk_load : find_prop FIT_LOAD_PROP kernel = Some lv /\ 4 <= len lv;
  dk_entry : find_prop FIT_ENTRY_PROP kernel = Some ev /\ 4 <= len ev
}.

(** C5: The kernel of a FIT image is booted.  When the blob at an address
    encodes a tree whose default configuration names a Linux kernel for this
    processor, uncompressed and with the digests that its hash nodes say (or
    with [verify] off), and no RAM disk, the data of that kernel is copied to
    its load address, outside the blob, its area is reserved, the interrupts
    are switched off and control goes to 0x100. *)
Theorem bootm_boots_fit gunzip fuel stack w es cmd arg fit strings root conf kernel d lv ev :
  env_is (env w) es -> plain_addr arg fit -> length stack = 64%nat -> fit_in_memory fuel (ram w) fit strings root ->
  default_kernel (verify_on es) root conf kernel d lv ev ->
  let la := be_val (take 4 lv) in
  0 <= la -> la + len d < 2 ^ 32 -> la + len d <= fit \/ fit + len (fdt_blob strings root) <= la ->
  exists w', do_bootm gunzip fuel stack w [cmd; arg] = Some (Jumps 0x100 w') /\
    meq (ram w') (store_list (ram w) la d) /\ interrupts w' = false /\ ep (images w') = be_val (take 4 ev) /\
    (forall a, covers (live (reserved (lmb_ (images w')))) a <-> la <= a < la + len d).
Proof. intros He Ha Hs [] [] la H0 H1 H2. by eapply (boot_fit gunzip fuel stack w es cmd arg fit strings root conf kernel d lv ev). Qed.

(** [iminfo] finds no fault in an image that mkimage made, and none in a tree
    exactly when all its components have their digests. *)
Lemma iminfo_legacy fuel stack m hdr o p : opts_ok o -> Forall byte p -> 0 <= hdr -> hdr + 64 + len p < 2 ^ 32 ->
  load m hdr (length (mkimage o p)) = mkimage o p -> image_info fuel stack m hdr = Some 0.
Proof.
  intros Ho Hp H0 H1 Hl. destruct (mkimage_checks m hdr o p Ho Hp H0 H1 Hl) as (Em & Eh & Ed). unfold image_info, genimg_get_format. rewrite Em. cbn [IMAGE_FORMAT_LEGACY Z.eqb Pos.eqb negb].
  by rewrite Eh, Ed.
Qed.

Lemma iminfo_fit fuel stack m fit strings root : fit_in_memory fuel m fit strings root -> length stack = 64%nat ->
  image_info fuel stack m fit = Some match find_sub (str "images") root with Some n => if forallb hashes_ok (node_subs n) then 0 else 1 | None => 1 end.
Proof.
  intros [] Hs. destruct (fdt_blob_read strings root m fit fim_load0 fim_strings0 fim_names0 fim_addr0 fim_small0 fuel fim_fuel0) as [Hb Hr].
  assert (Ef : genimg_get_format m fit = IMAGE_FORMAT_FIT).
  { unfold genimg_get_format, image_check_magic, image_get_magic. rewrite (blob_header _ _ _ _ Hb).
    assert (E : get32 m fit = FDT_MAGIC) by (pose proof (blob_word strings root m fit fim_load0 fim_small0 0 FDT_MAGIC eq_refl) as H; by rewrite Z.add_0_r in H). by rewrite E. }
  unfold image_info. rewrite Ef. cbn [IMAGE_FORMAT_LEGACY IMAGE_FORMAT_FIT Z.eqb Pos.eqb]. rewrite (check_format_spec _ _ _ _ _ Hb root Hr). cbn [mbind option_bind].
  rewrite (all_hashes_spec _ _ _ _ _ _ Hb Hs root Hr fim_terminated0). destruct (find_sub (str "images") root) as [n|].
  - rewrite bool_decide_eq_true_2 by (split; [done | by eexists]). cbn [negb mbind option_bind]. done.
  - rewrite bool_decide_eq_false_2; [done |]. by intros [_ [? ?]].
Qed.

(** ** Sub-commands *)

Lemma start_argv0 fuel stack w c c' arg rest : bootm_start fuel stack w (c :: arg :: rest) = bootm_start fuel stack w (c' :: arg :: rest).
Proof. reflexivity. Qed.

(** A sub-command other than start is refused, or it adds its bit to the
    state, whatever comes of it, and is refused from then on. *)
Lemma subcommand_order gunzip fuel stack w argv s r : find_sub_state (nth 1 argv []) = Some s -> s <> BOOTM_STATE_START ->
  do_bootm_subcommand gunzip fuel stack w argv = Some r ->
  (r = Ret 1 w /\ s <= state (images w)) \/
  (state (images w) < s /\ exists w', (r = Ret 0 w' \/ (exists rc, r = Ret rc w' /\ rc <> 0) \/ (exists a, r = Jumps a w') \/ (exists i, r = Wild i w')) /\
    state (images w') = Z.lor (state (images w)) s).
Proof.
  intros Ef Hs H. unfold do_bootm_subcommand in H. rewrite Ef in H. rewrite (proj2 (Z.eqb_neq s _) Hs) in H.
  destruct (Z.leb_spec s (state (images w))) as [Hle|Hlt]; [left; by injection H as <- |]. right. split; [done |].
  destruct (s =? BOOTM_STATE_LOADOS).
  - destruct (bootm_load_os _ _ _) as [[m' ret] e]. destruct (truth ret) eqn:Er; injection H as <-; eexists; split; [right; left; eexists; split; [reflexivity | by intros ->] | reflexivity | by left | reflexivity].
  - unfold boot_fn, do_bootm_linux in H. destruct (s =? BOOTM_STATE_OS_GO), (_ =? IH_OS_LINUX); try destruct (_ <? boot_os_size); injection H as <-; eexists; (split; [right; right; eauto | reflexivity]).
Qed.

(** The commands one after the other, as long as they return. *)
Fixpoint run_bootm (gunzip : mem -> Z -> Z -> Z -> Z -> mem * Z * Z) (fuel : nat) (stack : list Z) (w : world) (cmds : list (list (list Z))) : option outcome :=
  match cmds with
  | [] => Some (Ret 0 w)
  | argv :: cmds =>
      r ← do_bootm gunzip fuel stack w argv;
      match r with
      | Ret _ w => run_bootm gunzip fuel stack w cmds
      | r => Some r
      end
  end.

(** The worlds differ in nothing but the state of the sub-commands. *)
Definition same_boot (w1 w2 : world) : Prop := set_images (set_state 0 (images w1)) w1 = set_images (set_state 0 (images w2)) w2.

Definition same_outcome (r1 r2 : outcome) : Prop :=
  match r1, r2 with
  | Ret c1 w1, Ret c2 w2 => c1 = c2 /\ same_boot w1 w2
  | Jumps a1 w1, Jumps a2 w2 => a1 = a2 /\ same_boot w1 w2
  | Wild i1 w1, Wild i2 w2 => i1 = i2 /\ same_boot w1 w2
  | _, _ => False
  end.

Lemma started fuel stack w argv w1 : bootm_start fuel stack w argv = Some (0, w1) -> state (images w1) = BOOTM_STATE_START.
Proof.
  unfold bootm_start. intros H. do 3 bind_inv H. destruct p as [rc i]. injection H as -> <-. cbn [images set_images]. unfold start_image in E1. bind_inv E1. destruct p as [hdr i1].
  destruct (_ =? 0); [done |]. bind_inv E1. destruct p as [ok i2]. destruct (negb ok); [done |]. bind_inv E1. destruct o; [| done]. bind_inv E1. destruct p as [rc i3].
  destruct (truth rc); [done |]. by injection E1 as <-.
Qed.

(** C7: Booting in steps.  When the image that [bootm] would boot is accepted
    and its load returns 0, the three commands [bootm start], [bootm loados]
    and [bootm go] end as [bootm] itself does: control goes to the same
    address, with the same memory, reservations, RAM disk and interrupts. *)
Theorem staged_boot gunzip fuel stack w cmd arg rest w1 m load_end :
  is_subcommand (cmd :: arg :: rest) = false -> bootm_start fuel stack w (cmd :: arg :: rest) = Some (0, w1) ->
  bootm_load_os gunzip (ram w1) (os_ (images w1)) = (m, 0, load_end) ->
  exists r1 r2, do_bootm gunzip fuel stack w (cmd :: arg :: rest) = Some r1 /\
    run_bootm gunzip fuel stack w [cmd :: str "start" :: arg :: rest; [cmd; str "loados"]; [cmd; str "go"]] = Some r2 /\
    same_outcome r1 r2.
Proof.
  intros Hs Hst Hl. pose proof (started _ _ _ _ _ Hst) as Hstate.
  set (w2 := reserve_os load_end (set_ram m (set_images (set_state 3 (images w1)) w1))).
  assert (E1 : do_bootm gunzip fuel stack w (cmd :: str "start" :: arg :: rest) = Some (Ret 0 w1)).
  { unfold do_bootm. change (is_subcommand (cmd :: str "start" :: arg :: rest)) with true. cbv iota. unfold do_bootm_subcommand.
    change (find_sub_state (nth 1 (cmd :: str "start" :: arg :: rest) [])) with (Some BOOTM_STATE_START). cbn [BOOTM_STATE_START Z.eqb Pos.eqb tail].
    by rewrite (start_argv0 fuel stack w _ cmd arg rest), Hst. }
  assert (E2 : do_bootm gunzip fuel stack w1 [cmd; str "loados"] = Some (Ret 0 w2)).
  { unfold do_bootm. change (is_subcommand [cmd; str "loados"]) with true. cbv iota. unfold do_bootm_subcommand.
    change (find_sub_state (nth 1 [cmd; str "loados"] [])) with (Some BOOTM_STATE_LOADOS). rewrite Hstate.
    change (BOOTM_STATE_LOADOS =? BOOTM_STATE_START) with false. change (BOOTM_STATE_LOADOS <=? BOOTM_STATE_START) with false. change (BOOTM_STATE_LOADOS =? BOOTM_STATE_LOADOS) with true. cbv iota zeta.
    cbn [set_images set_state images os_ ram]. rewrite Hl. reflexivity. }
  assert (E3 : do_bootm gunzip fuel stack w2 [cmd; str "go"] = Some (boot_fn 0x80 (set_interrupts false (set_images (set_state 0x83 (images w2)) w2)))) by reflexivity.
  cbn [run_bootm]. rewrite E1. cbn [mbind option_bind]. rewrite E2. cbn [mbind option_bind]. rewrite E3. cbn [mbind option_bind].
  unfold do_bootm. rewrite Hs, Hst. cbn [mbind option_bind truth Z.eqb negb]. unfold boot_image, disable_interrupts. cbn [set_interrupts ram images]. rewrite Hl.
  cbn [BOOTM_ERR_RESET BOOTM_ERR_OVERLAP BOOTM_ERR_UNIMPLEMENTED Z.eqb andb]. unfold w2, boot_fn, do_bootm_linux, reserve_os.
  cbn [set_images set_lmb set_ram set_state set_interrupts images state lmb_ os_].
  destruct (_ =? IH_OS_LINUX); [| destruct (_ <? boot_os_size)]; eexists; eexists; (split; [reflexivity |]); (split; [reflexivity |]); split; reflexivity.
Qed.

(** ** What the commands also do *)

(** The system is started by [bootm cmdline], [bdt] and [prep] too, loaded or
    not, with the interrupts as they are: the code does not look at its flag. *)
Lemma cmdline_starts gunzip fuel stack w cmd : state (images w) < BOOTM_STATE_OS_CMDLINE -> os (os_ (images w)) = IH_OS_LINUX ->
  do_bootm gunzip fuel stack w [cmd; str "cmdline"] = Some (Jumps 0x100 (set_images (set_state (Z.lor (state (images w)) BOOTM_STATE_OS_CMDLINE) (images w)) w)).
Proof.
  intros Hs Ho. unfold do_bootm. change (is_subcommand [cmd; str "cmdline"]) with true. cbv iota. unfold do_bootm_subcommand.
  change (find_sub_state (nth 1 [cmd; str "cmdline"] [])) with (Some BOOTM_STATE_OS_CMDLINE). cbv iota. change (BOOTM_STATE_OS_CMDLINE =? BOOTM_STATE_START) with false. cbv iota.
  rewrite (proj2 (Z.leb_gt _ _)) by done. change (BOOTM_STATE_OS_CMDLINE =? BOOTM_STATE_LOADOS) with false. change (BOOTM_STATE_OS_CMDLINE =? BOOTM_STATE_OS_GO) with false. cbv iota zeta.
  unfold boot_fn. cbn [images set_images set_state os_]. by rewrite Ho.
Qed.

(** [bootm go] with no image found before calls address 0. *)
Lemma go_without_start gunzip fuel stack w cmd : images w = zero_images ->
  exists w', do_bootm gunzip fuel stack w [cmd; str "go"] = Some (Jumps 0 w').
Proof. intros E. destruct w as [m e i la ms irq]. cbn [images] in E. subst i. eexists. reflexivity. Qed.

(** A legacy image at address 0, the default load address, is never taken:
    its header is the null pointer. *)
Lemma boot_at_zero_refused gunzip fuel stack w es cmd : env_is (env w) es -> load_addr w = 0 -> genimg_get_format (ram w) 0 = IMAGE_FORMAT_LEGACY ->
  exists w', do_bootm gunzip fuel stack w [cmd] = Some (Ret 1 w') /\ ram w' = ram w.
Proof.
  intros He Hl Hf. destruct (boot_lmb_spec w es He) as (l & El & _). unfold do_bootm, bootm_start. cbn [is_subcommand]. rewrite (verify_spec _ es He), El. cbn [mbind option_bind].
  unfold start_image, boot_get_kernel, genimg_get_image. cbn [image_arg]. rewrite Hl, Hf. cbn [IMAGE_FORMAT_LEGACY Z.eqb Pos.eqb]. unfold get_kernel_legacy. cbn [verify set_os].
  assert (E0 : (image_get_kernel (ram w) 0 (verify_on es)).1 = 0) by (unfold image_get_kernel; repeat (destruct (_ : bool); [done |]); done).
  destruct (image_get_kernel (ram w) 0 (verify_on es)) as [h n]. cbn [fst] in E0. subst h. cbn [Z.eqb mbind option_bind os_ set_os set_image image_len truth negb]. eexists. by split.
Qed.

(** An operating system behind the end of the table is looked up there. *)
Lemma wild_system flag w : IH_OS_LINUX < os (os_ (images w)) -> boot_fn flag w = Wild (os (os_ (images w))) w.
Proof.
  intros H. unfold boot_fn, boot_os_size. rewrite (proj2 (Z.eqb_neq _ _)), (proj2 (Z.ltb_ge _ _)) by lia. done.
Qed.

(** After a compression that is not implemented the command returns with the
    interrupts off. *)
Lemma interrupts_stay_off gunzip w : comp (os_ (images w)) <> IH_COMP_NONE -> comp (os_ (images w)) <> IH_COMP_GZIP ->
  boot_image gunzip w = Ret 1 (set_interrupts false w).
Proof.
  intros H1 H2. unfold boot_image, disable_interrupts. cbn [set_interrupts ram images]. unfold bootm_load_os. rewrite !(proj2 (Z.eqb_neq _ _)) by done. by destruct w.
Qed.

(** ** Witnesses *)

Definition demo_stack : list Z := replicate 64 0xA5.
Definition demo_bootm : world := mk_world demo_ram demo_store zero_images 0 0x2000000 true.

Lemma demo_bootm_env : env_is (env demo_bootm) default_vars.
Proof. split_and!; [by split_and! | apply demo_array_holds | by_eval]. Qed.

Lemma demo_plain : plain_addr (str "1000") 0x1000.
Proof. split_and!; [reflexivity | by_eval | by_eval]. Qed.

Lemma demo_linux : linux_opts demo_opts.
Proof. split_and!; [apply demo_opts_ok | done..]. Qed.

Lemma demo_payload_ok : Forall byte demo_payload /\ demo_payload <> [].
Proof. split; [bytes_eval | done]. Qed.

Lemma demo_image_loaded : load (ram demo_bootm) 0x1000 (length (mkimage demo_opts demo_payload)) = mkimage demo_opts demo_payload.
Proof. vm_compute. reflexivity. Qed.

Lemma bootm_boots_legacy_witness :
  exists w', do_bootm no_gunzip 10 demo_stack demo_bootm [str "bootm"; str "1000"] = Some (Jumps 0x100 w') /\
    load (ram w') 0x100000 5 = demo_payload /\ interrupts w' = false.
Proof.
  destruct (bootm_boots_legacy no_gunzip 10 demo_stack demo_bootm default_vars (str "bootm") (str "1000") 0x1000 demo_opts demo_payload demo_bootm_env demo_plain demo_linux demo_payload_ok)
    as (w' & E & Hm & Hi & _); [done | exact demo_image_loaded | done | done |].
  exists w'. split_and!; [exact E | | exact Hi]. rewrite Hm. apply load_store_list.
Defined.


Lemma staged_boot_witness :
  exists r1 r2, do_bootm no_gunzip 10 demo_stack demo_bootm [str "bootm"; str "1000"] = Some r1 /\
    run_bootm no_gunzip 10 demo_stack demo_bootm [[str "bootm"; str "start"; str "1000"]; [str "bootm"; str "loados"]; [str "bootm"; str "go"]] = Some r2 /\
    same_outcome r1 r2.
Proof.
  destruct (start_legacy 10 demo_stack demo_bootm default_vars (str "bootm") (str "1000") 0x1000 demo_opts demo_payload demo_bootm_env demo_plain demo_linux demo_payload_ok)
    as (i & Es & Eo & _); [done | exact demo_image_loaded |].
  destruct (load_none_spec no_gunzip demo_ram (legacy_info 0x1000 demo_opts demo_payload)) as (m' & El & _); [unfold Image.blob_ok; cbn; lia | reflexivity |].
  rewrite decide_False in El by (unfold areas_meet; cbn; lia).
  eapply (staged_boot no_gunzip 10 demo_stack demo_bootm (str "bootm") (str "1000") [] (set_images i demo_bootm)); [reflexivity | exact Es |].
  cbn [images set_images ram demo_bootm]. rewrite Eo. exact El.
Defined.

Definition demo_fit_world : world := mk_world (store_list (fun _ => 0) 0x1000 (fdt_blob demo_fit_strings demo_fit)) demo_store zero_images 0 0x2000000 true.

Lemma demo_fit_ok : fit_in_memory 1000 (ram demo_fit_world) 0x1000 demo_fit_strings demo_fit.
Proof.
  split.
  - apply load_store_list.
  - apply demo_strings_ok.
  - names_ok.
  - by vm_compute.
  - by vm_compute.
  - by vm_compute.
  - cbn [all_nodes demo_fit demo_kernel demo_conf fold_right]. split_and!; try done; apply terminated_eval; by vm_compute.
  - by eexists.
Qed.

Lemma demo_default : default_kernel (verify_on default_vars) demo_fit demo_conf demo_kernel demo_payload (be_bytes 4 0x100000) (be_bytes 4 0x100100).
Proof. split; try (split; [by vm_compute | by vm_compute]); by vm_compute. Qed.

Lemma bootm_boots_fit_witness :
  exists w', do_bootm no_gunzip 1000 demo_stack demo_fit_world [str "bootm"; str "1000"] = Some (Jumps 0x100 w') /\ load (ram w') 0x100000 5 = demo_payload.
Proof.
  destruct (bootm_boots_fit no_gunzip 1000 demo_stack demo_fit_world default_vars (str "bootm") (str "1000") 0x1000 demo_fit_strings demo_fit demo_conf demo_kernel
    demo_payload (be_bytes 4 0x100000) (be_bytes 4 0x100100) demo_bootm_env demo_plain eq_refl demo_fit_ok demo_default) as (w' & E & Hm & _); [by vm_compute | by vm_compute | right; by vm_compute |].
  exists w'. split; [exact E |]. rewrite Hm. apply load_store_list.
Defined.
