(* ===== verification/Script.v ===== *)
(** * Scripts: common/cmd_autoscript.c

    [autoscr] checks a script image, in the legacy or the FIT format, and
    gives its text to the shell.  The shell is not modelled: the result is the
    text it gets, a C string, or the code that the command returns.  [malloc]
    is a parameter that says whether a block of a size can be had.

    The theorem: a script that mkimage made is run as it was written, and no
    script is run that fails a check. *)

From S2P Require Import Prelude Memory Strings Vsprintf Crc Lmb Env Image Fdt Hash Fit Command Bootm.

Local Open Scope Z_scope.

Definition IH_TYPE_SCRIPT : Z := 6.
Definition CONFIG_SYS_LOAD_ADDR : Z := 0.

Section script.
Context (malloc_ok : Z -> bool) (fuel : nat) (stack : list Z).

(** [while ( *data++)], on words. *)
Fixpoint skip_sizes (f : nat) (m : mem) (data : Z) : option Z :=
  match f with
  | O => None
  | S f => if get32 m data =? 0 then Some (data + 4) else skip_sizes f m (data + 4)
  end.

(** Where the text is and how long, or none for [return 1]. *)
Definition legacy_script (m : mem) (hdr : Z) (verify : bool) : option (option (Z * Z)) :=
  if negb (image_check_magic m hdr) then Some None
  else if negb (image_check_hcrc m hdr) then Some None
  else if verify && negb (image_check_dcrc m hdr) then Some None
  else if negb (image_check_type m hdr IH_TYPE_SCRIPT) then Some None
  else
    let data := image_get_data hdr in
    let n := get32 m data in
    if n =? 0 then Some None
    else
      data ← skip_sizes fuel m data;
      Some (Some (data, n)).

Definition fit_script (m : mem) (fit_hdr : Z) (fit_uname : option (list Z)) (verify : bool) : option (option (Z * Z)) :=
  match fit_uname with
  | None => Some None
  | Some name =>
      ok ← fit_check_format fuel m fit_hdr;
      if negb ok then Some None
      else
        noffset ← fit_image_get_node fuel m fit_hdr name;
        if noffset <? 0 then Some None
        else
          ok ← fit_image_check_type fuel m fit_hdr noffset IH_TYPE_SCRIPT;
          if negb ok then Some None
          else
            ok ← (if verify then fit_image_check_hashes fuel stack m fit_hdr noffset else Some true);
            if negb ok then Some None else fit_image_get_data fuel m fit_hdr noffset
  end.

(** The code, or the text that the shell gets: [len] bytes and a NUL. *)
Definition autoscript (m : mem) (e : env_store) (addr : Z) (fit_uname : option (list Z)) : option (Z + list Z) :=
  verify ← getenv_yesno e (str "verify");
  let format := genimg_get_format m addr in
  r ← (if format =? IMAGE_FORMAT_LEGACY then legacy_script m addr verify
       else if format =? IMAGE_FORMAT_FIT then fit_script m addr fit_uname verify
       else Some None);
  Some (match r with
        | None => inl 1
        | Some (data, n) => if malloc_ok (u32 (n + 1)) then inr (c_str (load m data (Z.to_nat n) ++ [0])) else inl 1
        end).

Definition do_autoscript (w : world) (argv : list (list Z)) : option (Z + list Z) :=
  let '(addr, fit_uname) :=
    match argv with
    | _ :: arg :: _ =>
        match fit_parse_subimage arg (load_addr w) with
        | Some (addr, name) => (addr, Some name)
        | None => ((simple_strtoul arg 16).1, None)
        end
    | _ => (CONFIG_SYS_LOAD_ADDR, None)
    end in
  autoscript (ram w) (env w) addr fit_uname.
End script.

(** A script for mkimage. *)
Definition script_opts (o : mkimage_opts) : Prop := opts_ok o /\ opt_type o = IH_TYPE_SCRIPT.

Lemma c_str_whole s : good_chars s -> c_str (s ++ [0]) = s.
Proof.
  unfold c_str, good_chars. induction 1 as [|c s Hc _ IH]; [done |]. cbn [app take_while]. rewrite (proj2 (Z.eqb_neq c 0) Hc). cbn [negb]. by rewrite IH.
Qed.

Local Opaque crc32 crc32_wd.

(** What mkimage writes for one file: its size, a zero, the file. *)
Lemma one_file f : multi_payload [f] = be_bytes 4 (len f) ++ be_bytes 4 0 ++ f.
Proof. unfold multi_payload, copy_files, copy_file. cbn [map concat andb]. by rewrite !app_nil_r. Qed.

Lemma script_words m hdr f : load m (hdr + 64) (length (multi_payload [f])) = multi_payload [f] -> len f < 2 ^ 32 ->
  get32 m (hdr + 64) = len f /\ get32 m (hdr + 64 + 4) = 0 /\ load m (hdr + 64 + 4 + 4) (length f) = f.
Proof.
  intros Hl Hf. rewrite one_file in Hl. assert (HL : length (be_bytes 4 (len f) ++ be_bytes 4 0 ++ f) = (8 + length f)%nat) by (rewrite !length_app, !be_bytes_length; lia).
  split_and!.
  - pose proof (load_sub m (hdr + 64) _ 0 4 Hl ltac:(lia)) as E. rewrite Z.add_0_r in E. unfold get32. rewrite E. change (take 4 (drop 0 (be_bytes 4 (len f) ++ be_bytes 4 0 ++ f))) with (be_bytes 4 (len f)).
    apply get32_bytes. lia.
  - pose proof (load_sub m (hdr + 64) _ 4 4 Hl ltac:(lia)) as E. unfold get32. change 4 with (Z.of_nat 4) at 1. rewrite E. reflexivity.
  - pose proof (load_sub m (hdr + 64) _ 8 (length f) Hl ltac:(lia)) as E. replace (hdr + 64 + 4 + 4) with (hdr + 64 + Z.of_nat 8) by lia. rewrite E.
    change (drop 8 (be_bytes 4 (len f) ++ be_bytes 4 0 ++ f)) with f. apply firstn_all.
Qed.

(** C18: a script that mkimage made is run as it was written.  When the image
    of a script lies in memory unchanged, [autoscr] gives the shell exactly
    the characters of the file; when the checksum of the header, or with
    [verify] on that of the data, does not hold, or the image is of another
    type, the command returns 1 and nothing is run. *)
Theorem autoscript_runs malloc_ok fuel stack m e es addr :
  env_is e es -> image_check_magic m addr = true ->
  (forall o f, script_opts o -> good_chars f -> Forall byte f -> f <> [] -> 0 <= addr -> addr + 64 + 8 + len f + 1 < 2 ^ 32 ->
     load m addr (length (mkimage o (multi_payload [f]))) = mkimage o (multi_payload [f]) -> malloc_ok (len f + 1) = true -> (1 < fuel)%nat ->
     autoscript malloc_ok fuel stack m e addr None = Some (inr f)) /\
  (image_check_hcrc m addr = false \/ (verify_on es = true /\ image_check_dcrc m addr = false) \/ image_get_type m addr <> IH_TYPE_SCRIPT ->
   autoscript malloc_ok fuel stack m e addr None = Some (inl 1)).
Proof.
  intros He Em. unfold autoscript. rewrite (verify_spec e es He). cbn [mbind option_bind]. unfold genimg_get_format. rewrite Em. cbn [IMAGE_FORMAT_LEGACY Z.eqb Pos.eqb].
  unfold legacy_script, image_check_type. rewrite Em. cbn [negb]. split.
  - intros o f [Ho Ht] Hg Hb Hne H0 H1 Hl Hm Hf. set (p := multi_payload [f]) in *.
    assert (Hlp : len p = 8 + len f) by (unfold p; rewrite one_file, !length_app, !be_bytes_length; lia).
    assert (Hpb : Forall byte p) by (unfold p; rewrite one_file; repeat (apply Forall_app; split); [apply be_bytes_bytes.. | done]).
    destruct (mkimage_checks m addr o p Ho Hpb H0 ltac:(lia) Hl) as (_ & Eh & Ed). destruct (mkimage_split m addr o p Ho Hl) as [L1 L2].
    assert (Hd : 0 <= crc32 0 p (len p) < 2 ^ 32) by (apply crc32_range; [done | lia]).
    assert (Hc : 0 <= crc32 0 (raw_header o (len p) (crc32 0 p (len p)) 0) 64 < 2 ^ 32) by (apply crc32_range; [by apply raw_header_bytes | rewrite raw_header_length by done; lia]).
    destruct (header_fields m addr o (len p) _ _ Ho ltac:(lia) Hd Hc L1) as (_ & _ & _ & _ & _ & _ & _ & _ & _ & Et & _).
    destruct (script_words m addr f L2 ltac:(lia)) as (E1 & E2 & E3).
    rewrite Eh, Ed, andb_false_r, Et, Ht. cbn [negb IH_TYPE_SCRIPT Z.eqb Pos.eqb]. unfold image_get_data, image_get_header_size. rewrite (wrap_small 32 (addr + 64)), E1 by lia.
    assert (Hlf : len f <> 0) by (intros E0; apply Hne, nil_length_inv; lia). rewrite (proj2 (Z.eqb_neq (len f) 0) Hlf).
    destruct fuel as [|[|k]]; [lia | lia |]. cbn [skip_sizes]. rewrite E1, (proj2 (Z.eqb_neq (len f) 0) Hlf), E2. cbn [Z.eqb mbind option_bind].
    rewrite (wrap_small 32 (len f + 1)), Hm, Nat2Z.id, E3 by lia. by rewrite c_str_whole.
  - intros Hbad. destruct (image_check_hcrc m addr); [cbn [negb] | done]. destruct (verify_on es && negb (image_check_dcrc m addr)) eqn:Ev; [done |].
    destruct Hbad as [? | [[Hv Hdc] | Hty]]; [done | by rewrite Hv, Hdc in Ev |]. rewrite (proj2 (Z.eqb_neq _ _) Hty). done.
Qed.

(** ** Witness *)

Definition demo_script : list Z := str "echo hi; bootm".
Definition demo_script_opts : mkimage_opts := mk_opts 0x4a000000 0 0 IH_OS_LINUX IH_ARCH_OR1K IH_TYPE_SCRIPT IH_COMP_NONE (str "script").
Definition demo_script_mem : mem := store_list (fun _ => 0) 0x1000 (mkimage demo_script_opts (multi_payload [demo_script])).

Lemma autoscript_runs_witness :
  autoscript (fun _ => true) 10 demo_stack demo_script_mem demo_store 0x1000 None = Some (inr demo_script) /\
  autoscript (fun _ => true) 10 demo_stack demo_ram demo_store 0x1000 None = Some (inl 1).
Proof.
  split.
  - apply (autoscript_runs (fun _ => true) 10 demo_stack demo_script_mem demo_store default_vars 0x1000 demo_bootm_env ltac:(by vm_compute)) with (o := demo_script_opts);
      [split; [unfold opts_ok; split_and!; try (by vm_compute); bytes_eval | done] | by apply good_ascii | bytes_eval | done | lia | by vm_compute | apply load_store_list | done | lia].
  - apply (autoscript_runs (fun _ => true) 10 demo_stack demo_ram demo_store default_vars 0x1000 demo_bootm_env ltac:(by vm_compute)). right. right. by vm_compute.
Defined.
